(* ===== verification/_CoqProject ===== *)
-Q . S2P
Prelude.v
Decimals.v
PyText.v
PyTime.v
PyTimeFacts.v
DecText.v
Ledger.v
Fx.v
PaymentSM.v
Recon.v
Csv.v
CsvFacts.v
Sgqr.v
PyVal.v
JsonFacts.v
Webhooks.v
Schema.v
Migrations.v
Store.v
Columns.v
Rows.v
Session.v
Repos.v
SupportRepos.v
LedgerService.v
PaymentService.v
Atomicity.v
Invariant.v
Commits.v
Transactions.v
PaymentRuns.v
PaymentSafety.v
InitiationSafety.v
Book.v
Alone.v
Ports.v
AloneTransitions.v
Settlement.v
Posting.v
Backoff.v
Dispatch.v
Effects.v
Retries.v
Progress.v
Delivery.v
Starvation.v
Outbox.v
Orphans.v
Initiating.v
ReconService.v
Reconciling.v
Messages.v
Responses.v
Api.v
Refusals.v
KeyedRequests.v
Xml.v
Iso20022.v
IsoRuns.v
Reads.v
SystemSafety.v
Operations.v
App.v
Seed.v
FxMigration.v
Processes.v
System.v
PoolWait.v
Scripts.v
Scheduler.v
Concrete.v
Demo.v
DemoRuns.v
Deadlock.v
DemoScripts.v
DemoWebhooks.v
