(* ===== verification/Prelude.v ===== *)
(** A verification of the Instant Payment Ledger & API.

    The program is a FastAPI service on PostgreSQL: accounts, a double-entry journal, payments
    with a lifecycle, FX conversion, idempotent initiation, a webhook outbox with its worker,
    settlement-file reconciliation, SGQR codes and ISO 20022 messages. This development models
    its Python code from the domain functions up to the HTTP handlers, runs the handlers as
    concurrent sessions on one database, and proves what they promise. Paths below are
    relative to src/.

    * How the program is modelled

    Pure functions are functions. Code that raises returns a [result] (this file).
    Asynchronous code that talks to the database, reads the clock, draws identifiers, sleeps
    or sends requests is a [Prog] (Session): a tree of effects with their continuations.
    [every_run] gives a program all its executions; two instances are used throughout. [runs]
    lets other sessions commit anything the rely condition allows between any two statements,
    and lets the database fail any statement or commit; [alone] lets nobody else in on a
    database that stays up, and says how an operation ends rather than only what is safe. Each
    SQL statement is a function from the view of its session (the committed database and the
    session's own writes) to a result and the rows it writes (Repos, SupportRepos); sessions
    are READ COMMITTED, a statement that would write a row another session has written waits,
    and a commit applies the session's log (Session, System). What the database driver, the
    hash functions and the scan order do is the class [Platform] of Store, with the documented
    laws the program relies on; [concrete_platform] (Concrete) satisfies them, and scenarios
    run on it; its sets iterate in CPython's order.

    * Files and the code they model

    Language and standard library: Prelude (results, loops, tactics), Decimals and DecText
    (decimal.Decimal in the default context, its text in both directions), PyText (str),
    PyTime and PyTimeFacts (datetime), PyVal and JsonFacts (the dicts stored as JSON and their
    canonical text), Xml (element trees and the ElementPath searches the parser uses).

    Domain, pure: Ledger (domain/ledger: entities, validate_journal_entry), Fx (domain/fx),
    PaymentSM (domain/payments: entities, state machine), Recon (domain/reconciliation:
    match), Webhooks (domain/webhooks: entities), Backoff (domain/concurrency.py,
    domain/webhooks/retry_policy.py, in binary64).

    Infrastructure: Store, Rows and Session (infra/db: models, session, unit of work), Columns
    (which texts a character column takes), Repos and SupportRepos (infra/db/repositories),
    Ports (the Protocols of domain/*/repository.py and domain/unit_of_work.py as classes with
    laws, and the adapters that keep them), Sgqr (infra/qr), Csv (infra/reconciliation),
    Iso20022 (infra/iso20022 and api/v1/iso20022.py), Schema and Migrations
    (infra/db/models.py as declared tables, migrations/versions), Seed and FxMigration (the
    rows the last revision inserts, and those its downgrade takes away).

    Services: LedgerService (domain/ledger/services.py), PaymentService
    (domain/payments/services.py, domain/webhooks/services.py), Dispatch
    (domain/webhooks/dispatch.py, infra/webhooks/http_sender.py, the job of
    workers/scheduler.py), ReconService (domain/reconciliation/services.py), Messages (the
    texts of the exceptions, wherever src/app defines one), Responses (api/schemas), Api
    (api/v1, api/deps.py, and [_run] of workers/reconciliation_job.py).

    Composition: Operations (everything a process can be asked to do: 18 requests, the
    worker's cycle and the reconciliation job), System (operations as threads of a pool,
    [pool_step]), PoolWait (the same threads on the bounded pool of connections, with its
    timeout), App (config.py, the globals of infra/db/session.py, the routing table of
    main.py, the scheduled job), Processes (migrations/env.py and the main of
    workers/scheduler.py, as scripts of library calls), Scripts
    (scripts/prove_idempotency.py), Book (the abstract ledger a user observes). Scheduler
    plays a given schedule of a pool step by step and is sound for [pool_step]; Demo,
    DemoRuns, DemoScripts and DemoWebhooks run scenarios to reachable states, where the
    theorems about whole operations are applied.

    * What the theorems show

    Safety among arbitrary other sessions. Invariant states what every committed database
    satisfies (entries balance, a settled payment has exactly one posting and it is the one
    booked, a reversal undoes it, histories are lifecycles, identifiers and account numbers
    are unique); Commits, Transactions, PaymentRuns, PaymentSafety, InitiationSafety and
    SystemSafety, with Reads for the endpoints that only read, show that every operation keeps
    it, [LineBuilder] being the contract between the transition and its line builders. From
    these: [pool_safe], [pool_refines_book], [money_conserved], [key_claimed_once],
    [balance_correct], [transitions_atomic], [idempotent_initiation_correct],
    [initiation_atomic], [proof_script_passes]. Atomicity supplies the shape argument that a
    program commits at most once, and exactly when it succeeds.

    Progress among other sessions. Retries, with Effects, bounds every optimistic-lock loop
    and its pauses; Progress shows that a loop repeats an attempt only because another session
    has committed a higher version of a row, so that some session always gets on
    ([transitions_lock_free]). Deadlock plays the schedule on which two settlements wait for
    each other ([settlements_can_deadlock]), PoolWait the requests that hold all connections
    and wait for more until the pool's timeout fails one ([ingestion_exhausts_the_pool]), and
    Starvation the deliveries that keep all others from being sent
    ([inactive_deliveries_starve]); Outbox bounds how often any number of worker cycles sends
    each delivery ([outbox_is_bounded]).

    Liveness and exact effects, alone. Alone, AloneTransitions, Settlement, Posting,
    Initiating, Delivery, Reconciling and IsoRuns run operations to their end: settling,
    reversing, authorising and failing succeed at the first attempt whenever their conditions
    hold and commit exactly the rows they should; creation happens once per key, replays for
    the same content and refuses any other; one delivery attempt and one dispatch cycle; a
    reconciliation run; the ISO 20022 endpoints. What a delivery should send and become, which
    payments settled in a window, which break a reference deserves and when two bodies hold
    the same are stated on their own ([signed_request], [attempted], [settled_between],
    [deserved], [same_json]), not with the code's definitions.

    Errors. Refusals (404 and 409 of the transition endpoints), Orphans and KeyedRequests (a
    key left in progress by an ordinary failure, and what POST /payments answers then and ever
    after), Processes (which resources the scripts release whichever call raises), CsvFacts
    (which settlement files are refused, and which escape), Sgqr (which payloads cannot be
    built; [parse_tlv] ends without a minus sign in the payload, and not with one).

    Functions against their specification: validate_journal_entry, convert_amount, match, the
    CRC, the lifecycle; round trips of SGQR payloads, settlement files, pacs.008 trees and the
    rows of the FX revision ([fx_migration_rows]); and [honest_file_reconciles] from a file's
    text to the report; the request hash is that of the body's content
    ([request_hash_identifies_body]). Migrations and models agree ([migrations_build_models]);
    every request is routed to its handler ([requests_reach_their_handlers]).

    * Bounds and fuel

    Columns are bounded as declared: [varchar n], NUMERIC(18,2) through the platform's
    coercion, INTEGER by [int4_max]; the invariant keeps amounts within them. Attempts of the
    retry loops are at most 1024 where the back-off is computed (2 ** attempt as a float
    overflows beyond); the code passes 5 and 8. parse_tlv takes fuel: its length is enough on
    every payload without a minus sign, and no fuel is on one with. The path of the migrations
    takes one step of fuel per file. A csv field may have 131072 characters, the reader's
    limit.

    * Not modelled

    Text is the Latin-1 repertoire (code points up to 255): a UTF-8 body that decodes beyond
    it is outside the model, and so are the capitals of two of its letters. The detail of an
    error response is modelled where the program writes the text; where it passes on the text
    of a library's exception (lxml, decimal, datetime, the validator) the model answers with
    the status and an unknown detail. Logging. lxml's parser, serializer and character check,
    the QR image renderer, hash functions and the network are parameters. A commit that fails
    is rolled back: one that the server carries out although the connection is lost before it
    answers is outside the model. Waiting for a connection of the pool, and its timeout, are
    steps of PoolWait only: everywhere else a connection is there. What only wires libraries
    together is left out: the asyncio loop, APScheduler's trigger, argparse, reading the
    settings from the environment, the static files, what Alembic's runner does inside the
    call env.py makes on it, and the timing and the tally of status codes that the proof
    script prints. Timestamps the program writes and never compares are not columns of the
    model; a time zone conversion of a naive settled_at is the driver's. The load test, the
    tests and the user interface are not part of the service. *)
From Stdlib Require Export ZArith Lia Ascii String.
From stdpp Require Export base tactics numbers list strings gmap fin_maps sorting.

(** * Results of fallible code *)

(** A Python call either returns a value or raises: [Ok] and [Err]. *)
Inductive result (E A : Type) : Type :=
| Ok (a : A)
| Err (e : E).
Arguments Ok {E A} _.
Arguments Err {E A} _.

#[export] Instance result_ret {E} : MRet (result E) := fun A a => Ok a.
#[export] Instance result_bind {E} : MBind (result E) :=
  fun A B f m => match m with Ok a => f a | Err e => Err e end.
#[export] Instance result_fmap {E} : FMap (result E) :=
  fun A B f m => match m with Ok a => Ok (f a) | Err e => Err e end.

#[export] Instance result_eq_dec {E A} `{EqDecision E, EqDecision A} : EqDecision (result E A).
Proof. solve_decision. Defined.

Lemma result_bind_ok {E A B} (a : A) (f : A -> result E B) : Ok a ≫= f = f a.
Proof. done. Qed.
Lemma result_bind_err {E A B} (e : E) (f : A -> result E B) : Err e ≫= f = Err e.
Proof. done. Qed.

Lemma result_bind_ok_inv {E A B} (m : result E A) (f : A -> result E B) r :
  m ≫= f = Ok r -> exists a, m = Ok a /\ f a = Ok r.
Proof. destruct m as [a|e]; [|done]. intros H. by exists a. Qed.

Definition is_ok {E A} (r : result E A) : bool :=
  match r with Ok _ => true | Err _ => false end.

Definition map_err {E F A} (f : E -> F) (r : result E A) : result F A :=
  match r with Ok a => Ok a | Err e => Err (f e) end.

(** [if c then raise e], then go on. *)
Definition raise_if {E} (c : bool) (e : E) : result E unit :=
  if c then Err e else Ok tt.

(** The value of an operation that may fail, or the exception [e]. *)
Definition or_raise {E A} (o : option A) (e : E) : result E A :=
  match o with Some a => Ok a | None => Err e end.

(** A [for] loop whose body may raise: stops at the first exception. *)
Fixpoint for_each {E A} (f : A -> result E unit) (l : list A) : result E unit :=
  match l with
  | [] => Ok tt
  | x :: l' => match f x with Ok _ => for_each f l' | Err e => Err e end
  end.

(** A loop that threads an accumulator through bodies that may raise. *)
Fixpoint fold_res {E A S} (f : S -> A -> result E S) (s : S) (l : list A) : result E S :=
  match l with
  | [] => Ok s
  | x :: l' => match f s x with Ok s' => fold_res f s' l' | Err e => Err e end
  end.

(** Identifiers: a [uuid.UUID] is a 128-bit integer. *)
Abbreviation UUID := N (only parsing).

(** * Automation *)

Create HintDb ledger discriminated.
Create Rewrite HintDb ledger_rw.

(** Case analysis on every [match]/[if] scrutinee of the goal or a hypothesis, keeping
    the equations. *)
Ltac case_all :=
  repeat match goal with
  | |- context [match ?x with _ => _ end] => destruct x eqn:?; simplify_eq/=
  | H : context [match ?x with _ => _ end] |- _ => destruct x eqn:?; simplify_eq/=
  end.

(** Turns boolean comparisons in the context into propositions. *)
Ltac to_prop :=
  repeat match goal with
  | H : (_ && _)%bool = true |- _ => apply andb_prop in H as [? ?]
  | H : (_ || _)%bool = false |- _ => apply orb_false_elim in H as [? ?]
  | H : negb _ = true |- _ => apply negb_true_iff in H
  | H : negb _ = false |- _ => apply negb_false_iff in H
  | H : bool_decide _ = true |- _ => apply bool_decide_eq_true in H
  | H : bool_decide _ = false |- _ => apply bool_decide_eq_false in H
  | H : (_ =? _)%Z = true |- _ => apply Z.eqb_eq in H
  | H : (_ =? _)%Z = false |- _ => apply Z.eqb_neq in H
  | H : (_ <=? _)%Z = true |- _ => apply Z.leb_le in H
  | H : (_ <=? _)%Z = false |- _ => apply Z.leb_gt in H
  | H : (_ <? _)%Z = true |- _ => apply Z.ltb_lt in H
  | H : (_ <? _)%Z = false |- _ => apply Z.ltb_ge in H
  | H : (_ =? _)%N = true |- _ => apply N.eqb_eq in H
  | H : (_ =? _)%N = false |- _ => apply N.eqb_neq in H
  end.

(** * Lemmas the components share *)

Lemma for_each_ok {E A} (f : A -> result E unit) l :
  for_each f l = Ok tt <-> Forall (fun x => f x = Ok tt) l.
Proof.
  induction l as [|x l IH]; simpl; [by split|].
  rewrite Forall_cons, <- IH. destruct (f x) as [[]|e]; [tauto|].
  split; [done|]. by intros [? _].
Qed.

Lemma for_each_err {E A} (f : A -> result E unit) l e :
  for_each f l = Err e <->
  exists l1 x l2, l = l1 ++ x :: l2 /\ Forall (fun y => f y = Ok tt) l1 /\ f x = Err e.
Proof.
  induction l as [|x l IH]; simpl.
  { split; [done|]. by intros ([] & ? & ? & ? & _). }
  destruct (f x) as [[]|e'] eqn:Hx.
  - rewrite IH. split.
    + intros (l1 & y & l2 & -> & Hl1 & Hy). exists (x :: l1), y, l2. by rewrite Forall_cons.
    + intros ([|z l1] & y & l2 & [= -> ->] & Hl1 & Hy); [congruence|].
      apply Forall_cons in Hl1 as [_ ?]. by exists l1, y, l2.
  - split.
    + intros [= ->]. exists [], x, l. by rewrite Forall_nil.
    + intros ([|z l1] & y & l2 & [= -> ->] & Hl1 & Hy); [congruence|].
      apply Forall_cons in Hl1 as [? _]. congruence.
Qed.

(** Every element of a successful [mapM]. *)
Lemma mapM_ok {E A B} (f : A -> result E B) l k :
  mapM f l = Ok k -> Forall2 (fun x y => f x = Ok y) l k.
Proof.
  revert k. induction l as [|x l IH]; simpl; intros k.
  - intros [= <-]. constructor.
  - destruct (f x) as [y|] eqn:Hy; [rewrite result_bind_ok|done].
    destruct (mapM f l) as [k'|]; [rewrite result_bind_ok|done].
    intros [= <-]. constructor; auto.
Qed.

(** Sum of a list of integers. *)
Definition sumZ (l : list Z) : Z := foldr Z.add 0%Z l.

Lemma sumZ_app l1 l2 : sumZ (l1 ++ l2) = (sumZ l1 + sumZ l2)%Z.
Proof. induction l1 as [|x l1 IH]; simpl; [done|]. rewrite IH. lia. Qed.

Lemma sumZ_perm l1 l2 : l1 ≡ₚ l2 -> sumZ l1 = sumZ l2.
Proof. induction 1; simpl; lia. Qed.

Lemma sumZ_bound {A} (f : A -> Z) l B :
  Forall (fun x => (Z.abs (f x) <= B)%Z) l ->
  (Z.abs (sumZ (f <$> l)) <= Z.of_nat (length l) * B)%Z.
Proof. induction 1; csimpl; lia. Qed.

(** Filtering a list that all or none of whose elements satisfy the condition. *)
Lemma filter_none {A} (P : A -> Prop) `{forall x, Decision (P x)} l :
  Forall (fun x => ~ P x) l -> filter P l = [].
Proof. induction 1; [done|]. by rewrite filter_cons_False. Qed.

Lemma filter_every {A} (P : A -> Prop) `{forall x, Decision (P x)} l :
  Forall P l -> filter P l = l.
Proof. induction 1; [done|]. rewrite filter_cons_True by done. by f_equal. Qed.

Lemma filter_same {A} (P Q : A -> Prop) `{forall x, Decision (P x), forall x, Decision (Q x)} l :
  Forall (fun x => P x <-> Q x) l -> filter P l = filter Q l.
Proof.
  induction 1 as [|x l Hx _ IH]; [done|]. rewrite !filter_cons.
  destruct (decide (P x)), (decide (Q x)); rewrite ?IH; done || tauto.
Qed.

#[export] Hint Rewrite @sumZ_app @result_bind_ok @result_bind_err : ledger_rw.
