(* ===== verification/Decimals.v ===== *)
(** Decimals: the part of Python's [decimal] module the program computes with.

    [Decimal] values, the default context (28 significant digits, ROUND_HALF_EVEN,
    InvalidOperation and Overflow trapped), and the operations the sources use: unary minus, [+], [*],
    [==], [!= 0], [<= 0], [quantize] and [str].  A finite value is
    (-1)^neg * coef * 10^exp, exactly as the library stores it. *)
From S2P Require Import Prelude.

#[local] Open Scope Z_scope.

(** The signals that are trapped and so surface as exceptions. *)
Inductive Signal := InvalidOperation | Overflow.

Inductive Decimal :=
| Fin (neg : bool) (coef : N) (exp : Z)
| Inf (neg : bool)
| NaN (signaling : bool).

#[export] Instance Signal_eq_dec : EqDecision Signal.
Proof. solve_decision. Defined.
#[export] Instance Decimal_eq_dec : EqDecision Decimal.
Proof. solve_decision. Defined.

Definition dresult := result Signal Decimal.

(** * The default context *)
Definition prec : Z := 28.
Definition Emax : Z := 999999.
Definition Etiny : Z := -1000026.
Definition Etop : Z := 999972.

(** * Decimal digits of a coefficient *)

(** Least significant digit first, with fuel; [digits_rev] gives enough. *)
Fixpoint digits_loop (fuel : nat) (c : N) : list N :=
  match fuel with
  | O => []
  | S f => if (c <? 10)%N then [c] else (c mod 10)%N :: digits_loop f (c / 10)%N
  end.
Definition digits_rev (c : N) : list N := digits_loop (S (N.size_nat c)) c.

(** [len(self._int)]: the number of digits, one for zero. *)
Definition ndigits (c : N) : Z := Z.of_nat (length (digits_rev c)).

(** * Rounding *)

(** [c / 10^k] rounded to the nearest integer, ties to the even neighbour. *)
Definition shift_half_even (c : N) (k : Z) : N :=
  let p := (10 ^ Z.to_N k)%N in
  let q := (c / p)%N in
  let r := (c mod p)%N in
  match (2 * r ?= p)%N with
  | Lt => q
  | Gt => (q + 1)%N
  | Eq => if N.even q then q else (q + 1)%N
  end.

(** The same with ties away from zero (ROUND_HALF_UP). *)
Definition shift_half_up (c : N) (k : Z) : N :=
  let p := (10 ^ Z.to_N k)%N in
  let q := (c / p)%N in
  let r := (c mod p)%N in
  if (p <=? 2 * r)%N then (q + 1)%N else q.

(** [_fix]: rounds an exact result to the context. *)
Definition fix_dec (s : bool) (c : N) (e : Z) : dresult :=
  if (c =? 0)%N then Ok (Fin s 0 (Z.min (Z.max e Etiny) Emax))
  else
    let exp_min := ndigits c + e - prec in
    if Etop <? exp_min then Err Overflow
    else
      let exp_min := Z.max exp_min Etiny in
      if e <? exp_min then
        let c' := shift_half_even c (exp_min - e) in
        let '(c'', e'') :=
          if prec <? ndigits c' then ((c' / 10)%N, exp_min + 1) else (c', exp_min) in
        if Etop <? e'' then Err Overflow else Ok (Fin s c'' e'')
      else Ok (Fin s c e).

(** * Operations *)

(** The signed coefficient. *)
Definition sval (s : bool) (c : N) : Z := if s then - Z.of_N c else Z.of_N c.

Definition dec_neg (d : Decimal) : dresult :=
  match d with
  | Fin s c e => fix_dec (if (c =? 0)%N then false else negb s) c e
  | Inf s => Ok (Inf (negb s))
  | NaN true => Err InvalidOperation
  | NaN false => Ok d
  end.

(** The exact sum at the smaller exponent, then rounded.  A zero sum is negative only
    when both operands are. *)
Definition dec_add (a b : Decimal) : dresult :=
  match a, b with
  | NaN true, _ | _, NaN true => Err InvalidOperation
  | NaN false, _ | _, NaN false => Ok (NaN false)
  | Inf s1, Inf s2 => if Bool.eqb s1 s2 then Ok a else Err InvalidOperation
  | Inf _, Fin _ _ _ => Ok a
  | Fin _ _ _, Inf _ => Ok b
  | Fin s1 c1 e1, Fin s2 c2 e2 =>
      let e := Z.min e1 e2 in
      let v := sval s1 c1 * 10 ^ (e1 - e) + sval s2 c2 * 10 ^ (e2 - e) in
      let zero_sign := (c1 =? 0)%N && (c2 =? 0)%N && s1 && s2 in
      fix_dec (if v =? 0 then zero_sign else v <? 0) (Z.to_N (Z.abs v)) e
  end.

Definition dec_mul (a b : Decimal) : dresult :=
  match a, b with
  | NaN true, _ | _, NaN true => Err InvalidOperation
  | NaN false, _ | _, NaN false => Ok (NaN false)
  | Inf s1, Inf s2 => Ok (Inf (xorb s1 s2))
  | Inf s1, Fin s2 c2 _ => if (c2 =? 0)%N then Err InvalidOperation else Ok (Inf (xorb s1 s2))
  | Fin s1 c1 _, Inf s2 => if (c1 =? 0)%N then Err InvalidOperation else Ok (Inf (xorb s1 s2))
  | Fin s1 c1 e1, Fin s2 c2 e2 => fix_dec (xorb s1 s2) (c1 * c2)%N (e1 + e2)
  end.

(** [a == b]: quiet NaNs compare unequal, signalling NaNs raise. *)
Definition dec_eqb (a b : Decimal) : result Signal bool :=
  match a, b with
  | NaN true, _ | _, NaN true => Err InvalidOperation
  | NaN false, _ | _, NaN false => Ok false
  | Inf s1, Inf s2 => Ok (Bool.eqb s1 s2)
  | Inf _, Fin _ _ _ | Fin _ _ _, Inf _ => Ok false
  | Fin s1 c1 e1, Fin s2 c2 e2 =>
      let e := Z.min e1 e2 in
      Ok (sval s1 c1 * 10 ^ (e1 - e) =? sval s2 c2 * 10 ^ (e2 - e))
  end.

(** [d <= 0]: any NaN raises. *)
Definition dec_le0 (d : Decimal) : result Signal bool :=
  match d with
  | Fin s c _ => Ok (s || (c =? 0)%N)
  | Inf s => Ok s
  | NaN _ => Err InvalidOperation
  end.

(** [d != 0]. *)
Definition dec_ne0 (d : Decimal) : result Signal bool :=
  match d with
  | Fin _ c _ => Ok (negb (c =? 0)%N)
  | Inf _ => Ok true
  | NaN sg => if sg then Err InvalidOperation else Ok true
  end.

(** [d.quantize(q, rounding=ROUND_HALF_UP)]: only the exponent of [q] counts. *)
Definition quantize_half_up (d q : Decimal) : dresult :=
  match d, q with
  | NaN true, _ | _, NaN true => Err InvalidOperation
  | NaN false, _ | _, NaN false => Ok (NaN false)
  | Inf _, Inf _ => Ok d
  | Inf _, Fin _ _ _ | Fin _ _ _, Inf _ => Err InvalidOperation
  | Fin s c e, Fin _ _ exp =>
      if (exp <? Etiny) || (Emax <? exp) then Err InvalidOperation
      else if (c =? 0)%N then fix_dec s 0 exp
      else
        let adjusted := e + ndigits c - 1 in
        if (Emax <? adjusted) || (prec <? adjusted - exp + 1) then Err InvalidOperation
        else
          let c' := if exp <=? e then (c * 10 ^ Z.to_N (e - exp))%N
                    else shift_half_up c (exp - e) in
          if (Emax <? exp + ndigits c' - 1) || (prec <? ndigits c') then Err InvalidOperation
          else fix_dec s c' exp
  end.

(** * Printing *)

Definition digit_char (d : N) : ascii := ascii_of_N (48 + d).
Definition digits_str (c : N) : string :=
  string_of_list_ascii (rev (digit_char <$> digits_rev c)).
Definition zeros (n : Z) : string := string_of_list_ascii (replicate (Z.to_nat n) "0"%char).
Definition str_Z (z : Z) : string :=
  (if z <? 0 then "-" else "") +:+ digits_str (Z.abs_N z).

(** [str(d)]: scientific notation outside the window the library prints plainly. *)
Definition dec_str (d : Decimal) : string :=
  match d with
  | Inf s => if s then "-Infinity" else "Infinity"
  | NaN sg => if sg then "sNaN" else "NaN"
  | Fin s c e =>
      let int := digits_str c in
      let len := ndigits c in
      let leftdigits := e + len in
      let dotplace := if (e <=? 0) && (-6 <? leftdigits) then leftdigits else 1 in
      let '(intpart, fracpart) :=
        if dotplace <=? 0 then ("0", "." +:+ zeros (- dotplace) +:+ int)
        else if len <=? dotplace then (int +:+ zeros (dotplace - len), "")
        else (substring 0 (Z.to_nat dotplace) int,
              "." +:+ substring (Z.to_nat dotplace) (Z.to_nat (len - dotplace)) int) in
      let ex := leftdigits - dotplace in
      let exppart := if ex =? 0 then "" else "E" +:+ (if ex <? 0 then "" else "+") +:+ str_Z ex in
      (if s then "-" else "") +:+ intpart +:+ fracpart +:+ exppart
  end.

(** * Money: values with exactly two decimal places *)

(** The decimal holding [z] hundredths, as a NUMERIC(18,2) column returns it. *)
Definition of_cents (z : Z) : Decimal := Fin (z <? 0) (Z.abs_N z) (-2).

(** Reads such a value back; only meaningful on values that have two decimal places. *)
Definition cents_of (d : Decimal) : Z :=
  match d with Fin s c (-2) => sval s c | _ => 0 end.

(** [d] is an amount with two decimal places (and not a negative zero). *)
Definition is_cents (d : Decimal) : Prop := d = of_cents (cents_of d).
#[export] Instance is_cents_dec d : Decision (is_cents d).
Proof. unfold is_cents. apply _. Defined.

Arguments of_cents : simpl never.
Arguments cents_of : simpl never.
Arguments dec_ne0 : simpl never.
Arguments dec_le0 : simpl never.
Arguments dec_add : simpl never.
Arguments dec_neg : simpl never.

(** * Lemmas *)

(** ** Digits *)

Definition digits_value (l : list N) : N := foldr (fun d v => d + 10 * v)%N 0%N l.

Lemma digits_loop_value f c : (c < 10 ^ N.of_nat f)%N -> digits_value (digits_loop f c) = c.
Proof.
  revert c. induction f as [|f IH]; intros c Hc; simpl digits_loop.
  { change (10 ^ N.of_nat 0)%N with 1%N in Hc. simpl. lia. }
  destruct (N.ltb_spec c 10) as [Hlt|Hge]; simpl; [lia|].
  fold (digits_value (digits_loop f (c / 10))). rewrite IH.
  - pose proof (N.div_mod c 10). lia.
  - rewrite Nat2N.inj_succ, N.pow_succ_r' in Hc. apply N.Div0.div_lt_upper_bound. lia.
Qed.

Lemma digits_loop_length f c :
  (c < 10 ^ N.of_nat f)%N -> (0 < f)%nat ->
  let n := N.of_nat (length (digits_loop f c)) in
  (0 < n /\ c < 10 ^ n /\ (0 < c -> 10 ^ (n - 1) <= c))%N.
Proof.
  revert c. induction f as [|f IH]; intros c Hc Hf; [lia|]. simpl digits_loop.
  destruct (N.ltb_spec c 10) as [Hlt|Hge].
  { cbv zeta. change (N.of_nat (length [c])) with 1%N. rewrite N.pow_1_r.
    change (10 ^ (1 - 1))%N with 1%N. lia. }
  rewrite Nat2N.inj_succ, N.pow_succ_r' in Hc.
  assert (Hd : (c / 10 < 10 ^ N.of_nat f)%N) by (apply N.Div0.div_lt_upper_bound; lia).
  assert (Hf' : (0 < f)%nat).
  { destruct f; [|lia]. change (10 ^ N.of_nat 0)%N with 1%N in Hc. lia. }
  assert (Hpos : (0 < c / 10)%N) by (apply N.div_str_pos; lia).
  specialize (IH (c / 10)%N Hd Hf'). cbv zeta in *.
  destruct IH as (Hn & Hup & Hlow). specialize (Hlow Hpos).
  change (length (?x :: ?l)) with (S (length l)). rewrite Nat2N.inj_succ.
  generalize dependent (N.of_nat (length (digits_loop f (c / 10)))). intros n Hn Hup Hlow.
  rewrite N.pow_succ_r'. replace (N.succ n - 1)%N with (N.succ (n - 1)) by lia.
  rewrite N.pow_succ_r'.
  pose proof (N.div_mod c 10 ltac:(done)). pose proof (N.mod_lt c 10 ltac:(done)).
  clear - Hn Hup Hlow H H0. revert Hup Hlow H H0.
  generalize (10 ^ n)%N (10 ^ (n - 1))%N (c / 10)%N (c mod 10)%N. lia.
Qed.

Lemma size_nat_pow10 c : (c < 10 ^ N.of_nat (S (N.size_nat c)))%N.
Proof.
  assert (H2 : (c < 2 ^ N.of_nat (N.size_nat c))%N).
  { destruct c as [|p]; [done|]. simpl N.size_nat.
    assert (Hs : N.of_nat (Pos.size_nat p) = N.pos (Pos.size p)).
    { induction p as [p IH|p IH|]; simpl Pos.size_nat; rewrite ?Nat2N.inj_succ, ?IH; done. }
    rewrite Hs. apply (N.size_gt (N.pos p)). }
  rewrite Nat2N.inj_succ, N.pow_succ_r'.
  assert (2 ^ N.of_nat (N.size_nat c) <= 10 ^ N.of_nat (N.size_nat c))%N
    by (apply N.pow_le_mono_l; lia).
  lia.
Qed.

Lemma digits_rev_value c : digits_value (digits_rev c) = c.
Proof. apply digits_loop_value, size_nat_pow10. Qed.

Lemma ndigits_spec c :
  exists n, (ndigits c = Z.of_N n /\ 0 < Z.of_N n /\
    (c < 10 ^ n)%N /\ ((0 < c)%N -> (10 ^ (n - 1) <= c)%N)).
Proof.
  pose proof (digits_loop_length _ c (size_nat_pow10 c) ltac:(lia)) as (H0 & H1 & H2).
  exists (N.of_nat (length (digits_rev c))). unfold ndigits. split; [lia|].
  split; [unfold digits_rev; lia|]. done.
Qed.

Lemma ndigits_pos c : 0 < ndigits c.
Proof. destruct (ndigits_spec c) as (n & -> & ? & _). done. Qed.

Lemma ndigits_le c k : (c < 10 ^ k)%N -> (0 < k)%N -> ndigits c <= Z.of_N k.
Proof.
  intros Hc Hk. destruct (decide (c = 0%N)) as [->|Hne]; [change (ndigits 0) with 1; lia|].
  destruct (ndigits_spec c) as (n & -> & Hn & _ & Hlow). specialize (Hlow ltac:(lia)).
  assert (n - 1 < k)%N; [|lia]. apply (N.pow_lt_mono_r_iff 10); lia.
Qed.

Lemma ndigits_gt c k : (10 ^ k <= c)%N -> Z.of_N k < ndigits c.
Proof.
  intros Hc. destruct (ndigits_spec c) as (n & -> & Hn & Hup & _).
  assert (k < n)%N; [|lia]. apply (N.pow_lt_mono_r_iff 10); lia.
Qed.

(** ** Results that need no rounding *)

(** A coefficient of at most 28 digits at an ordinary exponent is left alone. *)
Lemma fix_dec_exact s c e :
  (c < 10 ^ 28)%N -> Etiny <= e <= Etop -> fix_dec s c e = Ok (Fin s c e).
Proof.
  intros Hc He. unfold fix_dec. destruct (N.eqb_spec c 0) as [->|Hne].
  { unfold Etiny, Etop, Emax in *. repeat f_equal. lia. }
  pose proof (ndigits_le c 28 Hc eq_refl) as Hn. unfold prec, Etiny, Etop in *.
  destruct (Z.ltb_spec 999972 (ndigits c + e - 28)); [lia|].
  destruct (Z.ltb_spec e (Z.max (ndigits c + e - 28) (-1000026))); [lia|done].
Qed.

(** ** Arithmetic on amounts in cents *)

Definition cents_ok (z : Z) : Prop := Z.abs z < 10 ^ 28.

Lemma sval_of_cents z : sval (z <? 0) (Z.abs_N z) = z.
Proof. unfold sval. destruct (Z.ltb_spec z 0); lia. Qed.

Lemma fix_cents z :
  cents_ok z -> fix_dec (z <? 0) (Z.to_N (Z.abs z)) (-2) = Ok (of_cents z).
Proof.
  unfold cents_ok. intros Hz. rewrite fix_dec_exact.
  - unfold of_cents. repeat f_equal. lia.
  - change (10 ^ 28)%N with (Z.to_N (10 ^ 28)). lia.
  - unfold Etiny, Etop. lia.
Qed.

(** Adding amounts held in cents is exact as long as the sum has at most 28 digits; the
    left operand may also be the accumulator's initial [Decimal()]. *)
Lemma dec_add_cents z1 z2 :
  cents_ok (z1 + z2) -> dec_add (of_cents z1) (of_cents z2) = Ok (of_cents (z1 + z2)).
Proof.
  intros Hz. rewrite <- fix_cents by done. unfold dec_add, of_cents.
  rewrite Z.min_id, Z.sub_diag, Z.pow_0_r, !Z.mul_1_r, !sval_of_cents. f_equal.
  destruct (Z.eqb_spec (z1 + z2) 0) as [E|]; [|done]. rewrite E. simpl.
  destruct (N.eqb_spec (Z.abs_N z1) 0), (Z.ltb_spec z1 0); simpl; try done; lia.
Qed.

Lemma dec_add_zero_cents z :
  cents_ok z -> dec_add (Fin false 0 0) (of_cents z) = Ok (of_cents z).
Proof.
  intros Hz. rewrite <- fix_cents by done. unfold dec_add, of_cents.
  change (Z.min 0 (-2)) with (-2). change (-2 - -2) with 0.
  rewrite Z.pow_0_r, Z.mul_1_r, sval_of_cents. change (sval false 0 * _) with 0.
  rewrite Z.add_0_l.
  f_equal. destruct (Z.eqb_spec z 0) as [->|]; [|done]. done.
Qed.

Lemma dec_neg_cents z : cents_ok z -> dec_neg (of_cents z) = Ok (of_cents (- z)).
Proof.
  intros Hz. rewrite <- fix_cents by (unfold cents_ok in *; lia).
  unfold dec_neg, of_cents. f_equal; [|lia].
  destruct (N.eqb_spec (Z.abs_N z) 0), (Z.ltb_spec z 0), (Z.ltb_spec (- z) 0); try done; lia.
Qed.

Lemma dec_le0_cents z : dec_le0 (of_cents z) = Ok (z <=? 0).
Proof.
  unfold dec_le0, of_cents. f_equal.
  destruct (Z.ltb_spec z 0), (N.eqb_spec (Z.abs_N z) 0), (Z.leb_spec z 0); simpl; done || lia.
Qed.

Lemma dec_ne0_cents z : dec_ne0 (of_cents z) = Ok (negb (z =? 0)).
Proof.
  unfold dec_ne0, of_cents. do 2 f_equal.
  destruct (N.eqb_spec (Z.abs_N z) 0), (Z.eqb_spec z 0); simpl; done || lia.
Qed.

Lemma dec_eqb_cents z1 z2 : dec_eqb (of_cents z1) (of_cents z2) = Ok (z1 =? z2).
Proof.
  unfold dec_eqb, of_cents. rewrite Z.min_id, Z.sub_diag, Z.pow_0_r, !Z.mul_1_r.
  by rewrite !sval_of_cents.
Qed.

#[export] Instance of_cents_inj : Inj (=) (=) of_cents.
Proof. intros z1 z2 [= H1 H2]. rewrite <- (sval_of_cents z1), <- (sval_of_cents z2). congruence. Qed.

Lemma cents_of_cents z : cents_of (of_cents z) = z.
Proof. apply sval_of_cents. Qed.

Lemma is_cents_of_cents z : is_cents (of_cents z).
Proof. unfold is_cents. by rewrite cents_of_cents. Qed.
#[export] Hint Resolve is_cents_of_cents : ledger.

#[export] Hint Rewrite cents_of_cents dec_le0_cents dec_ne0_cents dec_eqb_cents sval_of_cents : ledger_rw.
