(* ===== verification/PyText.v ===== *)
(** PyText: the Python string operations the sources use.

    A Python [str] is modelled by a Rocq [string] whose characters are the code points
    0-255 (the Latin-1 repertoire).  On that repertoire [len], slicing, [strip], [repr]
    and [encode("ascii")] are exact. *)
From S2P Require Import Prelude.

#[local] Open Scope N_scope.

(** * Slices *)

(** [s[a:b]] with Python's treatment of negative and out-of-range bounds. *)
Definition slice_bound (len i : Z) : Z := (if i <? 0 then Z.max 0 (len + i) else Z.min i len)%Z.
Definition slice (s : string) (a b : Z) : string :=
  let l := list_ascii_of_string s in
  let len := Z.of_nat (length l) in
  let a' := slice_bound len a in
  let b' := slice_bound len b in
  string_of_list_ascii (take (Z.to_nat (b' - a')) (drop (Z.to_nat a') l)).

(** [len(s)] *)
Definition len (s : string) : Z := Z.of_nat (String.length s).

(** * int *)

(** The digits of [int(s)], single underscores allowed between digits. *)
Fixpoint int_digits (acc : Z) (after_digit : bool) (l : list ascii) : option Z :=
  match l with
  | [] => if after_digit then Some acc else None
  | c :: l' =>
      let n := N_of_ascii c in
      if (48 <=? n) && (n <=? 57) then int_digits (acc * 10 + (Z.of_N n - 48))%Z true l'
      else if (n =? 95) && after_digit then int_digits acc false l'
      else None
  end.

(** * Hexadecimal and UUIDs *)

Definition hex_digit (n : N) : ascii := ascii_of_N (if n <? 10 then 48 + n else 87 + n).

(** The [k] low hexadecimal digits of [n], most significant first. *)
Fixpoint hex_digits (k : nat) (n : N) : list ascii :=
  match k with
  | O => []
  | S k' => hex_digits k' (n / 16) ++ [hex_digit (n mod 16)]
  end.

(** [str(uuid)]: [%032x] cut as 8-4-4-4-12. *)
Definition uuid_str (u : UUID) : string :=
  let h := hex_digits 32 u in
  string_of_list_ascii
    (take 8 h ++ "-"%char :: take 4 (drop 8 h) ++ "-"%char :: take 4 (drop 12 h) ++
     "-"%char :: take 4 (drop 16 h) ++ "-"%char :: drop 20 h).

(** * repr *)

(** Latin-1 code points that [repr] prints as they are. *)
Definition printable (c : ascii) : bool :=
  let n := N_of_ascii c in
  ((32 <=? n) && (n <? 127)) || ((161 <=? n) && negb (n =? 173)).

Definition repr_char (quote c : ascii) : list ascii :=
  let n := N_of_ascii c in
  if decide (c = quote \/ c = "\"%char) then ["\"%char; c]
  else if n =? 9 then ["\"%char; "t"%char]
  else if n =? 10 then ["\"%char; "n"%char]
  else if n =? 13 then ["\"%char; "r"%char]
  else if printable c then [c]
  else "\"%char :: "x"%char :: hex_digits 2 n.

(** [repr(s)]: single quotes unless the text has some and no double quote. *)
Definition py_repr (s : string) : string :=
  let l := list_ascii_of_string s in
  let dquote := ascii_of_N 34 in
  let squote := ascii_of_N 39 in
  let q := if decide (squote ∈ l /\ dquote ∉ l) then dquote else squote in
  string_of_list_ascii (q :: concat (repr_char q <$> l) ++ [q]).

(** * strip, upper *)

(** The Latin-1 code points [str.isspace] accepts. *)
Definition is_space (c : ascii) : bool :=
  let n := N_of_ascii c in
  ((9 <=? n) && (n <=? 13)) || ((28 <=? n) && (n <=? 32)) || (n =? 133) || (n =? 160).

Fixpoint lstrip_list (l : list ascii) : list ascii :=
  match l with
  | c :: l' => if is_space c then lstrip_list l' else l
  | [] => []
  end.
Definition strip (s : string) : string :=
  string_of_list_ascii (rev (lstrip_list (rev (lstrip_list (list_ascii_of_string s))))).

(** [str.upper] (exact but for the two Latin-1 letters whose capital is not Latin-1). *)
Definition upper_char (c : ascii) : list ascii :=
  let n := N_of_ascii c in
  (if ((97 <=? n) && (n <=? 122)) || ((224 <=? n) && (n <=? 254) && negb (n =? 247))
   then [ascii_of_N (n - 32)]
   else if n =? 223 then ["S"%char; "S"%char]
   else [c])%N.
Definition upper (s : string) : string :=
  string_of_list_ascii (list_ascii_of_string s ≫= upper_char).

(** [encode("ascii")]: [None] is the UnicodeEncodeError. *)
Definition encode_ascii (s : string) : option (list N) :=
  let l := N_of_ascii <$> list_ascii_of_string s in
  if forallb (fun n => n <? 128) l then Some l else None.

(** [str.encode()]: UTF-8 of code points up to 255. *)
Definition utf8_char (c : ascii) : list N :=
  let n := N_of_ascii c in
  if n <? 128 then [n] else [192 + n / 64; 128 + n mod 64].
Definition utf8 (s : string) : list N := list_ascii_of_string s ≫= utf8_char.

(** [int(s)]: [None] is the ValueError. *)
Definition py_int (s : string) : option Z :=
  match list_ascii_of_string (strip s) with
  | "-"%char :: l => z ← int_digits 0 false l; Some (- z)%Z
  | "+"%char :: l => int_digits 0 false l
  | l => int_digits 0 false l
  end.

(** * Lemmas *)

Lemma string_list_app l1 l2 :
  string_of_list_ascii (l1 ++ l2) = string_of_list_ascii l1 +:+ string_of_list_ascii l2.
Proof. induction l1 as [|c l1 IH]; simpl; [done|]. by rewrite IH. Qed.

Lemma list_string_app s1 s2 :
  list_ascii_of_string (s1 +:+ s2) = list_ascii_of_string s1 ++ list_ascii_of_string s2.
Proof. induction s1 as [|c s1 IH]; simpl; [done|]. by rewrite IH. Qed.

Lemma length_list_string s : length (list_ascii_of_string s) = String.length s.
Proof. induction s as [|c s IH]; simpl; [done|]. by rewrite IH. Qed.

Lemma len_app s1 s2 : len (s1 +:+ s2) = (len s1 + len s2)%Z.
Proof. unfold len. rewrite <- !length_list_string, list_string_app, length_app. lia. Qed.

Lemma len_nonneg s : (0 <= len s)%Z.
Proof. unfold len. lia. Qed.

(** A slice that falls exactly on the middle part. *)
Lemma slice_middle pre mid post a b :
  a = len pre -> b = (len pre + len mid)%Z -> slice (pre +:+ mid +:+ post) a b = mid.
Proof.
  intros -> ->. unfold slice, slice_bound, len. rewrite !list_string_app, !length_app.
  rewrite !length_list_string.
  repeat match goal with |- context [(?x <? 0)%Z] => destruct (Z.ltb_spec x 0); [lia|] end.
  rewrite !Z.min_l by lia.
  replace (Z.to_nat (Z.of_nat (String.length pre))) with (length (list_ascii_of_string pre))
    by (rewrite length_list_string; lia).
  rewrite drop_app_length.
  replace (Z.to_nat _) with (length (list_ascii_of_string mid))
    by (rewrite !length_list_string; lia).
  by rewrite take_app_length, string_of_list_ascii_of_string.
Qed.

Lemma slice_bound_neg n k : (0 < k <= n)%Z -> slice_bound n (- k) = (n - k)%Z.
Proof. intros Hk. unfold slice_bound. destruct (Z.ltb_spec (- k) 0); lia. Qed.

Lemma slice_bound_in n k : (0 <= k <= n)%Z -> slice_bound n k = k.
Proof. intros Hk. unfold slice_bound. destruct (Z.ltb_spec k 0); lia. Qed.

(** Dropping and keeping the last [len t] characters. *)
Lemma slice_body s t : (0 < len t)%Z -> slice (s +:+ t) 0 (- len t) = s.
Proof.
  intros Ht. unfold slice. rewrite length_list_string. fold (len (s +:+ t)).
  pose proof (len_nonneg s). rewrite len_app, slice_bound_neg, slice_bound_in by lia.
  rewrite list_string_app. change (drop (Z.to_nat 0)) with (fun l : list ascii => l). cbv beta.
  replace (Z.to_nat _) with (length (list_ascii_of_string s))
    by (rewrite length_list_string; unfold len; lia).
  by rewrite take_app_length, string_of_list_ascii_of_string.
Qed.

Lemma slice_tail s t : (0 < len t)%Z -> slice (s +:+ t) (- len t) (len (s +:+ t)) = t.
Proof.
  intros Ht. unfold slice. rewrite length_list_string. fold (len (s +:+ t)).
  pose proof (len_nonneg s). rewrite len_app, slice_bound_neg, slice_bound_in by lia.
  rewrite list_string_app.
  replace (Z.to_nat (len s + len t - len t)) with (length (list_ascii_of_string s))
    by (rewrite length_list_string; unfold len; lia).
  rewrite drop_app_length.
  replace (Z.to_nat _) with (length (list_ascii_of_string t))
    by (rewrite length_list_string; unfold len; lia).
  by rewrite firstn_all, string_of_list_ascii_of_string.
Qed.

Lemma len_slice_prefix s n : (0 <= n)%Z -> (len (slice s 0 n) <= n)%Z.
Proof.
  intros Hn. unfold slice, len, slice_bound.
  rewrite <- length_list_string, list_ascii_of_string_of_list_ascii, length_take.
  destruct (Z.ltb_spec n 0); [lia|]. change (0 <? 0)%Z with false. cbv iota. lia.
Qed.

#[export] Hint Rewrite list_string_app string_list_app len_app : ledger_rw.
