(* ===== verification/PyTime.v ===== *)
(** PyTime: the part of Python 3.12's [datetime] module the sources use.

    [datetime.now(UTC)] is a number of microseconds since 1970; here are the calendar
    behind [isoformat(timespec="seconds")], and [datetime.fromisoformat], which works on the
    UTF-8 bytes of its argument exactly as the C implementation does (a byte past the end
    reads as 0). *)
From S2P Require Import Prelude Decimals PyText.

#[local] Open Scope Z_scope.

(** * Calendar *)

Definition is_leap (y : Z) : bool := (y mod 4 =? 0) && (negb (y mod 100 =? 0) || (y mod 400 =? 0)).

Definition days_in_month (y m : Z) : Z :=
  if m =? 2 then (if is_leap y then 29 else 28)
  else if bool_decide (m ∈ [4; 6; 9; 11]) then 30 else 31.

Definition days_before_year (y : Z) : Z :=
  let p := y - 1 in p * 365 + p / 4 - p / 100 + p / 400.

(** [_DAYS_BEFORE_MONTH], of a year that is not a leap year. *)
Definition DAYS_BEFORE_MONTH (m : Z) : Z :=
  default 0 ([0; 0; 31; 59; 90; 120; 151; 181; 212; 243; 273; 304; 334] !! Z.to_nat m).
Definition days_before_month (y m : Z) : Z :=
  DAYS_BEFORE_MONTH m + (if (2 <? m) && is_leap y then 1 else 0).

(** Ordinals: January 1 of year 1 is day 1. *)
Definition ymd_to_ord (y m d : Z) : Z := days_before_year y + days_before_month y m + d.

Definition ord_to_ymd (ordinal : Z) : Z * Z * Z :=
  let n := ordinal - 1 in
  let n400 := n / 146097 in let n := n mod 146097 in
  let n100 := n / 36524 in let n := n mod 36524 in
  let n4 := n / 1461 in let n := n mod 1461 in
  let n1 := n / 365 in let n := n mod 365 in
  let y := n400 * 400 + 1 + n100 * 100 + n4 * 4 + n1 in
  if (n1 =? 4) || (n100 =? 4) then (y - 1, 12, 31)
  else
    let leap := (n1 =? 3) && (negb (n4 =? 24) || (n100 =? 3)) in
    let m := Z.shiftr (n + 50) 5 in
    let preceding := DAYS_BEFORE_MONTH m + (if (2 <? m) && leap then 1 else 0) in
    if n <? preceding then
      let m := m - 1 in
      let preceding := preceding - (if m =? 2 then (if leap then 29 else 28)
                                    else if bool_decide (m ∈ [4; 6; 9; 11]) then 30 else 31) in
      (y, m, n - preceding + 1)
    else (y, m, n - preceding + 1).

(** The ordinal of 1970-01-01. *)
Definition EPOCH : Z := 719163.

(** * datetime *)

(** Wall-clock microseconds since 1970-01-01T00:00:00, and the offset from UTC of an aware
    value, in microseconds. *)
Record DateTime := { dt_wall : Z; dt_offset : option Z }.
#[export] Instance DateTime_eq_dec : EqDecision DateTime.
Proof. solve_decision. Defined.

Definition valid_date (y m d : Z) : bool :=
  (1 <=? y) && (y <=? 9999) && (1 <=? m) && (m <=? 12) && (1 <=? d) && (d <=? days_in_month y m).
Definition valid_time (h mi s us : Z) : bool :=
  (0 <=? h) && (h <? 24) && (0 <=? mi) && (mi <? 60) && (0 <=? s) && (s <? 60) && (0 <=? us) && (us <? 1000000).
(** An offset is strictly less than a day. *)
Definition valid_offset (o : option Z) : bool :=
  from_option (fun z => Z.abs z <? 86400 * 1000000) true o.

Definition wall_us (y m d h mi s us : Z) : Z :=
  ((ymd_to_ord y m d - EPOCH) * 86400 + h * 3600 + mi * 60 + s) * 1000000 + us.

(** The constructor: [None] is the ValueError. *)
Definition datetime (y m d h mi s us : Z) (offset : option Z) : option DateTime :=
  if valid_date y m d && valid_time h mi s us && valid_offset offset
  then Some {| dt_wall := wall_us y m d h mi s us; dt_offset := offset |}
  else None.

(** * isoformat *)

(** The [k] last decimal digits of [n]. *)
Fixpoint fixed_digits (k : nat) (n : Z) : list ascii :=
  match k with
  | O => []
  | S k' => fixed_digits k' (n / 10) ++ [digit_char (Z.to_N (n mod 10))]
  end.

(** [t.isoformat(timespec="seconds")] of a UTC time between the years 1 and 9999. *)
Definition isoformat_seconds (t : Z) : string :=
  let s := t / 1000000 in
  let '(y, m, d) := ord_to_ymd (s / 86400 + EPOCH) in
  let r := s mod 86400 in
  string_of_list_ascii
    (fixed_digits 4 y ++ "-"%char :: fixed_digits 2 m ++ "-"%char :: fixed_digits 2 d ++
     "T"%char :: fixed_digits 2 (r / 3600) ++ ":"%char :: fixed_digits 2 (r / 60 mod 60) ++
     ":"%char :: fixed_digits 2 (r mod 60) ++
     "+"%char :: fixed_digits 2 0 ++ ":"%char :: fixed_digits 2 0).

(** * fromisoformat *)

Definition is_digit_byte (b : N) : bool := ((48 <=? b) && (b <=? 57))%N.
Definition byte_at (l : list N) (i : nat) : N := default 0%N (l !! i).

(** [parse_digits]: exactly [k] digits, and what follows them. *)
Fixpoint parse_digits (acc : Z) (k : nat) (l : list N) : option (Z * list N) :=
  match k with
  | O => Some (acc, l)
  | S k' =>
      match l with
      | b :: l' => if is_digit_byte b then parse_digits (acc * 10 + (Z.of_N b - 48)) k' l' else None
      | [] => None
      end
  end.

(** The position where a run of digits that starts at [i] ends. *)
Fixpoint digits_end (l : list N) : nat :=
  match l with b :: l' => if is_digit_byte b then S (digits_end l') else 0%nat | [] => 0%nat end.

(** [_find_isoformat_datetime_separator], of at least seven bytes. *)
Definition find_separator (l : list N) : nat :=
  let len := length l in
  if (len =? 7)%nat then 7%nat
  else if (byte_at l 4 =? 45)%N then
    if (byte_at l 5 =? 87)%N then
      if ((8 <? len)%nat && (byte_at l 8 =? 45)%N) then
        if ((10 <? len)%nat && is_digit_byte (byte_at l 10)) then 8%nat else 10%nat
      else 8%nat
    else 10%nat
  else if (byte_at l 4 =? 87)%N then
    let pos := (7 + digits_end (drop 7 l))%nat in
    if (pos <? 9)%nat then pos else if Nat.even pos then 7%nat else 8%nat
  else 8%nat.

Definition weekday_of (y m d : Z) : Z := (ymd_to_ord y m d + 6) mod 7.

Definition iso_week1_monday (y : Z) : Z :=
  let first := ymd_to_ord y 1 1 in
  let wd := (first + 6) mod 7 in
  first - wd + (if 3 <? wd then 7 else 0).

Definition iso_to_ymd (y w d : Z) : option (Z * Z * Z) :=
  let long := let wd := weekday_of y 1 1 in (wd =? 3) || ((wd =? 2) && is_leap y) in
  if (1 <=? y) && (y <=? 9999) && ((1 <=? w) && (w <=? 52) || (w =? 53) && long) && (1 <=? d) && (d <=? 7)
  then Some (ord_to_ymd (iso_week1_monday y + (w - 1) * 7 + d - 1))
  else None.

(** [parse_isoformat_date]: the date in the first [len] of the bytes [l]. *)
Definition parse_isoformat_date (l : list N) (len : nat) : option (Z * Z * Z) :=
  '(y, p) ← parse_digits 0 4 l;
  let sep := (byte_at p 0 =? 45)%N in
  let p := if sep then tail p else p in
  if (byte_at p 0 =? 87)%N then
    '(w, p) ← parse_digits 0 2 (tail p);
    if (length l - length p <? len)%nat then
      if sep && negb (byte_at p 0 =? 45)%N then None
      else
        '(d, _) ← parse_digits 0 1 (if sep then tail p else p);
        iso_to_ymd y w d
    else iso_to_ymd y w 1
  else
    '(m, p) ← parse_digits 0 2 p;
    if sep && negb (byte_at p 0 =? 45)%N then None
    else
      '(d, p) ← parse_digits 0 2 (if sep then tail p else p);
      if (length l - length p =? len)%nat then Some (y, m, d) else None.

(** [parse_hh_mm_ss_ff], on the bytes [l] of which [next] is the one after: the values read,
    and either whether something unread was left, or the bytes of a fraction. *)
Fixpoint hh_mm_ss (n : nat) (first sep : bool) (l : list N) (next : N) (acc : list Z)
    : option (list Z * (bool + list N)) :=
  match n with
  | O => Some (acc, inr l)
  | S n' =>
      '(v, p) ← parse_digits 0 2 l;
      let c := default next (head p) in
      let sep := if first then (c =? 58)%N else sep in
      if tail p is [] then Some (acc ++ [v], inl (negb (c =? 0)%N))
      else if sep && (c =? 58)%N then hh_mm_ss n' false sep (tail p) next (acc ++ [v])
      else if ((c =? 46) || (c =? 44))%N then Some (acc ++ [v], inr (tail p))
      else if negb sep then hh_mm_ss n' false sep p next (acc ++ [v])
      else None
  end.

(** Hour, minute, second, microsecond, and whether something unread was left. *)
Definition parse_hh_mm_ss_ff (l : list N) (next : N) : option (Z * Z * Z * Z * bool) :=
  '(vals, rest) ← hh_mm_ss 3 true true l next [];
  let v i := default 0 (vals !! i) in
  match rest with
  | inl extra => Some (v 0%nat, v 1%nat, v 2%nat, 0, extra)
  | inr p =>
      let k := Nat.min 6 (length p) in
      '(us, q) ← parse_digits 0 k p;
      let q := drop (digits_end q) q in
      Some (v 0%nat, v 1%nat, v 2%nat, us * 10 ^ (6 - Z.of_nat k), negb (default next (head q) =? 0)%N)
  end.

(** The time before the first ['+'], ['-'] or ['Z'], and what starts there. *)
Definition is_zone (b : N) : bool := ((b =? 43) || (b =? 45) || (b =? 90))%N.
Fixpoint split_zone (l : list N) : list N * list N :=
  match l with
  | [] => ([], [])
  | b :: l' => if is_zone b then ([], l) else let '(t, z) := split_zone l' in (b :: t, z)
  end.

(** [parse_isoformat_time]: hour, minute, second, microsecond and the offset; an offset of
    no whole second is UTC, whatever its microseconds. *)
Definition parse_isoformat_time (l : list N) : option (Z * Z * Z * Z * option Z) :=
  let '(time, zone) := split_zone l in
  '(h, mi, s, us, extra) ← parse_hh_mm_ss_ff time (byte_at zone 0);
  match zone with
  | [] => if (extra : bool) then None else Some (h, mi, s, us, None)
  | z :: rest =>
      if (z =? 90)%N then
        if (byte_at rest 0 =? 0)%N then Some (h, mi, s, us, Some 0) else None
      else
        let sign := if (z =? 45)%N then -1 else 1 in
        '(zh, zm, zs, zus, extra) ← parse_hh_mm_ss_ff rest 0%N;
        if (extra : bool) then None
        else
          let seconds := zh * 3600 + zm * 60 + zs in
          Some (h, mi, s, us, Some (if seconds =? 0 then 0 else sign * (seconds * 1000000 + zus)))
  end.

(** [datetime.fromisoformat(text)]: [None] is the ValueError. *)
Definition fromisoformat (text : string) : option DateTime :=
  let l := utf8 text in
  if (length l <? 7)%nat then None
  else
    let sep := find_separator l in
    '(y, m, d) ← parse_isoformat_date l sep;
    if (sep <? length l)%nat then
      '(h, mi, s, us, offset) ←
        parse_isoformat_time (drop (if (byte_at l sep <? 128)%N then sep + 1 else sep + 2) l);
      datetime y m d h mi s us offset
    else datetime y m d 0 0 0 0 None.
