(* ===== verification/PyTimeFacts.v ===== *)
(** PyTimeFacts: the calendar of PyTime names every day once, and fromisoformat reads back
    what isoformat writes. *)
From S2P Require Import Prelude Decimals PyText PyTime.

#[local] Open Scope Z_scope.

Definition MAX_ORDINAL : Z := 3652059.

(** * Within a year *)

(** Month and day of the [r]-th day (from 0) of a year. *)
Definition month_day (leap : bool) (r : Z) : Z * Z :=
  let m := Z.shiftr (r + 50) 5 in
  let preceding := DAYS_BEFORE_MONTH m + (if (2 <? m) && leap then 1 else 0) in
  if r <? preceding then
    let m := m - 1 in
    let preceding := preceding - (if m =? 2 then (if leap then 29 else 28)
                                  else if bool_decide (m ∈ [4; 6; 9; 11]) then 30 else 31) in
    (m, r - preceding + 1)
  else (m, r - preceding + 1).

Definition month_days (leap : bool) (m : Z) : Z :=
  if m =? 2 then (if leap then 29 else 28) else if bool_decide (m ∈ [4; 6; 9; 11]) then 30 else 31.

Definition month_day_ok (leap : bool) (r : Z) : bool :=
  let '(m, d) := month_day leap r in
  (DAYS_BEFORE_MONTH m + (if (2 <? m) && leap then 1 else 0) + d =? r + 1) &&
  (1 <=? m) && (m <=? 12) && (1 <=? d) && (d <=? month_days leap m).

Lemma years_ok :
  forallb (month_day_ok false) (seqZ 0 365) = true /\ forallb (month_day_ok true) (seqZ 0 366) = true.
Proof. split; vm_compute; reflexivity. Qed.

Lemma month_day_correct (leap : bool) r : 0 <= r < (if leap then 366 else 365) -> month_day_ok leap r = true.
Proof.
  destruct years_ok as [Hf Ht]. rewrite forallb_forall in Hf, Ht. intros Hr.
  destruct leap; [apply (Ht r)|apply (Hf r)]; apply list_elem_of_In, elem_of_seqZ; lia.
Qed.

(** * Years *)

(** The quotients that [ord_to_ymd] computes. *)
Record cycles (n n400 n100 n4 n1 r : Z) : Prop := {
  cy_sum : n = 146097 * n400 + 36524 * n100 + 1461 * n4 + 365 * n1 + r;
  cy_400 : 0 <= n - 146097 * n400 < 146097;
  cy_100 : 0 <= n - 146097 * n400 - 36524 * n100 < 36524;
  cy_4 : 0 <= 1461 * n4 <= n - 146097 * n400 - 36524 * n100;
  cy_4' : n - 146097 * n400 - 36524 * n100 < 1461 * n4 + 1461;
  cy_1 : 0 <= r < 365;
  cy_100_pos : 0 <= n100;
  cy_1_pos : 0 <= n1;
}.

Lemma cycles_intro n :
  cycles n (n / 146097) (n mod 146097 / 36524) (n mod 146097 mod 36524 / 1461)
    (n mod 146097 mod 36524 mod 1461 / 365) (n mod 146097 mod 36524 mod 1461 mod 365).
Proof. split; Z.to_euclidean_division_equations; lia. Qed.

Definition year_of (n400 n100 n4 n1 : Z) : Z := n400 * 400 + 1 + n100 * 100 + n4 * 4 + n1.

Lemma regular_year n400 n100 n4 n1 :
  0 <= n100 <= 3 -> 0 <= n4 <= 24 -> 0 <= n1 <= 3 ->
  let y := year_of n400 n100 n4 n1 in
  days_before_year y = 146097 * n400 + 36524 * n100 + 1461 * n4 + 365 * n1 /\
  is_leap y = (n1 =? 3) && (negb (n4 =? 24) || (n100 =? 3)).
Proof.
  intros H100 H4 H1 y. split; [unfold days_before_year, y, year_of; Z.to_euclidean_division_equations; lia|].
  unfold is_leap.
  assert (Hm4 : (y mod 4 =? 0) = (n1 =? 3)).
  { unfold y, year_of. apply eq_true_iff_eq. rewrite !Z.eqb_eq. Z.to_euclidean_division_equations. lia. }
  assert (Hm100 : (y mod 100 =? 0) = (n1 =? 3) && (n4 =? 24)).
  { unfold y, year_of. apply eq_true_iff_eq. rewrite andb_true_iff, !Z.eqb_eq.
    Z.to_euclidean_division_equations. lia. }
  assert (Hm400 : (y mod 400 =? 0) = (n1 =? 3) && (n4 =? 24) && (n100 =? 3)).
  { unfold y, year_of. apply eq_true_iff_eq. rewrite !andb_true_iff, !Z.eqb_eq.
    Z.to_euclidean_division_equations. lia. }
  rewrite Hm4, Hm100, Hm400. by destruct (n1 =? 3), (n4 =? 24), (n100 =? 3).
Qed.

Lemma ymd_to_ord_split y m d :
  ymd_to_ord y m d = days_before_year y + (DAYS_BEFORE_MONTH m + (if (2 <? m) && is_leap y then 1 else 0) + d).
Proof. unfold ymd_to_ord, days_before_month. lia. Qed.

(** The calendar: the date of an ordinal is a valid date, with that ordinal. *)
Lemma ord_to_ymd_correct n y m d :
  1 <= n <= MAX_ORDINAL -> ord_to_ymd n = (y, m, d) ->
  ymd_to_ord y m d = n /\ valid_date y m d = true.
Proof.
  unfold MAX_ORDINAL, ord_to_ymd. intros Hn. cbv zeta.
  pose proof (cycles_intro (n - 1)) as Hc. revert Hc.
  set (n400 := (n - 1) / 146097). set (n100 := _ / 36524). set (n4 := _ / 1461). set (n1 := _ / 365).
  set (r := _ mod 365). clearbody n400 n100 n4 n1 r. intros [Hsum H400 H100 H4 H4' Hr Hp100 Hp1].
  fold (year_of n400 n100 n4 n1).
  destruct ((n1 =? 4) || (n100 =? 4)) eqn:Hlast.
  - intros [= <- <- <-].
    assert (Hcase : exists a b c, 0 <= b <= 3 /\ 0 <= c <= 24 /\ (c = 24 -> b = 3) /\
      year_of n400 n100 n4 n1 - 1 = year_of a b c 3 /\ n = 146097 * a + 36524 * b + 1461 * c + 365 * 3 + 366).
    { apply orb_prop in Hlast as [H1%Z.eqb_eq|H1%Z.eqb_eq]; subst.
      - exists n400, n100, n4. unfold year_of. lia.
      - exists n400, 3, 24. unfold year_of. lia. }
    destruct Hcase as (a & b & c & Hb & Hc & Hbc & -> & Hn').
    destruct (regular_year a b c 3 Hb Hc ltac:(lia)) as [Hday Hleap].
    assert (Hl : is_leap (year_of a b c 3) = true).
    { rewrite Hleap. simpl. destruct (Z.eqb_spec c 24), (Z.eqb_spec b 3); simpl; done || lia. }
    rewrite ymd_to_ord_split, Hday, Hl. change (DAYS_BEFORE_MONTH 12) with 334.
    change (if (2 <? 12) && true then 1 else 0) with 1. split; [lia|].
    unfold valid_date. change (days_in_month (year_of a b c 3) 12) with 31.
    repeat (apply andb_true_intro; split); try done; apply Z.leb_le; unfold year_of; lia.
  - apply orb_false_elim in Hlast as [H1%Z.eqb_neq H2%Z.eqb_neq].
    destruct (regular_year n400 n100 n4 n1 ltac:(lia) ltac:(lia) ltac:(lia)) as [Hday Hleap].
    rewrite <- Hleap. set (y' := year_of n400 n100 n4 n1) in *.
    pose proof (month_day_correct (is_leap y') r ltac:(destruct (is_leap y'); lia)) as Hmd.
    unfold month_day_ok, month_day in Hmd. cbv zeta in Hmd. intros Heq.
    assert (Hymd : y = y' /\ (let '(m', d') := month_day (is_leap y') r in m = m' /\ d = d')).
    { unfold month_day. cbv zeta. destruct (r <? _); by injection Heq as <- <- <-. }
    destruct Hymd as [-> Hymd]. fold (month_day (is_leap y') r) in Hmd. clear Heq.
    change (month_day_ok (is_leap y') r = true) in Hmd. unfold month_day_ok in Hmd.
    destruct (month_day (is_leap y') r) as [m' d']. destruct Hymd as [-> ->].
    repeat (apply andb_prop in Hmd as [Hmd ?]). apply Z.eqb_eq in Hmd.
    split; [rewrite ymd_to_ord_split, Hday; lia|]. unfold valid_date.
    change (days_in_month y' m') with (month_days (is_leap y') m').
    repeat (apply andb_true_intro; split); try done; apply Z.leb_le; unfold y', year_of; lia.
Qed.

(** * Text *)

Lemma digit_byte d : 0 <= d < 10 -> N_of_ascii (digit_char (Z.to_N d)) = Z.to_N (48 + d).
Proof. intros Hd. unfold digit_char. rewrite N_ascii_embedding by lia. lia. Qed.

Lemma is_digit_byte_digit d : 0 <= d < 10 -> is_digit_byte (Z.to_N (48 + d)) = true.
Proof. intros Hd. unfold is_digit_byte. apply andb_true_intro. split; apply N.leb_le; lia. Qed.

Definition fixed_bytes (k : nat) (n : Z) : list N := N_of_ascii <$> fixed_digits k n.

Lemma fixed_bytes_S k n : 
  fixed_bytes (S k) n = fixed_bytes k (n / 10) ++ [Z.to_N (48 + n mod 10)].
Proof.
  unfold fixed_bytes. cbn [fixed_digits]. rewrite fmap_app. cbn [fmap list_fmap].
  rewrite digit_byte; [done|]. pose proof (Z.mod_pos_bound n 10). lia.
Qed.

Lemma fixed_bytes_length k n : length (fixed_bytes k n) = k.
Proof. revert n. induction k as [|k IH]; intros n; [done|]. rewrite fixed_bytes_S, length_app, IH. simpl. lia. Qed.

Lemma fixed_bytes_digits k n b : b ∈ fixed_bytes k n -> is_digit_byte b = true.
Proof.
  revert n. induction k as [|k IH]; intros n; [by intros ?%elem_of_nil|]. rewrite fixed_bytes_S.
  intros [Hb|Hb]%elem_of_app; [by eapply IH|]. apply list_elem_of_singleton in Hb as ->.
  apply is_digit_byte_digit. pose proof (Z.mod_pos_bound n 10). lia.
Qed.

Lemma parse_digits_app acc k j l1 l2 v :
  parse_digits acc k l1 = Some (v, []) -> parse_digits acc (k + j) (l1 ++ l2) = parse_digits v j l2.
Proof.
  revert acc l1. induction k as [|k IH]; intros acc l1; cbn [parse_digits Nat.add].
  - by intros [= -> ->].
  - destruct l1 as [|b l1]; [done|]. cbn [app]. destruct (is_digit_byte b); [|done]. apply IH.
Qed.

(** Reading back a fixed number of digits. *)
Lemma parse_fixed k n l : 0 <= n < 10 ^ Z.of_nat k -> parse_digits 0 k (fixed_bytes k n ++ l) = Some (n, l).
Proof.
  intros Hn. enough (Hp : parse_digits 0 k (fixed_bytes k n) = Some (n, [])).
  { replace k with (k + 0)%nat at 1 by lia. by rewrite (parse_digits_app 0 k 0 _ l n Hp). }
  revert n Hn. induction k as [|k IH]; intros n Hn.
  { change (10 ^ Z.of_nat 0) with 1 in Hn. by replace n with 0 by lia. }
  rewrite Nat2Z.inj_succ, Z.pow_succ_r in Hn by lia. rewrite fixed_bytes_S.
  replace (S k) with (k + 1)%nat by lia.
  rewrite (parse_digits_app 0 k 1 _ _ (n / 10)).
  2:{ apply IH. split; [apply Z.div_pos; lia|apply Z.div_lt_upper_bound; lia]. }
  pose proof (Z.mod_pos_bound n 10 ltac:(lia)) as Hm. pose proof (Z.div_mod n 10 ltac:(lia)) as Hdm.
  cbn [parse_digits]. rewrite is_digit_byte_digit by lia. do 2 f_equal. lia.
Qed.

Lemma utf8_ascii l :
  Forall (fun c => (N_of_ascii c < 128)%N) l -> utf8 (string_of_list_ascii l) = N_of_ascii <$> l.
Proof.
  unfold utf8. rewrite list_ascii_of_string_of_list_ascii.
  induction 1 as [|c l Hc _ IH]; [done|]. cbn [mbind list_bind fmap list_fmap]. rewrite IH.
  unfold utf8_char. by destruct (N.ltb_spec (N_of_ascii c) 128); [|lia].
Qed.

Lemma fixed_digits_ascii k n : Forall (fun c => (N_of_ascii c < 128)%N) (fixed_digits k n).
Proof.
  revert n. induction k as [|k IH]; intros n; [constructor|]. cbn [fixed_digits].
  apply Forall_app. split; [apply IH|]. constructor; [|constructor].
  pose proof (Z.mod_pos_bound n 10 ltac:(lia)). rewrite digit_byte by lia. lia.
Qed.

(** The bytes of an ISO time. *)
Definition iso_bytes (y m d h mi s : Z) : list N :=
  fixed_bytes 4 y ++ 45%N :: fixed_bytes 2 m ++ 45%N :: fixed_bytes 2 d ++ 84%N ::
  fixed_bytes 2 h ++ 58%N :: fixed_bytes 2 mi ++ 58%N :: fixed_bytes 2 s ++
  43%N :: fixed_bytes 2 0 ++ 58%N :: fixed_bytes 2 0.

Lemma utf8_isoformat t y m d :
  ord_to_ymd (t / 1000000 / 86400 + EPOCH) = (y, m, d) ->
  let r := t / 1000000 mod 86400 in
  utf8 (isoformat_seconds t) = iso_bytes y m d (r / 3600) (r / 60 mod 60) (r mod 60).
Proof.
  intros Hymd r. unfold isoformat_seconds. rewrite Hymd. fold r. rewrite utf8_ascii.
  - unfold iso_bytes, fixed_bytes. repeat (rewrite fmap_app, fmap_cons). done.
  - repeat first [apply fixed_digits_ascii
      | apply Forall_app; split; [apply fixed_digits_ascii|] | apply Forall_cons; split; [reflexivity|]].
Qed.

(** ** fromisoformat on it *)

Lemma byte_at_app l1 l2 i : length l1 = i -> byte_at (l1 ++ l2) i = byte_at l2 0.
Proof. intros <-. unfold byte_at. rewrite lookup_app_r, Nat.sub_diag by lia. done. Qed.

Lemma length_iso_bytes y m d h mi s : length (iso_bytes y m d h mi s) = 25%nat.
Proof. unfold iso_bytes. repeat (rewrite length_app, fixed_bytes_length; cbn [length]). rewrite fixed_bytes_length. done. Qed.

Lemma digit_not b k : is_digit_byte b = true -> is_digit_byte k = false -> (b =? k)%N = false.
Proof. intros Hb Hk. apply N.eqb_neq. by intros ->; rewrite Hb in Hk. Qed.

(** A number of a fixed width starts with a digit. *)
Lemma fixed_bytes_first k n l : is_digit_byte (byte_at (fixed_bytes (S k) n ++ l) 0) = true.
Proof.
  unfold byte_at. pose proof (fixed_bytes_length (S k) n) as Hl. pose proof (fixed_bytes_digits (S k) n) as Hd.
  destruct (fixed_bytes (S k) n) as [|b bs]; [done|]. apply (Hd b). apply elem_of_cons. by left.
Qed.

Lemma find_separator_iso y m d h mi s : find_separator (iso_bytes y m d h mi s) = 10%nat.
Proof.
  unfold find_separator. rewrite length_iso_bytes.
  unfold iso_bytes. rewrite byte_at_app by apply fixed_bytes_length.
  change (byte_at (45%N :: _) 0) with 45%N.
  set (rest := fixed_bytes 2 d ++ _).
  assert (H5 : byte_at (fixed_bytes 4 y ++ 45%N :: fixed_bytes 2 m ++ 45%N :: rest) 5 =
    byte_at (fixed_bytes 2 m ++ 45%N :: rest) 0).
  { change (45%N :: fixed_bytes 2 m ++ 45%N :: rest) with ([45%N] ++ fixed_bytes 2 m ++ 45%N :: rest).
    rewrite app_assoc. apply byte_at_app. by rewrite length_app, fixed_bytes_length. }
  rewrite H5, (digit_not _ 87) by (done || apply fixed_bytes_first). done.
Qed.

Lemma parse_date_iso y m d h mi s :
  0 <= y < 10000 -> 0 <= m < 100 -> 0 <= d < 100 ->
  parse_isoformat_date (iso_bytes y m d h mi s) 10 = Some (y, m, d).
Proof.
  intros Hy Hm Hd. unfold parse_isoformat_date. rewrite length_iso_bytes. unfold iso_bytes.
  rewrite parse_fixed by (simpl; lia). cbn [mbind option_bind].
  change (byte_at (45%N :: _) 0) with 45%N. change (45 =? 45)%N with true. cbv iota. cbn [tail].
  rewrite (digit_not _ 87) by (done || apply fixed_bytes_first). cbv iota.
  rewrite parse_fixed by (simpl; lia). cbn [mbind option_bind].
  change (byte_at (45%N :: _) 0) with 45%N. change (true && negb (45 =? 45)%N) with false. cbv iota. cbn [tail].
  rewrite parse_fixed by (simpl; lia). cbn [mbind option_bind].
  cbn [length]. repeat (rewrite length_app, fixed_bytes_length; cbn [length]). by rewrite fixed_bytes_length.
Qed.

Definition time_bytes (h mi s : Z) : list N :=
  fixed_bytes 2 h ++ 58%N :: fixed_bytes 2 mi ++ 58%N :: fixed_bytes 2 s.

Lemma hms_iso h mi s next :
  0 <= h < 100 -> 0 <= mi < 100 -> 0 <= s < 100 ->
  parse_hh_mm_ss_ff (time_bytes h mi s) next = Some (h, mi, s, 0, negb (next =? 0)%N).
Proof.
  intros Hh Hmi Hs. unfold parse_hh_mm_ss_ff, time_bytes. cbn [hh_mm_ss].
  rewrite parse_fixed by (simpl; lia). cbn [mbind option_bind head default tail from_option].
  change (58 =? 58)%N with true. cbn [andb].
  destruct (fixed_bytes 2 mi ++ 58%N :: fixed_bytes 2 s) eqn:E1.
  { apply (f_equal length) in E1. rewrite length_app, fixed_bytes_length in E1. simpl in E1. lia. }
  rewrite <- E1. clear E1. rewrite parse_fixed by (simpl; lia). cbn [mbind option_bind head default tail from_option].
  change (58 =? 58)%N with true. cbn [andb].
  destruct (fixed_bytes 2 s) eqn:E2.
  { apply (f_equal length) in E2. rewrite fixed_bytes_length in E2. simpl in E2. lia. }
  rewrite <- E2. clear E2. rewrite <- (app_nil_r (fixed_bytes 2 s)), parse_fixed by (simpl; lia). done.
Qed.

Lemma split_zone_digits l r : (forall b, b ∈ l -> is_zone b = false) -> 
  split_zone (l ++ 43%N :: r) = (l, 43%N :: r).
Proof.
  induction l as [|b l IH]; intros Hl; [done|]. cbn [app split_zone].
  rewrite (Hl b) by (apply elem_of_cons; by left). rewrite IH; [done|].
  intros b' Hb. apply Hl, elem_of_cons. by right.
Qed.

Lemma time_bytes_zone h mi s b : b ∈ time_bytes h mi s -> is_zone b = false.
Proof.
  assert (Hdig : forall k n, b ∈ fixed_bytes k n -> is_zone b = false).
  { intros k n Hb%fixed_bytes_digits. unfold is_zone. by rewrite !(digit_not b) by done. }
  unfold time_bytes. intros [Hb|[->|[Hb|[->|Hb]%elem_of_cons]%elem_of_app]%elem_of_cons]%elem_of_app; eauto.
Qed.

Lemma parse_time_iso h mi s :
  0 <= h < 100 -> 0 <= mi < 100 -> 0 <= s < 100 ->
  parse_isoformat_time (time_bytes h mi s ++ 43%N :: fixed_bytes 2 0 ++ 58%N :: fixed_bytes 2 0) =
  Some (h, mi, s, 0, Some 0).
Proof.
  intros Hh Hmi Hs. unfold parse_isoformat_time. rewrite split_zone_digits.
  2:{ intros b. apply time_bytes_zone. }
  change (byte_at (43%N :: _) 0) with 43%N. rewrite hms_iso by done. cbn [mbind option_bind]. reflexivity.
Qed.

(** The written second, read back: the instant without its microseconds, in UTC. *)
Lemma fromisoformat_isoformat t :
  1 - EPOCH <= t / 1000000 / 86400 <= MAX_ORDINAL - EPOCH ->
  fromisoformat (isoformat_seconds t) =
  Some {| dt_wall := t / 1000000 * 1000000; dt_offset := Some 0 |}.
Proof.
  intros Ht. unfold fromisoformat.
  destruct (ord_to_ymd (t / 1000000 / 86400 + EPOCH)) as [[y m] d] eqn:Hymd.
  rewrite (utf8_isoformat t y m d Hymd). cbv zeta.
  destruct (ord_to_ymd_correct (t / 1000000 / 86400 + EPOCH) y m d ltac:(lia) Hymd) as [Hord Hvalid].
  set (r := t / 1000000 mod 86400). assert (Hr : 0 <= r < 86400) by (apply Z.mod_pos_bound; lia).
  assert (Hh : 0 <= r / 3600 < 24) by (Z.to_euclidean_division_equations; lia).
  assert (Hmi : 0 <= r / 60 mod 60 < 60) by (apply Z.mod_pos_bound; lia).
  assert (Hs : 0 <= r mod 60 < 60) by (apply Z.mod_pos_bound; lia).
  rewrite length_iso_bytes, find_separator_iso. change (25 <? 7)%nat with false. cbv iota.
  pose proof Hvalid as Hv. unfold valid_date in Hv. repeat (apply andb_prop in Hv as [Hv ?]).
  repeat match goal with H : (_ <=? _) = true |- _ => apply Z.leb_le in H end.
  assert (Hdim : days_in_month y m <= 31) by (unfold days_in_month; repeat case_match; lia).
  rewrite parse_date_iso by lia. cbn [mbind option_bind]. change (10 <? 25)%nat with true. cbv iota.
  set (date := fixed_bytes 4 y ++ 45%N :: fixed_bytes 2 m ++ 45%N :: fixed_bytes 2 d).
  set (time := time_bytes (r / 3600) (r / 60 mod 60) (r mod 60) ++ 43%N :: fixed_bytes 2 0 ++ 58%N :: fixed_bytes 2 0).
  assert (Hl : iso_bytes y m d (r / 3600) (r / 60 mod 60) (r mod 60) = date ++ 84%N :: time).
  { unfold iso_bytes, date, time, time_bytes. by rewrite <- !app_assoc; cbn [app]; rewrite <- !app_assoc. }
  assert (Hdate : length date = 10%nat).
  { unfold date. repeat (rewrite length_app, fixed_bytes_length; cbn [length]). by rewrite fixed_bytes_length. }
  rewrite Hl, byte_at_app by done. change (byte_at (84%N :: time) 0 <? 128)%N with true. cbv iota.
  replace (drop (10 + 1) (date ++ 84%N :: time)) with time.
  2:{ rewrite drop_app, Hdate. rewrite (drop_ge date) by (rewrite Hdate; apply Nat.le_succ_diag_r). done. }
  unfold time. rewrite parse_time_iso by lia. cbn [mbind option_bind].
  unfold datetime. rewrite Hvalid. unfold valid_time, valid_offset. cbn [from_option].
  repeat match goal with |- context [?a <=? ?b] => destruct (Z.leb_spec a b); [|lia] end.
  repeat match goal with |- context [?a <? ?b] => destruct (Z.ltb_spec a b); [|lia] end.
  cbn [andb]. do 2 f_equal. unfold wall_us. rewrite Hord.
  replace ((t / 1000000 / 86400 + EPOCH - EPOCH) * 86400 + r / 3600 * 3600 + r / 60 mod 60 * 60 + r mod 60)
    with (t / 1000000); [lia|].
  unfold r. Z.to_euclidean_division_equations. lia.
Qed.

(** ** Range *)

Lemma day_of_year y m d :
  1 <= m <= 12 -> 1 <= d <= days_in_month y m ->
  1 <= days_before_month y m + d <= (if is_leap y then 366 else 365).
Proof.
  intros Hm Hd. assert (Hcases : m = 1 \/ m = 2 \/ m = 3 \/ m = 4 \/ m = 5 \/ m = 6 \/ m = 7 \/ m = 8 \/
    m = 9 \/ m = 10 \/ m = 11 \/ m = 12) by lia.
  unfold days_in_month, days_before_month in *.
  assert (H30 : bool_decide (m ∈ [4; 6; 9; 11]) = (m =? 4) || (m =? 6) || (m =? 9) || (m =? 11)).
  { decompose [or] Hcases; by subst m. }
  rewrite H30 in Hd. destruct (is_leap y); decompose [or] Hcases; subst m; cbn in Hd;
    match goal with |- context [DAYS_BEFORE_MONTH ?k] =>
      let v := eval vm_compute in (DAYS_BEFORE_MONTH k) in change (DAYS_BEFORE_MONTH k) with v end;
    cbn; lia.
Qed.

Lemma valid_date_ordinal y m d : valid_date y m d = true -> 1 <= ymd_to_ord y m d <= MAX_ORDINAL.
Proof.
  unfold valid_date. intros Hv. repeat (apply andb_prop in Hv as [Hv ?]).
  repeat match goal with H : (_ <=? _) = true |- _ => apply Z.leb_le in H end.
  pose proof (day_of_year y m d ltac:(lia) ltac:(lia)) as Hd. unfold ymd_to_ord, days_before_year, MAX_ORDINAL.
  cbv zeta.
  destruct (Z.eq_dec y 9999) as [->|Hy].
  - change (is_leap 9999) with false in Hd. cbv iota in Hd.
    replace ((9999 - 1) * 365 + (9999 - 1) / 4 - (9999 - 1) / 100 + (9999 - 1) / 400) with 3651694 by reflexivity. lia.
  - assert (1 <= days_before_month y m + d <= 366) by (destruct (is_leap y); lia).
    assert (Hq4 : 4 * ((y - 1) / 4) <= y - 1 < 4 * ((y - 1) / 4) + 4) by (Z.to_euclidean_division_equations; lia).
    assert (Hq1 : 100 * ((y - 1) / 100) <= y - 1 < 100 * ((y - 1) / 100) + 100) by (Z.to_euclidean_division_equations; lia).
    assert (Hq5 : 400 * ((y - 1) / 400) <= y - 1 < 400 * ((y - 1) / 400) + 400) by (Z.to_euclidean_division_equations; lia).
    clear Hd. set (a := (y - 1) / 4) in *. set (b := (y - 1) / 100) in *. set (c := (y - 1) / 400) in *.
    clearbody a b c. lia.
Qed.

Lemma datetime_range y m d h mi s us o dt :
  datetime y m d h mi s us o = Some dt ->
  1 - EPOCH <= dt_wall dt / 86400000000 <= MAX_ORDINAL - EPOCH /\ valid_offset (dt_offset dt) = true.
Proof.
  unfold datetime. destruct (valid_date y m d) eqn:Hd; [|done]. destruct (valid_time h mi s us) eqn:Ht; [|done].
  destruct (valid_offset o) eqn:Ho; [|done]. intros [= <-]. cbn [dt_wall dt_offset andb].
  split; [|done]. apply valid_date_ordinal in Hd. unfold valid_time in Ht.
  repeat (apply andb_prop in Ht as [Ht ?]).
  repeat match goal with H : (_ <=? _) = true |- _ => apply Z.leb_le in H
    | H : (_ <? _) = true |- _ => apply Z.ltb_lt in H end.
  replace (wall_us y m d h mi s us / 86400000000) with (ymd_to_ord y m d - EPOCH); [lia|].
  apply (Z.div_unique_pos _ _ _ ((h * 3600 + mi * 60 + s) * 1000000 + us)); [lia|]. unfold wall_us. lia.
Qed.

Lemma fromisoformat_range text dt :
  fromisoformat text = Some dt ->
  1 - EPOCH <= dt_wall dt / 86400000000 <= MAX_ORDINAL - EPOCH /\ valid_offset (dt_offset dt) = true.
Proof.
  unfold fromisoformat. destruct (length _ <? 7)%nat; [done|].
  destruct (parse_isoformat_date _ _) as [[[y m] d]|]; [|done]. cbn [mbind option_bind].
  destruct (_ <? _)%nat; [|by apply datetime_range].
  destruct (parse_isoformat_time _) as [[[[[h mi] s] us] o]|]; [|done]. cbn [mbind option_bind].
  by apply datetime_range.
Qed.
