(* ===== verification/DecText.v ===== *)
(** DecText: [Decimal(text)], the decimal constructor applied to a string.

    The constructor strips the text, drops underscores and reads an optional sign, then
    digits with an optional point and exponent, or one of the names of the infinities and
    NaNs (whose sign and payload digits are not kept here); it never rounds. *)
From S2P Require Import Prelude Decimals PyText.

#[local] Open Scope Z_scope.

(** ** Digits *)

Definition digit_of (c : ascii) : option N :=
  let n := N_of_ascii c in
  if ((48 <=? n) && (n <=? 57))%N then Some (n - 48)%N else None.

(** The digits a text starts with, and the rest. *)
Fixpoint digit_span (l : list ascii) : list N * list ascii :=
  match l with
  | [] => ([], [])
  | c :: l' =>
      match digit_of c with
      | Some d => let '(ds, r) := digit_span l' in (d :: ds, r)
      | None => ([], l)
      end
  end.

(** Most significant digit first. *)
Definition digits_number (l : list N) : N := foldl (fun v d => 10 * v + d)%N 0%N l.

(** ** Parts *)

Definition sign_span (l : list ascii) : bool * list ascii :=
  match l with
  | "-"%char :: l' => (true, l')
  | "+"%char :: l' => (false, l')
  | _ => (false, l)
  end.

(** The fraction after a point, if there is one. *)
Definition fraction_span (l : list ascii) : list N * list ascii :=
  match l with "."%char :: l' => digit_span l' | _ => ([], l) end.

(** A non-empty exponent up to the end of the text; no exponent is 0. *)
Definition exponent_of (l : list ascii) : option Z :=
  match l with
  | [] => Some 0
  | c :: l' =>
      if decide (c = "e"%char \/ c = "E"%char) then
        let '(neg, l1) := sign_span l' in
        match digit_span l1 with
        | ((_ :: _) as ds, []) => Some (sval neg (digits_number ds))
        | _ => None
        end
      else None
  end.

(** The exponents the library can represent: what would have to be rounded or clamped is
    refused. *)
Definition MAX_EMAX : Z := 999999999999999999.
Definition MIN_ETINY : Z := -1999999999999999997.
Definition representable (c : N) (e : Z) : bool :=
  (MIN_ETINY <=? e) && ((if (c =? 0)%N then e else e + ndigits c - 1) <=? MAX_EMAX).

Definition number_of (neg : bool) (l : list ascii) : option Decimal :=
  let '(ip, l1) := digit_span l in
  let '(fp, l2) := fraction_span l1 in
  match ip ++ fp with
  | [] => None
  | ds =>
      ex ← exponent_of l2;
      let c := digits_number ds in
      let e := ex - Z.of_nat (length fp) in
      if representable c e then Some (Fin neg c e) else None
  end.

Definition lower_ascii (c : ascii) : ascii :=
  let n := N_of_ascii c in if ((65 <=? n) && (n <=? 90))%N then ascii_of_N (n + 32) else c.

(** The names, in any case; a NaN may carry payload digits. *)
Definition special_of (neg : bool) (l : list ascii) : option Decimal :=
  let low := lower_ascii <$> l in
  let is_name s := bool_decide (low = list_ascii_of_string s) in
  let is_nan s := let k := String.length s in
    bool_decide (take k low = list_ascii_of_string s) && bool_decide ((digit_span (drop k low)).2 = []) in
  if is_name "inf" || is_name "infinity" then Some (Inf neg)
  else if is_nan "nan" then Some (NaN false)
  else if is_nan "snan" then Some (NaN true)
  else None.

(** [Decimal(text)]: [None] is the InvalidOperation. *)
Definition decimal_of_str (text : string) : option Decimal :=
  let l := filter (fun c => c <> "_"%char) (list_ascii_of_string (strip text)) in
  let '(neg, l') := sign_span l in
  match number_of neg l' with
  | Some d => Some d
  | None => special_of neg l'
  end.

(** * Lemmas *)

Lemma digit_of_char d : (d < 10)%N -> digit_of (digit_char d) = Some d.
Proof.
  intros Hd. unfold digit_of, digit_char.
  assert (Hn : N_of_ascii (ascii_of_N (48 + d)) = (48 + d)%N) by (apply N_ascii_embedding; lia).
  rewrite Hn. destruct (N.leb_spec 48 (48 + d)); [|lia]. destruct (N.leb_spec (48 + d) 57); [|lia].
  simpl. f_equal. lia.
Qed.

(** What does not continue a run of digits. *)
Definition no_digit (l : list ascii) : Prop := head l ≫= digit_of = None.

Lemma digit_span_app ds l :
  Forall (fun d => (d < 10)%N) ds -> no_digit l -> digit_span ((digit_char <$> ds) ++ l) = (ds, l).
Proof.
  intros Hds Hl. induction Hds as [|d ds Hd _ IH].
  - destruct l as [|c l]; [done|]. unfold no_digit in Hl. simpl in *. by rewrite Hl.
  - rewrite fmap_cons. cbn [app digit_span]. rewrite digit_of_char by done. by rewrite IH.
Qed.

Lemma digits_number_snoc l d : digits_number (l ++ [d]) = (10 * digits_number l + d)%N.
Proof. unfold digits_number. by rewrite foldl_app. Qed.

Lemma digits_number_app l1 l2 :
  digits_number (l1 ++ l2) = (digits_number l1 * 10 ^ N.of_nat (length l2) + digits_number l2)%N.
Proof.
  revert l1. induction l2 as [|d l2 IH] using rev_ind; intros l1.
  { rewrite app_nil_r. simpl. change (10 ^ 0)%N with 1%N. change (digits_number []) with 0%N. lia. }
  rewrite app_assoc, !digits_number_snoc, IH, length_app. cbn [length]. rewrite Nat.add_1_r, Nat2N.inj_succ, N.pow_succ_r'. lia.
Qed.

Lemma digits_number_rev l : digits_number (rev l) = digits_value l.
Proof.
  induction l as [|d l IH]; [done|]. cbn [rev]. rewrite digits_number_app, IH. cbn [length].
  change (10 ^ N.of_nat 1)%N with 10%N. change (digits_number [d]) with (10 * 0 + d)%N.
  unfold digits_value at 2. cbn [foldr]. fold (digits_value l). lia.
Qed.

Lemma digits_number_zeros k l : digits_number (replicate k 0%N ++ l) = digits_number l.
Proof.
  rewrite digits_number_app. replace (digits_number (replicate k 0%N)) with 0%N; [lia|].
  induction k as [|k IH]; [done|]. change (replicate (S k) 0%N) with ([0%N] ++ replicate k 0%N).
  rewrite digits_number_app, <- IH. change (digits_number [0%N]) with 0%N. lia.
Qed.

Lemma digits_loop_small f c : Forall (fun d => (d < 10)%N) (digits_loop f c).
Proof.
  revert c. induction f as [|f IH]; intros c; simpl; [constructor|].
  destruct (N.ltb_spec c 10); constructor; auto. by apply N.mod_lt.
Qed.

Lemma take_fmap_chars n ds : take n (digit_char <$> ds) = digit_char <$> take n ds.
Proof. by rewrite fmap_take. Qed.

Lemma list_substring a n s : list_ascii_of_string (substring a n s) = take n (drop a (list_ascii_of_string s)).
Proof.
  revert a n. induction s as [|c s IH]; intros [|a] [|n]; simpl; try done; rewrite ?IH; done.
Qed.

(** The digits of a coefficient, most significant first. *)
Definition digits_of (c : N) : list N := rev (digits_rev c).

Lemma list_digits_str c : list_ascii_of_string (digits_str c) = digit_char <$> digits_of c.
Proof.
  unfold digits_str, digits_of. rewrite list_ascii_of_string_of_list_ascii.
  by rewrite !rev_alt, fmap_reverse || by rewrite map_rev.
Qed.

Lemma digits_of_small c : Forall (fun d => (d < 10)%N) (digits_of c).
Proof. apply Forall_rev, digits_loop_small. Qed.
Lemma digits_of_value c : digits_number (digits_of c) = c.
Proof. unfold digits_of. rewrite digits_number_rev. apply digits_loop_value, size_nat_pow10. Qed.
Lemma digits_of_length c : Z.of_nat (length (digits_of c)) = ndigits c.
Proof. unfold digits_of, ndigits. by rewrite length_rev. Qed.

Lemma list_zeros n : list_ascii_of_string (zeros n) = digit_char <$> replicate (Z.to_nat n) 0%N.
Proof. unfold zeros. rewrite list_ascii_of_string_of_list_ascii. by rewrite fmap_replicate. Qed.

(** ** The shape of a printed number *)

Definition exponent_text (ex : Z) : list ascii :=
  if ex =? 0 then []
  else "E"%char :: (if ex <? 0 then "-"%char else "+"%char) :: (digit_char <$> digits_of (Z.abs_N ex)).

Record printed (neg : bool) (c : N) (e : Z) (l : list ascii) (ip fp : list N) (ex : Z) : Prop := {
  pr_text : l = (if neg then ["-"%char] else []) ++ (digit_char <$> ip) ++
    (if decide (fp = []) then [] else "."%char :: (digit_char <$> fp)) ++ exponent_text ex;
  pr_ip : ip <> [];
  pr_small : Forall (fun d => (d < 10)%N) (ip ++ fp);
  pr_value : digits_number (ip ++ fp) = c;
  pr_exp : ex - Z.of_nat (length fp) = e;
}.

Lemma list_exppart ex :
  list_ascii_of_string (if ex =? 0 then "" else "E" +:+ (if ex <? 0 then "" else "+") +:+ str_Z ex) =
  exponent_text ex.
Proof.
  unfold exponent_text, str_Z. destruct (Z.eqb_spec ex 0); [done|].
  rewrite !list_string_app. destruct (ex <? 0); simpl; by rewrite list_digits_str.
Qed.

Lemma dec_str_printed s c e : exists ip fp ex, printed s c e (list_ascii_of_string (dec_str (Fin s c e))) ip fp ex.
Proof.
  pose proof (digits_of_length c) as Hlen. pose proof (ndigits_pos c) as Hpos.
  unfold dec_str. set (dotplace := if (e <=? 0) && (-6 <? e + ndigits c) then e + ndigits c else 1).
  set (ex := e + ndigits c - dotplace).
  destruct (Z.leb_spec dotplace 0) as [Hd|Hd]; [|destruct (Z.leb_spec (ndigits c) dotplace) as [Hn|Hn]].
  - assert (Hdot : dotplace = e + ndigits c) by (unfold dotplace in *; destruct (_ && _); lia).
    exists [0%N], (replicate (Z.to_nat (- dotplace)) 0%N ++ digits_of c), ex. split.
    + rewrite !list_string_app, list_exppart, list_zeros, list_digits_str. rewrite decide_False.
      2:{ intros Hnil. apply (f_equal length) in Hnil. rewrite length_app in Hnil. simpl in Hnil. lia. }
      rewrite fmap_app. destruct s; simpl; by rewrite <- ?app_assoc.
    + done.
    + apply Forall_cons. split; [done|]. apply Forall_app. split; [|apply digits_of_small].
      apply Forall_replicate. done.
    + change ([0%N] ++ ?l) with (replicate 1 0%N ++ l).
      by rewrite digits_number_zeros, digits_number_zeros, digits_of_value.
    + rewrite length_app, length_replicate. unfold ex. lia.
  - assert (Hz : dotplace = ndigits c).
    { unfold dotplace in *. destruct (Z.leb_spec e 0), (Z.ltb_spec (-6) (e + ndigits c)); simpl in *; lia. }
    exists (digits_of c), [], ex. split.
    + rewrite !list_string_app, list_exppart, list_zeros, list_digits_str, Hz, Z.sub_diag. simpl.
      rewrite app_nil_r. by destruct s.
    + intros Hnil. apply (f_equal length) in Hnil. simpl in Hnil. lia.
    + rewrite app_nil_r. apply digits_of_small.
    + by rewrite app_nil_r, digits_of_value.
    + simpl. unfold ex. lia.
  - set (k := Z.to_nat dotplace).
    assert (Hk : (0 < k < length (digits_of c))%nat) by (unfold k; lia).
    exists (take k (digits_of c)), (drop k (digits_of c)), ex. split.
    + rewrite !list_string_app, list_exppart, !list_substring, list_digits_str. rewrite drop_0.
      rewrite decide_False.
      2:{ intros Hnil. apply (f_equal length) in Hnil. rewrite length_drop in Hnil. simpl in Hnil. lia. }
      rewrite <- fmap_drop, <- !fmap_take. fold k. rewrite (take_ge (drop k _)).
      2:{ rewrite length_drop. lia. }
      destruct s; simpl; by rewrite <- ?app_assoc.
    + intros Hnil. apply (f_equal length) in Hnil. rewrite length_take in Hnil. simpl in Hnil. lia.
    + rewrite take_drop. apply digits_of_small.
    + by rewrite take_drop, digits_of_value.
    + rewrite length_drop. unfold ex. lia.
Qed.

(** ** Reading a printed number *)

(** A character a printed number is made of. *)
Definition number_char (c : ascii) : Prop :=
  (exists d, (d < 10)%N /\ c = digit_char d) \/ c = "-"%char \/ c = "+"%char \/ c = "."%char \/ c = "E"%char.

Lemma number_char_plain c : number_char c -> is_space c = false /\ c <> "_"%char.
Proof.
  intros [(d & Hd & ->)|[-> | [-> | [-> | ->]]]]; [|done..].
  assert (Hn : N_of_ascii (digit_char d) = (48 + d)%N).
  { unfold digit_char. apply N_ascii_embedding. lia. }
  split.
  - unfold is_space. rewrite Hn.
    repeat match goal with |- context [(?a <=? ?b)%N] => destruct (N.leb_spec a b); try lia end;
    repeat match goal with |- context [(?a =? ?b)%N] => destruct (N.eqb_spec a b); try lia end; done.
  - intros He. rewrite He in Hn. change (N_of_ascii "_"%char) with 95%N in Hn. lia.
Qed.

Lemma digit_chars ds : Forall (fun d => (d < 10)%N) ds -> Forall number_char (digit_char <$> ds).
Proof. intros Hds. apply Forall_fmap. eapply Forall_impl; [exact Hds|]. intros d Hd. left. by exists d. Qed.

Lemma exponent_chars ex : Forall number_char (exponent_text ex).
Proof.
  unfold exponent_text. destruct (ex =? 0); [constructor|]. constructor; [unfold number_char; tauto|].
  constructor; [destruct (ex <? 0); unfold number_char; tauto|]. apply digit_chars, digits_of_small.
Qed.

Lemma printed_chars s c e l ip fp ex : printed s c e l ip fp ex -> Forall number_char l.
Proof.
  intros [-> _ Hsmall _ _]. apply Forall_app in Hsmall as [Hip Hfp].
  repeat apply Forall_app_2.
  - destruct s; [|constructor]. constructor; [unfold number_char; tauto|constructor].
  - by apply digit_chars.
  - destruct (decide _); [constructor|]. constructor; [unfold number_char; tauto|by apply digit_chars].
  - apply exponent_chars.
Qed.

Lemma lstrip_plain l : Forall (fun c => is_space c = false) l -> lstrip_list l = l.
Proof. destruct 1 as [|c l Hc _]; [done|]. simpl. by rewrite Hc. Qed.

Lemma strip_plain s : Forall (fun c => is_space c = false) (list_ascii_of_string s) -> strip s = s.
Proof.
  intros Hs. unfold strip. rewrite (lstrip_plain _ Hs). rewrite lstrip_plain by by apply Forall_rev.
  by rewrite rev_involutive, string_of_list_ascii_of_string.
Qed.

Lemma exponent_read ex : exponent_of (exponent_text ex) = Some ex.
Proof.
  unfold exponent_text. destruct (Z.eqb_spec ex 0) as [->|Hne]; [done|]. cbn [exponent_of].
  rewrite decide_True by tauto.
  assert (Hspan : digit_span (digit_char <$> digits_of (Z.abs_N ex)) = (digits_of (Z.abs_N ex), [])).
  { rewrite <- (app_nil_r (digit_char <$> _)). apply digit_span_app; [apply digits_of_small|done]. }
  assert (Hval : digits_number (digits_of (Z.abs_N ex)) = Z.abs_N ex) by apply digits_of_value.
  assert (Hlen : digits_of (Z.abs_N ex) <> []).
  { intros Hnil. pose proof (digits_of_length (Z.abs_N ex)) as Hl. pose proof (ndigits_pos (Z.abs_N ex)).
    rewrite Hnil in Hl. simpl in Hl. lia. }
  destruct (Z.ltb_spec ex 0); cbn [sign_span]; rewrite Hspan; (destruct (digits_of _) as [|d ds]; [done|]);
    cbv beta iota; rewrite Hval; unfold sval; f_equal; lia.
Qed.

Lemma exponent_no_digit ex : no_digit (exponent_text ex).
Proof. unfold exponent_text. by destruct (ex =? 0). Qed.

Lemma number_read s c e ip fp ex :
  ip <> [] -> Forall (fun d => (d < 10)%N) (ip ++ fp) -> digits_number (ip ++ fp) = c ->
  ex - Z.of_nat (length fp) = e -> representable c e = true ->
  number_of s ((digit_char <$> ip) ++
    (if decide (fp = []) then [] else "."%char :: (digit_char <$> fp)) ++ exponent_text ex) = Some (Fin s c e).
Proof.
  intros Hip Hsmall Hval Hexp Hrep. apply Forall_app in Hsmall as [Hsi Hsf]. unfold number_of.
  rewrite digit_span_app; [|done|destruct (decide _); [apply exponent_no_digit|done]].
  assert (Hf : fraction_span ((if decide (fp = []) then [] else "."%char :: (digit_char <$> fp)) ++
    exponent_text ex) = (fp, exponent_text ex)).
  { destruct (decide (fp = [])) as [->|Hne]; simpl.
    - unfold exponent_text, fraction_span. by destruct (ex =? 0).
    - apply digit_span_app; [done|apply exponent_no_digit]. }
  rewrite Hf, exponent_read. destruct ip as [|d ip]; [done|]. cbn [app mbind option_bind].
  cbn [app] in Hval. rewrite Hval, Hexp. by rewrite Hrep.
Qed.

Lemma sign_span_digits ip l :
  ip <> [] -> Forall (fun d => (d < 10)%N) ip ->
  sign_span ((digit_char <$> ip) ++ l) = (false, (digit_char <$> ip) ++ l).
Proof.
  intros Hne Hip. destruct Hip as [|d ip Hd _]; [done|]. rewrite fmap_cons. cbn [app].
  assert (Hc : digit_of (digit_char d) = Some d) by by apply digit_of_char.
  destruct (digit_char d) as [b0 b1 b2 b3 b4 b5 b6 b7]. by destruct b0, b1, b2, b3, b4, b5, b6, b7.
Qed.

(** ** Round trip *)

(** Printing a finite decimal and reading the text back gives the same decimal, sign,
    coefficient and exponent included, whatever notation [str] chose, for every value the
    library can represent. *)
Lemma decimal_of_str_dec_str s c e :
  representable c e = true -> decimal_of_str (dec_str (Fin s c e)) = Some (Fin s c e).
Proof.
  intros Hrep. destruct (dec_str_printed s c e) as (ip & fp & ex & Hpr).
  pose proof (printed_chars _ _ _ _ _ _ _ Hpr) as Hchars.
  unfold decimal_of_str. rewrite strip_plain.
  2:{ eapply Forall_impl; [exact Hchars|]. intros ch Hch. by apply number_char_plain. }
  rewrite filter_every.
  2:{ eapply Forall_impl; [exact Hchars|]. intros ch Hch. by apply number_char_plain. }
  destruct Hpr as [-> Hip Hsmall Hval Hexp]. pose proof (proj1 (Forall_app _ _ _) Hsmall) as [Hsi _].
  destruct s; cbn [app sign_span]; [|rewrite sign_span_digits by done]; by rewrite (number_read _ c e).
Qed.

(** The two notations. *)
Example printed_plain : decimal_of_str (dec_str (Fin true 1500 (-9))) = Some (Fin true 1500 (-9)).
Proof. reflexivity. Qed.
Example printed_scientific :
  dec_str (Fin false 12 5) = "1.2E+6" /\ decimal_of_str "1.2E+6" = Some (Fin false 12 5).
Proof. split; reflexivity. Qed.
