(* ===== verification/Ledger.v ===== *)
(** Ledger: app/domain/ledger/entities.py and app/domain/ledger/invariants.py.

    The double-entry data model (directions, journal lines, entries, accounts) and
    [validate_journal_entry], the check every posting goes through.  The theorems relate
    that check, which adds [decimal.Decimal]s in a 28-digit context, to exact integer
    sums of cents per currency. *)
From S2P Require Import Prelude Decimals.

(** * Entities *)

Inductive Direction := DEBIT | CREDIT.

Record JournalLine := {
  jl_account_id : UUID;
  jl_direction : Direction;
  jl_amount : Decimal;
  jl_currency : string;
}.

Record JournalEntry := {
  je_entry_type : string;
  je_lines : list JournalLine;
  je_payment_id : option UUID;
  je_idempotency_key_id : option UUID;
}.

Record Account := {
  acc_id : UUID;
  acc_account_number : string;
  acc_owner_name : string;
  acc_account_type : string;
  acc_currency : string;
  acc_status : string;
  acc_version : Z;
}.

#[export] Instance Direction_eq_dec : EqDecision Direction.
Proof. solve_decision. Defined.
#[export] Instance JournalLine_eq_dec : EqDecision JournalLine.
Proof. solve_decision. Defined.
#[export] Instance JournalEntry_eq_dec : EqDecision JournalEntry.
Proof. solve_decision. Defined.
#[export] Instance Account_eq_dec : EqDecision Account.
Proof. solve_decision. Defined.

Definition signed_amount (l : JournalLine) : dresult :=
  match jl_direction l with
  | CREDIT => Ok (jl_amount l)
  | DEBIT => dec_neg (jl_amount l)
  end.

(** [JournalEntry.account_ids], a frozenset: its elements in the order they are inserted,
    which the order of its iteration may depend on. *)
Definition account_ids (e : JournalEntry) : list UUID := jl_account_id <$> je_lines e.

(** * validate_journal_entry *)

Inductive LedgerError :=
| EmptyJournalEntryError
| InvalidLineAmountError (line : JournalLine)
| UnbalancedEntryError (net_by_currency : gmap string Decimal)
| LedgerDecimalSignal (s : Signal).

Definition check_line (l : JournalLine) : result LedgerError unit :=
  b ← map_err LedgerDecimalSignal (dec_le0 (jl_amount l));
  raise_if b (InvalidLineAmountError l).

(** [net_by_currency[line.currency] += line.signed_amount] on a [defaultdict(Decimal)]. *)
Definition add_to_net (net : gmap string Decimal) (l : JournalLine)
    : result LedgerError (gmap string Decimal) :=
  signed ← map_err LedgerDecimalSignal (signed_amount l);
  sum ← map_err LedgerDecimalSignal
          (dec_add (default (Fin false 0 0) (net !! jl_currency l)) signed);
  Ok (<[jl_currency l := sum]> net).

(** [{ccy: net for ccy, net in net_by_currency.items() if net != 0}] *)
Definition keep_nonzero (acc : gmap string Decimal) (kv : string * Decimal)
    : result LedgerError (gmap string Decimal) :=
  b ← map_err LedgerDecimalSignal (dec_ne0 kv.2);
  Ok (if (b : bool) then <[kv.1 := kv.2]> acc else acc).

Definition validate_journal_entry (lines : list JournalLine) : result LedgerError unit :=
  match lines with
  | [] => Err EmptyJournalEntryError
  | _ =>
      for_each check_line lines ;;
      net_by_currency ← fold_res add_to_net ∅ lines;
      unbalanced ← fold_res keep_nonzero ∅ (map_to_list net_by_currency);
      raise_if (negb (bool_decide (unbalanced = ∅))) (UnbalancedEntryError unbalanced)
  end.

(** * Exact accounting in cents *)

#[local] Open Scope Z_scope.

(** What a line moves, in cents, from the account's point of view. *)
Definition signed_cents (l : JournalLine) : Z :=
  match jl_direction l with
  | CREDIT => cents_of (jl_amount l)
  | DEBIT => - cents_of (jl_amount l)
  end.

Definition ccy_cents (ccy : string) (l : JournalLine) : Z :=
  if decide (jl_currency l = ccy) then signed_cents l else 0.

(** The exact net of a list of lines in one currency. *)
Definition net_cents (ccy : string) (lines : list JournalLine) : Z :=
  sumZ (ccy_cents ccy <$> lines).

(** Lines whose amounts have two decimal places and fit the NUMERIC(18,2) columns. *)
Definition column_amount (d : Decimal) : Prop := is_cents d /\ Z.abs (cents_of d) < 10 ^ 18.
Definition column_line (l : JournalLine) : Prop := column_amount (jl_amount l).

(** The rule every posted entry must satisfy. *)
Definition balanced (lines : list JournalLine) : Prop := forall ccy, net_cents ccy lines = 0.

Definition well_formed_lines (lines : list JournalLine) : Prop :=
  lines <> [] /\ Forall (fun l => 0 < cents_of (jl_amount l)) lines /\ balanced lines.

(** * Lemmas *)

Lemma net_cents_app ccy l1 l2 : net_cents ccy (l1 ++ l2) = net_cents ccy l1 + net_cents ccy l2.
Proof. unfold net_cents. by rewrite fmap_app, sumZ_app. Qed.

Lemma net_cents_cons ccy l ls : net_cents ccy (l :: ls) = ccy_cents ccy l + net_cents ccy ls.
Proof. done. Qed.

Lemma net_cents_snoc ccy ls l : net_cents ccy (ls ++ [l]) = net_cents ccy ls + ccy_cents ccy l.
Proof. rewrite net_cents_app, net_cents_cons. unfold net_cents at 2. simpl. lia. Qed.

Lemma net_cents_absent ccy lines :
  Forall (fun l => jl_currency l <> ccy) lines -> net_cents ccy lines = 0.
Proof.
  induction 1 as [|l ls Hl _ IH]; [done|]. rewrite net_cents_cons, IH.
  unfold ccy_cents. by rewrite decide_False.
Qed.

Lemma column_line_bound ccy l : column_line l -> Z.abs (ccy_cents ccy l) < 10 ^ 18.
Proof.
  intros [_ Hl]. unfold ccy_cents, signed_cents.
  case_decide; [|done]. destruct (jl_direction l); lia.
Qed.

(** Fewer than 10^10 column amounts never exceed 28 digits. *)
Lemma net_cents_bound ccy lines :
  Forall column_line lines -> Z.of_nat (length lines) <= 10 ^ 10 ->
  cents_ok (net_cents ccy lines).
Proof.
  intros Hl Hlen. unfold cents_ok.
  assert (Z.abs (net_cents ccy lines) <= Z.of_nat (length lines) * (10 ^ 18 - 1)).
  { apply sumZ_bound. eapply Forall_impl; [done|].
    intros l ?%(column_line_bound ccy). lia. }
  lia.
Qed.

Lemma check_line_column l :
  column_line l ->
  check_line l = if decide (0 < cents_of (jl_amount l)) then Ok tt
                 else Err (InvalidLineAmountError l).
Proof.
  intros [Hc _]. unfold check_line. rewrite Hc, dec_le0_cents, cents_of_cents. simpl.
  case_decide; destruct (Z.leb_spec (cents_of (jl_amount l)) 0); done || lia.
Qed.

Lemma signed_amount_column l :
  column_line l -> signed_amount l = Ok (of_cents (signed_cents l)).
Proof.
  intros [Hc Hb]. unfold signed_amount, signed_cents.
  destruct (jl_direction l); [|by rewrite <- Hc].
  rewrite <- dec_neg_cents by (unfold cents_ok; lia). by rewrite <- Hc.
Qed.

(** What the accumulator of the loop over [lines] holds. *)
Definition nets_of (lines : list JournalLine) (net : gmap string Decimal) : Prop :=
  forall ccy, net !! ccy =
    if decide (ccy ∈ (jl_currency <$> lines)) then Some (of_cents (net_cents ccy lines)) else None.

Lemma add_to_net_step pre l net :
  nets_of pre net -> Forall column_line (pre ++ [l]) ->
  Z.of_nat (length (pre ++ [l])) <= 10 ^ 10 ->
  exists net', add_to_net net l = Ok net' /\ nets_of (pre ++ [l]) net'.
Proof.
  intros Hnet Hcol Hlen. pose proof Hcol as [Hd [Hl _]%Forall_cons]%Forall_app.
  pose proof (net_cents_bound (jl_currency l) _ Hcol Hlen) as Hbound.
  rewrite net_cents_snoc in Hbound.
  unfold ccy_cents in Hbound. rewrite decide_True in Hbound by done.
  assert (Hsum : dec_add (default (Fin false 0 0) (net !! jl_currency l)) (of_cents (signed_cents l))
            = Ok (of_cents (net_cents (jl_currency l) pre + signed_cents l))).
  { rewrite Hnet. case_decide as Hin; simpl; [by apply dec_add_cents|].
    rewrite net_cents_absent in *; [by apply dec_add_zero_cents|..];
      apply Forall_forall; intros x Hx Heq; apply Hin; rewrite <- Heq;
      by apply list_elem_of_fmap_2. }
  unfold add_to_net. rewrite signed_amount_column by done. simpl. rewrite Hsum. simpl.
  eexists. split; [done|]. intros ccy.
  rewrite net_cents_snoc, fmap_app. unfold ccy_cents.
  destruct (decide (jl_currency l = ccy)) as [<-|Hne].
  - rewrite lookup_insert_eq, decide_True by set_solver. done.
  - rewrite lookup_insert_ne, Hnet, Z.add_0_r by done.
    destruct (decide (ccy ∈ _)), (decide (ccy ∈ _)); done || set_solver.
Qed.

Lemma fold_nets pre lines net :
  nets_of pre net -> Forall column_line (pre ++ lines) ->
  Z.of_nat (length (pre ++ lines)) <= 10 ^ 10 ->
  exists net', fold_res add_to_net net lines = Ok net' /\ nets_of (pre ++ lines) net'.
Proof.
  revert pre net. induction lines as [|l ls IH]; intros pre net Hnet Hcol Hlen; simpl.
  { rewrite app_nil_r. eauto. }
  assert (Hsplit : pre ++ l :: ls = (pre ++ [l]) ++ ls) by by rewrite <- app_assoc.
  rewrite Hsplit in *. destruct (add_to_net_step pre l net) as (net' & -> & Hnet').
  - done.
  - by apply Forall_app in Hcol as [? _].
  - rewrite length_app in Hlen. lia.
  - by apply IH.
Qed.

Lemma keep_nonzero_cents acc k z :
  keep_nonzero acc (k, of_cents z) = Ok (if z =? 0 then acc else <[k := of_cents z]> acc).
Proof. unfold keep_nonzero. cbn [fst snd]. rewrite dec_ne0_cents. simpl. by destruct (z =? 0). Qed.

Lemma fold_keep_nonzero (l : list (string * Decimal)) acc :
  NoDup l.*1 -> (forall k, k ∈ l.*1 -> acc !! k = None) ->
  Forall (fun kv => exists z, kv.2 = of_cents z) l ->
  exists acc', fold_res keep_nonzero acc l = Ok acc' /\
    forall k d, acc' !! k = Some d <-> acc !! k = Some d \/ ((k, d) ∈ l /\ d <> of_cents 0).
Proof.
  revert acc. induction l as [|[k0 d0] l IH]; intros acc Hnd Hfresh Hz; csimpl.
  { exists acc. split; [done|]. intros k d. set_solver. }
  apply NoDup_cons in Hnd as [Hk0 Hnd]. apply Forall_cons in Hz as [[z Hd0] Hz].
  simpl in Hd0. subst d0. rewrite keep_nonzero_cents.
  destruct (Z.eqb_spec z 0) as [->|Hne].
  - destruct (IH acc) as (acc' & Heq & Hacc'); [done|set_solver|done|].
    exists acc'. split; [done|]. intros k d. rewrite Hacc'. set_solver.
  - destruct (IH (<[k0:=of_cents z]> acc)) as (acc' & Heq & Hacc'); [done|..|done|].
    { intros k Hk. rewrite lookup_insert_ne by set_solver. apply Hfresh. set_solver. }
    exists acc'. split; [done|]. intros k d. rewrite Hacc', elem_of_cons.
    destruct (decide (k0 = k)) as [<-|Hkk].
    + rewrite lookup_insert_eq. rewrite (Hfresh k0) by set_solver.
      assert (of_cents z <> of_cents 0) by (intros ?%(inj of_cents); done).
      assert ((k0, d) ∉ l) by (intros ?%(list_elem_of_fmap_2 fst); done).
      naive_solver.
    + rewrite lookup_insert_ne by done. naive_solver.
Qed.

(** What the last step of the check computes from exact nets. *)
Lemma unbalanced_spec lines net :
  nets_of lines net ->
  exists unb, fold_res keep_nonzero ∅ (map_to_list net) = Ok unb /\
    forall ccy d, unb !! ccy = Some d <-> d = of_cents (net_cents ccy lines) /\ net_cents ccy lines <> 0.
Proof.
  intros Hnet. destruct (fold_keep_nonzero (map_to_list net) ∅) as (unb & Heq & Hunb).
  - apply NoDup_fst_map_to_list.
  - intros k _. apply lookup_empty.
  - apply Forall_forall. intros [k d] Hin%elem_of_map_to_list. rewrite Hnet in Hin.
    case_decide; naive_solver.
  - exists unb. split; [done|]. intros ccy d.
    rewrite Hunb, elem_of_map_to_list, lookup_empty, Hnet. case_decide as Hin.
    + split; [intros [?|[[= <-] Hne]]; [done|] | intros [-> Hne]; right]; (split; [done|]);
        [congruence | intros ?%(inj of_cents); done].
    + rewrite (net_cents_absent ccy lines); [naive_solver|]. apply Forall_forall.
      intros l Hl <-. apply Hin. by apply list_elem_of_fmap_2.
Qed.

Lemma check_lines_ok lines :
  Forall column_line lines ->
  for_each check_line lines = Ok tt <-> Forall (fun l => 0 < cents_of (jl_amount l)) lines.
Proof.
  intros Hcol. rewrite for_each_ok. rewrite !Forall_forall in *.
  split; intros H l Hl; specialize (H l Hl); revert H;
    rewrite check_line_column by auto; by case_decide.
Qed.

Lemma check_lines_err lines e :
  Forall column_line lines -> for_each check_line lines = Err e ->
  exists pre l post, e = InvalidLineAmountError l /\ lines = pre ++ l :: post /\
    Forall (fun l => 0 < cents_of (jl_amount l)) pre /\ cents_of (jl_amount l) <= 0.
Proof.
  intros Hcol (pre & l & post & -> & Hpre & Hl)%for_each_err.
  apply Forall_app in Hcol as [Hcpre [Hcl _]%Forall_cons].
  exists pre, l, post. rewrite check_line_column in Hl by done. case_decide; simplify_eq.
  split_and!; [done..| |lia]. by rewrite <- check_lines_ok, for_each_ok.
Qed.

(** The outcome of the check on amounts a NUMERIC(18,2) column can hold, case by case. *)
Definition validate_outcome (lines : list JournalLine) (r : result LedgerError unit) : Prop :=
  match r with
  | Ok _ => well_formed_lines lines
  | Err EmptyJournalEntryError => lines = []
  | Err (InvalidLineAmountError l) =>
      exists pre post, lines = pre ++ l :: post /\
        Forall (fun l => 0 < cents_of (jl_amount l)) pre /\ cents_of (jl_amount l) <= 0
  | Err (UnbalancedEntryError net) =>
      net <> ∅ /\ Forall (fun l => 0 < cents_of (jl_amount l)) lines /\
      (forall ccy d, net !! ccy = Some d <->
        d = of_cents (net_cents ccy lines) /\ net_cents ccy lines <> 0)
  | Err (LedgerDecimalSignal _) => False
  end.

Lemma validate_outcome_holds lines :
  Forall column_line lines -> Z.of_nat (length lines) <= 10 ^ 10 ->
  validate_outcome lines (validate_journal_entry lines).
Proof.
  intros Hcol Hlen. unfold validate_journal_entry. destruct lines as [|l0 ls]; [done|].
  set (lines := l0 :: ls) in *.
  destruct (for_each check_line lines) as [[]|e] eqn:Hchk;
    rewrite ?result_bind_ok, ?result_bind_err.
  2:{ destruct (check_lines_err _ _ Hcol Hchk) as (pre & l & post & -> & ?). simpl. eauto. }
  apply check_lines_ok in Hchk; [|done].
  destruct (fold_nets [] lines ∅) as (net & -> & Hnet); [done..|].
  rewrite result_bind_ok.
  destruct (unbalanced_spec lines net Hnet) as (unb & -> & Hunb). rewrite result_bind_ok.
  case_bool_decide as Hemp; simpl; [|done].
  split_and!; [done..|]. intros ccy.
  destruct (decide (net_cents ccy lines = 0)) as [|Hne]; [done|].
  assert (unb !! ccy = Some (of_cents (net_cents ccy lines))) as Hc by by apply Hunb.
  by rewrite Hemp, lookup_empty in Hc.
Qed.

(** On at most 10^10 lines whose amounts fit the ledger's NUMERIC(18,2) columns,
    [validate_journal_entry] decides exactly whether the entry is non-empty, has only
    positive amounts and nets to zero in every currency; otherwise it raises the error of
    the first check that fails, naming the first bad line or exactly the currencies that do
    not balance with their exact nets, and it never raises a decimal signal. *)
Lemma validate_journal_entry_correct lines :
  Forall column_line lines -> Z.of_nat (length lines) <= 10 ^ 10 ->
  validate_outcome lines (validate_journal_entry lines).
Proof. apply validate_outcome_holds. Qed.

(** A transfer between two accounts, used by the witnesses. *)
Definition demo_line (a : UUID) (d : Direction) (cents : Z) (ccy : string) : JournalLine :=
  {| jl_account_id := a; jl_direction := d; jl_amount := of_cents cents; jl_currency := ccy |}.
Definition demo_transfer : list JournalLine :=
  [demo_line 1 DEBIT 10050 "SGD"; demo_line 2 CREDIT 10050 "SGD"].

(** Lines in whole units whose running total needs 29 digits. *)
Definition huge_line (d : Direction) (c : N) : JournalLine :=
  {| jl_account_id := 1%N; jl_direction := d; jl_amount := Fin false c 0; jl_currency := "SGD" |}.
Definition huge_lines : list JournalLine :=
  [huge_line CREDIT (10 ^ 28); huge_line CREDIT 1; huge_line DEBIT (10 ^ 28)].
Definition unit_value (l : JournalLine) : Z :=
  match jl_amount l, jl_direction l with
  | Fin s c 0, CREDIT => sval s c
  | Fin s c 0, DEBIT => - sval s c
  | _, _ => 0
  end.

(** The bound on the amounts matters: the sums run in the default 28-digit decimal context, so
    an entry with amounts beyond 28 digits can be accepted although its exact net is not
    zero. *)
Lemma validate_accepts_unbalanced_beyond_precision :
  validate_journal_entry huge_lines = Ok tt /\ sumZ (unit_value <$> huge_lines) = 1.
Proof. by vm_compute. Qed.

(** C24. The balance check.  On at most 10^10 lines whose amounts fit the ledger's
    NUMERIC(18,2) columns, [validate_journal_entry] decides exactly whether the entry is
    non-empty, has only positive amounts and nets to zero in every currency; otherwise it
    raises the error of the first check that fails, naming the first bad line or exactly the
    currencies that do not balance with their exact nets, and it never raises a decimal
    signal.  The bound matters: the sums run in the default 28-digit decimal context, and
    beyond it an entry can be accepted although its exact net is not zero. *)
Theorem validate_journal_entry_decides lines :
  (Forall column_line lines -> Z.of_nat (length lines) <= 10 ^ 10 ->
   validate_outcome lines (validate_journal_entry lines)) /\
  validate_journal_entry huge_lines = Ok tt /\ sumZ (unit_value <$> huge_lines) = 1.
Proof.
  split; [apply validate_journal_entry_correct|apply validate_accepts_unbalanced_beyond_precision].
Qed.

Lemma validate_journal_entry_decides_witness :
  validate_outcome demo_transfer (validate_journal_entry demo_transfer) /\
  validate_journal_entry demo_transfer = Ok tt /\
  is_ok (validate_journal_entry (demo_line 1 DEBIT 1 "USD" :: demo_transfer)) = false.
Proof.
  split.
  - apply (proj1 (validate_journal_entry_decides demo_transfer)); [|vm_compute; discriminate].
    repeat constructor.
  - by vm_compute.
Defined.
