(* ===== verification/Fx.v ===== *)
(** FX: app/domain/fx/entities.py and app/domain/fx/conversion.py.

    The booked rate record and [convert_amount], with the exact description of its
    rounding on the amounts and rates the database columns hold. *)
From S2P Require Import Prelude Decimals.

#[local] Open Scope Z_scope.

Record FxRate := {
  fx_id : UUID;
  fx_base_currency : string;
  fx_quote_currency : string;
  fx_rate : Decimal;
  fx_booked_at : Z;
  fx_source : string;
}.
#[export] Instance FxRate_eq_dec : EqDecision FxRate.
Proof. solve_decision. Defined.

(** [Decimal("0.01")] *)
Definition CENTS : Decimal := Fin false 1 (-2).

Definition convert_amount (amount rate : Decimal) : dresult :=
  product ← dec_mul amount rate;
  quantize_half_up product CENTS.

(** A rate as the NUMERIC(18,8) column returns it: [r] hundred-millionths. *)
Definition of_rate (r : Z) : Decimal := Fin (r <? 0) (Z.abs_N r) (-8).

(** Half-up rounding of [n / 10^8] for non-negative [n]. *)
Definition half_up_1e8 (n : Z) : Z := (2 * n + 10 ^ 8) / (2 * 10 ^ 8).

(** * Lemmas *)

(** [half_up_1e8] is the nearest integer, ties upward. *)
Lemma half_up_1e8_spec n z :
  half_up_1e8 n = z <-> - 10 ^ 8 < 2 * (z * 10 ^ 8 - n) <= 10 ^ 8.
Proof. unfold half_up_1e8. split; [intros <-|]; Z.to_euclidean_division_equations; lia. Qed.

Lemma shift_half_up_Z c k :
  Z.of_N (shift_half_up c k) = (2 * Z.of_N c + 10 ^ Z.of_N (Z.to_N k)) / (2 * 10 ^ Z.of_N (Z.to_N k)).
Proof.
  unfold shift_half_up. set (p := (10 ^ Z.to_N k)%N).
  assert (Hp : (0 < p)%N) by (apply N.neq_0_lt_0, N.pow_nonzero; done).
  assert (HpZ : 10 ^ Z.of_N (Z.to_N k) = Z.of_N p) by (unfold p; lia).
  rewrite HpZ. clearbody p. clear HpZ.
  pose proof (N.div_mod c p ltac:(lia)) as Hdm. pose proof (N.mod_lt c p ltac:(lia)) as Hm.
  revert Hdm Hm. generalize (c / p)%N (c mod p)%N. intros q r -> Hr.
  destruct (N.leb_spec p (2 * r)%N) as [H|H].
  - apply (Z.div_unique _ _ _ (2 * Z.of_N r - Z.of_N p)); lia.
  - apply (Z.div_unique _ _ _ (2 * Z.of_N r + Z.of_N p)); lia.
Qed.

Lemma quantize_1e10 c :
  (c < 10 ^ 28)%N ->
  quantize_half_up (Fin false c (-10)) CENTS = Ok (of_cents (half_up_1e8 (Z.of_N c))).
Proof.
  intros Hc. unfold quantize_half_up, CENTS. change ((-2 <? Etiny) || (Emax <? -2)) with false.
  cbv iota. destruct (N.eqb_spec c 0) as [->|Hne]; [done|].
  pose proof (ndigits_le c 28 Hc eq_refl) as Hd. pose proof (ndigits_pos c).
  unfold Emax, prec. destruct (Z.ltb_spec 999999 (-10 + ndigits c - 1)); [lia|].
  destruct (Z.ltb_spec 28 (-10 + ndigits c - 1 - -2 + 1)); [lia|]. cbv iota zeta.
  change (-2 <=? -10) with false. cbv iota. change (-2 - -10) with 8.
  pose proof (shift_half_up_Z c 8) as Hsh. change (10 ^ Z.of_N (Z.to_N 8)) with (10 ^ 8) in Hsh.
  set (c' := shift_half_up c 8) in *. fold (half_up_1e8 (Z.of_N c)) in Hsh.
  assert (Hc' : (c' < 10 ^ 28)%N).
  { apply N2Z.inj_lt. rewrite Hsh. unfold half_up_1e8. Z.to_euclidean_division_equations. lia. }
  pose proof (ndigits_le c' 28 Hc' eq_refl).
  destruct (Z.ltb_spec 999999 (-2 + ndigits c' - 1)); [lia|].
  destruct (Z.ltb_spec 28 (ndigits c')); [lia|]. simpl orb. cbv iota.
  rewrite fix_dec_exact by (done || unfold Etiny, Etop; lia).
  rewrite <- Hsh. unfold of_cents. destruct (Z.ltb_spec (Z.of_N c') 0); [lia|].
  do 2 f_equal. lia.
Qed.

Lemma dec_mul_columns a r :
  0 < a -> 0 < r -> a * r < 10 ^ 28 ->
  dec_mul (of_cents a) (of_rate r) = Ok (Fin false (Z.to_N (a * r)) (-10)).
Proof.
  intros Ha Hr Hlt. unfold dec_mul, of_cents, of_rate.
  destruct (Z.ltb_spec a 0), (Z.ltb_spec r 0); try lia. simpl xorb.
  replace (Z.abs_N a * Z.abs_N r)%N with (Z.to_N (a * r)) by lia.
  apply fix_dec_exact; [|unfold Etiny, Etop; lia].
  change (10 ^ 28)%N with (Z.to_N (10 ^ 28)). lia.
Qed.

(** The conversion of a column amount at a column rate. *)
Lemma convert_amount_columns a r :
  0 < a -> 0 < r -> a * r < 10 ^ 28 ->
  convert_amount (of_cents a) (of_rate r) = Ok (of_cents (half_up_1e8 (a * r))).
Proof.
  intros Ha Hr Hlt. unfold convert_amount.
  rewrite dec_mul_columns, result_bind_ok, quantize_1e10 by (done || lia).
  by rewrite Z2N.id by lia.
Qed.

(** A positive result of [convert_amount] is a whole number of cents. *)
Lemma convert_amount_positive a r d :
  convert_amount a r = Ok d -> dec_le0 d = Ok false -> exists z, d = of_cents z /\ 0 < z.
Proof.
  unfold convert_amount. destruct (dec_mul a r) as [x|]; [rewrite result_bind_ok|done].
  unfold quantize_half_up, CENTS. change ((-2 <? Etiny) || (Emax <? -2)) with false. cbv iota.
  destruct x as [s c e|s|[]]; try done; [|by intros [= <-]].
  destruct (N.eqb_spec c 0) as [->|_]; [intros [= <-]; by destruct s|].
  destruct (_ || _)%bool; [done|]. cbv zeta.
  set (c' := if -2 <=? e then _ else _). destruct (_ || _)%bool eqn:Hb; [done|].
  apply orb_false_elim in Hb as [_ Hd%Z.ltb_ge]. unfold prec in Hd.
  rewrite fix_dec_exact; [|destruct (N.lt_ge_cases c' (10 ^ 28)) as [|Hge]; [done|]
    |unfold Etiny, Etop; lia].
  2:{ apply ndigits_gt in Hge. lia. }
  intros [= <-]. simpl. destruct s; [done|]. intros [= Hc].
  exists (Z.of_N c'). unfold of_cents. destruct (Z.ltb_spec (Z.of_N c') 0); [lia|].
  destruct (N.eqb_spec c' 0); [done|]. split; [f_equal; lia|lia].
Qed.

(** * Properties *)

(** Converting a positive amount in cents at a positive 8-decimal rate gives exactly
    the product rounded half-up to cents, whenever the unrounded product has at most 28
    digits (any converted amount below 10^18 units satisfies this). *)
Lemma convert_amount_half_up a r :
  0 < a -> 0 < r -> a * r < 10 ^ 28 ->
  exists z, convert_amount (of_cents a) (of_rate r) = Ok (of_cents z) /\
    0 <= z /\ - 10 ^ 8 < 2 * (z * 10 ^ 8 - a * r) <= 10 ^ 8.
Proof.
  intros Ha Hr Hlt. exists (half_up_1e8 (a * r)). split; [by apply convert_amount_columns|].
  split; [unfold half_up_1e8; Z.to_euclidean_division_equations; lia|].
  by apply half_up_1e8_spec.
Qed.

(** Beyond 28 digits the product is first rounded half-even by the decimal context,
    so the final amount is no longer the half-up rounding the docstring promises. *)
Lemma convert_amount_half_even_beyond_precision :
  exists a r z, 0 < a < 10 ^ 18 /\ 0 < r < 10 ^ 18 /\
    convert_amount (of_cents a) (of_rate r) = Ok (of_cents z) /\
    half_up_1e8 (a * r) = z + 1.
Proof.
  exists 999999999950000000, 999999999999999999, 9999999999499999990000000000.
  repeat split; by vm_compute.
Qed.

(** C26. Rounding.  Converting a positive amount in cents at a positive 8-decimal rate gives
    exactly the product rounded half-up to cents, whenever the unrounded product has at most
    28 digits (any converted amount below 10^18 units satisfies this).  Beyond that, still
    within the columns, the decimal context first rounds the product half-even, and the
    result can fall a cent short of the half-up rounding the docstring promises. *)
Theorem convert_amount_rounding :
  (forall a r, 0 < a -> 0 < r -> a * r < 10 ^ 28 ->
   exists z, convert_amount (of_cents a) (of_rate r) = Ok (of_cents z) /\
     0 <= z /\ - 10 ^ 8 < 2 * (z * 10 ^ 8 - a * r) <= 10 ^ 8) /\
  (exists a r z, 0 < a < 10 ^ 18 /\ 0 < r < 10 ^ 18 /\
     convert_amount (of_cents a) (of_rate r) = Ok (of_cents z) /\ half_up_1e8 (a * r) = z + 1).
Proof. split; [apply convert_amount_half_up|apply convert_amount_half_even_beyond_precision]. Qed.

Lemma convert_amount_rounding_witness :
  (exists z, convert_amount (of_cents 10050) (of_rate 74000000) = Ok (of_cents z) /\
    0 <= z /\ - 10 ^ 8 < 2 * (z * 10 ^ 8 - 10050 * 74000000) <= 10 ^ 8) /\
  convert_amount (of_cents 10050) (of_rate 74000000) = Ok (of_cents 7437).
Proof.
  split; [apply (proj1 convert_amount_rounding 10050 74000000); lia | by vm_compute].
Defined.
