(* ===== verification/PaymentSM.v ===== *)
(** Payment lifecycle: app/domain/payments/entities.py and
    app/domain/payments/state_machine.py.

    The payment record, its five statuses, the transition table and the guard every
    service calls.  The theorems are about whole histories of a payment. *)
From S2P Require Import Prelude Decimals.

(** * Entities *)

Inductive PaymentStatus := INITIATED | AUTHORISED | SETTLED | REVERSED | FAILED.

Record Payment := {
  pay_id : UUID;
  pay_debtor_account_id : UUID;
  pay_creditor_account_id : UUID;
  pay_amount : Decimal;
  pay_currency : string;
  pay_status : PaymentStatus;
  pay_version : Z;
  pay_end_to_end_id : option string;
  pay_fx_rate_id : option UUID;
  pay_creditor_amount : option Decimal;
}.

#[export] Instance PaymentStatus_eq_dec : EqDecision PaymentStatus.
Proof. solve_decision. Defined.
#[export] Instance Payment_eq_dec : EqDecision Payment.
Proof. solve_decision. Defined.

(** The [StrEnum] values, as stored in the status columns. *)
Definition status_value (s : PaymentStatus) : string :=
  match s with
  | INITIATED => "initiated"
  | AUTHORISED => "authorised"
  | SETTLED => "settled"
  | REVERSED => "reversed"
  | FAILED => "failed"
  end.

(** [PaymentStatus(value)]: [None] is the ValueError. *)
Definition status_of_value (v : string) : option PaymentStatus :=
  list_find (fun s => status_value s = v) [INITIATED; AUTHORISED; SETTLED; REVERSED; FAILED]
    ≫= λ p, Some p.2.

(** * The transition table *)

Definition ALLOWED_TRANSITIONS (s : PaymentStatus) : list PaymentStatus :=
  match s with
  | INITIATED => [AUTHORISED; FAILED]
  | AUTHORISED => [SETTLED; FAILED]
  | SETTLED => [REVERSED]
  | REVERSED => []
  | FAILED => []
  end.

Inductive TransitionError :=
| InvalidPaymentTransitionError (from_status to_status : PaymentStatus).
#[export] Instance TransitionError_eq_dec : EqDecision TransitionError.
Proof. solve_decision. Defined.

Definition assert_transition_allowed (from_status to_status : PaymentStatus)
    : result TransitionError unit :=
  if decide (to_status ∈ ALLOWED_TRANSITIONS from_status) then Ok tt
  else Err (InvalidPaymentTransitionError from_status to_status).

(** * Histories *)

(** One accepted transition. *)
Definition allowed (s s' : PaymentStatus) : Prop := assert_transition_allowed s s' = Ok tt.
#[export] Instance allowed_dec s s' : Decision (allowed s s').
Proof. unfold allowed. apply _. Defined.

(** A list of statuses each reached from the previous one by an accepted transition. *)
Fixpoint lifecycle (s : PaymentStatus) (l : list PaymentStatus) : Prop :=
  match l with
  | [] => True
  | s' :: l' => allowed s s' /\ lifecycle s' l'
  end.

(** Position in the lifecycle; it never goes down. *)
Definition rank (s : PaymentStatus) : nat :=
  match s with INITIATED => 0 | AUTHORISED => 1 | SETTLED => 2 | REVERSED | FAILED => 3 end.

Definition terminal (s : PaymentStatus) : bool :=
  match s with REVERSED | FAILED => true | _ => false end.

(** * Lemmas *)

Lemma status_of_value_value s : status_of_value (status_value s) = Some s.
Proof. by destruct s. Qed.

Lemma allowed_cases s s' :
  allowed s s' <->
  (s = INITIATED /\ s' = AUTHORISED) \/ (s = INITIATED /\ s' = FAILED) \/
  (s = AUTHORISED /\ s' = SETTLED) \/ (s = AUTHORISED /\ s' = FAILED) \/
  (s = SETTLED /\ s' = REVERSED).
Proof.
  unfold allowed. split.
  - destruct s, s'; vm_compute; first [discriminate | tauto].
  - intros H; decompose [or and] H; subst; by vm_compute.
Qed.

Lemma allowed_settled s : allowed s SETTLED -> s = AUTHORISED.
Proof. by destruct s. Qed.
Lemma allowed_reversed s : allowed s REVERSED -> s = SETTLED.
Proof. by destruct s. Qed.

Lemma allowed_rank s s' : allowed s s' -> (rank s < rank s')%nat.
Proof. intros H%allowed_cases. decompose [or and] H; subst; simpl; lia. Qed.
#[export] Hint Resolve allowed_rank : ledger.

Lemma lifecycle_rank s l s' : lifecycle s l -> s' ∈ l -> (rank s < rank s')%nat.
Proof.
  revert s. induction l as [|x l IH]; intros s; simpl; [set_solver|].
  intros [Hx%allowed_rank Hl] [->|Hin]%elem_of_cons; [done|].
  specialize (IH x Hl Hin). lia.
Qed.

Lemma lifecycle_nodup s l : lifecycle s l -> NoDup (s :: l).
Proof.
  revert s. induction l as [|x l IH]; intros s Hl; [apply NoDup_singleton|].
  apply NoDup_cons. split; [|apply IH, Hl].
  intros Hin. pose proof (lifecycle_rank _ _ _ Hl Hin). lia.
Qed.

Lemma lifecycle_snoc s l x y :
  lifecycle s l -> last (s :: l) = Some x -> allowed x y -> lifecycle s (l ++ [y]).
Proof.
  revert s. induction l as [|z l IH]; intros s; simpl; [intros _ [= ->]; tauto|].
  intros [? ?] ? ?. split; [done|]. by apply IH.
Qed.

(** The step into the last status of a longer lifecycle. *)
Lemma lifecycle_last s l x y z :
  lifecycle s (l ++ [y]) -> last (s :: l) = Some x -> y = z -> allowed x z.
Proof.
  intros Hl Hx <-. revert s Hl Hx. induction l as [|w l IH]; intros s; [intros [? _] [= ->]; done|].
  intros [_ Hl] Hx. by apply (IH w).
Qed.

Lemma lifecycle_length s l : lifecycle s l -> (rank s + length l <= 3)%nat.
Proof.
  revert s. induction l as [|x l IH]; intros s; simpl.
  - destruct s; simpl; lia.
  - intros [Hx%allowed_rank Hl]. specialize (IH x Hl). lia.
Qed.

(** Case analysis on a lifecycle, one transition at a time. *)
Ltac lifecycle_inv :=
  repeat match goal with
  | H : lifecycle _ ?l |- _ =>
      is_var l; destruct l as [|? l]; simpl in H;
      [clear H | destruct H as [Hx%allowed_cases H]; decompose [or and] Hx; clear Hx; simplify_eq]
  end.

(** * Properties *)

(** C25. A payment that starts out initiated goes through at most three transitions, is
    never in the same status twice, never leaves a reversed or failed state, and can be
    reversed only after exactly initiated, authorised, settled. *)
Theorem lifecycle_correct l :
  lifecycle INITIATED l ->
  (length l <= 3)%nat /\ NoDup (INITIATED :: l) /\
  (forall l1 s l2, l = l1 ++ s :: l2 -> terminal s = true -> l2 = []) /\
  (REVERSED ∈ l <-> l = [AUTHORISED; SETTLED; REVERSED]).
Proof.
  intros Hl. split; [by apply (lifecycle_length INITIATED)|].
  split; [by apply lifecycle_nodup|]. split.
  - intros l1 s l2 -> Hs. revert Hl. generalize INITIATED.
    induction l1 as [|x l1 IH]; intros s0; simpl; [|naive_solver].
    intros [_ Hl2]. destruct l2 as [|y l2]; [done|]. destruct Hl2 as [Hy%allowed_cases _].
    decompose [or and] Hy; subst; done.
  - split; [|intros ->; set_solver].
    intros Hin. lifecycle_inv; set_solver.
Qed.

Lemma lifecycle_correct_witness :
  let l := [AUTHORISED; SETTLED; REVERSED] in
  lifecycle INITIATED l /\ (length l <= 3)%nat.
Proof.
  assert (H : lifecycle INITIATED [AUTHORISED; SETTLED; REVERSED]) by by vm_compute.
  split; [exact H|]. exact (proj1 (lifecycle_correct _ H)).
Defined.
