(* ===== verification/Recon.v ===== *)
(** Reconciliation: app/domain/reconciliation/entities.py and
    app/domain/reconciliation/matcher.py.

    [match_refs] is the source's [match] ([match] is a Rocq keyword): it reconciles settled
    ledger payments with settlement records by external reference. *)
From S2P Require Import Prelude Decimals PyText PyTime.

#[local] Open Scope Z_scope.

(** * Entities *)

Inductive BreakType := MISSING_IN_SETTLEMENT | MISSING_IN_LEDGER | AMOUNT_MISMATCH.

Record SettlementRecord := {
  sr_external_ref : string;
  sr_amount : Decimal;
  sr_currency : string;
  sr_settled_at : DateTime;
  sr_raw_line : string;
}.

Record LedgerSettledPayment := {
  lsp_payment_id : UUID;
  lsp_external_ref : string;
  lsp_amount : Decimal;
  lsp_currency : string;
}.

Record ReconciliationBreak := {
  rb_break_type : BreakType;
  rb_external_ref : string;
  rb_payment_id : option UUID;
  rb_ledger_amount : option Decimal;
  rb_settlement_amount : option Decimal;
  rb_details : string;
}.

Record ReconciliationResult := {
  rr_matched_count : Z;
  rr_breaks : list ReconciliationBreak;
}.

Definition break_count (r : ReconciliationResult) : Z := Z.of_nat (length (rr_breaks r)).

#[export] Instance BreakType_eq_dec : EqDecision BreakType.
Proof. solve_decision. Defined.
#[export] Instance SettlementRecord_eq_dec : EqDecision SettlementRecord.
Proof. solve_decision. Defined.
#[export] Instance LedgerSettledPayment_eq_dec : EqDecision LedgerSettledPayment.
Proof. solve_decision. Defined.
#[export] Instance ReconciliationBreak_eq_dec : EqDecision ReconciliationBreak.
Proof. solve_decision. Defined.

Definition break_type_value (b : BreakType) : string :=
  match b with
  | MISSING_IN_SETTLEMENT => "missing_in_settlement"
  | MISSING_IN_LEDGER => "missing_in_ledger"
  | AMOUNT_MISMATCH => "amount_mismatch"
  end.

(** * match *)

(** [{x.external_ref: x for x in xs}]: a later element replaces an earlier one. *)
Definition by_ref {A} (ref : A -> string) (xs : list A) : gmap string A :=
  foldl (fun m x => <[ref x := x]> m) ∅ xs.

Definition missing_in_settlement (ref : string) (p : LedgerSettledPayment) : ReconciliationBreak :=
  {| rb_break_type := MISSING_IN_SETTLEMENT; rb_external_ref := ref;
     rb_payment_id := Some (lsp_payment_id p);
     rb_ledger_amount := Some (lsp_amount p); rb_settlement_amount := None;
     rb_details := "payment " +:+ uuid_str (lsp_payment_id p) +:+
       " is settled in the ledger but has no matching record in the settlement file" |}.

Definition missing_in_ledger (ref : string) (s : SettlementRecord) : ReconciliationBreak :=
  {| rb_break_type := MISSING_IN_LEDGER; rb_external_ref := ref;
     rb_payment_id := None;
     rb_ledger_amount := None; rb_settlement_amount := Some (sr_amount s);
     rb_details := "settlement file reference " +:+ py_repr ref +:+
       " has no matching settled payment in the ledger" |}.

Definition amount_mismatch (ref : string) (p : LedgerSettledPayment) (s : SettlementRecord)
    : ReconciliationBreak :=
  {| rb_break_type := AMOUNT_MISMATCH; rb_external_ref := ref;
     rb_payment_id := Some (lsp_payment_id p);
     rb_ledger_amount := Some (lsp_amount p); rb_settlement_amount := Some (sr_amount s);
     rb_details := "ledger shows " +:+ dec_str (lsp_amount p) +:+ " " +:+ lsp_currency p +:+
       ", settlement file shows " +:+ dec_str (sr_amount s) +:+ " " +:+ sr_currency s |}.

(** One iteration of the loop over [all_refs]; the [None, None] case is the failed
    [assert], which the refs of the union never reach. *)
Inductive MatchError := MatchAssertion | MatchDecimalSignal (s : Signal).

Definition match_one (ledger_by_ref : gmap string LedgerSettledPayment)
    (settlement_by_ref : gmap string SettlementRecord)
    (acc : ReconciliationResult) (ref : string) : result MatchError ReconciliationResult :=
  let add_break b := {| rr_matched_count := rr_matched_count acc;
                        rr_breaks := rr_breaks acc ++ [b] |} in
  match ledger_by_ref !! ref, settlement_by_ref !! ref with
  | Some p, None => Ok (add_break (missing_in_settlement ref p))
  | None, Some s => Ok (add_break (missing_in_ledger ref s))
  | Some p, Some s =>
      amounts_match ← map_err MatchDecimalSignal (dec_eqb (lsp_amount p) (sr_amount s));
      if (amounts_match : bool) && bool_decide (lsp_currency p = sr_currency s) then
        Ok {| rr_matched_count := rr_matched_count acc + 1; rr_breaks := rr_breaks acc |}
      else Ok (add_break (amount_mismatch ref p s))
  | None, None => Err MatchAssertion
  end.

(** [sorted(set(ledger_by_ref) | set(settlement_by_ref))] *)
Definition all_refs (ledger_by_ref : gmap string LedgerSettledPayment)
    (settlement_by_ref : gmap string SettlementRecord) : list string :=
  merge_sort String.le (elements (dom ledger_by_ref ∪ dom settlement_by_ref)).

Definition match_refs (ledger_payments : list LedgerSettledPayment)
    (settlement_records : list SettlementRecord) : result MatchError ReconciliationResult :=
  let ledger_by_ref := by_ref lsp_external_ref ledger_payments in
  let settlement_by_ref := by_ref sr_external_ref settlement_records in
  fold_res (match_one ledger_by_ref settlement_by_ref)
    {| rr_matched_count := 0; rr_breaks := [] |} (all_refs ledger_by_ref settlement_by_ref).

(** * Specification *)

(** A decimal comparison that cannot raise. *)
Definition quiet (d : Decimal) : Prop := d <> NaN true.

(** The two sides agree on one reference. *)
Definition agree (p : LedgerSettledPayment) (s : SettlementRecord) : Prop :=
  dec_eqb (lsp_amount p) (sr_amount s) = Ok true /\ lsp_currency p = sr_currency s.
#[export] Instance agree_dec p s : Decision (agree p s).
Proof. unfold agree. apply _. Defined.

(** Both sides know the reference and agree on it. *)
Definition agreed (lm : gmap string LedgerSettledPayment) (sm : gmap string SettlementRecord)
    (ref : string) : Prop :=
  match lm !! ref, sm !! ref with Some p, Some s => agree p s | _, _ => False end.
#[export] Instance agreed_dec lm sm ref : Decision (agreed lm sm ref).
Proof. unfold agreed. repeat case_match; apply _. Defined.

(** The break a reference deserves, if any. *)
Definition verdict (lm : gmap string LedgerSettledPayment) (sm : gmap string SettlementRecord)
    (ref : string) : option ReconciliationBreak :=
  match lm !! ref, sm !! ref with
  | Some p, None => Some (missing_in_settlement ref p)
  | None, Some s => Some (missing_in_ledger ref s)
  | Some p, Some s => if decide (agree p s) then None else Some (amount_mismatch ref p s)
  | None, None => None
  end.

(** ** The report, from the two lists *)

(** The last element of the list with a reference. *)
Definition latest {A} (ref : A -> string) (xs : list A) (k : string) : option A :=
  last (filter (fun x => ref x = k) xs).

(** The references of either side. *)
Definition references (L : list LedgerSettledPayment) (S : list SettlementRecord) : gset string :=
  list_to_set ((lsp_external_ref <$> L) ++ (sr_external_ref <$> S)).

(** The break a reference deserves: a payment the file does not know, a line the ledger does
    not know, or two that differ in amount or currency, each with the identifier and amounts
    of its own side. *)
Definition deserved (L : list LedgerSettledPayment) (S : list SettlementRecord) (ref : string)
    : option ReconciliationBreak :=
  match latest lsp_external_ref L ref, latest sr_external_ref S ref with
  | Some p, None =>
      Some {| rb_break_type := MISSING_IN_SETTLEMENT; rb_external_ref := ref;
              rb_payment_id := Some (lsp_payment_id p);
              rb_ledger_amount := Some (lsp_amount p); rb_settlement_amount := None;
              rb_details := "payment " +:+ uuid_str (lsp_payment_id p) +:+
                " is settled in the ledger but has no matching record in the settlement file" |}
  | None, Some r =>
      Some {| rb_break_type := MISSING_IN_LEDGER; rb_external_ref := ref; rb_payment_id := None;
              rb_ledger_amount := None; rb_settlement_amount := Some (sr_amount r);
              rb_details := "settlement file reference " +:+ py_repr ref +:+
                " has no matching settled payment in the ledger" |}
  | Some p, Some r =>
      if decide (agree p r) then None else
      Some {| rb_break_type := AMOUNT_MISMATCH; rb_external_ref := ref;
              rb_payment_id := Some (lsp_payment_id p);
              rb_ledger_amount := Some (lsp_amount p); rb_settlement_amount := Some (sr_amount r);
              rb_details := "ledger shows " +:+ dec_str (lsp_amount p) +:+ " " +:+ lsp_currency p +:+
                ", settlement file shows " +:+ dec_str (sr_amount r) +:+ " " +:+ sr_currency r |}
  | None, None => None
  end.

(** Both sides have the reference and agree on it. *)
Definition agreeing (L : list LedgerSettledPayment) (S : list SettlementRecord) (ref : string) : Prop :=
  match latest lsp_external_ref L ref, latest sr_external_ref S ref with
  | Some p, Some r => agree p r
  | _, _ => False
  end.
#[export] Instance agreeing_dec L S ref : Decision (agreeing L S ref).
Proof. unfold agreeing. repeat case_match; apply _. Defined.

(** What a complete and correct report on the two lists is. *)
Record correct_report (L : list LedgerSettledPayment) (S : list SettlementRecord)
    (res : ReconciliationResult) : Prop := {
     (** each break is the one its reference deserves *)
     report_sound : forall b, b ∈ rr_breaks res -> deserved L S (rb_external_ref b) = Some b;
     (** no deserved break is missing *)
     report_complete : forall ref b, deserved L S ref = Some b -> b ∈ rr_breaks res;
     (** at most one break per reference, in sorted order *)
     report_sorted : StronglySorted String.le (rb_external_ref <$> rr_breaks res) /\
                     NoDup (rb_external_ref <$> rr_breaks res);
     (** the counter counts exactly the references both sides agree on *)
     report_matched : rr_matched_count res =
       Z.of_nat (size (filter (agreeing L S) (references L S)));
   }.

(** * Lemmas *)

Lemma dec_eqb_quiet a b : quiet a -> quiet b -> exists r, dec_eqb a b = Ok r.
Proof. unfold quiet. destruct a as [| |[]], b as [| |[]]; simpl; eauto; done. Qed.

Lemma foldl_by_ref_lookup {A} (ref : A -> string) xs (m : gmap string A) k :
  foldl (fun m x => <[ref x := x]> m) m xs !! k =
  match last (filter (fun x => ref x = k) xs) with Some x => Some x | None => m !! k end.
Proof.
  revert m. induction xs as [|x xs IH]; intros m; [done|]. simpl foldl. rewrite IH, filter_cons.
  destruct (decide (ref x = k)) as [<-|Hne].
  - rewrite last_cons, lookup_insert_eq. by destruct (last _).
  - by rewrite lookup_insert_ne.
Qed.

Lemma by_ref_lookup {A} (ref : A -> string) xs k :
  by_ref ref xs !! k = last (filter (fun x => ref x = k) xs).
Proof. unfold by_ref. rewrite foldl_by_ref_lookup, lookup_empty. by destruct (last _). Qed.

Lemma by_ref_elem {A} (ref : A -> string) xs k x :
  by_ref ref xs !! k = Some x -> x ∈ xs /\ ref x = k.
Proof.
  rewrite by_ref_lookup. intros H%last_Some_elem_of. apply list_elem_of_filter in H. tauto.
Qed.

Lemma by_ref_shadowed {A} (ref : A -> string) l1 x l2 :
  ref x ∈ (ref <$> l2) -> by_ref ref (l1 ++ x :: l2) = by_ref ref (l1 ++ l2).
Proof.
  intros Hin. apply map_eq. intros k. rewrite !by_ref_lookup, !filter_app, filter_cons.
  case_decide as Hk; [|done]. rewrite !last_app, last_cons.
  destruct (last (filter _ l2)) eqn:Hl; [done|].
  apply last_None in Hl. exfalso.
  apply list_elem_of_fmap in Hin as (y & Hy & Hyin).
  assert (y ∈ filter (fun x => ref x = k) l2) as Hf by (apply list_elem_of_filter; split; congruence).
  rewrite Hl in Hf. by apply not_elem_of_nil in Hf.
Qed.

Section Loop.
Context (lm : gmap string LedgerSettledPayment) (sm : gmap string SettlementRecord).
Context (Hlq : forall k p, lm !! k = Some p -> quiet (lsp_amount p)).
Context (Hsq : forall k s, sm !! k = Some s -> quiet (sr_amount s)).

(** One iteration either counts a match or appends the verdict. *)
Lemma match_one_verdict acc ref :
  ref ∈ dom lm ∪ dom sm ->
  match_one lm sm acc ref = Ok match verdict lm sm ref with
  | None => {| rr_matched_count := rr_matched_count acc + 1; rr_breaks := rr_breaks acc |}
  | Some b => {| rr_matched_count := rr_matched_count acc; rr_breaks := rr_breaks acc ++ [b] |}
  end.
Proof.
  intros Hin. unfold match_one, verdict.
  destruct (lm !! ref) as [p|] eqn:Hp, (sm !! ref) as [s|] eqn:Hs; try done.
  - destruct (dec_eqb_quiet _ _ (Hlq _ _ Hp) (Hsq _ _ Hs)) as [r Hr].
  rewrite Hr. simpl.
  destruct r; case_bool_decide; case_decide as Ha;
    unfold agree in Ha; rewrite Hr in Ha; simpl; (done || exfalso; naive_solver).
  - apply elem_of_union in Hin as [[? ?]%elem_of_dom|[? ?]%elem_of_dom]; congruence.
Qed.

Lemma match_loop refs acc :
  (forall ref, ref ∈ refs -> ref ∈ dom lm ∪ dom sm) ->
  fold_res (match_one lm sm) acc refs =
  Ok {| rr_matched_count := rr_matched_count acc +
        Z.of_nat (length (filter (fun ref => verdict lm sm ref = None) refs));
      rr_breaks := rr_breaks acc ++ omap (verdict lm sm) refs |}.
Proof.
  revert acc. induction refs as [|ref refs IH]; intros acc Hin; simpl fold_res.
  { rewrite app_nil_r. destruct acc; simpl. do 2 f_equal. lia. }
  rewrite match_one_verdict by set_solver. rewrite IH by set_solver. rewrite filter_cons.
  simpl. destruct (verdict lm sm ref); simpl.
  - by rewrite <- app_assoc.
  - do 2 f_equal. lia.
Qed.

Lemma verdict_ref ref b : verdict lm sm ref = Some b -> rb_external_ref b = ref.
Proof. unfold verdict. intros H. repeat case_match; naive_solver. Qed.

Lemma verdict_dom ref b : verdict lm sm ref = Some b -> ref ∈ dom lm ∪ dom sm.
Proof.
  unfold verdict. intros H. apply elem_of_union. rewrite !elem_of_dom.
  destruct (lm !! ref), (sm !! ref); eauto; done.
Qed.

Lemma verdict_none ref :
  ref ∈ dom lm ∪ dom sm -> verdict lm sm ref = None <-> agreed lm sm ref.
Proof.
  unfold verdict, agreed. rewrite elem_of_union, !elem_of_dom. intros Hin.
  destruct (lm !! ref) as [p|], (sm !! ref) as [s|]; try case_decide; naive_solver.
Qed.

Lemma omap_verdict_refs (refs : list string) :
  rb_external_ref <$> omap (verdict lm sm) refs =
  filter (fun ref => is_Some (verdict lm sm ref)) refs.
Proof.
  induction refs as [|ref refs IH]; [done|]. rewrite filter_cons. simpl.
  destruct (verdict lm sm ref) as [b|] eqn:Hv; csimpl.
  - by rewrite (verdict_ref _ _ Hv), IH.
  - done.
Qed.
End Loop.

(** * Properties *)

Lemma match_refs_quiet L S :
  Forall (fun p => quiet (lsp_amount p)) L -> Forall (fun s => quiet (sr_amount s)) S ->
  let lm := by_ref lsp_external_ref L in
  let sm := by_ref sr_external_ref S in
  match_refs L S = Ok
    {| rr_matched_count :=
         Z.of_nat (length (filter (fun ref => verdict lm sm ref = None) (all_refs lm sm)));
       rr_breaks := omap (verdict lm sm) (all_refs lm sm) |}.
Proof.
  intros HL HS lm sm. unfold match_refs. rewrite match_loop; [done|..].
  - intros k p [Hp _]%by_ref_elem. by eapply Forall_forall in HL.
  - intros k s [Hs _]%by_ref_elem. by eapply Forall_forall in HS.
  - intros ref. unfold all_refs. by rewrite merge_sort_Permutation, elem_of_elements.
Qed.

Lemma all_refs_elem lm sm ref : ref ∈ all_refs lm sm <-> ref ∈ dom lm ∪ dom sm.
Proof. unfold all_refs. by rewrite merge_sort_Permutation, elem_of_elements. Qed.

Lemma all_refs_nodup lm sm : NoDup (all_refs lm sm).
Proof. unfold all_refs. rewrite merge_sort_Permutation. apply NoDup_elements. Qed.

Lemma StronglySorted_filter {A} (R : relation A) (P : A -> Prop) `{forall x, Decision (P x)} l :
  StronglySorted R l -> StronglySorted R (filter P l).
Proof.
  induction 1 as [|x l Hl IH Hx]; [constructor|]. rewrite filter_cons.
  case_decide; [|done]. constructor; [done|]. apply Forall_forall.
  intros y [_ Hy]%list_elem_of_filter. by eapply Forall_forall in Hx.
Qed.

Lemma length_filter_omap {A B} (f : A -> option B) `{forall x, Decision (f x = None)} l :
  (length (filter (fun x => f x = None) l) + length (omap f l))%nat = length l.
Proof.
  induction l as [|x l IH]; [done|]. rewrite filter_cons. simpl.
  case_decide as Hx; destruct (f x) eqn:E; naive_solver lia.
Qed.

(** The keyed sides are the lists, seen by reference. *)
Lemma by_ref_dom {A} (ref : A -> string) xs : dom (by_ref ref xs) = list_to_set (ref <$> xs).
Proof.
  apply set_eq. intros k. rewrite elem_of_dom, elem_of_list_to_set, by_ref_lookup, list_elem_of_fmap. split.
  - intros [x Hx%last_Some_elem_of]. apply list_elem_of_filter in Hx as [<- Hx]. by exists x.
  - intros (x & -> & Hx). destruct (last _) eqn:Hl; [done|]. apply last_None in Hl.
    assert (Hf : x ∈ filter (fun y => ref y = ref x) xs) by by apply list_elem_of_filter.
    rewrite Hl in Hf. by apply not_elem_of_nil in Hf.
Qed.

Lemma references_dom L S :
  dom (by_ref lsp_external_ref L) ∪ dom (by_ref sr_external_ref S) = references L S.
Proof. by rewrite !by_ref_dom, <- list_to_set_app_L. Qed.

Lemma verdict_deserved L S ref :
  verdict (by_ref lsp_external_ref L) (by_ref sr_external_ref S) ref = deserved L S ref.
Proof. unfold verdict, deserved. by rewrite !by_ref_lookup. Qed.

Lemma agreed_agreeing L S ref :
  agreed (by_ref lsp_external_ref L) (by_ref sr_external_ref S) ref <-> agreeing L S ref.
Proof. unfold agreed, agreeing. by rewrite !by_ref_lookup. Qed.

(** Unless an amount is a signalling NaN, [match] returns a correct report. *)
Lemma match_refs_correct L S :
  Forall (fun p => quiet (lsp_amount p)) L -> Forall (fun s => quiet (sr_amount s)) S ->
  exists res, match_refs L S = Ok res /\ correct_report L S res /\
    rr_matched_count res + break_count res = Z.of_nat (size (references L S)).
Proof.
  intros HL HS. eexists. split; [by apply match_refs_quiet|].
  set (lm := by_ref lsp_external_ref L). set (sm := by_ref sr_external_ref S). set (refs := all_refs lm sm).
  assert (Hlen : (length (filter (fun ref => verdict lm sm ref = None) refs) +
            length (omap (verdict lm sm) refs))%nat = size (references L S)).
  { rewrite length_filter_omap, <- references_dom. unfold refs, all_refs. by rewrite merge_sort_Permutation. }
  split; [constructor|unfold break_count; simpl in *; lia]; simpl.
  - intros b (ref & _ & Hv)%list_elem_of_omap. rewrite <- verdict_deserved. fold lm sm.
    by rewrite (verdict_ref _ _ _ _ Hv).
  - intros ref b Hv. rewrite <- verdict_deserved in Hv. apply list_elem_of_omap. exists ref. split; [|done].
    apply all_refs_elem. by eapply verdict_dom.
  - rewrite omap_verdict_refs. split.
    + apply StronglySorted_filter. apply StronglySorted_merge_sort; apply _.
    + apply NoDup_filter, all_refs_nodup.
  - f_equal. unfold size at 1, set_size. simpl. apply Permutation_length.
    apply NoDup_Permutation; [apply NoDup_filter, all_refs_nodup|apply NoDup_elements|].
    intros ref. unfold refs.
    rewrite elem_of_elements, elem_of_filter, list_elem_of_filter, all_refs_elem, <- references_dom.
    rewrite <- agreed_agreeing. fold lm sm.
    split; intros [H1 H2]; (split; [|done]); by apply (verdict_none lm sm).
Qed.

Definition demo_lsp (id : UUID) (ref : string) (cents : Z) (ccy : string) : LedgerSettledPayment :=
  {| lsp_payment_id := id; lsp_external_ref := ref; lsp_amount := of_cents cents; lsp_currency := ccy |}.
Definition demo_record (ref : string) (cents : Z) (ccy : string) : SettlementRecord :=
  {| sr_external_ref := ref; sr_amount := of_cents cents; sr_currency := ccy;
     sr_settled_at := {| dt_wall := 0; dt_offset := Some 0 |}; sr_raw_line := "" |}.
Definition demo_L := [demo_lsp 7 "E2E-2" 500 "SGD"; demo_lsp 8 "E2E-1" 100 "SGD"; demo_lsp 9 "E2E-3" 1 "SGD"].
Definition demo_S := [demo_record "E2E-1" 100 "SGD"; demo_record "E2E-2" 501 "SGD"; demo_record "E2E-9" 5 "USD"].

(** Settled payments that share an external reference collapse: a payment followed in
    the list by another one with the same reference has no influence on the report, so it is
    neither matched nor reported as a break. *)
Lemma match_refs_ignores_shadowed L1 p L2 S :
  lsp_external_ref p ∈ (lsp_external_ref <$> L2) ->
  match_refs (L1 ++ p :: L2) S = match_refs (L1 ++ L2) S.
Proof. intros Hp. unfold match_refs. by rewrite by_ref_shadowed. Qed.

(** C38. The report of [match], unless an amount is a signalling NaN, whose comparison raises.
    It contains exactly the deserved break for every reference of either side: a settled
    payment without a record, a record without a payment, or the two with different amounts
    or currencies, under its type, reference and payment, with the ledger's amount as the
    ledger's and the file's as the file's, and the text that says so; one per reference in
    sorted order.  It counts exactly the references on which the two sides agree, and every
    reference is accounted for once.  References, not payments: a settled payment followed
    in the list by another one with the same external reference has no influence on the
    report, and is neither matched nor reported as a break. *)
Theorem match_refs_report L S :
  (Forall (fun p => quiet (lsp_amount p)) L -> Forall (fun s => quiet (sr_amount s)) S ->
   exists res, match_refs L S = Ok res /\ correct_report L S res /\
     rr_matched_count res + break_count res = Z.of_nat (size (references L S))) /\
  (forall L1 p L2, L = L1 ++ p :: L2 -> lsp_external_ref p ∈ (lsp_external_ref <$> L2) ->
   match_refs L S = match_refs (L1 ++ L2) S).
Proof.
  split; [apply match_refs_correct|]. intros L1 p L2 ->. apply match_refs_ignores_shadowed.
Qed.

Lemma match_refs_report_witness :
  (exists res, match_refs demo_L demo_S = Ok res /\ correct_report demo_L demo_S res /\
     rr_matched_count res + break_count res = Z.of_nat (size (references demo_L demo_S))) /\
  map_err (fun _ => tt) ((fun r => (rr_matched_count r,
      (fun b => (rb_break_type b, rb_payment_id b, rb_ledger_amount b, rb_settlement_amount b)) <$> rr_breaks r))
    <$> match_refs demo_L demo_S) =
    Ok (1, [(AMOUNT_MISMATCH, Some 7%N, Some (of_cents 500), Some (of_cents 501));
            (MISSING_IN_SETTLEMENT, Some 9%N, Some (of_cents 1), None);
            (MISSING_IN_LEDGER, None, None, Some (of_cents 5))]).
Proof.
  split; [|by vm_compute]. apply (proj1 (match_refs_report demo_L demo_S)); repeat constructor; discriminate.
Defined.
