(* ===== verification/Csv.v ===== *)
(** Csv: app/infra/reconciliation/csv_loader.py.

    The settlement file loader, over the standard library's csv.DictReader in the excel
    dialect it uses.  A text is the sequence of its characters; StringIO hands the reader
    the lines that end at a line feed or at the end of the text. *)
From S2P Require Import Prelude Decimals PyText PyTime PyTimeFacts DecText Recon.

#[local] Open Scope Z_scope.

(** * csv.reader *)

Inductive CsvState :=
| START_RECORD | START_FIELD | IN_FIELD | IN_QUOTED_FIELD | QUOTE_IN_QUOTED_FIELD | EAT_CRNL.
#[export] Instance CsvState_eq_dec : EqDecision CsvState.
Proof. solve_decision. Defined.

(** The field being read and the fields of the record, last first. *)
Record Reader := { rd_state : CsvState; rd_field : list ascii; rd_fields : list string }.
Definition fresh_reader : Reader := {| rd_state := START_RECORD; rd_field := []; rd_fields := [] |}.

Definition LF : ascii := ascii_of_N 10.
Definition CR : ascii := ascii_of_N 13.
Definition COMMA : ascii := ascii_of_N 44.
Definition QUOTE : ascii := ascii_of_N 34.
Definition is_newline (c : ascii) : bool := bool_decide (c = LF) || bool_decide (c = CR).

(** [csv.field_size_limit()] *)
Definition FIELD_LIMIT : Z := 131072.

Definition goto (r : Reader) (st : CsvState) : Reader :=
  {| rd_state := st; rd_field := rd_field r; rd_fields := rd_fields r |}.
Definition save_field (r : Reader) (st : CsvState) : Reader :=
  {| rd_state := st; rd_field := []; rd_fields := string_of_list_ascii (rev (rd_field r)) :: rd_fields r |}.
Definition add_char (r : Reader) (st : CsvState) (c : ascii) : option Reader :=
  if Z.of_nat (length (rd_field r)) <? FIELD_LIMIT
  then Some {| rd_state := st; rd_field := c :: rd_field r; rd_fields := rd_fields r |}
  else None.

(** [START_FIELD], which [START_RECORD] falls through to. *)
Definition start_field (r : Reader) (c : ascii) : option Reader :=
  if is_newline c then Some (save_field r EAT_CRNL)
  else if bool_decide (c = QUOTE) then Some (goto r IN_QUOTED_FIELD)
  else if bool_decide (c = COMMA) then Some (save_field r START_FIELD)
  else add_char r IN_FIELD c.

(** One character; [None] is the csv.Error. *)
Definition process_char (r : Reader) (c : ascii) : option Reader :=
  match rd_state r with
  | START_RECORD => if is_newline c then Some (goto r EAT_CRNL) else start_field r c
  | START_FIELD => start_field r c
  | IN_FIELD =>
      if is_newline c then Some (save_field r EAT_CRNL)
      else if bool_decide (c = COMMA) then Some (save_field r START_FIELD)
      else add_char r IN_FIELD c
  | IN_QUOTED_FIELD =>
      if bool_decide (c = QUOTE) then Some (goto r QUOTE_IN_QUOTED_FIELD)
      else add_char r IN_QUOTED_FIELD c
  | QUOTE_IN_QUOTED_FIELD =>
      if bool_decide (c = QUOTE) then add_char r IN_QUOTED_FIELD c
      else if bool_decide (c = COMMA) then Some (save_field r START_FIELD)
      else if is_newline c then Some (save_field r EAT_CRNL)
      else add_char r IN_FIELD c
  | EAT_CRNL => if is_newline c then Some r else None
  end.

(** The end of a line. *)
Definition process_eol (r : Reader) : Reader :=
  match rd_state r with
  | START_RECORD | IN_QUOTED_FIELD => r
  | START_FIELD | IN_FIELD | QUOTE_IN_QUOTED_FIELD => save_field r START_RECORD
  | EAT_CRNL => goto r START_RECORD
  end.

Definition record_of (r : Reader) : list string := rev (rd_fields r).

(** What the reader does when its input ends inside a record. *)
Definition at_end (r : Reader) : list (list string) :=
  if negb (bool_decide (rd_field r = [])) || bool_decide (rd_state r = IN_QUOTED_FIELD)
  then [record_of (save_field r START_RECORD)] else [].

Definition ends_line (c : ascii) (rest : list ascii) : bool :=
  bool_decide (c = LF) || bool_decide (rest = []).

(** The records of a text, and whether a csv.Error follows them. *)
Fixpoint csv_rows (r : Reader) (l : list ascii) : list (list string) * bool :=
  match l with
  | [] => (at_end r, false)
  | c :: l' =>
      match process_char r c with
      | None => ([], true)
      | Some r1 =>
          if ends_line c l' then
            let r2 := process_eol r1 in
            if bool_decide (rd_state r2 = START_RECORD) then
              let '(rows, error) := csv_rows fresh_reader l' in (record_of r2 :: rows, error)
            else csv_rows r2 l'
          else csv_rows r1 l'
      end
  end.

(** * csv.DictReader *)

(** A value of a row: a text, None where the row is too short, or the surplus of one that is
    too long. *)
Inductive Cell := Text (s : string) | Missing | Surplus (l : list string).

(** A dict keeps the place of a key that is set again. *)
Fixpoint dict_set {K V} `{EqDecision K} (d : list (K * V)) (k : K) (v : V) : list (K * V) :=
  match d with
  | [] => [(k, v)]
  | (k', v') :: d' => if decide (k' = k) then (k, v) :: d' else (k', v') :: dict_set d' k v
  end.
Fixpoint dict_lookup {K V} `{EqDecision K} (d : list (K * V)) (k : K) : option V :=
  match d with [] => None | (k', v) :: d' => if decide (k' = k) then Some v else dict_lookup d' k end.

(** The key None is the restkey. *)
Definition Row : Type := list (option string * Cell).
Definition row_dict (fieldnames row : list string) : Row :=
  let d := foldl (fun d kv => dict_set d (Some kv.1) (Text kv.2)) [] (zip fieldnames row) in
  if (length fieldnames <? length row)%nat
  then dict_set d None (Surplus (drop (length fieldnames) row))
  else foldl (fun d k => dict_set d (Some k) Missing) d (drop (length row) fieldnames).

(** * parse_settlement_csv *)

Definition REQUIRED_COLUMNS : list string := ["external_ref"; "amount"; "currency"; "settled_at"]%string.

(** The ways the loader fails: the three SettlementCsvErrors, and the exceptions that are
    none. *)
Inductive CsvFailure :=
| MissingColumns
| BadRow (line_number : Z)
| NoDataRows
| RowKeyError
| RowAttributeError
| ReaderError.
#[export] Instance CsvFailure_eq_dec : EqDecision CsvFailure.
Proof. solve_decision. Defined.

(** [row[name].strip()] *)
Definition stripped (row : Row) (name : string) : result CsvFailure string :=
  match dict_lookup row (Some name) with
  | Some (Text s) => Ok (strip s)
  | Some _ => Err RowAttributeError
  | None => Err RowKeyError
  end.

Definition cell_str (c : Cell) : string :=
  match c with
  | Text s => s
  | Missing => "None"
  | Surplus l => "[" +:+ String.concat ", " (py_repr <$> l) +:+ "]"
  end.
Definition raw_line_of (row : Row) : string :=
  String.concat "," ((fun kv => default "None"%string kv.1 +:+ "=" +:+ cell_str kv.2) <$> row).

Definition record_of_row (line_number : Z) (row : Row) : result CsvFailure SettlementRecord :=
  external_ref ← stripped row "external_ref";
  amount_text ← stripped row "amount";
  amount ← or_raise (decimal_of_str amount_text) (BadRow line_number);
  currency ← stripped row "currency";
  settled_at_text ← stripped row "settled_at";
  settled_at ← or_raise (fromisoformat settled_at_text) (BadRow line_number);
  Ok {| sr_external_ref := external_ref; sr_amount := amount; sr_currency := upper currency;
        sr_settled_at := settled_at; sr_raw_line := raw_line_of row |}.

(** The loop over the rows that DictReader returns; it skips the empty ones. *)
Fixpoint records_of (fieldnames : list string) (line_number : Z) (rows : list (list string))
    : result CsvFailure (list SettlementRecord) :=
  match rows with
  | [] => Ok []
  | [] :: rows' => records_of fieldnames line_number rows'
  | row :: rows' =>
      record ← record_of_row line_number (row_dict fieldnames row);
      records ← records_of fieldnames (line_number + 1) rows';
      Ok (record :: records)
  end.

Definition parse_settlement_csv (content : string) : result CsvFailure (list SettlementRecord) :=
  let '(rows, error) := csv_rows fresh_reader (list_ascii_of_string content) in
  match rows with
  | [] => Err (if error then ReaderError else MissingColumns)
  | fieldnames :: rows' =>
      raise_if (negb (forallb (fun c => bool_decide (c ∈ fieldnames)) REQUIRED_COLUMNS)) MissingColumns ;;
      records ← records_of fieldnames 2 rows';
      raise_if error ReaderError ;;
      raise_if (bool_decide (records = [])) NoDataRows ;;
      Ok records
  end.
