(* ===== verification/CsvFacts.v ===== *)
(** CsvFacts: settlement files read back (app/infra/reconciliation/csv_loader.py). *)
From S2P Require Import Prelude Decimals PyText PyTime PyTimeFacts DecText Recon Csv.

#[local] Open Scope Z_scope.

(** * Files with every field quoted *)

Definition quote_char (c : ascii) : list ascii := if bool_decide (c = QUOTE) then [QUOTE; QUOTE] else [c].
Definition quoted (s : string) : list ascii :=
  QUOTE :: (list_ascii_of_string s ≫= quote_char) ++ [QUOTE].
Fixpoint record_fields (fields : list string) : list ascii :=
  match fields with
  | [] => []
  | [f] => quoted f
  | f :: fields' => quoted f ++ COMMA :: record_fields fields'
  end.
Definition record_text (fields : list string) : list ascii := record_fields fields ++ [CR; LF].
Definition file_text (rows : list (list string)) : list ascii := rows ≫= record_text.

(** A field the reader accepts. *)
Definition short (s : string) : Prop := len s <= FIELD_LIMIT.

Lemma csv_rows_step r c l r1 :
  process_char r c = Some r1 -> c <> LF -> l <> [] -> csv_rows r (c :: l) = csv_rows r1 l.
Proof.
  intros Hc Hlf Hl. cbn [csv_rows]. rewrite Hc. unfold ends_line.
  by rewrite !bool_decide_false by done.
Qed.

Lemma csv_rows_quoted_char r c l :
  rd_state r = IN_QUOTED_FIELD -> Z.of_nat (length (rd_field r)) < FIELD_LIMIT -> l <> [] ->
  csv_rows r (quote_char c ++ l) =
  csv_rows {| rd_state := IN_QUOTED_FIELD; rd_field := c :: rd_field r; rd_fields := rd_fields r |} l.
Proof.
  intros Hst Hlen Hl. unfold quote_char. destruct (decide (c = QUOTE)) as [->|Hc].
  - rewrite bool_decide_true by done. cbn [app]. rewrite (csv_rows_step _ _ _ (goto r QUOTE_IN_QUOTED_FIELD));
      [|by unfold process_char; rewrite Hst|done|done].
    apply csv_rows_step; [|done|done]. unfold process_char, add_char. cbn [goto rd_state rd_field].
    destruct (Z.ltb_spec (Z.of_nat (length (rd_field r))) FIELD_LIMIT); [done|lia].
  - rewrite bool_decide_false by done. cbn [app csv_rows].
    set (r1 := {| rd_state := IN_QUOTED_FIELD |}).
    assert (Hp : process_char r c = Some r1).
    { unfold process_char, add_char. rewrite Hst, bool_decide_false by done.
      by destruct (Z.ltb_spec (Z.of_nat (length (rd_field r))) FIELD_LIMIT); [|lia]. }
    rewrite Hp. destruct (ends_line c l); [|done]. by rewrite bool_decide_false by done.
Qed.

Lemma csv_rows_quoted_chars cs r l :
  rd_state r = IN_QUOTED_FIELD -> Z.of_nat (length (rd_field r) + length cs) <= FIELD_LIMIT -> l <> [] ->
  csv_rows r ((cs ≫= quote_char) ++ l) =
  csv_rows {| rd_state := IN_QUOTED_FIELD; rd_field := rev cs ++ rd_field r; rd_fields := rd_fields r |} l.
Proof.
  revert r. induction cs as [|c cs IH]; intros r Hst Hlen Hl.
  - destruct r; simpl in *. by rewrite Hst.
  - cbn [length] in Hlen. cbn [mbind list_bind]. rewrite <- app_assoc.
    rewrite csv_rows_quoted_char; [|done|lia|by destruct (cs ≫= quote_char)].
    change (list_bind _ _ quote_char cs) with (cs ≫= quote_char).
    rewrite IH by (cbn [rd_state rd_field length]; done || lia).
    cbn [rd_field rd_fields rev]. by rewrite <- app_assoc.
Qed.

Lemma csv_rows_quoted s r l :
  rd_state r = START_RECORD \/ rd_state r = START_FIELD -> rd_field r = [] -> short s -> l <> [] ->
  csv_rows r (quoted s ++ l) =
  csv_rows {| rd_state := QUOTE_IN_QUOTED_FIELD; rd_field := rev (list_ascii_of_string s);
              rd_fields := rd_fields r |} l.
Proof.
  intros Hst Hf Hs Hl. unfold quoted. cbn [app].
  rewrite (csv_rows_step _ _ _ (goto r IN_QUOTED_FIELD)); [|by destruct Hst as [Hst|Hst]; unfold process_char; rewrite Hst|done|].
  2: { by destruct (_ ≫= _); [|intros ?]. }
  rewrite <- app_assoc. rewrite csv_rows_quoted_chars; [|done| |done].
  2: { unfold short, len in Hs. rewrite <- length_list_string in Hs. cbn [goto rd_field]. rewrite Hf. exact Hs. }
  cbn [app goto rd_field rd_fields]. rewrite Hf, app_nil_r. by apply csv_rows_step.
Qed.

Lemma record_fields_nonempty f fs : record_fields (f :: fs) <> [].
Proof. by destruct fs. Qed.

(** One record up to its carriage return, from the start of one of its fields. *)
Lemma csv_rows_fields f fs r l :
  rd_state r = START_RECORD \/ rd_state r = START_FIELD -> rd_field r = [] ->
  Forall short (f :: fs) -> l <> [] ->
  csv_rows r (record_fields (f :: fs) ++ CR :: l) =
  csv_rows {| rd_state := EAT_CRNL; rd_field := []; rd_fields := rev (f :: fs) ++ rd_fields r |} l.
Proof.
  intros Hst Hf Hs Hl. revert f r Hst Hf Hs. induction fs as [|g fs IH]; intros f r Hst Hf Hs.
  - cbn [record_fields]. rewrite csv_rows_quoted; [|done|done|by inversion Hs|done].
    apply csv_rows_step; [|done|done]. unfold process_char, save_field. cbn.
    by rewrite rev_involutive, string_of_list_ascii_of_string.
  - change (record_fields (f :: g :: fs)) with (quoted f ++ COMMA :: record_fields (g :: fs)).
    rewrite <- app_assoc. rewrite csv_rows_quoted; [|done|done|by inversion Hs|done].
    cbn [app]. rewrite (csv_rows_step _ _ _ {| rd_state := START_FIELD; rd_field := [];
      rd_fields := f :: rd_fields r |}); [|by unfold process_char, save_field; cbn;
        rewrite rev_involutive, string_of_list_ascii_of_string|done|].
    2: { pose proof (record_fields_nonempty g fs). by destruct (record_fields (g :: fs)). }
    rewrite IH; [|by right|done|by inversion Hs]. cbn [rd_fields rev]. by rewrite <- !app_assoc.
Qed.

Lemma csv_rows_record f fs l :
  Forall short (f :: fs) ->
  csv_rows fresh_reader (record_text (f :: fs) ++ l) =
  let '(rows, error) := csv_rows fresh_reader l in ((f :: fs) :: rows, error).
Proof.
  intros Hs. unfold record_text. rewrite <- app_assoc. cbn [app].
  rewrite csv_rows_fields; [|by left|done|done|done].
  rewrite app_nil_r. set (r := {| rd_state := EAT_CRNL |}).
  assert (Hr : record_of (process_eol r) = f :: fs) by apply rev_involutive.
  rewrite <- Hr. reflexivity.
Qed.

(** The reader gives back the records of a quoted file. *)
Lemma csv_rows_file rows :
  Forall (fun row => row <> [] /\ Forall short row) rows -> csv_rows fresh_reader (file_text rows) = (rows, false).
Proof.
  induction 1 as [|row rows [Hne Hs] _ IH]; [done|].
  change (file_text (row :: rows)) with (record_text row ++ file_text rows).
  destruct row as [|f fs]; [done|]. rewrite csv_rows_record by done. by rewrite IH.
Qed.

(** * Rows as dicts *)

Lemma dict_set_new {K V} `{EqDecision K} (d : list (K * V)) k v : k ∉ d.*1 -> dict_set d k v = d ++ [(k, v)].
Proof.
  induction d as [|[k' v'] d IH]; intros Hk; [done|]. cbn [dict_set fmap list_fmap fst] in *.
  apply not_elem_of_cons in Hk as [Hne Hk]. rewrite decide_False by done. cbn [app]. by rewrite IH.
Qed.

(** The row of a file whose columns all differ, given the text under each. *)
Definition text_row (value : string -> string) (columns : list string) : Row :=
  (fun c => (Some c, Text (value c))) <$> columns.

Lemma row_dict_fields value columns :
  NoDup columns -> row_dict columns (value <$> columns) = text_row value columns.
Proof.
  intros Hnd. unfold row_dict. rewrite length_fmap, Nat.ltb_irrefl, drop_all. cbn [foldl].
  assert (Hgen : forall cols (d : Row), NoDup cols -> (forall c, c ∈ cols -> Some c ∉ d.*1) ->
    foldl (fun (d : Row) kv => dict_set d (Some kv.1) (Text kv.2)) d (zip cols (value <$> cols)) =
    d ++ text_row value cols).
  { induction cols as [|c cols IH]; intros d Hn Hd; [by rewrite app_nil_r|].
    cbn [fmap list_fmap]. cbn [zip zip_with foldl fst snd].
    apply NoDup_cons in Hn as [Hc Hn].
    rewrite dict_set_new by (apply Hd; left). rewrite IH; [by rewrite <- app_assoc|done|].
    intros c' Hc'. rewrite fmap_app, elem_of_app. intros [Hin|Hin].
    - by apply (Hd c'); [right|].
    - apply list_elem_of_singleton in Hin. by injection Hin as ->. }
  by rewrite Hgen by (done || by intros c _ ?%not_elem_of_nil).
Qed.

Lemma text_row_lookup value columns c :
  c ∈ columns -> dict_lookup (text_row value columns) (Some c) = Some (Text (value c)).
Proof.
  induction columns as [|c' columns IH]; [by intros ?%not_elem_of_nil|]. intros Hc. cbn.
  destruct (decide (Some c' = Some c)) as [[= ->]|Hne]; [done|]. apply IH.
  apply elem_of_cons in Hc as [->|Hc]; [done|done].
Qed.

Lemma raw_line_text_row value columns :
  raw_line_of (text_row value columns) = String.concat "," ((fun c => c +:+ "=" +:+ value c) <$> columns).
Proof. unfold raw_line_of, text_row. by rewrite <- list_fmap_compose. Qed.

(** * Settlement files *)

(** A settled transaction, as a network reports it. *)
Record Settled := { se_ref : string; se_amount : Decimal; se_currency : string; se_at : Z }.

(** Its text under a column; other columns hold anything. *)
Definition column_text (extra : string -> string) (e : Settled) (column : string) : string :=
  if decide (column = "external_ref"%string) then se_ref e
  else if decide (column = "amount"%string) then dec_str (se_amount e)
  else if decide (column = "currency"%string) then se_currency e
  else if decide (column = "settled_at"%string) then isoformat_seconds (se_at e)
  else extra column.

Record writable (columns : list string) (extra : string -> string) (e : Settled) : Prop := {
  wr_ref : strip (se_ref e) = se_ref e;
  wr_amount : exists s c x, se_amount e = Fin s c x /\ representable c x = true;
  wr_currency : strip (se_currency e) = se_currency e /\ upper (se_currency e) = se_currency e;
  wr_at : 1 - EPOCH <= se_at e / 1000000 / 86400 <= MAX_ORDINAL - EPOCH;
  wr_short : Forall short (column_text extra e <$> columns);
}.

(** The record the loader should make of it. *)
Definition read_back (columns : list string) (extra : string -> string) (e : Settled) : SettlementRecord :=
  {| sr_external_ref := se_ref e; sr_amount := se_amount e; sr_currency := se_currency e;
     sr_settled_at := {| dt_wall := se_at e / 1000000 * 1000000; dt_offset := Some 0 |};
     sr_raw_line := String.concat "," ((fun c => c +:+ "=" +:+ column_text extra e c) <$> columns) |}.

Definition settlement_file (columns : list string) (extra : string -> string) (es : list Settled) : string :=
  string_of_list_ascii (file_text (columns :: ((fun e => column_text extra e <$> columns) <$> es))).

Lemma digit_no_space d : (d < 10)%N -> is_space (digit_char d) = false.
Proof. intros Hd. by apply number_char_plain; left; exists d. Qed.

Lemma strip_isoformat t : strip (isoformat_seconds t) = isoformat_seconds t.
Proof.
  assert (Hdig : forall k n, Forall (fun c => is_space c = false) (fixed_digits k n)).
  { induction k as [|k IH]; intros n; [constructor|]. cbn [fixed_digits]. apply Forall_app. split; [apply IH|].
    constructor; [|constructor]. apply digit_no_space. pose proof (Z.mod_pos_bound n 10 ltac:(lia)). lia. }
  apply strip_plain. unfold isoformat_seconds. destruct (ord_to_ymd _) as [[y m] d].
  rewrite list_ascii_of_string_of_list_ascii.
  repeat first [apply Hdig | apply Forall_app; split; [apply Hdig|] | apply Forall_cons; split; [reflexivity|]].
Qed.

Lemma strip_dec_str s c e : strip (dec_str (Fin s c e)) = dec_str (Fin s c e).
Proof.
  apply strip_plain. destruct (dec_str_printed s c e) as (ip & fp & ex & Hp).
  eapply Forall_impl; [exact (printed_chars _ _ _ _ _ _ _ Hp)|]. by intros x [Hx _]%number_char_plain.
Qed.

Section files.
Context (columns : list string) (extra : string -> string).
Context (Hdistinct : NoDup columns) (Hcolumns : forall c, c ∈ REQUIRED_COLUMNS -> c ∈ columns).

Lemma record_of_entry n e :
  writable columns extra e ->
  record_of_row n (row_dict columns (column_text extra e <$> columns)) = Ok (read_back columns extra e).
Proof.
  intros [Href (s & c & x & Ham & Hrep) [Hccy Hup] Hat _]. rewrite row_dict_fields by done.
  unfold record_of_row, stripped. rewrite !text_row_lookup by (apply Hcolumns; unfold REQUIRED_COLUMNS; set_solver).
  cbn [mbind result_bind].
  change (column_text extra e "external_ref") with (se_ref e).
  change (column_text extra e "amount") with (dec_str (se_amount e)).
  change (column_text extra e "currency") with (se_currency e).
  change (column_text extra e "settled_at") with (isoformat_seconds (se_at e)).
  rewrite Ham, strip_dec_str, decimal_of_str_dec_str by done. cbn [or_raise].
  rewrite strip_isoformat, fromisoformat_isoformat by done. cbn [or_raise].
  rewrite Href, Hccy, Hup, raw_line_text_row. unfold read_back. by rewrite Ham.
Qed.

Lemma records_of_entries n es :
  columns <> [] -> Forall (writable columns extra) es ->
  records_of columns n ((fun e => column_text extra e <$> columns) <$> es) = Ok (read_back columns extra <$> es).
Proof.
  intros Hne Hes. revert n. induction Hes as [|e es He _ IH]; intros n; [done|].
  cbn [fmap list_fmap records_of]. change (list_fmap _ _ (column_text extra e) columns) with (column_text extra e <$> columns).
  pose proof (record_of_entry n e He) as Hrec. destruct (column_text extra e <$> columns) as [|t ts] eqn:Hrow.
  { by destruct columns. }
  rewrite Hrec. cbn [mbind result_bind].
  change (list_fmap _ _ (fun e0 : Settled => column_text extra e0 <$> columns) es)
    with ((fun e0 => column_text extra e0 <$> columns) <$> es).
  by rewrite IH.
Qed.
End files.

(** * Properties *)

(** What the loader promises of every record it returns. *)
Record sound_record (r : SettlementRecord) : Prop := {
  sd_ref : strip (sr_external_ref r) = sr_external_ref r;
  sd_currency : upper (sr_currency r) = sr_currency r;
  sd_amount : forall s c e, sr_amount r = Fin s c e -> representable c e = true;
  sd_settled_at : 1 - EPOCH <= dt_wall (sr_settled_at r) / 86400000000 <= MAX_ORDINAL - EPOCH /\
                  valid_offset (dt_offset (sr_settled_at r)) = true;
}.

Lemma upper_idem s : upper (upper s) = upper s.
Proof.
  unfold upper. rewrite list_ascii_of_string_of_list_ascii. f_equal.
  assert (Hc : forall c, upper_char c ≫= upper_char = upper_char c).
  { intros [[] [] [] [] [] [] [] []]; reflexivity. }
  induction (list_ascii_of_string s) as [|c l IH]; [done|].
  change ((c :: l) ≫= upper_char) with (upper_char c ++ (l ≫= upper_char)).
  by rewrite bind_app, Hc, IH.
Qed.

Lemma lstrip_head l : match lstrip_list l with c :: _ => is_space c = false | [] => True end.
Proof. induction l as [|c l IH]; [done|]. cbn. by destruct (is_space c) eqn:Hc. Qed.

Lemma lstrip_suffix l : exists p, l = p ++ lstrip_list l.
Proof.
  induction l as [|c l [p IH]]; [by exists []|]. cbn. destruct (is_space c); [|by exists []].
  exists (c :: p). by rewrite IH at 1.
Qed.

Lemma lstrip_fixed l : (match l with c :: _ => is_space c = false | [] => True end) -> lstrip_list l = l.
Proof. destruct l as [|c l]; [done|]. cbn. by intros ->. Qed.

Lemma strip_idem s : strip (strip s) = strip s.
Proof.
  unfold strip. rewrite list_ascii_of_string_of_list_ascii. f_equal.
  set (l := lstrip_list (list_ascii_of_string s)). set (m := lstrip_list (rev l)).
  assert (Hl : match rev m with c :: _ => is_space c = false | [] => True end).
  { destruct (lstrip_suffix (rev l)) as [p Hp]. fold m in Hp.
    pose proof (lstrip_head (list_ascii_of_string s)) as Hh. fold l in Hh.
    assert (Hlr : l = rev m ++ rev p) by (by rewrite <- rev_app_distr, <- Hp, rev_involutive).
    rewrite Hlr in Hh. by destruct (rev m). }
  rewrite (lstrip_fixed (rev m)) by done. rewrite rev_involutive. by rewrite (lstrip_fixed m) by apply lstrip_head.
Qed.

Lemma number_of_representable neg l s c e : number_of neg l = Some (Fin s c e) -> representable c e = true.
Proof.
  unfold number_of. destruct (digit_span l) as [ip l1]. destruct (fraction_span l1) as [fp l2].
  destruct (ip ++ fp); [done|]. destruct (exponent_of l2) as [ex|]; [|done]. cbn [mbind option_bind].
  destruct (representable _ _) eqn:Hr; [|done]. by intros [= <- <- <-].
Qed.

Lemma decimal_of_str_representable text s c e : decimal_of_str text = Some (Fin s c e) -> representable c e = true.
Proof.
  unfold decimal_of_str. destruct (sign_span _) as [neg l]. destruct (number_of neg l) as [d|] eqn:Hn.
  - intros [= ->]. by eapply number_of_representable.
  - unfold special_of. by repeat case_match.
Qed.

Lemma record_of_row_sound n row r : record_of_row n row = Ok r -> sound_record r.
Proof.
  unfold record_of_row, stripped.
  destruct (dict_lookup row (Some "external_ref"%string)) as [[ref| |]|]; [|done..]. cbn [mbind result_bind].
  destruct (dict_lookup row (Some "amount"%string)) as [[am| |]|]; [|done..]. cbn [mbind result_bind].
  destruct (decimal_of_str (strip am)) as [d|] eqn:Hd; [|done]. cbn [mbind result_bind or_raise].
  destruct (dict_lookup row (Some "currency"%string)) as [[ccy| |]|]; [|done..]. cbn [mbind result_bind].
  destruct (dict_lookup row (Some "settled_at"%string)) as [[at_| |]|]; [|done..]. cbn [mbind result_bind].
  destruct (fromisoformat (strip at_)) as [dt|] eqn:Hdt; [|done]. cbn [mbind result_bind or_raise].
  intros [= <-]. split; cbn.
  - apply strip_idem.
  - apply upper_idem.
  - intros s c e ->. by eapply decimal_of_str_representable.
  - by eapply fromisoformat_range.
Qed.

Lemma records_of_sound fieldnames n rows rs :
  records_of fieldnames n rows = Ok rs -> Forall sound_record rs.
Proof.
  revert n rs. induction rows as [|[|f row] rows IH]; intros n rs; cbn [records_of].
  - intros [= <-]. constructor.
  - apply IH.
  - destruct (record_of_row n _) as [r|] eqn:Hr; [|done]. cbn [mbind result_bind].
    destruct (records_of fieldnames (n + 1) rows) as [rs'|] eqn:Hrs; [|done]. cbn [mbind result_bind].
    intros [= <-]. constructor; [by eapply record_of_row_sound|by eapply IH].
Qed.

(** What the loader accepts is well-formed, whatever the text: at least one record, and
    in each the reference without surrounding space, the currency in capitals, an amount
    within the library's limits or a special value, and a time within the years 1 to 9999
    with an offset of less than a day. *)
Lemma parse_settlement_csv_well_formed content rs :
  parse_settlement_csv content = Ok rs -> rs <> [] /\ Forall sound_record rs.
Proof.
  unfold parse_settlement_csv. destruct (csv_rows _ _) as [[|fieldnames rows] error]; [by destruct error|].
  destruct (negb _); [done|]. cbn [raise_if mbind result_bind].
  destruct (records_of fieldnames 2 rows) as [rs'|] eqn:Hrs; [|done]. cbn [mbind result_bind].
  destruct error; [done|]. cbn [raise_if mbind result_bind].
  destruct (bool_decide_reflect (rs' = [])) as [|Hne]; [done|]. cbn [raise_if mbind result_bind].
  intros [= <-]. split; [done|]. by eapply records_of_sound.
Qed.

Lemma settlement_file_rows columns extra es :
  columns <> [] -> Forall short columns -> Forall (writable columns extra) es ->
  csv_rows fresh_reader (list_ascii_of_string (settlement_file columns extra es)) =
  (columns :: ((fun e => column_text extra e <$> columns) <$> es), false).
Proof.
  intros Hne Hs Hes. unfold settlement_file. rewrite list_ascii_of_string_of_list_ascii. apply csv_rows_file.
  constructor; [done|]. apply Forall_fmap. eapply Forall_impl; [exact Hes|]. intros e He. split.
  - by destruct columns.
  - apply (wr_short _ _ _ He).
Qed.

(** The column names of a file. *)
Record header (columns : list string) : Prop := {
  hd_distinct : NoDup columns;
  hd_required : forall c, c ∈ REQUIRED_COLUMNS -> c ∈ columns;
  hd_short : Forall short columns;
}.

Lemma header_nonempty columns : header columns -> columns <> [].
Proof. intros [_ Hr _] ->. by destruct (not_elem_of_nil _ (Hr "amount"%string ltac:(unfold REQUIRED_COLUMNS; set_solver))). Qed.

Lemma header_complete columns :
  header columns -> forallb (fun c => bool_decide (c ∈ columns)) REQUIRED_COLUMNS = true.
Proof. intros [_ Hr _]. apply forallb_forall. intros c Hc. apply bool_decide_eq_true, Hr, list_elem_of_In, Hc. Qed.

Lemma parse_settlement_file columns extra es :
  header columns -> Forall (writable columns extra) es -> es <> [] ->
  parse_settlement_csv (settlement_file columns extra es) = Ok (read_back columns extra <$> es).
Proof.
  intros Hh Hes Hne. unfold parse_settlement_csv.
  rewrite settlement_file_rows by (done || by apply header_nonempty || apply Hh).
  rewrite header_complete by done. cbn [negb raise_if mbind result_bind].
  rewrite records_of_entries by (done || by apply header_nonempty || apply Hh). cbn [mbind result_bind raise_if].
  by destruct es.
Qed.

(** ** Files against the ledger *)

(** A file that lists exactly the settled payments, in whatever order. *)
Definition lists (es : list Settled) (ps : list LedgerSettledPayment) : Prop :=
  ((fun e => (se_ref e, se_amount e, se_currency e)) <$> es) ≡ₚ
  ((fun p => (lsp_external_ref p, lsp_amount p, lsp_currency p)) <$> ps).

Lemma by_ref_unique {A} (ref : A -> string) xs x :
  NoDup (ref <$> xs) -> x ∈ xs -> by_ref ref xs !! ref x = Some x.
Proof.
  intros Hnd Hx. destruct (by_ref ref xs !! ref x) as [y|] eqn:Hy.
  - destruct (by_ref_elem _ _ _ _ Hy) as [Hin Hr].
    apply list_elem_of_lookup in Hx as [i Hi]. apply list_elem_of_lookup in Hin as [j Hj].
    assert (i = j) as ->; [|congruence].
    eapply NoDup_lookup; [exact Hnd| |]; rewrite list_lookup_fmap; [by rewrite Hi|rewrite Hj; by rewrite <- Hr].
  - rewrite by_ref_lookup in Hy. apply last_None in Hy.
    assert (x ∈ filter (fun z => ref z = ref x) xs) as Hf by by apply list_elem_of_filter.
    rewrite Hy in Hf. by apply not_elem_of_nil in Hf.
Qed.

Lemma dec_eqb_finite s c e : dec_eqb (Fin s c e) (Fin s c e) = Ok true.
Proof. unfold dec_eqb. cbv zeta. f_equal. apply Z.eqb_refl. Qed.

Section honest.
Context (columns : list string) (extra : string -> string).
Context (es : list Settled) (ps : list LedgerSettledPayment).
Context (Hes : Forall (writable columns extra) es) (Hlists : lists es ps).
Context (Hunique : NoDup (lsp_external_ref <$> ps)).

Let rs : list SettlementRecord := read_back columns extra <$> es.

Lemma record_refs : (sr_external_ref <$> rs) ≡ₚ (lsp_external_ref <$> ps).
Proof.
  unfold rs. rewrite <- list_fmap_compose.
  assert (H1 : (fun e => (se_ref e, se_amount e, se_currency e).1.1) <$> es ≡ₚ lsp_external_ref <$> ps).
  { rewrite (list_fmap_compose (fun e => (se_ref e, se_amount e, se_currency e)) (fun x => x.1.1)).
    rewrite Hlists, <- list_fmap_compose. done. }
  exact H1.
Qed.

Lemma record_of_payment p : p ∈ ps -> exists r, r ∈ rs /\ sr_external_ref r = lsp_external_ref p /\ agree p r.
Proof.
  intros Hp. assert (Hin : (lsp_external_ref p, lsp_amount p, lsp_currency p) ∈
    (fun e => (se_ref e, se_amount e, se_currency e)) <$> es) by (rewrite Hlists; apply list_elem_of_fmap; by exists p).
  apply list_elem_of_fmap in Hin as (e & [= Hr Ha Hc] & He).
  exists (read_back columns extra e). split; [by apply list_elem_of_fmap_2|]. split; [by rewrite Hr|].
  pose proof (proj1 (Forall_forall _ _) Hes e He) as Hw.
  destruct (wr_amount _ _ _ Hw) as (s & c & x & Ham & _).
  split; cbn; [|done]. rewrite Ha, Ham. apply dec_eqb_finite.
Qed.

Lemma verdicts_clear ref : verdict (by_ref lsp_external_ref ps) (by_ref sr_external_ref rs) ref = None.
Proof.
  assert (Hrs : NoDup (sr_external_ref <$> rs)) by by rewrite record_refs.
  assert (Hboth : forall p, p ∈ ps -> lsp_external_ref p = ref ->
    verdict (by_ref lsp_external_ref ps) (by_ref sr_external_ref rs) ref = None).
  { intros p Hp <-. destruct (record_of_payment p Hp) as (r & Hr & Href & Hag).
    unfold verdict. rewrite (by_ref_unique _ _ p) by done. rewrite <- Href, (by_ref_unique _ _ r) by done.
    by rewrite decide_True. }
  destruct (by_ref lsp_external_ref ps !! ref) as [p|] eqn:Hp; [by apply by_ref_elem in Hp as [? ?]; apply (Hboth p)|].
  destruct (by_ref sr_external_ref rs !! ref) as [r|] eqn:Hr; [|unfold verdict; by rewrite Hp, Hr].
  apply by_ref_elem in Hr as [Hin Href].
  assert (Hmem : ref ∈ lsp_external_ref <$> ps) by (rewrite <- record_refs, <- Href; by apply list_elem_of_fmap_2).
  apply list_elem_of_fmap in Hmem as (p & -> & Hp'). by apply (Hboth p).
Qed.

Lemma honest_match : match_refs ps rs = Ok {| rr_matched_count := Z.of_nat (length ps); rr_breaks := [] |}.
Proof.
  assert (Hps : Forall (fun p => quiet (lsp_amount p)) ps).
  { apply Forall_forall. intros p Hp. destruct (record_of_payment p Hp) as (r & _ & _ & Heq & _).
    intros Hn. by rewrite Hn in Heq. }
  assert (Hrs : Forall (fun r => quiet (sr_amount r)) rs).
  { apply Forall_fmap. eapply Forall_impl; [exact Hes|]. intros e He. cbn.
    destruct (wr_amount _ _ _ He) as (s & c & x & -> & _). done. }
  rewrite match_refs_quiet by done. cbv zeta.
  set (lm := by_ref lsp_external_ref ps). set (sm := by_ref sr_external_ref rs). set (refs := all_refs lm sm).
  assert (Hverd : forall ref, verdict lm sm ref = None) by apply verdicts_clear.
  assert (Hom : omap (verdict lm sm) refs = []).
  { induction refs as [|r l IH]; [done|]. cbn. rewrite Hverd. exact IH. }
  assert (Hfil : filter (fun ref => verdict lm sm ref = None) refs = refs).
  { clear Hom. induction refs as [|r l IH]; [done|]. rewrite filter_cons, decide_True by apply Hverd. f_equal. exact IH. }
  rewrite Hom, Hfil. do 3 f_equal. rewrite <- (length_fmap lsp_external_ref ps). apply Permutation_length.
  apply NoDup_Permutation; [apply all_refs_nodup|done|]. intros ref. unfold refs.
  rewrite all_refs_elem, elem_of_union, !elem_of_dom. split.
  - intros [[p Hp]|[r Hr]].
    + apply by_ref_elem in Hp as [? <-]. by apply list_elem_of_fmap_2.
    + apply by_ref_elem in Hr as [? <-]. rewrite <- record_refs. by apply list_elem_of_fmap_2.
  - intros (p & -> & Hp)%list_elem_of_fmap. left. exists p. by apply by_ref_unique.
Qed.
End honest.

(** C30. Loader and matcher together.  Take settled payments whose references are distinct
    and without surrounding space, whose amounts are numbers and whose currencies are in
    capitals.  Reconciling them with a file that lists exactly these, each once, in any order
    and any column layout, every field quoted, reports no break at all and counts every
    payment as matched. *)
Theorem honest_file_reconciles columns extra es ps :
  header columns -> Forall (writable columns extra) es -> es <> [] -> lists es ps ->
  NoDup (lsp_external_ref <$> ps) ->
  exists rs, parse_settlement_csv (settlement_file columns extra es) = Ok rs /\
    match_refs ps rs = Ok {| rr_matched_count := Z.of_nat (length ps); rr_breaks := [] |}.
Proof.
  intros Hh Hes Hne Hl Hnd. exists (read_back columns extra <$> es). split.
  - by apply parse_settlement_file.
  - by apply honest_match.
Qed.

(** ** Refused files *)

(** A text of records, and what follows. *)
Lemma csv_rows_file_app rows l :
  Forall (fun row => row <> [] /\ Forall short row) rows ->
  csv_rows fresh_reader (file_text rows ++ l) =
  let '(rows', error) := csv_rows fresh_reader l in (rows ++ rows', error).
Proof.
  induction 1 as [|row rows [Hne Hs] _ IH].
  { change (file_text [] ++ l) with l. by destruct (csv_rows fresh_reader l). }
  change (file_text (row :: rows)) with (record_text row ++ file_text rows). rewrite <- app_assoc.
  destruct row as [|f fs]; [done|]. rewrite csv_rows_record by done. rewrite IH.
  by destruct (csv_rows fresh_reader l).
Qed.

Lemma records_of_app fieldnames n rows rs row rest :
  row <> [] -> (forall r, r ∈ rows -> r <> []) -> records_of fieldnames n rows = Ok rs ->
  forall e, record_of_row (n + Z.of_nat (length rows)) (row_dict fieldnames row) = Err e ->
  records_of fieldnames n (rows ++ row :: rest) = Err e.
Proof.
  intros Hrow. revert n rs. induction rows as [|r rows IH]; intros n rs Hne Hok e He.
  - cbn [app records_of]. replace (n + Z.of_nat (length [])) with n in He by (simpl; lia).
    destruct row; [done|]. by rewrite He.
  - cbn [app records_of] in *. destruct r as [|f fs]; [exfalso; by apply (Hne []); [left|]|].
    destruct (record_of_row n _) as [r|]; [|done]. cbn [mbind result_bind] in *.
    destruct (records_of fieldnames (n + 1) rows) as [rs'|] eqn:Hrs; [|done].
    erewrite IH; [done|by intros r' Hr'; apply Hne; right|exact Hrs|].
    rewrite <- He. f_equal. cbn [length]. lia.
Qed.

(** A file of written transactions with one more row after them, and any text after that. *)
Definition file_and_row (columns : list string) (extra : string -> string) (es : list Settled)
    (row : list string) (rest : list ascii) : string :=
  string_of_list_ascii
    (file_text (columns :: ((fun e => column_text extra e <$> columns) <$> es) ++ [row]) ++ rest).

(** The first row that is no record ends the loading, whatever follows it. *)
Lemma file_with_bad_row columns extra es row rest e :
  header columns -> Forall (writable columns extra) es -> row <> [] -> Forall short row ->
  record_of_row (2 + Z.of_nat (length es)) (row_dict columns row) = Err e ->
  parse_settlement_csv (file_and_row columns extra es row rest) = Err e.
Proof.
  intros Hh Hes Hne Hs He. unfold parse_settlement_csv, file_and_row.
  rewrite list_ascii_of_string_of_list_ascii. pose proof (header_nonempty _ Hh) as Hnil.
  rewrite csv_rows_file_app.
  2: { constructor; [by split; [|apply Hh]|]. apply Forall_app. split; [|by repeat constructor].
    apply Forall_fmap. eapply Forall_impl; [exact Hes|]. intros x Hx.
    split; [by destruct columns|apply (wr_short _ _ _ Hx)]. }
  destruct (csv_rows fresh_reader rest) as [rows' error]. cbn [app].
  rewrite header_complete by done. cbn [negb raise_if mbind result_bind]. rewrite <- app_assoc. cbn [app].
  erewrite records_of_app; [done|done| |by apply records_of_entries; [apply Hh..|done|done]|by rewrite length_fmap].
  intros r (x & -> & _)%list_elem_of_fmap. by destruct columns.
Qed.

(** A row without a number for its amount, or without a time. *)
Definition unreadable (value : string -> string) : Prop :=
  decimal_of_str (strip (value "amount"%string)) = None \/
  fromisoformat (strip (value "settled_at"%string)) = None.

Lemma unreadable_row columns value n :
  header columns -> unreadable value ->
  record_of_row n (row_dict columns (value <$> columns)) = Err (BadRow n).
Proof.
  intros [Hnd Hreq _] Hbad. rewrite row_dict_fields by done. unfold record_of_row, stripped.
  rewrite !text_row_lookup by (apply Hreq; unfold REQUIRED_COLUMNS; set_solver).
  cbn [mbind result_bind]. destruct Hbad as [Hbad|Hbad]; rewrite Hbad; [done|].
  by destruct (decimal_of_str _).
Qed.

(** How files are refused. *)
Lemma parse_settlement_csv_errors columns extra es :
  header columns -> Forall (writable columns extra) es ->
  parse_settlement_csv "" = Err MissingColumns /\
  (forall other, other <> [] -> Forall short other ->
     parse_settlement_csv (string_of_list_ascii (file_text [other])) =
     Err (if forallb (fun c => bool_decide (c ∈ other)) REQUIRED_COLUMNS then NoDataRows else MissingColumns)) /\
  (forall value rest, Forall short (value <$> columns) -> unreadable value ->
     parse_settlement_csv (file_and_row columns extra es (value <$> columns) rest) =
     Err (BadRow (2 + Z.of_nat (length es)))) /\
  (forall value rest, Forall short (value <$> columns) -> columns = REQUIRED_COLUMNS ->
     is_Some (decimal_of_str (strip (value "amount"%string))) ->
     parse_settlement_csv (file_and_row columns extra es (value <$> take 3 columns) rest) =
     Err RowAttributeError) /\
  (forall c l, is_newline c = false ->
     parse_settlement_csv (string_of_list_ascii (record_fields columns ++ CR :: c :: l)) = Err ReaderError).
Proof.
  intros Hh Hes. pose proof (header_nonempty _ Hh) as Hnil. pose proof Hh as [Hnd Hreq Hsc].
  split; [reflexivity|]. split; [|split; [|split]].
  - intros other Hne Hs. unfold parse_settlement_csv. rewrite list_ascii_of_string_of_list_ascii.
    rewrite csv_rows_file by by repeat constructor. by destruct (forallb _ _).
  - intros value rest Hs Hbad. apply file_with_bad_row; [done|done|by destruct columns|done|].
    by apply unreadable_row.
  - intros value rest Hs -> [d Hd]. apply file_with_bad_row; [done|done|done| |].
    + change (value <$> take 3 REQUIRED_COLUMNS) with (take 3 (value <$> REQUIRED_COLUMNS)). by apply Forall_take.
    + unfold record_of_row, stripped. set (row := row_dict _ _).
      assert (Href : dict_lookup row (Some "external_ref"%string) = Some (Text (value "external_ref"%string))) by done.
      assert (Ham : dict_lookup row (Some "amount"%string) = Some (Text (value "amount"%string))) by done.
      assert (Hccy : dict_lookup row (Some "currency"%string) = Some (Text (value "currency"%string))) by done.
      assert (Hat : dict_lookup row (Some "settled_at"%string) = Some Missing) by done.
      rewrite Href, Ham, Hccy, Hat. cbn [mbind result_bind]. by rewrite Hd.
  - intros c l Hc. unfold parse_settlement_csv. rewrite list_ascii_of_string_of_list_ascii.
    destruct columns as [|f fs]; [done|]. rewrite csv_rows_fields; [|by left|done|done|done].
    cbn. by rewrite Hc.
Qed.

(** C31. What the loader accepts and how it refuses.  Whatever the text, what it accepts is
    well-formed: at least one record, and in each the reference without surrounding space,
    the currency in capitals, an amount within the library's limits or a special value, and a
    time within the years 1 to 9999 with an offset of less than a day.  A file with every
    field quoted in the standard way, its columns in any order and any number of them, reads
    back as exactly the transactions it was written from, in order, even when a field holds
    commas, quotes or line breaks.  An empty text, a header without one of the four columns,
    and a header alone are SettlementCsvErrors; so is, after any number of such rows, one
    whose amount is no decimal or whose time is no ISO 8601 date, and the error names that row
    by its number, whatever the text after it.  But two kinds of malformed file escape the
    loader's own error: a row that ends before its last column, the time, raises an
    AttributeError, and a header whose line ends in a bare carriage return raises the csv
    module's error. *)
Theorem parse_settlement_csv_outcomes columns extra es :
  (forall content rs, parse_settlement_csv content = Ok rs -> rs <> [] /\ Forall sound_record rs) /\
  (header columns -> Forall (writable columns extra) es ->
    (es <> [] -> parse_settlement_csv (settlement_file columns extra es) = Ok (read_back columns extra <$> es)) /\
    parse_settlement_csv "" = Err MissingColumns /\
    (forall other, other <> [] -> Forall short other ->
       parse_settlement_csv (string_of_list_ascii (file_text [other])) =
       Err (if forallb (fun c => bool_decide (c ∈ other)) REQUIRED_COLUMNS then NoDataRows else MissingColumns)) /\
    (forall value rest, Forall short (value <$> columns) -> unreadable value ->
       parse_settlement_csv (file_and_row columns extra es (value <$> columns) rest) =
       Err (BadRow (2 + Z.of_nat (length es)))) /\
    (forall value rest, Forall short (value <$> columns) -> columns = REQUIRED_COLUMNS ->
       is_Some (decimal_of_str (strip (value "amount"%string))) ->
       parse_settlement_csv (file_and_row columns extra es (value <$> take 3 columns) rest) =
       Err RowAttributeError) /\
    (forall c l, is_newline c = false ->
       parse_settlement_csv (string_of_list_ascii (record_fields columns ++ CR :: c :: l)) = Err ReaderError)).
Proof.
  split; [apply parse_settlement_csv_well_formed|]. intros Hh Hes.
  split; [by apply parse_settlement_file|by apply parse_settlement_csv_errors].
Qed.

(** ** A sample file *)

Lemma short_intro l : forallb (fun s => len s <=? FIELD_LIMIT) l = true -> Forall short l.
Proof. rewrite forallb_forall, Forall_forall. intros Hl s Hs. apply Z.leb_le, Hl, list_elem_of_In, Hs. Qed.

Definition sample_columns : list string := ["settled_at"; "external_ref"; "note"; "currency"; "amount"]%string.
Definition sample_extra (column : string) : string := "by card, " +:+ py_repr column.
Definition sample_entries : list Settled :=
  [{| se_ref := "E2E-1"; se_amount := of_cents 1050; se_currency := "SGD"; se_at := 1786500672000000 |};
   {| se_ref := "E2E, 2"; se_amount := of_cents 99; se_currency := "USD"; se_at := 1786500999123456 |}].
Definition sample_payments : list LedgerSettledPayment :=
  [{| lsp_payment_id := 2%N; lsp_external_ref := "E2E, 2"; lsp_amount := of_cents 99; lsp_currency := "USD" |};
   {| lsp_payment_id := 1%N; lsp_external_ref := "E2E-1"; lsp_amount := of_cents 1050; lsp_currency := "SGD" |}].

Lemma sample_header : header sample_columns.
Proof.
  split; [refine (bool_decide_eq_true_1 _ _); vm_compute; reflexivity| |by apply short_intro].
  apply Forall_forall. refine (bool_decide_eq_true_1 _ _). vm_compute. reflexivity.
Qed.

Lemma sample_writable : Forall (writable sample_columns sample_extra) sample_entries.
Proof.
  constructor; [|constructor; [|constructor]].
  - split; [reflexivity|by exists false, 1050%N, (-2)|by split|vm_compute; split; discriminate|].
    apply short_intro. vm_compute. reflexivity.
  - split; [reflexivity|by exists false, 99%N, (-2)|by split|vm_compute; split; discriminate|].
    apply short_intro. vm_compute. reflexivity.
Qed.

Lemma sample_lists : lists sample_entries sample_payments.
Proof. apply Permutation_swap. Qed.

Lemma sample_distinct : NoDup (lsp_external_ref <$> sample_payments).
Proof. refine (bool_decide_eq_true_1 _ _). vm_compute. reflexivity. Qed.

(** A third row with a date that does not exist. *)
Definition sample_bad (column : string) : string :=
  if decide (column = "settled_at"%string) then "2026-02-30"
  else if decide (column = "amount"%string) then "1.00" else "x".

Lemma parse_settlement_csv_outcomes_witness :
  parse_settlement_csv "" = Err MissingColumns /\
  (exists rs, parse_settlement_csv (settlement_file sample_columns sample_extra sample_entries) = Ok rs /\
    rs <> [] /\ Forall sound_record rs) /\
  parse_settlement_csv (file_and_row sample_columns sample_extra sample_entries
    (sample_bad <$> sample_columns) ["x"%char]) = Err (BadRow 4).
Proof.
  pose proof (parse_settlement_csv_outcomes sample_columns sample_extra sample_entries) as [Hok Herr].
  destruct (Herr sample_header sample_writable) as (Hread & Hempty & _ & Hbad & _). split; [exact Hempty|]. split.
  - exists (read_back sample_columns sample_extra <$> sample_entries).
    specialize (Hread ltac:(discriminate)).
    split; [exact Hread|exact (Hok _ _ Hread)].
  - apply (Hbad sample_bad ["x"%char]); [by apply short_intro|]. right. vm_compute. reflexivity.
Defined.

Lemma honest_file_reconciles_witness :
  exists rs, parse_settlement_csv (settlement_file sample_columns sample_extra sample_entries) = Ok rs /\
    match_refs sample_payments rs = Ok {| rr_matched_count := 2; rr_breaks := [] |}.
Proof.
  exact (honest_file_reconciles sample_columns sample_extra sample_entries sample_payments sample_header
    sample_writable ltac:(discriminate) sample_lists sample_distinct).
Defined.
