(* ===== verification/Sgqr.v ===== *)
(** SGQR: app/infra/qr/sgqr.py.

    The EMVCo TLV payload with its CRC-16/CCITT-FALSE trailer, the TLV decoder and the CRC
    check.  The PNG renderer ([qrcode]) is a third-party library: it is the section variable
    [qrcode_make].  The decoder's [while] loop takes fuel: one iteration per character
    is enough without a minus sign ([parse_tlv_terminates]), and no fuel is enough on some
    malformed input ([parse_tlv_diverges]). *)
From S2P Require Import Prelude Decimals PyText.

#[local] Open Scope Z_scope.

Definition _CURRENCY_NUMERIC : gmap string string :=
  list_to_map [("SGD", "702"); ("USD", "840"); ("EUR", "978"); ("GBP", "826")].

Inductive QrError :=
| SgqrError_tlv_too_long (tag value : string)
| SgqrError_unsupported_currency (currency : string)
| SgqrError_amount_not_positive (amount : Decimal)
| QrUnicodeEncodeError
| QrDecimalSignal (s : Signal).

(** The exceptions that are instances of the module's own [SgqrError]. *)
Definition is_SgqrError (e : QrError) : bool :=
  match e with
  | SgqrError_tlv_too_long _ _ | SgqrError_unsupported_currency _
  | SgqrError_amount_not_positive _ => true
  | _ => false
  end.

(** * Encoding *)

(** [f"{n:02d}"] for a non-negative [n]. *)
Definition fmt_02d (n : Z) : string := (if n <? 10 then "0" else "") +:+ str_Z n.

Definition _tlv (tag value : string) : result QrError string :=
  if 99 <? len value then Err (SgqrError_tlv_too_long tag value)
  else Ok (tag +:+ fmt_02d (len value) +:+ value).

(** One bit of the CRC register. *)
Definition crc_bit (crc : N) : N :=
  if N.testbit crc 15
  then N.land (N.lxor (N.shiftl crc 1) 0x1021) 0xFFFF
  else N.land (N.shiftl crc 1) 0xFFFF.

Definition crc_byte (crc byte : N) : N :=
  Nat.iter 8 crc_bit (N.lxor crc (N.shiftl byte 8)).

Definition crc16 (bytes : list N) : N := foldl crc_byte 0xFFFF%N bytes.

(** [f"{crc:04X}"] *)
Definition hex_digit_upper (n : N) : ascii :=
  ascii_of_N (if (n <? 10)%N then 48 + n else 55 + n).
Fixpoint hex_digits_upper (k : nat) (n : N) : list ascii :=
  match k with
  | O => []
  | S k' => hex_digits_upper k' (n / 16)%N ++ [hex_digit_upper (n mod 16)%N]
  end.
Definition fmt_04X (n : N) : string := string_of_list_ascii (hex_digits_upper 4 n).

Definition _crc16_ccitt (data : string) : result QrError string :=
  match encode_ascii data with
  | Some bytes => Ok (fmt_04X (crc16 bytes))
  | None => Err QrUnicodeEncodeError
  end.

Record SgqrPayload := { qr_payload : string; qr_png_bytes : list N }.

(** [merchant_name[:25]] *)
Definition prefix_of (s : string) (n : Z) : string := slice s 0 n.

(** [if amount is not None and amount <= 0: raise SgqrError(...)] *)
Definition check_amount (amount : option Decimal) : result QrError unit :=
  match amount with
  | Some a => b ← map_err QrDecimalSignal (dec_le0 a); raise_if b (SgqrError_amount_not_positive a)
  | None => Ok tt
  end.

(** [if amount is not None: fields.append(_tlv("54", str(amount)))] *)
Definition amount_field (amount : option Decimal) : result QrError string :=
  match amount with Some a => _tlv "54" (dec_str a) | None => Ok "" end.

Section Build.
(** [qrcode.make(payload)] saved as PNG. *)
Variable qrcode_make : string -> list N.

Definition build_sgqr (account_number merchant_name merchant_city currency : string)
  (amount : option Decimal) : result QrError SgqrPayload :=
  match _CURRENCY_NUMERIC !! currency with
  | None => Err (SgqrError_unsupported_currency currency)
  | Some currency_code =>
  check_amount amount ;;
  info_scheme ← _tlv "00" "SG.PAYNOW";
  info_account ← _tlv "01" account_number;
  let merchant_account_info := info_scheme +:+ info_account in
  let point_of_initiation := if amount is Some _ then "12" else "11" in
  f00 ← _tlv "00" "01";
  f01 ← _tlv "01" point_of_initiation;
  f26 ← _tlv "26" merchant_account_info;
  f52 ← _tlv "52" "0000";
  f53 ← _tlv "53" currency_code;
  f54 ← amount_field amount;
  f58 ← _tlv "58" "SG";
  f59 ← _tlv "59" (prefix_of merchant_name 25);
  f60 ← _tlv "60" (prefix_of merchant_city 15);
  let payload_without_crc :=
    f00 +:+ f01 +:+ f26 +:+ f52 +:+ f53 +:+ f54 +:+ f58 +:+ f59 +:+ f60 +:+ "6304" in
  crc ← _crc16_ccitt payload_without_crc;
  let payload := payload_without_crc +:+ crc in
  Ok {| qr_payload := payload; qr_png_bytes := qrcode_make payload |}
  end.
End Build.

(** * Decoding *)

Inductive parse_outcome :=
| Parsed (fields : gmap string string)
| ParseValueError
| ParseOutOfFuel.

(** The [while i < len(payload)] loop of [parse_tlv]. *)
Fixpoint parse_loop (fuel : nat) (payload : string) (i : Z) (fields : gmap string string)
    : parse_outcome :=
  if i <? len payload then
    match fuel with
    | O => ParseOutOfFuel
    | S fuel' =>
        let tag := slice payload i (i + 2) in
        match py_int (slice payload (i + 2) (i + 4)) with
        | None => ParseValueError
        | Some length =>
            let value := slice payload (i + 4) (i + 4 + length) in
            parse_loop fuel' payload (i + 4 + length) (<[tag := value]> fields)
        end
    end
  else Parsed fields.

Definition parse_tlv (fuel : nat) (payload : string) : parse_outcome :=
  parse_loop fuel payload 0 ∅.

Definition verify_crc (payload : string) : result QrError bool :=
  let n := len payload in
  let body := slice payload 0 (-4) in
  let crc := slice payload (-4) n in
  c ← _crc16_ccitt body;
  Ok (bool_decide (c = crc)).

(** * Specification *)

(** A sequence of TLV fields as one string. *)
Definition tlv_concat (fs : list (string * string)) : string :=
  foldr (fun f acc => f.1 +:+ fmt_02d (len f.2) +:+ f.2 +:+ acc) "" fs.

Definition field_ok (f : string * string) : Prop := len f.1 = 2 /\ len f.2 <= 99.

(** What a decoder that knows the fields would return: later fields win. *)
Definition fields_map (fs : list (string * string)) : gmap string string :=
  foldl (fun m f => <[f.1 := f.2]> m) ∅ fs.

(** The fields of a payment QR, the CRC included. *)
Definition account_template (account_number : string) : list (string * string) :=
  [("00", "SG.PAYNOW"); ("01", account_number)].
Definition sgqr_body_fields (account_number merchant_name merchant_city currency_code : string)
    (amount : option Decimal) : list (string * string) :=
  [("00", "01"); ("01", if amount is Some _ then "12" else "11");
   ("26", tlv_concat (account_template account_number));
   ("52", "0000"); ("53", currency_code)] ++
  (if amount is Some a then [("54", dec_str a)] else []) ++
  [("58", "SG"); ("59", prefix_of merchant_name 25); ("60", prefix_of merchant_city 15)].
Definition sgqr_fields (account_number merchant_name merchant_city currency_code : string)
    (amount : option Decimal) (crc : string) : list (string * string) :=
  sgqr_body_fields account_number merchant_name merchant_city currency_code amount ++ [("63", crc)].

(** The text the checksum is computed over. *)
Definition sgqr_body (account_number merchant_name merchant_city currency_code : string)
    (amount : option Decimal) : string :=
  tlv_concat (sgqr_body_fields account_number merchant_name merchant_city currency_code amount) +:+ "6304".

(** * Lemmas *)

Lemma fmt_02d_ok n : 0 <= n <= 99 -> len (fmt_02d n) = 2 /\ py_int (fmt_02d n) = Some n.
Proof.
  intros Hn.
  assert (Hall : forallb (fun k => bool_decide (len (fmt_02d (Z.of_nat k)) = 2 /\
            py_int (fmt_02d (Z.of_nat k)) = Some (Z.of_nat k))) (seq 0 100) = true) by by vm_compute.
  rewrite forallb_forall in Hall. specialize (Hall (Z.to_nat n)).
  rewrite bool_decide_eq_true, Z2Nat.id in Hall by lia. apply Hall, in_seq. lia.
Qed.

Lemma append_assoc s1 s2 s3 : s1 +:+ (s2 +:+ s3) = (s1 +:+ s2) +:+ s3.
Proof. induction s1 as [|c s1 IH]; [done|]. exact (f_equal (String c) IH). Qed.

Lemma append_nil_r s : s +:+ "" = s.
Proof. induction s as [|c s IH]; [done|]. exact (f_equal (String c) IH). Qed.

Lemma tlv_concat_app fs1 fs2 : tlv_concat (fs1 ++ fs2) = tlv_concat fs1 +:+ tlv_concat fs2.
Proof.
  induction fs1 as [|[t v] fs1 IH]; [done|]. simpl tlv_concat.
  by rewrite IH, !append_assoc.
Qed.

(** One iteration of the decoder on a well-formed field. *)
Lemma parse_loop_field fuel pre t v post fields :
  field_ok (t, v) ->
  parse_loop (S fuel) (pre +:+ t +:+ fmt_02d (len v) +:+ v +:+ post) (len pre) fields =
  parse_loop fuel (pre +:+ t +:+ fmt_02d (len v) +:+ v +:+ post)
    (len (pre +:+ t +:+ fmt_02d (len v) +:+ v)) (<[t := v]> fields).
Proof.
  intros [Ht Hv]. simpl fst in *. simpl snd in *. pose proof (len_nonneg v).
  destruct (fmt_02d_ok (len v)) as [Hl Hi]; [lia|].
  set (payload := pre +:+ t +:+ fmt_02d (len v) +:+ v +:+ post).
  assert (Hlen : len payload = len pre + 4 + len v + len post).
  { unfold payload. rewrite !len_app. lia. }
  pose proof (len_nonneg post).
  assert (H1 : slice payload (len pre) (len pre + 2) = t) by (apply slice_middle; lia).
  assert (H2 : slice payload (len pre + 2) (len pre + 4) = fmt_02d (len v)).
  { unfold payload. rewrite (append_assoc pre t). apply slice_middle; rewrite len_app; lia. }
  assert (H3 : slice payload (len pre + 4) (len pre + 4 + len v) = v).
  { unfold payload. rewrite (append_assoc pre t), (append_assoc (pre +:+ t)).
    apply slice_middle; rewrite !len_app; lia. }
  simpl parse_loop. fold payload. destruct (Z.ltb_spec (len pre) (len payload)); [|lia].
  rewrite H1, H2, Hi, H3. f_equal. rewrite !len_app. lia.
Qed.

Lemma parse_loop_fields fs : forall fuel pre fields,
  Forall field_ok fs -> (length fs <= fuel)%nat ->
  parse_loop fuel (pre +:+ tlv_concat fs) (len pre) fields =
  Parsed (foldl (fun m f => <[f.1 := f.2]> m) fields fs).
Proof.
  induction fs as [|[t v] fs IH]; intros fuel pre fields Hok Hfuel; simpl.
  - rewrite append_nil_r. destruct fuel; simpl; by rewrite Z.ltb_irrefl.
  - apply Forall_cons in Hok as [Hf Hok]. destruct fuel as [|fuel]; simpl in Hfuel; [lia|].
    rewrite parse_loop_field by done. rewrite !append_assoc. apply IH; [done|lia].
Qed.

Lemma tlv_ok tag value :
  len value <= 99 -> _tlv tag value = Ok (tag +:+ fmt_02d (len value) +:+ value).
Proof. intros H. unfold _tlv. destruct (Z.ltb_spec 99 (len value)); [lia|done]. Qed.

Lemma tlv_inv tag value r : _tlv tag value = Ok r ->
  len value <= 99 /\ r = tag +:+ fmt_02d (len value) +:+ value.
Proof. unfold _tlv. destruct (Z.ltb_spec 99 (len value)); naive_solver. Qed.

Lemma fmt_04X_len n : len (fmt_04X n) = 4.
Proof. done. Qed.

(** ** CRC *)

Lemma hex_digit_upper_inj d e : (d < 16)%N -> (e < 16)%N -> hex_digit_upper d = hex_digit_upper e -> d = e.
Proof.
  intros Hd He Heq. apply (f_equal N_of_ascii) in Heq. unfold hex_digit_upper in Heq.
  destruct (N.ltb_spec d 10), (N.ltb_spec e 10); rewrite !N_ascii_embedding in Heq by lia; lia.
Qed.

Lemma crc_check_appended body crc :
  _crc16_ccitt body = Ok crc -> verify_crc (body +:+ crc) = Ok true.
Proof.
  intros Hcrc. assert (Hc : len crc = 4).
  { unfold _crc16_ccitt in Hcrc. destruct (encode_ascii body); simplify_eq. done. }
  unfold verify_crc. replace (-4) with (- len crc) by lia.
  rewrite slice_body, slice_tail, Hcrc by lia. simpl. by rewrite bool_decide_eq_true_2.
Qed.

(** ** build_sgqr *)

(** Runs the next [_tlv] calls of a bind, keeping the successful ones. *)
Ltac step_tlv :=
  repeat match goal with
  | |- (_tlv ?t ?v ≫= _) = _ -> _ =>
      destruct (_tlv t v) as [?|] eqn:?; [rewrite result_bind_ok|by rewrite result_bind_err]
  end.

(** Which [_tlv] calls succeed, and what [build_sgqr] then does. *)
Definition sgqr_lengths_ok (acct code : string) (amount : option Decimal) : Prop :=
  len acct <= 99 /\ len (tlv_concat (account_template acct)) <= 99 /\ len code <= 99 /\
  forall a, amount = Some a -> len (dec_str a) <= 99.

Lemma body_concat acct name city code amount f54 :
  amount_field amount = Ok f54 ->
  ("00" +:+ fmt_02d (len "01") +:+ "01") +:+
  ("01" +:+ fmt_02d (len (if amount is Some _ then "12" else "11")) +:+
     (if amount is Some _ then "12" else "11")) +:+
  ("26" +:+ fmt_02d (len (("00" +:+ fmt_02d (len "SG.PAYNOW") +:+ "SG.PAYNOW") +:+
                           "01" +:+ fmt_02d (len acct) +:+ acct)) +:+
     ("00" +:+ fmt_02d (len "SG.PAYNOW") +:+ "SG.PAYNOW") +:+ "01" +:+ fmt_02d (len acct) +:+ acct) +:+
  ("52" +:+ fmt_02d (len "0000") +:+ "0000") +:+ ("53" +:+ fmt_02d (len code) +:+ code) +:+ f54 +:+
  ("58" +:+ fmt_02d (len "SG") +:+ "SG") +:+
  ("59" +:+ fmt_02d (len (prefix_of name 25)) +:+ prefix_of name 25) +:+
  ("60" +:+ fmt_02d (len (prefix_of city 15)) +:+ prefix_of city 15) +:+ "6304"
  = sgqr_body acct name city code amount.
Proof.
  intros H54. unfold sgqr_body, sgqr_body_fields, account_template. rewrite !tlv_concat_app.
  destruct amount as [a|]; [apply tlv_inv in H54 as [_ ->]|injection H54 as <-];
    cbn [tlv_concat foldr fst snd app]; by rewrite ?append_nil_r, ?append_assoc.
Qed.

Lemma account_template_concat acct :
  tlv_concat (account_template acct) =
  ("00" +:+ fmt_02d (len "SG.PAYNOW") +:+ "SG.PAYNOW") +:+ "01" +:+ fmt_02d (len acct) +:+ acct.
Proof. cbn [tlv_concat account_template foldr fst snd]. by rewrite append_nil_r, !append_assoc. Qed.

Lemma build_sgqr_eq mk acct name city ccy amount code :
  _CURRENCY_NUMERIC !! ccy = Some code -> check_amount amount = Ok tt ->
  sgqr_lengths_ok acct code amount ->
  build_sgqr mk acct name city ccy amount =
    (crc ← _crc16_ccitt (sgqr_body acct name city code amount);
     let payload := sgqr_body acct name city code amount +:+ crc in
     Ok {| qr_payload := payload; qr_png_bytes := mk payload |}).
Proof.
  intros Hccy Ham (H1 & H2 & H3 & H4). unfold build_sgqr. rewrite Hccy, Ham, result_bind_ok.
  pose proof (len_slice_prefix name 25 ltac:(lia)). pose proof (len_slice_prefix city 15 ltac:(lia)).
  assert (H54 : exists f54, amount_field amount = Ok f54).
  { destruct amount as [a|]; simpl; [|eauto]. rewrite tlv_ok by auto. eauto. }
  destruct H54 as [f54 H54]. rewrite account_template_concat in H2.
  rewrite (tlv_ok "00" "SG.PAYNOW"), (tlv_ok "01" acct), !result_bind_ok by (done || lia).
  cbv zeta. rewrite (tlv_ok "00" "01"), result_bind_ok by done.
  rewrite (tlv_ok "01" (if amount is Some _ then _ else _)), result_bind_ok by (by destruct amount).
  rewrite (tlv_ok "26"), (tlv_ok "52"), (tlv_ok "53"), !result_bind_ok, H54, result_bind_ok by done.
  rewrite (tlv_ok "58"), (tlv_ok "59"), (tlv_ok "60"), !result_bind_ok
    by (done || unfold prefix_of; lia).
  cbv zeta. by rewrite (body_concat acct name city code amount f54 H54).
Qed.

(** The account number fits into its template, and the amount into its field. *)
Definition fits (acct : string) (amount : option Decimal) : Prop :=
  len acct <= 82 /\ forall a, amount = Some a -> len (dec_str a) <= 99.

Lemma sgqr_lengths_fit acct ccy code amount :
  _CURRENCY_NUMERIC !! ccy = Some code -> fits acct amount -> sgqr_lengths_ok acct code amount.
Proof.
  intros Hccy [Hacct Hstr]. assert (Hcode : len code <= 99).
  { unfold _CURRENCY_NUMERIC in Hccy. apply elem_of_list_to_map_2 in Hccy.
    repeat (apply elem_of_cons in Hccy as [[= -> ->]|Hccy]; [done|]). by apply elem_of_nil in Hccy. }
  split_and!; [lia| |done..]. rewrite account_template_concat.
  set (scheme := "00" +:+ _). assert (len scheme = 13) as Hs by done. clearbody scheme.
  rewrite !len_app. pose proof (len_nonneg acct). destruct (fmt_02d_ok (len acct)) as [-> _]; [lia|].
  change (len "01") with 2. lia.
Qed.

Lemma fits_lengths acct code amount : sgqr_lengths_ok acct code amount -> fits acct amount.
Proof.
  intros (Hacct & Ht & _ & Ham). split; [|done]. revert Ht. rewrite account_template_concat.
  set (scheme := "00" +:+ _). assert (len scheme = 13) as Hs by done. clearbody scheme.
  rewrite !len_app. pose proof (len_nonneg acct). destruct (fmt_02d_ok (len acct)) as [-> _]; [lia|].
  change (len "01") with 2. lia.
Qed.

Lemma tlv_error tag value e : _tlv tag value = Err e -> e = SgqrError_tlv_too_long tag value.
Proof. unfold _tlv. destruct (99 <? len value); [by intros [= <-]|done]. Qed.

(** With a currency and an amount it accepts, [build_sgqr] fails on a length, if on any. *)
Lemma build_sgqr_too_long mk acct name city ccy amount code :
  _CURRENCY_NUMERIC !! ccy = Some code -> check_amount amount = Ok tt -> ~ fits acct amount ->
  exists tag value, build_sgqr mk acct name city ccy amount = Err (SgqrError_tlv_too_long tag value).
Proof.
  intros Hccy Ham Hno. unfold build_sgqr. rewrite Hccy, Ham, result_bind_ok.
  assert (Hstep : forall A tag value (k : string -> result QrError A),
    (forall r, _tlv tag value = Ok r -> exists t v, k r = Err (SgqrError_tlv_too_long t v)) ->
    exists t v, (_tlv tag value ≫= k) = Err (SgqrError_tlv_too_long t v)).
  { intros A tag value k Hk. destruct (_tlv tag value) as [r|e] eqn:Ht; [rewrite result_bind_ok; by apply Hk|].
    apply tlv_error in Ht as ->. rewrite result_bind_err. eauto. }
  apply Hstep. intros f1 H1. apply Hstep. intros f2 H2. cbv zeta.
  do 2 (apply Hstep; intros ? _). apply Hstep. intros f26 H26.
  do 2 (apply Hstep; intros ? _).
  apply tlv_inv in H1 as [_ ->], H2 as [Hacct ->], H26 as [Ht _].
  destruct amount as [a|]; cbn [amount_field].
  - apply Hstep. intros f54 H54. apply tlv_inv in H54 as [H54 _]. destruct Hno. apply (fits_lengths _ "").
    split_and!; [done|by rewrite account_template_concat|done|]. by intros a' [= <-].
  - destruct Hno. apply (fits_lengths _ ""). split_and!; [done|by rewrite account_template_concat|done|done].
Qed.

Lemma build_sgqr_lengths mk acct name city ccy amount p :
  build_sgqr mk acct name city ccy amount = Ok p ->
  exists code, _CURRENCY_NUMERIC !! ccy = Some code /\ check_amount amount = Ok tt /\
    sgqr_lengths_ok acct code amount.
Proof.
  unfold build_sgqr. destruct (_CURRENCY_NUMERIC !! ccy) as [code|] eqn:Hccy; [|done].
  destruct (check_amount amount) as [[]|] eqn:Ham; [|by rewrite result_bind_err].
  rewrite result_bind_ok. step_tlv.
  destruct (amount_field amount) as [f54|] eqn:H54; [|by rewrite result_bind_err].
  intros _. repeat match goal with H : _tlv _ _ = Ok _ |- _ => apply tlv_inv in H as [? ->] end.
  exists code. do 2 (split; [done|]). split; [done|]. rewrite account_template_concat.
  do 2 (split; [done|]). intros a ->. by apply tlv_inv in H54 as [? _].
Qed.

Lemma sgqr_fields_ok acct name city code amount crc :
  sgqr_lengths_ok acct code amount -> len crc = 4 ->
  Forall field_ok (sgqr_fields acct name city code amount crc).
Proof.
  intros (H1 & H2 & H3 & H4) Hc. unfold sgqr_fields, sgqr_body_fields, field_ok.
  pose proof (len_slice_prefix name 25 ltac:(lia)). pose proof (len_slice_prefix city 15 ltac:(lia)).
  destruct amount as [a|]; [specialize (H4 a eq_refl)|];
    repeat (apply Forall_cons; split); try (by apply Forall_nil); cbn [fst snd];
    (split; [done|]); unfold prefix_of; (done || lia || (vm_compute; discriminate)).
Qed.

Lemma sgqr_payload_concat acct name city code amount crc :
  len crc = 4 ->
  sgqr_body acct name city code amount +:+ crc = tlv_concat (sgqr_fields acct name city code amount crc).
Proof.
  intros Hc. unfold sgqr_body, sgqr_fields. rewrite tlv_concat_app.
  cbn [tlv_concat foldr fst snd]. rewrite Hc, append_nil_r. change (fmt_02d 4) with "04".
  change "6304" with ("63" +:+ "04"). by rewrite !append_assoc.
Qed.

(** ** Termination of the decoder *)

Lemma int_digits_nonneg acc b l z : 0 <= acc -> int_digits acc b l = Some z -> 0 <= z.
Proof.
  revert acc b. induction l as [|c l IH]; intros acc b Hacc; simpl.
  { destruct b; naive_solver. }
  destruct (((48 <=? N_of_ascii c) && (N_of_ascii c <=? 57))%N) eqn:Hd.
  - apply andb_prop in Hd as [Hd _]. apply N.leb_le in Hd. apply IH. lia.
  - case_match; [by apply IH|done].
Qed.

Lemma lstrip_incl c l : c ∈ lstrip_list l -> c ∈ l.
Proof. induction l as [|x l IH]; simpl; [done|]. destruct (is_space x); set_solver. Qed.

Lemma strip_incl c s : c ∈ list_ascii_of_string (strip s) -> c ∈ list_ascii_of_string s.
Proof.
  assert (Hrev : forall l, c ∈ rev l -> c ∈ l) by (intros l H%list_elem_of_In%in_rev; by apply list_elem_of_In).
  unfold strip. rewrite list_ascii_of_string_of_list_ascii.
  intros H%Hrev%lstrip_incl%Hrev%lstrip_incl. done.
Qed.

Lemma slice_incl c s a b : c ∈ list_ascii_of_string (slice s a b) -> c ∈ list_ascii_of_string s.
Proof.
  unfold slice. rewrite list_ascii_of_string_of_list_ascii.
  intros H%elem_of_take. destruct H as (i & H & _). apply list_elem_of_lookup.
  rewrite lookup_drop in H. eauto.
Qed.

Lemma py_int_nonneg s z :
  "-"%char ∉ list_ascii_of_string s -> py_int s = Some z -> 0 <= z.
Proof.
  intros Hno. unfold py_int.
  assert (Hs : "-"%char ∉ list_ascii_of_string (strip s)) by (intros H%strip_incl; done).
  destruct (list_ascii_of_string (strip s)) as [|c l]; [done|].
  intros H. destruct (decide (c = "-"%char)) as [->|Hne]; [set_solver|].
  destruct (decide (c = "+"%char)) as [->|Hne']; [by eapply int_digits_nonneg; [|exact H]|].
  enough (int_digits 0 false (c :: l) = Some z) by by eapply int_digits_nonneg; [|done].
  rewrite <- H. destruct c as [[] [] [] [] [] [] [] []]; done.
Qed.

Lemma parse_loop_terminates payload : forall fuel i fields,
  "-"%char ∉ list_ascii_of_string payload -> len payload - i <= 4 * Z.of_nat fuel ->
  parse_loop fuel payload i fields <> ParseOutOfFuel.
Proof.
  intros fuel i fields Hno. revert i fields. induction fuel as [|fuel IH]; intros i fields Hf; simpl.
  { destruct (Z.ltb_spec i (len payload)); [lia|done]. }
  destruct (i <? len payload); [|done].
  destruct (py_int _) as [n|] eqn:Hn; [|done].
  apply IH. apply py_int_nonneg in Hn; [lia|]. intros H%slice_incl. done.
Qed.

(** ** Error detection of the CRC *)

(** The inverse of [crc_bit] on 16-bit registers. *)
Definition crc_bit_inv (y : N) : N :=
  if N.testbit y 0 then N.lor (N.shiftr (N.lxor y 0x1021) 1) 0x8000 else N.shiftr y 1.

(** All the numbers of at most [k] bits. *)
Fixpoint registers (k : nat) : list N :=
  match k with
  | O => [0%N]
  | S k' => (N.double <$> registers k') ++ (N.succ_double <$> registers k')
  end.

Lemma registers_elem k x : (x < 2 ^ N.of_nat k)%N -> x ∈ registers k.
Proof.
  revert x. induction k as [|k IH]; intros x Hx.
  { change (2 ^ N.of_nat 0)%N with 1%N in Hx. simpl. apply list_elem_of_singleton. lia. }
  rewrite Nat2N.inj_succ, N.pow_succ_r' in Hx. simpl. apply elem_of_app.
  pose proof (N.div2_odd x) as Hd. assert (Hlt : (N.div2 x < 2 ^ N.of_nat k)%N).
  { destruct (N.odd x); simpl N.b2n in Hd; lia. }
  rewrite !list_elem_of_fmap. destruct (N.odd x); [right|left]; exists (N.div2 x);
    (split; [|by apply IH]); rewrite ?N.succ_double_spec, ?N.double_spec; simpl N.b2n in Hd; lia.
Qed.

Lemma crc_bit_all :
  forallb (fun x => (crc_bit_inv (crc_bit x) =? x)%N && (crc_bit x <? 2 ^ 16)%N)
    (registers 16) = true.
Proof. by vm_compute. Qed.

Lemma crc_bit_spec x : (x < 2 ^ 16)%N -> crc_bit_inv (crc_bit x) = x /\ (crc_bit x < 2 ^ 16)%N.
Proof.
  intros Hx%(registers_elem 16)%list_elem_of_In. pose proof crc_bit_all as H.
  rewrite forallb_forall in H. specialize (H x Hx). to_prop. split; [done|]. by apply N.ltb_lt.
Qed.

Lemma crc_iter_spec n x y :
  (x < 2 ^ 16)%N -> (y < 2 ^ 16)%N ->
  (Nat.iter n crc_bit x < 2 ^ 16)%N /\ (Nat.iter n crc_bit x = Nat.iter n crc_bit y -> x = y).
Proof.
  intros Hx Hy. assert (Hb : forall z, (z < 2 ^ 16)%N -> (Nat.iter n crc_bit z < 2 ^ 16)%N).
  { intros z Hz. induction n as [|n IH]; simpl; [done|]. by apply crc_bit_spec. }
  split; [by apply Hb|]. clear Hb. induction n as [|n IH]; simpl; [done|]. intros Heq. apply IH.
  assert (Hb : forall z, (z < 2 ^ 16)%N -> (Nat.iter n crc_bit z < 2 ^ 16)%N).
  { intros z Hz. clear -Hz. induction n as [|n IH]; simpl; [done|]. by apply crc_bit_spec. }
  rewrite <- (proj1 (crc_bit_spec _ (Hb x Hx))), <- (proj1 (crc_bit_spec _ (Hb y Hy))).
  by rewrite Heq.
Qed.

Lemma lxor_lt16 a b : (a < 2 ^ 16)%N -> (b < 2 ^ 16)%N -> (N.lxor a b < 2 ^ 16)%N.
Proof.
  intros Ha Hb.
  destruct (N.eq_dec (N.lxor a b) 0%N) as [->|Hne]; [done|].
  apply N.log2_lt_pow2; [lia|]. pose proof (N.log2_lxor a b).
  assert (forall z, (z < 2 ^ 16)%N -> (N.log2 z < 16)%N) as Hl.
  { intros z Hz. destruct (N.eq_dec z 0%N) as [->|]; [done|]. apply N.log2_lt_pow2; lia. }
  pose proof (Hl a Ha). pose proof (Hl b Hb). lia.
Qed.

Lemma crc_byte_spec x y b :
  (x < 2 ^ 16)%N -> (y < 2 ^ 16)%N -> (b < 256)%N ->
  (crc_byte x b < 2 ^ 16)%N /\ (crc_byte x b = crc_byte y b -> x = y).
Proof.
  intros Hx Hy Hb. assert (Hs : (N.shiftl b 8 < 2 ^ 16)%N) by (rewrite N.shiftl_mul_pow2; lia).
  unfold crc_byte.
  destruct (crc_iter_spec 8 (N.lxor x (N.shiftl b 8)) (N.lxor y (N.shiftl b 8))) as [H1 H2];
    [by apply lxor_lt16..|].
  split; [done|]. intros Heq%H2.
  rewrite <- (N.lxor_0_r x), <- (N.lxor_0_r y), <- (N.lxor_nilpotent (N.shiftl b 8)).
  by rewrite <- !N.lxor_assoc, Heq.
Qed.

(** Different bytes lead the same register to different registers. *)
Lemma crc_byte_inj x b1 b2 :
  (x < 2 ^ 16)%N -> (b1 < 256)%N -> (b2 < 256)%N -> crc_byte x b1 = crc_byte x b2 -> b1 = b2.
Proof.
  intros Hx Hb1 Hb2.
  assert (Hs : forall b, (b < 256)%N -> (N.shiftl b 8 < 2 ^ 16)%N)
    by (intros b Hb; rewrite N.shiftl_mul_pow2; lia).
  unfold crc_byte. intros Heq.
  apply (crc_iter_spec 8) in Heq; [|by apply lxor_lt16; auto..].
  assert (Hsh : N.shiftl b1 8 = N.shiftl b2 8).
  { rewrite <- (N.lxor_0_l (N.shiftl b1 8)), <- (N.lxor_0_l (N.shiftl b2 8)).
    by rewrite <- (N.lxor_nilpotent x), !N.lxor_assoc, Heq. }
  rewrite !N.shiftl_mul_pow2 in Hsh. lia.
Qed.

Lemma crc_fold_spec l : forall x y,
  Forall (fun b => (b < 256)%N) l -> (x < 2 ^ 16)%N -> (y < 2 ^ 16)%N ->
  (foldl crc_byte x l < 2 ^ 16)%N /\ (foldl crc_byte x l = foldl crc_byte y l -> x = y).
Proof.
  induction l as [|b l IH]; intros x y Hl Hx Hy; [done|]. apply Forall_cons in Hl as [Hb Hl].
  simpl. destruct (crc_byte_spec x y b) as [H1 H2]; [done..|].
  destruct (crc_byte_spec y x b) as [H3 _]; [done..|].
  destruct (IH (crc_byte x b) (crc_byte y b)) as [H4 H5]; [done..|]. auto.
Qed.

(** * Properties *)

(** Every payload [build_sgqr] returns decodes, in at most ten iterations of
    [parse_tlv], to exactly the fields it was built from (the nested account template too),
    with a four-character checksum that [verify_crc] accepts. *)
Lemma build_sgqr_roundtrip mk acct name city ccy amount p :
  build_sgqr mk acct name city ccy amount = Ok p ->
  exists code crc, _CURRENCY_NUMERIC !! ccy = Some code /\ len crc = 4 /\
    parse_tlv 10 (qr_payload p) = Parsed (fields_map (sgqr_fields acct name city code amount crc)) /\
    parse_tlv 2 (tlv_concat (account_template acct)) = Parsed (fields_map (account_template acct)) /\
    verify_crc (qr_payload p) = Ok true /\ qr_png_bytes p = mk (qr_payload p).
Proof.
  intros Hb. destruct (build_sgqr_lengths _ _ _ _ _ _ _ Hb) as (code & Hccy & Ham & Hlen).
  rewrite (build_sgqr_eq _ _ _ _ _ _ _ Hccy Ham Hlen) in Hb.
  destruct (_crc16_ccitt _) as [crc|] eqn:Hcrc; [|by rewrite result_bind_err in Hb].
  rewrite result_bind_ok in Hb. cbv zeta in Hb. injection Hb as <-. cbn [qr_payload qr_png_bytes].
  assert (Hc : len crc = 4).
  { unfold _crc16_ccitt in Hcrc. destruct (encode_ascii _); simplify_eq. done. }
  exists code, crc. split; [done|]. split; [done|].
  split_and!; [| |by apply crc_check_appended|done].
  - rewrite sgqr_payload_concat by done.
    apply (parse_loop_fields _ 10 ""); [by apply sgqr_fields_ok|]. destruct amount; simpl; lia.
  - apply (parse_loop_fields _ 2 ""); [|done].
    unfold account_template, field_ok. destruct Hlen as (? & _).
    repeat (apply Forall_cons; split); try (by apply Forall_nil); done.
Qed.

Definition no_png (_ : string) : list N := [].

(** For a supported currency, an amount it accepts and texts that fit, [build_sgqr] succeeds
    exactly when the payload is ASCII. *)
Lemma build_sgqr_outcome mk acct name city ccy amount code :
  _CURRENCY_NUMERIC !! ccy = Some code -> check_amount amount = Ok tt -> fits acct amount ->
  let body := sgqr_body acct name city code amount in
  build_sgqr mk acct name city ccy amount =
    match encode_ascii body with
    | Some bytes =>
        let payload := body +:+ fmt_04X (crc16 bytes) in
        Ok {| qr_payload := payload; qr_png_bytes := mk payload |}
    | None => Err QrUnicodeEncodeError
    end.
Proof.
  intros Hccy Ham Hfits body.
  rewrite (build_sgqr_eq _ _ _ _ _ _ code) by (done || by apply (sgqr_lengths_fit _ ccy)). fold body.
  unfold _crc16_ccitt. by destruct (encode_ascii body).
Qed.

(** The sign of an amount, where it has one. *)
Definition positive (a : Decimal) : bool :=
  match a with Fin neg c _ => negb neg && negb (c =? 0)%N | Inf neg => negb neg | NaN _ => false end.

(** The checksum detects the corruption of any single character: two byte sequences
    that differ in exactly one byte never have the same CRC. *)
Lemma crc16_detects_one_byte l1 b1 b2 l2 :
  Forall (fun b => (b < 256)%N) (l1 ++ l2) -> (b1 < 256)%N -> (b2 < 256)%N -> b1 <> b2 ->
  crc16 (l1 ++ b1 :: l2) <> crc16 (l1 ++ b2 :: l2).
Proof.
  intros [Hl1 Hl2]%Forall_app Hb1 Hb2 Hne Heq. unfold crc16 in Heq. rewrite !foldl_app in Heq.
  simpl in Heq. destruct (crc_fold_spec l1 0xFFFF 0xFFFF) as [Hr _]; [done..|].
  set (r := foldl crc_byte _ l1) in *.
  apply (crc_fold_spec l2) in Heq; [|done|by apply (crc_byte_spec r r)..].
  by apply crc_byte_inj in Heq.
Qed.

Lemma hex_digits_upper_inj k : forall m n,
  (m < 16 ^ N.of_nat k)%N -> (n < 16 ^ N.of_nat k)%N -> hex_digits_upper k m = hex_digits_upper k n -> m = n.
Proof.
  induction k as [|k IH]; intros m n Hm Hn Heq; [cbn in *; lia|].
  rewrite Nat2N.inj_succ, N.pow_succ_r' in Hm, Hn. cbn [hex_digits_upper] in Heq.
  apply app_inj_tail in Heq as [Hhigh Hlow].
  apply IH in Hhigh; [|apply N.Div0.div_lt_upper_bound; lia..].
  apply hex_digit_upper_inj in Hlow; [|apply N.mod_lt; lia..].
  rewrite (N.div_mod m 16), (N.div_mod n 16), Hhigh, Hlow by lia. done.
Qed.

Lemma fmt_04X_inj m n : (m < 16 ^ 4)%N -> (n < 16 ^ 4)%N -> fmt_04X m = fmt_04X n -> m = n.
Proof.
  intros Hm Hn Heq. apply (hex_digits_upper_inj 4); [done..|].
  rewrite <- (list_ascii_of_string_of_list_ascii (hex_digits_upper 4 m)).
  rewrite <- (list_ascii_of_string_of_list_ascii (hex_digits_upper 4 n)).
  unfold fmt_04X in Heq. by rewrite Heq.
Qed.

Lemma verify_crc_eq body crc :
  len crc = 4 -> verify_crc (body +:+ crc) = (c ← _crc16_ccitt body; Ok (bool_decide (c = crc))).
Proof.
  intros Hc. unfold verify_crc. replace (-4) with (- len crc) by lia. by rewrite slice_body, slice_tail by lia.
Qed.

Lemma append_split a b s t :
  a +:+ b = s +:+ t ->
  (exists c m, a = s +:+ String c m /\ t = String c m +:+ b) \/ (exists m, s = a +:+ m /\ b = m +:+ t).
Proof.
  revert s. induction a as [|x a IH]; intros s Heq; [by right; exists s|].
  destruct s as [|y s]; [by left; exists x, a|]. cbn in Heq. injection Heq as -> Heq.
  destruct (IH _ Heq) as [(c & m & -> & ->)|(m & -> & ->)]; [left; by exists c, m|right; by exists m].
Qed.

Lemma list_of_append s1 s2 :
  list_ascii_of_string (s1 +:+ s2) = list_ascii_of_string s1 ++ list_ascii_of_string s2.
Proof.
  induction s1 as [|c s1 IH]; [done|].
  change (c :: list_ascii_of_string (s1 +:+ s2) = c :: (list_ascii_of_string s1 ++ list_ascii_of_string s2)).
  by rewrite IH.
Qed.

Lemma crc16_bound l : Forall (fun b => (b < 256)%N) l -> (crc16 l < 16 ^ 4)%N.
Proof. intros Hl. by destruct (crc_fold_spec l 0xFFFF 0xFFFF) as [Hr _]. Qed.

(** One character of a text altered, the checksum of the text changes. *)
Lemma crc_text_detects s1 c c' s2 crc :
  _crc16_ccitt (s1 +:+ String c s2) = Ok crc -> c' <> c -> (N_of_ascii c' < 128)%N ->
  exists crc', _crc16_ccitt (s1 +:+ String c' s2) = Ok crc' /\ crc' <> crc.
Proof.
  intros Hcrc Hne Hc'. unfold _crc16_ccitt, encode_ascii in *. rewrite list_of_append in *. cbn in *.
  rewrite fmap_app in *. cbn in *. rewrite forallb_app in *. cbn in *.
  set (l1 := N_of_ascii <$> list_ascii_of_string s1) in *. set (l2 := N_of_ascii <$> list_ascii_of_string s2) in *.
  destruct (forallb (fun n => (n <? 128)%N) l1) eqn:H1, ((N_of_ascii c <? 128)%N) eqn:Hc,
    (forallb (fun n => (n <? 128)%N) l2) eqn:H2; try done.
  injection Hcrc as <-. apply N.ltb_lt in Hc. rewrite (proj2 (N.ltb_lt _ _) Hc'). cbn.
  assert (Hb : forall l, forallb (fun n => (n <? 128)%N) l = true -> Forall (fun b => (b < 256)%N) l).
  { intros l Hl. rewrite forallb_forall in Hl. apply Forall_forall. intros x Hx%list_elem_of_In.
    specialize (Hl x Hx). apply N.ltb_lt in Hl. lia. }
  apply Hb in H1, H2. eexists. split; [reflexivity|]. intros Heq.
  apply fmt_04X_inj in Heq.
  - apply (crc16_detects_one_byte l1 (N_of_ascii c') (N_of_ascii c) l2) in Heq; [done| |lia..|].
    + by apply Forall_app.
    + intros Hn. apply Hne. rewrite <- (ascii_N_embedding c), <- (ascii_N_embedding c'). by rewrite Hn.
  - apply crc16_bound, Forall_app. split; [done|]. constructor; [lia|done].
  - apply crc16_bound, Forall_app. split; [done|]. constructor; [lia|done].
Qed.

(** One character of a checked text altered, the check fails. *)
Lemma verify_crc_detects body crc s1 c c' s2 :
  _crc16_ccitt body = Ok crc -> body +:+ crc = s1 +:+ String c s2 -> c' <> c -> (N_of_ascii c' < 128)%N ->
  verify_crc (s1 +:+ String c' s2) = Ok false.
Proof.
  intros Hcrc Heq Hne Hc'.
  assert (Hlen : forall b x, _crc16_ccitt b = Ok x -> len x = 4).
  { intros b x Hx. unfold _crc16_ccitt in Hx. destruct (encode_ascii b); simplify_eq. done. }
  apply append_split in Heq as [(x & m & -> & Ht)|(m & -> & Ht)].
  - cbn in Ht. injection Ht as <- ->.
    destruct (crc_text_detects _ _ _ _ _ Hcrc Hne Hc') as (crc' & Hcrc' & Hdiff).
    change (String c' (m +:+ crc)) with (String c' m +:+ crc). rewrite append_assoc.
    rewrite verify_crc_eq by by eapply Hlen.
    rewrite Hcrc', result_bind_ok. by rewrite bool_decide_false.
  - rewrite <- append_assoc, verify_crc_eq.
    2: { pose proof (Hlen _ _ Hcrc) as H4. rewrite Ht, len_app in H4. by rewrite len_app. }
    rewrite Hcrc, result_bind_ok, bool_decide_false; [done|]. rewrite Ht. clear -Hne. intros Heq.
    induction m as [|x m IH]; cbn in Heq; [by injection Heq|]. injection Heq as Heq. by apply IH.
Qed.

Lemma build_sgqr_payload mk acct name city ccy amount p :
  build_sgqr mk acct name city ccy amount = Ok p ->
  exists body crc, _crc16_ccitt body = Ok crc /\ qr_payload p = body +:+ crc.
Proof.
  intros Hb. destruct (build_sgqr_lengths _ _ _ _ _ _ _ Hb) as (code & Hccy & Ham & Hlen).
  rewrite (build_sgqr_eq _ _ _ _ _ _ _ Hccy Ham Hlen) in Hb.
  destruct (_crc16_ccitt _) as [crc|] eqn:Hcrc; [|by rewrite result_bind_err in Hb].
  rewrite result_bind_ok in Hb. cbv zeta in Hb. injection Hb as <-. eauto.
Qed.

Lemma check_amount_refused a :
  positive a = false -> (forall q, a <> NaN q) -> check_amount (Some a) = Err (SgqrError_amount_not_positive a).
Proof.
  intros Hp Hq. unfold check_amount, dec_le0. destruct a as [[] c e|[]|q]; try done; [|by destruct (Hq q)].
  simpl in *. by destruct (c =? 0)%N.
Qed.

(** C39. What [build_sgqr] returns.  A currency it has no numeric code for, then an amount that
    is not positive, then an account number of more than 82 characters or an amount that prints
    in more than 99, are SgqrErrors, which the endpoint maps to a 422; an amount that is not a
    number raises the decimal module's signal.  In all other cases it returns a payload exactly
    when everything that goes into it is ASCII, and otherwise raises a UnicodeEncodeError,
    which is no SgqrError.  And every payload it returns, whatever the arguments, decodes to
    exactly the fields it was built from, the nested account template too, with a checksum
    that [verify_crc] accepts, and that it no longer accepts once any single character of the
    payload is replaced by another ASCII one. *)
Theorem build_sgqr_correct mk acct name city ccy amount :
  match _CURRENCY_NUMERIC !! ccy, amount with
  | None, _ => build_sgqr mk acct name city ccy amount = Err (SgqrError_unsupported_currency ccy)
  | Some _, Some (NaN _) => build_sgqr mk acct name city ccy amount = Err (QrDecimalSignal InvalidOperation)
  | Some code, _ =>
      match amount with
      | Some a => if positive a then True else
          build_sgqr mk acct name city ccy amount = Err (SgqrError_amount_not_positive a)
      | None => True
      end /\
      (from_option positive true amount = true ->
       (~ fits acct amount ->
        exists tag value, build_sgqr mk acct name city ccy amount = Err (SgqrError_tlv_too_long tag value)) /\
       (fits acct amount ->
        let body := sgqr_body acct name city code amount in
        build_sgqr mk acct name city ccy amount =
          match encode_ascii body with
          | Some bytes =>
              let payload := body +:+ fmt_04X (crc16 bytes) in
              Ok {| qr_payload := payload; qr_png_bytes := mk payload |}
          | None => Err QrUnicodeEncodeError
          end))
  end /\
  is_SgqrError QrUnicodeEncodeError = false /\
  (forall p, build_sgqr mk acct name city ccy amount = Ok p ->
   exists code crc, _CURRENCY_NUMERIC !! ccy = Some code /\ len crc = 4 /\
     parse_tlv 10 (qr_payload p) = Parsed (fields_map (sgqr_fields acct name city code amount crc)) /\
     parse_tlv 2 (tlv_concat (account_template acct)) = Parsed (fields_map (account_template acct)) /\
     verify_crc (qr_payload p) = Ok true /\ qr_png_bytes p = mk (qr_payload p)) /\
  (forall p s1 c c' s2, build_sgqr mk acct name city ccy amount = Ok p ->
   qr_payload p = s1 +:+ String c s2 -> c' <> c -> (N_of_ascii c' < 128)%N ->
   verify_crc (s1 +:+ String c' s2) = Ok false).
Proof.
  split; [|split; [done|split; [intros p; apply build_sgqr_roundtrip|]]].
  - destruct (_CURRENCY_NUMERIC !! ccy) as [code|] eqn:Hccy; [|unfold build_sgqr; by rewrite Hccy].
    assert (Hcheck : from_option positive true amount = true -> check_amount amount = Ok tt).
    { destruct amount as [[[] c e|[]|]|]; try done. unfold positive, check_amount, dec_le0. simpl.
      by destruct (c =? 0)%N. }
    assert (Hgo : from_option positive true amount = true -> (_ -> _) /\ (_ -> _)) by
      (intros Hp; exact (conj (build_sgqr_too_long mk acct name city ccy amount code Hccy (Hcheck Hp))
        (build_sgqr_outcome mk acct name city ccy amount code Hccy (Hcheck Hp)))).
    assert (Hrefused : forall a, amount = Some a -> (forall q, a <> NaN q) ->
      if positive a then True else
        build_sgqr mk acct name city ccy amount = Err (SgqrError_amount_not_positive a)).
    { intros a -> Ha. destruct (positive a) eqn:Hp; [done|]. unfold build_sgqr.
      by rewrite Hccy, (check_amount_refused a). }
    destruct amount as [[neg c e|neg|q]|]; [| |unfold build_sgqr; by rewrite Hccy|by split];
      (split; [by apply (Hrefused _ eq_refl)|exact Hgo]).
  - intros p s1 c c' s2 Hp Heq. destruct (build_sgqr_payload _ _ _ _ _ _ _ Hp) as (body & crc & Hcrc & Hpay).
    rewrite Hpay in Heq. by apply (verify_crc_detects body crc).
Qed.

Lemma build_sgqr_correct_witness :
  (exists p, build_sgqr no_png "ACC-001" "Test Merchant" "Singapore" "SGD" (Some (of_cents 1050)) = Ok p /\
   exists code crc, _CURRENCY_NUMERIC !! "SGD" = Some code /\ len crc = 4 /\
     parse_tlv 10 (qr_payload p) =
       Parsed (fields_map (sgqr_fields "ACC-001" "Test Merchant" "Singapore" code (Some (of_cents 1050)) crc)) /\
     parse_tlv 2 (tlv_concat (account_template "ACC-001")) = Parsed (fields_map (account_template "ACC-001")) /\
     verify_crc (qr_payload p) = Ok true /\ qr_png_bytes p = no_png (qr_payload p)) /\
  build_sgqr no_png "ACC-001" ("Caf" +:+ String (ascii_of_N 233) "") "Singapore" "SGD" None =
    Err QrUnicodeEncodeError /\
  build_sgqr no_png "ACC-001" "Test Merchant" "Singapore" "JPY" None = Err (SgqrError_unsupported_currency "JPY").
Proof.
  split; [|split].
  - eexists. split; [vm_compute; reflexivity|].
    apply (proj1 (proj2 (proj2 (build_sgqr_correct no_png "ACC-001" "Test Merchant" "Singapore" "SGD"
      (Some (of_cents 1050)))))).
    vm_compute. reflexivity.
  - refine (proj2 (proj2 (proj1 (build_sgqr_correct no_png "ACC-001" ("Caf" +:+ String (ascii_of_N 233) "")
      "Singapore" "SGD" None)) eq_refl) _).
    split; [discriminate|intros a; discriminate].
  - exact (proj1 (build_sgqr_correct no_png "ACC-001" "Test Merchant" "Singapore" "JPY" None)).
Defined.

(** [parse_tlv] returns or raises within [len(payload)] iterations on every payload
    without a minus sign. *)
Lemma parse_tlv_terminates payload :
  "-"%char ∉ list_ascii_of_string payload ->
  parse_tlv (Z.to_nat (len payload)) payload <> ParseOutOfFuel.
Proof. intros Hno. apply parse_loop_terminates; [done|]. pose proof (len_nonneg payload). lia. Qed.

(** [parse_tlv] never terminates on [00-4]: [int("-4")] is a negative length, so the index
    does not move. *)
Lemma parse_tlv_diverges fuel : parse_tlv fuel "00-4" = ParseOutOfFuel.
Proof.
  unfold parse_tlv. enough (forall fields, parse_loop fuel "00-4" 0 fields = ParseOutOfFuel) by done.
  induction fuel as [|fuel IH]; intros fields; [done|].
  change (parse_loop (S fuel) "00-4" 0 fields) with (parse_loop fuel "00-4" 0 (<["00" := ""]> fields)).
  apply IH.
Qed.

(** C40. Whether [parse_tlv] ends.  On every payload without a minus sign it returns or
    raises within [len(payload)] iterations; on [00-4] it never does, because [int("-4")] is
    a length that leaves the index where it is. *)
Theorem parse_tlv_termination payload fuel :
  ("-"%char ∉ list_ascii_of_string payload ->
   parse_tlv (Z.to_nat (len payload)) payload <> ParseOutOfFuel) /\
  parse_tlv fuel "00-4" = ParseOutOfFuel.
Proof. split; [apply parse_tlv_terminates|apply parse_tlv_diverges]. Qed.

Lemma parse_tlv_termination_witness :
  parse_tlv (Z.to_nat (len "0002010")) "0002010" <> ParseOutOfFuel.
Proof. apply (proj1 (parse_tlv_termination "0002010" 0)). vm_compute. set_solver. Defined.
