(* ===== verification/PyVal.v ===== *)
(** PyVal: the dictionaries the program stores as JSON.

    [_payment_response_dict] builds a [dict[str, Any]] of UUIDs, decimals, strings, integers
    and [None]; the JSONB columns (written through [_json_serializer] of
    app/infra/db/session.py, [default=str]) turn the UUIDs and decimals into strings. *)
From S2P Require Import Prelude Decimals PyText.

Inductive PyVal :=
| VNone
| VInt (z : Z)
| VStr (s : string)
| VUuid (u : UUID)
| VDec (d : Decimal).

#[export] Instance PyVal_eq_dec : EqDecision PyVal.
Proof. solve_decision. Defined.

(** A flat dict, where its insertion order does not matter: a JSON object in a column or in
    a response. *)
Abbreviation pydict := (gmap string PyVal).

(** The items of a dict in their insertion order; the keys are distinct. *)
Abbreviation pyitems := (list (string * PyVal)).

(** What a value reads back as after [json.dumps(..., default=str)] and [json.loads]. *)
Definition json_value (v : PyVal) : PyVal :=
  match v with
  | VUuid u => VStr (uuid_str u)
  | VDec d => VStr (dec_str d)
  | _ => v
  end.

(** A dict written to a JSONB column and read back. *)
Definition _json_serializer (d : pydict) : pydict := json_value <$> d.

(** * json.dumps(body, sort_keys=True, default=str) *)

Definition json_char (c : ascii) : list ascii :=
  let n := N_of_ascii c in
  let bs := "\"%char in
  (if n =? 34 then [bs; c]
   else if n =? 92 then [bs; c]
   else if n =? 10 then [bs; "n"%char]
   else if n =? 13 then [bs; "r"%char]
   else if n =? 9 then [bs; "t"%char]
   else if n =? 12 then [bs; "f"%char]
   else if n =? 8 then [bs; "b"%char]
   else if (32 <=? n) && (n <=? 126) then [c]
   else bs :: "u"%char :: hex_digits 4 n)%N.

Definition json_str (s : string) : string :=
  let q := ascii_of_N 34 in
  string_of_list_ascii (q :: concat (json_char <$> list_ascii_of_string s) ++ [q]).

Definition json_dump_value (v : PyVal) : string :=
  match json_value v with
  | VNone => "null"
  | VInt z => str_Z z
  | VStr s => json_str s
  | VUuid u => json_str (uuid_str u)
  | VDec d => json_str (dec_str d)
  end.

Fixpoint join (sep : string) (l : list string) : string :=
  match l with
  | [] => ""
  | [x] => x
  | x :: l' => x +:+ sep +:+ join sep l'
  end.

Definition json_item (item : string * PyVal) : string :=
  json_str item.1 +:+ ": " +:+ json_dump_value item.2.

(** [sort_keys=True] sorts the items; no two of them have the same key. *)
Definition key_le (x y : string * PyVal) : Prop := String.le x.1 y.1.
#[export] Instance key_le_dec x y : Decision (key_le x y).
Proof. unfold key_le. apply _. Defined.

Definition json_dumps_sorted (items : pyitems) : string :=
  "{" +:+ join ", " (json_item <$> merge_sort key_le items) +:+ "}".

(** * Lemmas *)

Lemma json_value_idem v : json_value (json_value v) = json_value v.
Proof. by destruct v. Qed.

(** Reading a stored dict back and storing it again changes nothing. *)
Lemma json_serializer_idem d : _json_serializer (_json_serializer d) = _json_serializer d.
Proof.
  unfold _json_serializer. rewrite <- map_fmap_compose. apply map_fmap_ext.
  intros k v _. apply json_value_idem.
Qed.

Lemma json_serializer_lookup d k : _json_serializer d !! k = json_value <$> d !! k.
Proof. apply lookup_fmap. Qed.

#[export] Hint Rewrite json_serializer_idem json_serializer_lookup : ledger_rw.
