(* ===== verification/JsonFacts.v ===== *)
(** JsonFacts: [json.dumps(..., sort_keys=True)] is injective on the values it renders.

    Each string is written with a prefix code of its characters and closed by a quote no
    code begins with, so that a rendering can be read in one way only; the request hash
    therefore tells two bodies apart unless SHA-256 does not. *)
From S2P Require Import Prelude Decimals PyText DecText PyVal.

#[local] Open Scope N_scope.

(** * Prefix codes *)

(** An encoding that can be read off the front of any text. *)
Definition prefix_code {A} (enc : A -> list ascii) : Prop :=
  forall x y r s, enc x ++ r = enc y ++ s -> x = y /\ r = s.

(** Two texts that differ at a position both of them have. *)
Fixpoint clash (l1 l2 : list ascii) : bool :=
  match l1, l2 with
  | c1 :: l1', c2 :: l2' => negb (bool_decide (c1 = c2)) || clash l1' l2'
  | _, _ => false
  end.

Lemma clash_app l1 l2 r s : clash l1 l2 = true -> l1 ++ r <> l2 ++ s.
Proof.
  revert l2. induction l1 as [|c1 l1 IH]; intros [|c2 l2]; simpl; try done.
  intros Hc [= -> Ha]. rewrite bool_decide_true in Hc by done. by apply (IH l2).
Qed.

(** ** Characters *)

Definition all_chars : list ascii := ascii_of_N <$> (N.of_nat <$> seq 0 256).

Lemma elem_of_all_chars c : c ∈ all_chars.
Proof.
  apply list_elem_of_fmap. exists (N_of_ascii c). split; [by rewrite ascii_N_embedding|].
  apply list_elem_of_fmap. exists (N.to_nat (N_of_ascii c)). split; [by rewrite N2Nat.id|].
  apply elem_of_seq. pose proof (N_ascii_bounded c). lia.
Qed.

Lemma json_chars_clash :
  forallb (fun c1 => forallb (fun c2 => bool_decide (c1 = c2) || clash (json_char c1) (json_char c2))
    all_chars) all_chars = true.
Proof. vm_compute. reflexivity. Qed.

Lemma json_char_code : prefix_code json_char.
Proof.
  intros c1 c2 r s Heq. pose proof json_chars_clash as Hall. rewrite forallb_forall in Hall.
  specialize (Hall c1 (proj1 (list_elem_of_In _ _) (elem_of_all_chars c1))).
  rewrite forallb_forall in Hall.
  specialize (Hall c2 (proj1 (list_elem_of_In _ _) (elem_of_all_chars c2))).
  apply orb_prop in Hall as [Hc|Hc].
  - apply bool_decide_eq_true in Hc as ->. split; [done|]. by simplify_list_eq.
  - by apply (clash_app _ _ r s) in Hc.
Qed.

(** ** Strings *)

Definition quote : ascii := ascii_of_N 34.

Lemma json_quote_clash : forallb (fun c => clash [quote] (json_char c)) all_chars = true.
Proof. vm_compute. reflexivity. Qed.

Lemma json_char_no_quote c l r : quote :: l <> json_char c ++ r.
Proof.
  pose proof json_quote_clash as Hall. rewrite forallb_forall in Hall.
  specialize (Hall c (proj1 (list_elem_of_In _ _) (elem_of_all_chars c))).
  exact (clash_app [quote] _ l r Hall).
Qed.

Lemma json_chars_code l1 l2 r s :
  concat (json_char <$> l1) ++ quote :: r = concat (json_char <$> l2) ++ quote :: s ->
  l1 = l2 /\ r = s.
Proof.
  revert l2. induction l1 as [|c1 l1 IH]; intros [|c2 l2]; cbn [fmap list_fmap concat app].
  - by intros [= ->].
  - intros Heq. rewrite <- app_assoc in Heq. by apply json_char_no_quote in Heq.
  - intros Heq. symmetry in Heq. rewrite <- app_assoc in Heq. by apply json_char_no_quote in Heq.
  - rewrite <- !app_assoc. intros [-> Heq]%json_char_code. by destruct (IH _ Heq) as [-> ->].
Qed.

Definition json_list (s : string) : list ascii := list_ascii_of_string (json_str s).

Lemma json_list_eq s :
  json_list s = quote :: concat (json_char <$> list_ascii_of_string s) ++ [quote].
Proof. unfold json_list, json_str. apply list_ascii_of_string_of_list_ascii. Qed.

Lemma list_string_inj s1 s2 : list_ascii_of_string s1 = list_ascii_of_string s2 -> s1 = s2.
Proof.
  intros Heq. rewrite <- (string_of_list_ascii_of_string s1), Heq.
  apply string_of_list_ascii_of_string.
Qed.

Lemma json_list_code : prefix_code json_list.
Proof.
  intros s1 s2 r s. rewrite !json_list_eq. simpl. rewrite <- !app_assoc. intros [= Heq].
  apply json_chars_code in Heq as [Heq ->]. split; [by apply list_string_inj|done].
Qed.

(** ** Values *)

(** What follows a value: a comma or a closing brace, not a digit. *)
Definition stops (l : list ascii) : Prop := no_digit l.

Lemma digits_code m n r s :
  stops r -> stops s ->
  list_ascii_of_string (digits_str m) ++ r = list_ascii_of_string (digits_str n) ++ s -> m = n /\ r = s.
Proof.
  intros Hr Hs. rewrite !list_digits_str. intros Heq.
  pose proof (digit_span_app (digits_of m) r (digits_of_small m) Hr) as Hm.
  rewrite Heq in Hm. rewrite digit_span_app in Hm by (done || apply digits_of_small).
  injection Hm as Hd ->. split; [|done]. by rewrite <- (digits_of_value m), <- Hd, digits_of_value.
Qed.

Lemma digits_str_head n : exists c l, list_ascii_of_string (digits_str n) = c :: l /\ digit_of c <> None.
Proof.
  rewrite list_digits_str. pose proof (digits_of_small n) as Hsm. pose proof (digits_of_length n) as Hl.
  pose proof (ndigits_pos n) as Hnd.
  destruct (digits_of n) as [|d ds]; [simpl in Hl; lia|]. apply Forall_cons in Hsm as [Hd _].
  exists (digit_char d), (digit_char <$> ds). split; [done|]. by rewrite digit_of_char.
Qed.

Lemma str_Z_list z :
  list_ascii_of_string (str_Z z) =
  (if (z <? 0)%Z then ["-"%char] else []) ++ list_ascii_of_string (digits_str (Z.abs_N z)).
Proof. unfold str_Z. rewrite list_string_app. by destruct (z <? 0)%Z. Qed.

Lemma str_Z_code x y r s :
  stops r -> stops s ->
  list_ascii_of_string (str_Z x) ++ r = list_ascii_of_string (str_Z y) ++ s -> x = y /\ r = s.
Proof.
  intros Hr Hs. rewrite !str_Z_list, <- !app_assoc.
  destruct (digits_str_head (Z.abs_N x)) as (cx & lx & Hx & Dx).
  destruct (digits_str_head (Z.abs_N y)) as (cy & ly & Hy & Dy).
  destruct (Z.ltb_spec x 0), (Z.ltb_spec y 0); simpl; intros Heq.
  - injection Heq as Heq. apply digits_code in Heq as [? ->]; [|done..]. split; [lia|done].
  - rewrite Hy in Heq. injection Heq as <- _. by destruct Dy.
  - rewrite Hx in Heq. injection Heq as -> _. by destruct Dx.
  - apply digits_code in Heq as [? ->]; [|done..]. split; [lia|done].
Qed.

Definition value_list (v : PyVal) : list ascii := list_ascii_of_string (json_dump_value v).

(** The first character of a rendered value tells its kind. *)
Lemma value_kind v :
  match json_value v with
  | VNone => value_list v = list_ascii_of_string "null"
  | VInt z => value_list v = list_ascii_of_string (str_Z z)
  | VStr s => value_list v = json_list s
  | _ => False
  end.
Proof. by destruct v. Qed.

Lemma str_Z_not_quote z l r : quote :: l <> list_ascii_of_string (str_Z z) ++ r.
Proof.
  rewrite str_Z_list. destruct (digits_str_head (Z.abs_N z)) as (c & l' & Hc & Hd). rewrite Hc.
  destruct (z <? 0)%Z; simpl; [done|]. by intros [= <- _].
Qed.
Lemma str_Z_not_null z l r : list_ascii_of_string "null" ++ l <> list_ascii_of_string (str_Z z) ++ r.
Proof.
  rewrite str_Z_list. destruct (digits_str_head (Z.abs_N z)) as (c & l' & Hc & Hd). rewrite Hc.
  destruct (z <? 0)%Z; simpl; [done|]. by intros [= <- _].
Qed.
Lemma json_list_not_null x l r : list_ascii_of_string "null" ++ l <> json_list x ++ r.
Proof. by rewrite json_list_eq. Qed.

Lemma value_code v w r s :
  stops r -> stops s -> value_list v ++ r = value_list w ++ s -> json_value v = json_value w /\ r = s.
Proof.
  intros Hr Hs Heq. pose proof (value_kind v) as Hv. pose proof (value_kind w) as Hw.
  destruct (json_value v) as [|x|x| |], (json_value w) as [|y|y| |]; try done; rewrite Hv, Hw in Heq.
  - split; [done|]. by simplify_list_eq.
  - by apply str_Z_not_null in Heq.
  - by apply json_list_not_null in Heq.
  - symmetry in Heq. by apply str_Z_not_null in Heq.
  - by apply str_Z_code in Heq as [-> ->].
  - symmetry in Heq. rewrite json_list_eq in Heq. by apply str_Z_not_quote in Heq.
  - symmetry in Heq. by apply json_list_not_null in Heq.
  - rewrite json_list_eq in Heq. by apply str_Z_not_quote in Heq.
  - by apply json_list_code in Heq as [-> ->].
Qed.

(** ** Dicts *)

Definition item_list (value : string -> PyVal) (k : string) : list ascii :=
  json_list k ++ [":"; " "]%char ++ value_list (value k).

(** The items after the first one, and the closing brace. *)
Fixpoint items_rest (value : string -> PyVal) (ks : list string) : list ascii :=
  match ks with
  | [] => ["}"%char]
  | k :: ks' => [","; " "]%char ++ item_list value k ++ items_rest value ks'
  end.

Definition items_list (value : string -> PyVal) (ks : list string) : list ascii :=
  match ks with
  | [] => ["}"%char]
  | k :: ks' => item_list value k ++ items_rest value ks'
  end.

Lemma items_rest_stops value ks : stops (items_rest value ks).
Proof. by destruct ks. Qed.

Lemma item_code v w k1 k2 r s :
  stops r -> stops s -> item_list v k1 ++ r = item_list w k2 ++ s ->
  k1 = k2 /\ json_value (v k1) = json_value (w k2) /\ r = s.
Proof.
  intros Hr Hs. unfold item_list. rewrite <- !app_assoc. intros [-> Heq]%json_list_code.
  split; [done|]. simpl in Heq. injection Heq as Heq. by apply value_code.
Qed.

Definition same_values (v w : string -> PyVal) (ks : list string) : Prop :=
  Forall (fun k => json_value (v k) = json_value (w k)) ks.

Lemma cons2_inj {A} (a b : A) l m : a :: b :: l = a :: b :: m -> l = m.
Proof. by intros [= ->]. Qed.

Lemma items_rest_code v w ks1 ks2 :
  items_rest v ks1 = items_rest w ks2 -> ks1 = ks2 /\ same_values v w ks1.
Proof.
  revert ks2. induction ks1 as [|k1 ks1 IH]; intros [|k2 ks2]; cbn [items_rest]; try done.
  { intros _. split; [done|by apply Forall_nil]. }
  intros Heq%cons2_inj.
  apply item_code in Heq as (-> & Hv & Heq); [|apply items_rest_stops..].
  destruct (IH _ Heq) as [-> Hall]. split; [done|by constructor].
Qed.

Lemma items_list_code v w ks1 ks2 :
  items_list v ks1 = items_list w ks2 -> ks1 = ks2 /\ same_values v w ks1.
Proof.
  destruct ks1 as [|k1 ks1], ks2 as [|k2 ks2]; cbn [items_list]; try done.
  - intros _. split; [done|by apply Forall_nil].
  - intros Heq. apply item_code in Heq as (-> & Hv & Heq); [|apply items_rest_stops..].
    destruct (items_rest_code _ _ _ _ Heq) as [-> Hall]. split; [done|by constructor].
Qed.

(** The values of sorted items, by key. *)
Definition value_of (d : pydict) (k : string) : PyVal := default VNone (d !! k).

Definition item_str (value : string -> PyVal) (k : string) : string :=
  json_str k +:+ ": " +:+ json_dump_value (value k).

Lemma list_item_str value k : list_ascii_of_string (item_str value k) = item_list value k.
Proof. unfold item_str. by rewrite !list_string_app. Qed.

Lemma join_rest value ks k :
  list_ascii_of_string (join ", " (item_str value <$> k :: ks)) ++ ["}"%char] =
  item_list value k ++ items_rest value ks.
Proof.
  revert k. induction ks as [|k' ks IH]; intros k.
  - by rewrite <- list_item_str.
  - change (join ", " (item_str value <$> k :: k' :: ks))
      with (item_str value k +:+ ", " +:+ join ", " (item_str value <$> k' :: ks)).
    rewrite !list_string_app, <- !app_assoc, IH. by rewrite list_item_str.
Qed.

(** * The canonical text of an object *)

(** [text] lists the keys of [d] once each, in ascending order, with their values. *)
Definition canonical (d : pydict) (text : string) : Prop :=
  exists ks, StronglySorted String.le ks /\ NoDup ks /\ (forall k, k ∈ ks <-> is_Some (d !! k)) /\
    text = "{" +:+ join ", " (item_str (value_of d) <$> ks) +:+ "}".

(** The object that a dict in memory is. *)
Definition object (items : pyitems) : pydict := list_to_map items.

Lemma canonical_list d ks :
  list_ascii_of_string ("{" +:+ join ", " (item_str (value_of d) <$> ks) +:+ "}") =
  "{"%char :: items_list (value_of d) ks.
Proof. rewrite !list_string_app. simpl. f_equal. destruct ks as [|k ks]; [done|]. apply join_rest. Qed.

(** The same sorted keys, whatever the texts of the values. *)
Lemma sorted_unique (ks1 ks2 : list string) :
  StronglySorted String.le ks1 -> NoDup ks1 -> StronglySorted String.le ks2 -> NoDup ks2 ->
  (forall k, k ∈ ks1 <-> k ∈ ks2) -> ks1 = ks2.
Proof.
  intros Hs1 Hn1 Hs2 Hn2 Hin. eapply (StronglySorted_unique String.le); [done|done|].
  by apply NoDup_Permutation.
Qed.

(** The dump of a dict is the canonical text of the object, whatever its insertion order. *)
Lemma json_dumps_canonical items :
  NoDup items.*1 -> canonical (object items) (json_dumps_sorted items).
Proof.
  intros Hnd. set (l := merge_sort key_le items).
  assert (Hperm : l ≡ₚ items) by apply merge_sort_Permutation.
  assert (Hl : NoDup l.*1) by (by rewrite Hperm).
  exists l.*1. split_and!; [|done| |].
  - assert (Hsort : StronglySorted key_le l).
    { apply StronglySorted_merge_sort.
      - intros x y z. unfold key_le. apply transitivity.
      - intros x y. unfold key_le. apply (total String.le). }
    clear -Hsort. induction Hsort as [|x l Hl IH Hx]; [constructor|]. rewrite fmap_cons. constructor; [done|].
    by apply Forall_fmap.
  - intros k. rewrite Hperm. unfold object. split.
    + intros ([k' v] & -> & Hkv)%list_elem_of_fmap. exists v. by apply elem_of_list_to_map.
    + intros [v Hv%elem_of_list_to_map_2]. apply list_elem_of_fmap. by exists (k, v).
  - unfold json_dumps_sorted. fold l. do 2 f_equal. rewrite <- list_fmap_compose. f_equal.
    apply list_fmap_ext. intros i [k v] Hi%list_elem_of_lookup_2. rewrite Hperm in Hi.
    unfold json_item, compose, item_str, value_of, object. cbn [fst snd].
    by rewrite (proj1 (elem_of_list_to_map items k v Hnd) Hi).
Qed.

(** The same keys, with values that are the same once read back from JSON. *)
Definition same_json (d1 d2 : pydict) : Prop := _json_serializer d1 = _json_serializer d2.

Lemma same_json_dom d1 d2 k : same_json d1 d2 -> is_Some (d1 !! k) <-> is_Some (d2 !! k).
Proof.
  unfold same_json. intros Heq%(f_equal (.!! k)). rewrite !json_serializer_lookup in Heq.
  rewrite <- !not_eq_None_Some. by destruct (d1 !! k), (d2 !! k).
Qed.

(** The canonical text of an object determines its keys and the JSON of its values. *)
Lemma canonical_injective d1 d2 t1 t2 :
  canonical d1 t1 -> canonical d2 t2 -> t1 = t2 <-> same_json d1 d2.
Proof.
  intros (ks1 & Hs1 & Hn1 & Hk1 & ->) (ks2 & Hs2 & Hn2 & Hk2 & ->). split; intros Heq.
  - apply (f_equal list_ascii_of_string) in Heq. rewrite !canonical_list in Heq. injection Heq as Heq.
    apply items_list_code in Heq as [<- Hv]. unfold same_values in Hv. rewrite Forall_forall in Hv.
    apply map_eq. intros k. rewrite !json_serializer_lookup. specialize (Hk1 k). specialize (Hk2 k).
    specialize (Hv k). unfold value_of in Hv. rewrite <- !not_eq_None_Some in *.
    destruct (d1 !! k) as [x|], (d2 !! k) as [y|]; [|exfalso; naive_solver..|done].
    simpl in *. f_equal. apply Hv. naive_solver.
  - assert (ks1 = ks2) as <-.
    { apply sorted_unique; [done..|]. intros k. rewrite Hk1, Hk2. by apply same_json_dom. }
    do 3 f_equal. apply list_fmap_ext. intros i k _. unfold item_str, json_dump_value, value_of.
    apply (f_equal (.!! k)) in Heq. rewrite !json_serializer_lookup in Heq.
    destruct (d1 !! k) as [x|], (d2 !! k) as [y|]; simpl in *; try done.
    injection Heq as Heq. by rewrite Heq.
Qed.

Lemma json_dumps_sorted_injective items1 items2 :
  NoDup items1.*1 -> NoDup items2.*1 ->
  json_dumps_sorted items1 = json_dumps_sorted items2 <-> same_json (object items1) (object items2).
Proof. intros H1 H2. apply canonical_injective; by apply json_dumps_canonical. Qed.
