(* ===== verification/Webhooks.v ===== *)
(** Webhooks: app/domain/webhooks/entities.py. *)
From S2P Require Import Prelude PyVal.

Inductive DeliveryStatus := PENDING | DELIVERED | DEAD_LETTER.

Record WebhookSubscription := {
  sub_id : UUID;
  sub_url : string;
  sub_secret : string;
  sub_event_types : list string;
  sub_active : bool;
}.

Record WebhookDelivery := {
  dl_id : UUID;
  dl_subscription_id : UUID;
  dl_payment_id : option UUID;
  dl_event_type : string;
  dl_payload : pydict;
  dl_status : DeliveryStatus;
  dl_attempt_count : Z;
  dl_next_attempt_at : Z;
  dl_last_error : option string;
}.

#[export] Instance DeliveryStatus_eq_dec : EqDecision DeliveryStatus.
Proof. solve_decision. Defined.
#[export] Instance WebhookSubscription_eq_dec : EqDecision WebhookSubscription.
Proof. solve_decision. Defined.
#[export] Instance WebhookDelivery_eq_dec : EqDecision WebhookDelivery.
Proof. solve_decision. Defined.

Definition delivery_status_value (s : DeliveryStatus) : string :=
  match s with PENDING => "pending" | DELIVERED => "delivered" | DEAD_LETTER => "dead_letter" end.
