(* ===== verification/Schema.v ===== *)
(** Schema: the database schema, as the tables app/infra/db/models.py declares and as the
    operations of migrations/ change it.

    A schema is what the catalogue says: tables with their columns, constraints and indexes,
    and views over them.  An operation is [None] where PostgreSQL refuses it. *)
From S2P Require Import Prelude.

(** * Tables *)

Inductive SqlType :=
| T_Uuid
| T_String (length : option nat)
| T_Integer
| T_Numeric (precision scale : nat)
| T_DateTime (timezone : bool)
| T_JSONB
| T_Boolean
| T_ARRAY (item : SqlType).

(** A literal, or now(). *)
Inductive ServerDefault := Literal (text : string) | Now_.

Record Column := { col_type : SqlType; col_nullable : bool; col_default : option ServerDefault }.
Definition col (type : SqlType) (nullable : bool) (default : option ServerDefault) : Column :=
  {| col_type := type; col_nullable := nullable; col_default := default |}.

Inductive Constraint :=
| PrimaryKey (columns : list string)
| Unique (name : option string) (columns : list string)
| CheckC (name text : string)
| ForeignKey (name : option string) (columns : list string) (referent : string) (remote : list string).

Record Table := {
  t_columns : list (string * Column);
  t_constraints : list Constraint;
  t_indexes : list (string * list string);
}.
Record View := { v_table : string; v_columns : list string }.
Record Schema := { tables : gmap string Table; views : gmap string View }.
Definition empty_schema : Schema := {| tables := ∅; views := ∅ |}.

#[export] Instance SqlType_eq_dec : EqDecision SqlType.
Proof. solve_decision. Defined.
#[export] Instance ServerDefault_eq_dec : EqDecision ServerDefault.
Proof. solve_decision. Defined.
#[export] Instance Column_eq_dec : EqDecision Column.
Proof. solve_decision. Defined.
#[export] Instance Constraint_eq_dec : EqDecision Constraint.
Proof. solve_decision. Defined.
#[export] Instance Table_eq_dec : EqDecision Table.
Proof. solve_decision. Defined.
#[export] Instance View_eq_dec : EqDecision View.
Proof. solve_decision. Defined.
#[export] Instance Schema_eq_dec : EqDecision Schema.
Proof. solve_decision. Defined.

(** * Operations *)

Inductive Op :=
| create_table (name : string) (columns : list (string * Column)) (constraints : list Constraint)
| create_index (name table : string) (columns : list string)
| create_foreign_key (name source referent : string) (local_cols remote_cols : list string)
| add_column (table : string) (column : string * Column)
| alter_column_type (table column : string) (type : SqlType)
| create_view (name table : string) (columns : list string)
| bulk_insert (table : string) (columns : list string)
| delete_from (table column : string)
| drop_view (name : string)
| drop_index (name table : string)
| drop_constraint (name table : string)
| drop_column (table column : string)
| drop_table (name : string).

Definition has_columns (t : Table) (columns : list string) : bool :=
  forallb (fun c => bool_decide (c ∈ (t_columns t).*1)) columns.

Definition with_table (s : Schema) (name : string) (t : Table) : Schema :=
  {| tables := <[name := t]> (tables s); views := views s |}.
Definition guard_ (b : bool) {A} (a : A) : option A := if b then Some a else None.

(** A foreign key refers to columns of a table that is there. *)
Definition referent_ok (s : Schema) (c : Constraint) : bool :=
  match c with
  | ForeignKey _ _ referent remote =>
      match tables s !! referent with Some t => has_columns t remote | None => false end
  | _ => true
  end.
Definition local_ok (t : Table) (c : Constraint) : bool :=
  match c with
  | PrimaryKey columns | Unique _ columns | ForeignKey _ columns _ _ => has_columns t columns
  | CheckC _ _ => true
  end.

Definition constraint_name (c : Constraint) : option string :=
  match c with
  | PrimaryKey _ => None
  | Unique name _ | ForeignKey name _ _ _ => name
  | CheckC name _ => Some name
  end.
Definition mentions (column : string) (c : Constraint) : bool :=
  match c with
  | PrimaryKey columns | Unique _ columns | ForeignKey _ columns _ _ => bool_decide (column ∈ columns)
  | CheckC _ _ => false
  end.
Definition refers_to (table : string) (c : Constraint) : bool :=
  match c with ForeignKey _ _ referent _ => bool_decide (referent = table) | _ => false end.
Definition reads (table : string) (v : View) : bool := bool_decide (v_table v = table).

(** A column that need not be given a value. *)
Definition optional (kv : string * Column) : bool :=
  col_nullable kv.2 || bool_decide (is_Some (col_default kv.2)).

Definition apply_op (s : Schema) (op : Op) : option Schema :=
  match op with
  | create_table name columns constraints =>
      let t := {| t_columns := columns; t_constraints := constraints; t_indexes := [] |} in
      guard_ (bool_decide (tables s !! name = None) && bool_decide (NoDup columns.*1) &&
              forallb (local_ok t) constraints && forallb (referent_ok s) constraints)
        (with_table s name t)
  | create_index name table columns =>
      t ← tables s !! table;
      guard_ (has_columns t columns && bool_decide (name ∉ (t_indexes t).*1))
        (with_table s table {| t_columns := t_columns t; t_constraints := t_constraints t;
                               t_indexes := t_indexes t ++ [(name, columns)] |})
  | create_foreign_key name source referent local_cols remote_cols =>
      t ← tables s !! source;
      let c := ForeignKey (Some name) local_cols referent remote_cols in
      guard_ (local_ok t c && referent_ok s c && bool_decide (Some name ∉ constraint_name <$> t_constraints t))
        (with_table s source {| t_columns := t_columns t; t_constraints := t_constraints t ++ [c];
                                t_indexes := t_indexes t |})
  | add_column table column =>
      t ← tables s !! table;
      guard_ (bool_decide (column.1 ∉ (t_columns t).*1))
        (with_table s table {| t_columns := t_columns t ++ [column]; t_constraints := t_constraints t;
                               t_indexes := t_indexes t |})
  | alter_column_type table column type =>
      t ← tables s !! table;
      guard_ (has_columns t [column])
        (with_table s table
           {| t_columns := (fun kv => if decide (kv.1 = column)
                              then (kv.1, col type (col_nullable kv.2) (col_default kv.2)) else kv) <$> t_columns t;
              t_constraints := t_constraints t; t_indexes := t_indexes t |})
  | create_view name table columns =>
      t ← tables s !! table;
      guard_ (has_columns t columns && bool_decide (views s !! name = None))
        {| tables := tables s; views := <[name := {| v_table := table; v_columns := columns |}]> (views s) |}
  | bulk_insert table columns =>
      t ← tables s !! table;
      guard_ (has_columns t columns &&
              forallb (fun kv => optional kv || bool_decide (kv.1 ∈ columns)) (t_columns t)) s
  | delete_from table column =>
      t ← tables s !! table; guard_ (has_columns t [column]) s
  | drop_view name =>
      _ ← views s !! name; Some {| tables := tables s; views := delete name (views s) |}
  | drop_index name table =>
      t ← tables s !! table;
      guard_ (bool_decide (name ∈ (t_indexes t).*1))
        (with_table s table {| t_columns := t_columns t; t_constraints := t_constraints t;
                               t_indexes := List.filter (fun kv => negb (bool_decide (kv.1 = name))) (t_indexes t) |})
  | drop_constraint name table =>
      t ← tables s !! table;
      guard_ (bool_decide (Some name ∈ constraint_name <$> t_constraints t))
        (with_table s table
           {| t_columns := t_columns t;
              t_constraints := List.filter (fun c => negb (bool_decide (constraint_name c = Some name))) (t_constraints t);
              t_indexes := t_indexes t |})
  | drop_column table column =>
      t ← tables s !! table;
      guard_ (has_columns t [column] &&
              negb (existsb (fun v => reads table v && bool_decide (column ∈ v_columns v)) (map_to_list (views s)).*2))
        (with_table s table
           {| t_columns := List.filter (fun kv => negb (bool_decide (kv.1 = column))) (t_columns t);
              t_constraints := List.filter (fun c => negb (mentions column c)) (t_constraints t);
              t_indexes := List.filter (fun kv => negb (bool_decide (column ∈ kv.2))) (t_indexes t) |})
  | drop_table name =>
      _ ← tables s !! name;
      let others := delete name (tables s) in
      guard_ (forallb (fun t => forallb (fun c => negb (refers_to name c)) (t_constraints t)) (map_to_list others).*2 &&
              forallb (fun v => negb (reads name v)) (map_to_list (views s)).*2)
        {| tables := others; views := views s |}
  end.

Definition apply_ops (s : Schema) (ops : list Op) : option Schema :=
  foldl (fun o op => o ≫= fun s => apply_op s op) (Some s) ops.

(** * The declared tables *)

(** What a mapped column says besides its type. *)
Inductive Attr := Pk | Fk (table column : string) | Index | Uniq.
#[export] Instance Attr_eq_dec : EqDecision Attr.
Proof. solve_decision. Defined.

Record MappedColumn := { mc_name : string; mc_column : Column; mc_attrs : list Attr }.
Definition mapped_column (name : string) (type : SqlType) (nullable : bool) (default : option ServerDefault)
    (attrs : list Attr) : MappedColumn :=
  {| mc_name := name; mc_column := col type nullable default; mc_attrs := attrs |}.

Record ModelTable := { mt_name : string; mt_args : list Constraint; mt_columns : list MappedColumn }.

Definition has_attr (a : Attr) (c : MappedColumn) : bool := bool_decide (a ∈ mc_attrs c).

(** The constraints of one column, and the name SQLAlchemy gives its index. *)
Definition column_constraints (c : MappedColumn) : list Constraint :=
  mc_attrs c ≫= fun a => match a with
    | Fk table column => [ForeignKey None [mc_name c] table [column]]
    | Uniq => [Unique None [mc_name c]]
    | Pk | Index => []
    end.
Definition index_name (table column : string) : string := "ix_" +:+ table +:+ "_" +:+ column.

(** The table a model declares. *)
Definition declared (m : ModelTable) : Table :=
  {| t_columns := (fun c => (mc_name c, mc_column c)) <$> mt_columns m;
     t_constraints := PrimaryKey (mc_name <$> List.filter (has_attr Pk) (mt_columns m)) ::
                      mt_args m ++ (mt_columns m ≫= column_constraints);
     t_indexes := (fun c => (index_name (mt_name m) (mc_name c), [mc_name c])) <$>
                  List.filter (has_attr Index) (mt_columns m) |}.

Definition AccountModel_table : ModelTable :=
  {| mt_name := "accounts";
     mt_args := []%string;
     mt_columns :=
       [mapped_column "id" T_Uuid false None [Pk];
        mapped_column "account_number" (T_String (Some 34)) false None [Uniq];
        mapped_column "owner_name" (T_String (Some 255)) false None [];
        mapped_column "account_type" (T_String (Some 20)) false None [];
        mapped_column "currency" (T_String (Some 3)) false None [];
        mapped_column "status" (T_String (Some 20)) false (Some (Literal "active")) [];
        mapped_column "version" T_Integer false (Some (Literal "0")) [];
        mapped_column "created_at" (T_DateTime false) false (Some Now_) []]%string |}.

Definition JournalEntryModel_table : ModelTable :=
  {| mt_name := "journal_entries";
     mt_args := []%string;
     mt_columns :=
       [mapped_column "id" T_Uuid false None [Pk];
        mapped_column "payment_id" T_Uuid true None [Fk "payments" "id"];
        mapped_column "entry_type" (T_String (Some 30)) false None [];
        mapped_column "idempotency_key_id" T_Uuid true None [Fk "idempotency_keys" "id"];
        mapped_column "posted_at" (T_DateTime false) false (Some Now_) []]%string |}.

Definition JournalLineModel_table : ModelTable :=
  {| mt_name := "journal_lines";
     mt_args := [CheckC "ck_journal_lines_direction" "direction IN ('debit', 'credit')";
       CheckC "ck_journal_lines_amount_positive" "amount > 0"]%string;
     mt_columns :=
       [mapped_column "id" T_Uuid false None [Pk];
        mapped_column "journal_entry_id" T_Uuid false None [Fk "journal_entries" "id"; Index];
        mapped_column "account_id" T_Uuid false None [Fk "accounts" "id"; Index];
        mapped_column "direction" (T_String (Some 6)) false None [];
        mapped_column "amount" (T_Numeric 18 2) false None [];
        mapped_column "currency" (T_String (Some 3)) false None [];
        mapped_column "created_at" (T_DateTime false) false (Some Now_) []]%string |}.

Definition PaymentModel_table : ModelTable :=
  {| mt_name := "payments";
     mt_args := [CheckC "ck_payments_amount_positive" "amount > 0"]%string;
     mt_columns :=
       [mapped_column "id" T_Uuid false None [Pk];
        mapped_column "debtor_account_id" T_Uuid false None [Fk "accounts" "id"];
        mapped_column "creditor_account_id" T_Uuid false None [Fk "accounts" "id"];
        mapped_column "amount" (T_Numeric 18 2) false None [];
        mapped_column "currency" (T_String (Some 3)) false None [];
        mapped_column "fx_rate_id" T_Uuid true None [Fk "fx_rates" "id"];
        mapped_column "creditor_amount" (T_Numeric 18 2) true None [];
        mapped_column "status" (T_String (Some 20)) false (Some (Literal "initiated")) [];
        mapped_column "end_to_end_id" (T_String (Some 35)) true None [];
        mapped_column "version" T_Integer false (Some (Literal "0")) [];
        mapped_column "created_at" (T_DateTime false) false (Some Now_) [];
        mapped_column "updated_at" (T_DateTime false) false (Some Now_) []]%string |}.

Definition PaymentStatusHistoryModel_table : ModelTable :=
  {| mt_name := "payment_status_history";
     mt_args := []%string;
     mt_columns :=
       [mapped_column "id" T_Uuid false None [Pk];
        mapped_column "payment_id" T_Uuid false None [Fk "payments" "id"; Index];
        mapped_column "from_status" (T_String (Some 20)) true None [];
        mapped_column "to_status" (T_String (Some 20)) false None [];
        mapped_column "transitioned_at" (T_DateTime true) false (Some Now_) [];
        mapped_column "reason" (T_String None) true None []]%string |}.

Definition IdempotencyKeyModel_table : ModelTable :=
  {| mt_name := "idempotency_keys";
     mt_args := [Unique (Some "uq_idempotency_keys_endpoint_key") ["endpoint"; "key"]]%string;
     mt_columns :=
       [mapped_column "id" T_Uuid false None [Pk];
        mapped_column "key" (T_String (Some 255)) false None [];
        mapped_column "endpoint" (T_String (Some 100)) false None [];
        mapped_column "request_hash" (T_String (Some 64)) false None [];
        mapped_column "status" (T_String (Some 20)) false (Some (Literal "in_progress")) [];
        mapped_column "response_status_code" T_Integer true None [];
        mapped_column "response_body" T_JSONB true None [];
        mapped_column "payment_id" T_Uuid true None [Fk "payments" "id"];
        mapped_column "created_at" (T_DateTime false) false (Some Now_) [];
        mapped_column "completed_at" (T_DateTime false) true None []]%string |}.

Definition WebhookSubscriptionModel_table : ModelTable :=
  {| mt_name := "webhook_subscriptions";
     mt_args := []%string;
     mt_columns :=
       [mapped_column "id" T_Uuid false None [Pk];
        mapped_column "url" (T_String (Some 2048)) false None [];
        mapped_column "secret" (T_String (Some 255)) false None [];
        mapped_column "event_types" (T_ARRAY (T_String (Some 50))) false (Some (Literal "{}")) [];
        mapped_column "active" T_Boolean false (Some (Literal "true")) [];
        mapped_column "created_at" (T_DateTime false) false (Some Now_) []]%string |}.

Definition WebhookDeliveryModel_table : ModelTable :=
  {| mt_name := "webhook_deliveries";
     mt_args := []%string;
     mt_columns :=
       [mapped_column "id" T_Uuid false None [Pk];
        mapped_column "subscription_id" T_Uuid false None [Fk "webhook_subscriptions" "id"; Index];
        mapped_column "payment_id" T_Uuid true None [Fk "payments" "id"];
        mapped_column "event_type" (T_String (Some 50)) false None [];
        mapped_column "payload" T_JSONB false None [];
        mapped_column "status" (T_String (Some 20)) false (Some (Literal "pending")) [];
        mapped_column "attempt_count" T_Integer false (Some (Literal "0")) [];
        mapped_column "next_attempt_at" (T_DateTime true) false (Some Now_) [];
        mapped_column "last_error" (T_String None) true None [];
        mapped_column "created_at" (T_DateTime false) false (Some Now_) []]%string |}.

Definition SettlementFileRecordModel_table : ModelTable :=
  {| mt_name := "settlement_file_records";
     mt_args := []%string;
     mt_columns :=
       [mapped_column "id" T_Uuid false None [Pk];
        mapped_column "batch_id" T_Uuid false None [Index];
        mapped_column "external_ref" (T_String (Some 100)) false None [];
        mapped_column "amount" (T_Numeric 18 2) false None [];
        mapped_column "currency" (T_String (Some 3)) false None [];
        mapped_column "settled_at" (T_DateTime true) false None [];
        mapped_column "raw_line" (T_String None) false None [];
        mapped_column "created_at" (T_DateTime false) false (Some Now_) []]%string |}.

Definition ReconciliationRunModel_table : ModelTable :=
  {| mt_name := "reconciliation_runs";
     mt_args := []%string;
     mt_columns :=
       [mapped_column "id" T_Uuid false None [Pk];
        mapped_column "batch_id" T_Uuid false None [Index];
        mapped_column "run_at" (T_DateTime false) false (Some Now_) [];
        mapped_column "matched_count" T_Integer false None [];
        mapped_column "break_count" T_Integer false None [];
        mapped_column "status" (T_String (Some 20)) false None []]%string |}.

Definition ReconciliationBreakModel_table : ModelTable :=
  {| mt_name := "reconciliation_breaks";
     mt_args := []%string;
     mt_columns :=
       [mapped_column "id" T_Uuid false None [Pk];
        mapped_column "run_id" T_Uuid false None [Fk "reconciliation_runs" "id"; Index];
        mapped_column "payment_id" T_Uuid true None [Fk "payments" "id"];
        mapped_column "external_ref" (T_String (Some 100)) false None [];
        mapped_column "break_type" (T_String (Some 30)) false None [];
        mapped_column "ledger_amount" (T_Numeric 18 2) true None [];
        mapped_column "settlement_amount" (T_Numeric 18 2) true None [];
        mapped_column "details" (T_String None) false None []]%string |}.

Definition FxRateModel_table : ModelTable :=
  {| mt_name := "fx_rates";
     mt_args := []%string;
     mt_columns :=
       [mapped_column "id" T_Uuid false None [Pk];
        mapped_column "base_currency" (T_String (Some 3)) false None [];
        mapped_column "quote_currency" (T_String (Some 3)) false None [];
        mapped_column "rate" (T_Numeric 18 8) false None [];
        mapped_column "booked_at" (T_DateTime true) false (Some Now_) [];
        mapped_column "source" (T_String (Some 50)) false (Some (Literal "mock-feed")) []]%string |}.

Definition metadata : list ModelTable :=
  [AccountModel_table;
   JournalEntryModel_table;
   JournalLineModel_table;
   PaymentModel_table;
   PaymentStatusHistoryModel_table;
   IdempotencyKeyModel_table;
   WebhookSubscriptionModel_table;
   WebhookDeliveryModel_table;
   SettlementFileRecordModel_table;
   ReconciliationRunModel_table;
   ReconciliationBreakModel_table;
   FxRateModel_table].
