(* ===== verification/Migrations.v ===== *)
(** Migrations: migrations/versions/, the seven revisions, and that together they build the
    tables the models declare. *)
From S2P Require Import Prelude Schema.

Record Revision := {
  rev_id : string;
  rev_down : option string;
  rev_upgrade : list Op;
  rev_downgrade : list Op;
}.

Definition upgrade_563ecbcbfc25 : list Op :=
  []%string.

Definition downgrade_563ecbcbfc25 : list Op :=
  []%string.

Definition revision_563ecbcbfc25 : Revision :=
  {| rev_id := "563ecbcbfc25"; rev_down := None;
     rev_upgrade := upgrade_563ecbcbfc25; rev_downgrade := downgrade_563ecbcbfc25 |}.

Definition upgrade_47069376f20d : list Op :=
  [create_table "accounts"
      [("id", col T_Uuid false None);
       ("account_number", col (T_String (Some 34)) false None);
       ("owner_name", col (T_String (Some 255)) false None);
       ("account_type", col (T_String (Some 20)) false None);
       ("currency", col (T_String (Some 3)) false None);
       ("status", col (T_String (Some 20)) false (Some (Literal "active")));
       ("version", col T_Integer false (Some (Literal "0")));
       ("created_at", col (T_DateTime false) false (Some Now_))]
      [PrimaryKey ["id"];
       Unique None ["account_number"]];
   create_table "journal_entries"
      [("id", col T_Uuid false None);
       ("payment_id", col T_Uuid true None);
       ("entry_type", col (T_String (Some 30)) false None);
       ("idempotency_key_id", col T_Uuid true None);
       ("posted_at", col (T_DateTime false) false (Some Now_))]
      [PrimaryKey ["id"]];
   create_table "journal_lines"
      [("id", col T_Uuid false None);
       ("journal_entry_id", col T_Uuid false None);
       ("account_id", col T_Uuid false None);
       ("direction", col (T_String (Some 6)) false None);
       ("amount", col (T_Numeric 18 2) false None);
       ("currency", col (T_String (Some 3)) false None);
       ("created_at", col (T_DateTime false) false (Some Now_))]
      [CheckC "ck_journal_lines_direction" "direction IN ('debit', 'credit')";
       CheckC "ck_journal_lines_amount_positive" "amount > 0";
       ForeignKey None ["account_id"] "accounts" ["id"];
       ForeignKey None ["journal_entry_id"] "journal_entries" ["id"];
       PrimaryKey ["id"]];
   create_index "ix_journal_lines_account_id" "journal_lines" ["account_id"];
   create_index "ix_journal_lines_journal_entry_id" "journal_lines" ["journal_entry_id"];
   create_view "account_balances" "journal_lines"
     ["account_id"; "currency"; "direction"; "amount"]]%string.

Definition downgrade_47069376f20d : list Op :=
  [drop_view "account_balances";
   drop_index "ix_journal_lines_journal_entry_id" "journal_lines";
   drop_index "ix_journal_lines_account_id" "journal_lines";
   drop_table "journal_lines";
   drop_table "journal_entries";
   drop_table "accounts"]%string.

Definition revision_47069376f20d : Revision :=
  {| rev_id := "47069376f20d"; rev_down := Some "563ecbcbfc25"%string;
     rev_upgrade := upgrade_47069376f20d; rev_downgrade := downgrade_47069376f20d |}.

Definition upgrade_41d83d6154ec : list Op :=
  [create_table "payments"
      [("id", col T_Uuid false None);
       ("debtor_account_id", col T_Uuid false None);
       ("creditor_account_id", col T_Uuid false None);
       ("amount", col (T_Numeric 18 2) false None);
       ("currency", col (T_String (Some 3)) false None);
       ("fx_rate_id", col T_Uuid true None);
       ("status", col (T_String (Some 20)) false (Some (Literal "initiated")));
       ("end_to_end_id", col (T_String (Some 35)) true None);
       ("version", col T_Integer false (Some (Literal "0")));
       ("created_at", col (T_DateTime false) false (Some Now_));
       ("updated_at", col (T_DateTime false) false (Some Now_))]
      [CheckC "ck_payments_amount_positive" "amount > 0";
       ForeignKey None ["creditor_account_id"] "accounts" ["id"];
       ForeignKey None ["debtor_account_id"] "accounts" ["id"];
       PrimaryKey ["id"]];
   create_table "payment_status_history"
      [("id", col T_Uuid false None);
       ("payment_id", col T_Uuid false None);
       ("from_status", col (T_String (Some 20)) true None);
       ("to_status", col (T_String (Some 20)) false None);
       ("transitioned_at", col (T_DateTime false) false (Some Now_));
       ("reason", col (T_String None) true None)]
      [ForeignKey None ["payment_id"] "payments" ["id"];
       PrimaryKey ["id"]];
   create_index "ix_payment_status_history_payment_id" "payment_status_history" ["payment_id"];
   create_foreign_key "fk_journal_entries_payment_id_payments" "journal_entries"
     "payments" ["payment_id"] ["id"]]%string.

Definition downgrade_41d83d6154ec : list Op :=
  [drop_constraint "fk_journal_entries_payment_id_payments" "journal_entries";
   drop_index "ix_payment_status_history_payment_id" "payment_status_history";
   drop_table "payment_status_history";
   drop_table "payments"]%string.

Definition revision_41d83d6154ec : Revision :=
  {| rev_id := "41d83d6154ec"; rev_down := Some "47069376f20d"%string;
     rev_upgrade := upgrade_41d83d6154ec; rev_downgrade := downgrade_41d83d6154ec |}.

Definition upgrade_11c133e33848 : list Op :=
  [create_table "idempotency_keys"
      [("id", col T_Uuid false None);
       ("key", col (T_String (Some 255)) false None);
       ("endpoint", col (T_String (Some 100)) false None);
       ("request_hash", col (T_String (Some 64)) false None);
       ("status", col (T_String (Some 20)) false (Some (Literal "in_progress")));
       ("response_status_code", col T_Integer true None);
       ("response_body", col T_JSONB true None);
       ("payment_id", col T_Uuid true None);
       ("created_at", col (T_DateTime false) false (Some Now_));
       ("completed_at", col (T_DateTime false) true None)]
      [ForeignKey None ["payment_id"] "payments" ["id"];
       PrimaryKey ["id"];
       Unique (Some "uq_idempotency_keys_endpoint_key") ["endpoint"; "key"]];
   create_foreign_key "fk_journal_entries_idempotency_key_id_idempotency_keys" "journal_entries"
     "idempotency_keys" ["idempotency_key_id"] ["id"]]%string.

Definition downgrade_11c133e33848 : list Op :=
  [drop_constraint "fk_journal_entries_idempotency_key_id_idempotency_keys" "journal_entries";
   drop_table "idempotency_keys"]%string.

Definition revision_11c133e33848 : Revision :=
  {| rev_id := "11c133e33848"; rev_down := Some "41d83d6154ec"%string;
     rev_upgrade := upgrade_11c133e33848; rev_downgrade := downgrade_11c133e33848 |}.

Definition upgrade_207c3d160896 : list Op :=
  [create_table "webhook_subscriptions"
      [("id", col T_Uuid false None);
       ("url", col (T_String (Some 2048)) false None);
       ("secret", col (T_String (Some 255)) false None);
       ("event_types", col (T_ARRAY (T_String (Some 50))) false (Some (Literal "{}")));
       ("active", col T_Boolean false (Some (Literal "true")));
       ("created_at", col (T_DateTime false) false (Some Now_))]
      [PrimaryKey ["id"]];
   create_table "webhook_deliveries"
      [("id", col T_Uuid false None);
       ("subscription_id", col T_Uuid false None);
       ("payment_id", col T_Uuid true None);
       ("event_type", col (T_String (Some 50)) false None);
       ("payload", col T_JSONB false None);
       ("status", col (T_String (Some 20)) false (Some (Literal "pending")));
       ("attempt_count", col T_Integer false (Some (Literal "0")));
       ("next_attempt_at", col (T_DateTime true) false (Some Now_));
       ("last_error", col (T_String None) true None);
       ("created_at", col (T_DateTime false) false (Some Now_))]
      [ForeignKey None ["payment_id"] "payments" ["id"];
       ForeignKey None ["subscription_id"] "webhook_subscriptions" ["id"];
       PrimaryKey ["id"]];
   create_index "ix_webhook_deliveries_subscription_id" "webhook_deliveries" ["subscription_id"]]%string.

Definition downgrade_207c3d160896 : list Op :=
  [drop_index "ix_webhook_deliveries_subscription_id" "webhook_deliveries";
   drop_table "webhook_deliveries";
   drop_table "webhook_subscriptions"]%string.

Definition revision_207c3d160896 : Revision :=
  {| rev_id := "207c3d160896"; rev_down := Some "11c133e33848"%string;
     rev_upgrade := upgrade_207c3d160896; rev_downgrade := downgrade_207c3d160896 |}.

Definition upgrade_fcc1cc4c48d7 : list Op :=
  [create_table "reconciliation_runs"
      [("id", col T_Uuid false None);
       ("batch_id", col T_Uuid false None);
       ("run_at", col (T_DateTime false) false (Some Now_));
       ("matched_count", col T_Integer false None);
       ("break_count", col T_Integer false None);
       ("status", col (T_String (Some 20)) false None)]
      [PrimaryKey ["id"]];
   create_index "ix_reconciliation_runs_batch_id" "reconciliation_runs" ["batch_id"];
   create_table "settlement_file_records"
      [("id", col T_Uuid false None);
       ("batch_id", col T_Uuid false None);
       ("external_ref", col (T_String (Some 100)) false None);
       ("amount", col (T_Numeric 18 2) false None);
       ("currency", col (T_String (Some 3)) false None);
       ("settled_at", col (T_DateTime true) false None);
       ("raw_line", col (T_String None) false None);
       ("created_at", col (T_DateTime false) false (Some Now_))]
      [PrimaryKey ["id"]];
   create_index "ix_settlement_file_records_batch_id" "settlement_file_records" ["batch_id"];
   create_table "reconciliation_breaks"
      [("id", col T_Uuid false None);
       ("run_id", col T_Uuid false None);
       ("payment_id", col T_Uuid true None);
       ("external_ref", col (T_String (Some 100)) false None);
       ("break_type", col (T_String (Some 30)) false None);
       ("ledger_amount", col (T_Numeric 18 2) true None);
       ("settlement_amount", col (T_Numeric 18 2) true None);
       ("details", col (T_String None) false None)]
      [ForeignKey None ["payment_id"] "payments" ["id"];
       ForeignKey None ["run_id"] "reconciliation_runs" ["id"];
       PrimaryKey ["id"]];
   create_index "ix_reconciliation_breaks_run_id" "reconciliation_breaks" ["run_id"];
   alter_column_type "payment_status_history" "transitioned_at" (T_DateTime true)]%string.

Definition downgrade_fcc1cc4c48d7 : list Op :=
  [alter_column_type "payment_status_history" "transitioned_at" (T_DateTime false);
   drop_index "ix_reconciliation_breaks_run_id" "reconciliation_breaks";
   drop_table "reconciliation_breaks";
   drop_index "ix_settlement_file_records_batch_id" "settlement_file_records";
   drop_table "settlement_file_records";
   drop_index "ix_reconciliation_runs_batch_id" "reconciliation_runs";
   drop_table "reconciliation_runs"]%string.

Definition revision_fcc1cc4c48d7 : Revision :=
  {| rev_id := "fcc1cc4c48d7"; rev_down := Some "207c3d160896"%string;
     rev_upgrade := upgrade_fcc1cc4c48d7; rev_downgrade := downgrade_fcc1cc4c48d7 |}.

(** The light-weight tables the rows are inserted through: names and columns. *)
Definition _ACCOUNTS_TABLE : string * list string :=
  ("accounts", ["id"; "account_number"; "owner_name"; "account_type"; "currency"; "status"; "version"])%string.
Definition _FX_RATES_TABLE : string * list string :=
  ("fx_rates", ["id"; "base_currency"; "quote_currency"; "rate"; "source"])%string.

Definition upgrade_853dcecf0a07 : list Op :=
  [create_table "fx_rates"
      [("id", col T_Uuid false None);
       ("base_currency", col (T_String (Some 3)) false None);
       ("quote_currency", col (T_String (Some 3)) false None);
       ("rate", col (T_Numeric 18 8) false None);
       ("booked_at", col (T_DateTime true) false (Some Now_));
       ("source", col (T_String (Some 50)) false (Some (Literal "mock-feed")))]
      [PrimaryKey ["id"]];
   add_column "payments" ("creditor_amount", col (T_Numeric 18 2) true None);
   create_foreign_key "fk_payments_fx_rate_id_fx_rates" "payments" "fx_rates" ["fx_rate_id"] ["id"];
   bulk_insert _ACCOUNTS_TABLE.1 _ACCOUNTS_TABLE.2;
   bulk_insert _FX_RATES_TABLE.1 _FX_RATES_TABLE.2]%string.

Definition downgrade_853dcecf0a07 : list Op :=
  [delete_from "accounts" "account_number";
   drop_constraint "fk_payments_fx_rate_id_fx_rates" "payments";
   drop_column "payments" "creditor_amount";
   drop_table "fx_rates"]%string.

Definition revision_853dcecf0a07 : Revision :=
  {| rev_id := "853dcecf0a07"; rev_down := Some "fcc1cc4c48d7"%string;
     rev_upgrade := upgrade_853dcecf0a07; rev_downgrade := downgrade_853dcecf0a07 |}.

(** The files of the directory, by name. *)
Definition versions : list Revision :=
  [revision_11c133e33848; revision_207c3d160896; revision_41d83d6154ec; revision_47069376f20d;
   revision_563ecbcbfc25; revision_853dcecf0a07; revision_fcc1cc4c48d7].

(** * Upgrading *)

(** The revisions from the base on, each the successor of the one before. *)
Fixpoint path_from (fuel : nat) (down : option string) (rs : list Revision) : list Revision :=
  match fuel with
  | O => []
  | S fuel' =>
      match List.filter (fun r => bool_decide (rev_down r = down)) rs with
      | [r] => r :: path_from fuel' (Some (rev_id r)) rs
      | _ => []
      end
  end.
Definition path (rs : list Revision) : list Revision := path_from (length rs) None rs.

(** The schemas that the upgrades lead through, from [s] on. *)
Fixpoint upgrades (s : Schema) (rs : list Revision) : option (list Schema) :=
  match rs with
  | [] => Some [s]
  | r :: rs' => s' ← apply_ops s (rev_upgrade r); ss ← upgrades s' rs'; Some (s :: ss)
  end.

(** * The schema at head *)

(** The same table but for the order of its columns and constraints and the names of its
    foreign keys. *)
Definition unnamed (c : Constraint) : Constraint :=
  match c with ForeignKey _ columns referent remote => ForeignKey None columns referent remote | c => c end.
Definition same_elements {A} (l1 l2 : list A) : Prop :=
  Forall (fun x => x ∈ l2) l1 /\ Forall (fun x => x ∈ l1) l2 /\ length l1 = length l2.
Record same_table (t1 t2 : Table) : Prop := {
  st_columns : same_elements (t_columns t1) (t_columns t2);
  st_constraints : same_elements (unnamed <$> t_constraints t1) (unnamed <$> t_constraints t2);
  st_indexes : same_elements (t_indexes t1) (t_indexes t2);
}.

#[local] Instance same_elements_dec {A} `{EqDecision A} (l1 l2 : list A) : Decision (same_elements l1 l2).
Proof. unfold same_elements. apply _. Defined.
#[local] Instance same_table_dec t1 t2 : Decision (same_table t1 t2).
Proof.
  refine (cast_if (decide (same_elements (t_columns t1) (t_columns t2) /\
    same_elements (unnamed <$> t_constraints t1) (unnamed <$> t_constraints t2) /\
    same_elements (t_indexes t1) (t_indexes t2)))); abstract (destruct_and?; first [by split | intros []; tauto]).
Defined.

(** Each schema but the last, got back from the next one. *)
Fixpoint reverts (ss : list Schema) (rs : list Revision) : bool :=
  match ss, rs with
  | s :: (s' :: _) as ss', r :: rs' =>
      bool_decide (apply_ops s' (rev_downgrade r) = Some s) && reverts ss' rs'
  | _, _ => true
  end.

Lemma reverts_at ss rs i s s' r :
  reverts ss rs = true -> ss !! i = Some s -> ss !! S i = Some s' -> rs !! i = Some r ->
  apply_ops s' (rev_downgrade r) = Some s.
Proof.
  revert rs i. induction ss as [|s0 [|s1 ss] IH]; intros rs i; [done|by destruct i|].
  destruct rs as [|r0 rs]; [done|]. cbn [reverts]. intros [Hb Hr]%andb_prop Hs Hs' Hrs.
  destruct i as [|i].
  - injection Hs as ->. injection Hs' as ->. injection Hrs as ->. by apply bool_decide_eq_true in Hb.
  - by apply (IH rs i).
Qed.

Lemma upgrades_at s0 rs ss i s s' r :
  upgrades s0 rs = Some ss -> ss !! i = Some s -> ss !! S i = Some s' -> rs !! i = Some r ->
  apply_ops s (rev_upgrade r) = Some s'.
Proof.
  revert s0 ss i. induction rs as [|r0 rs IH]; intros s0 ss i; [done|]. cbn [upgrades].
  destruct (apply_ops s0 (rev_upgrade r0)) as [s1|] eqn:Ho; [|done]. cbn [mbind option_bind].
  destruct (upgrades s1 rs) as [ss1|] eqn:Hu; [|done]. intros [= <-] Hs Hs' Hr.
  destruct i as [|i]; [|by apply (IH s1 ss1 i)].
  assert (Hhead : ss1 !! 0%nat = Some s1).
  { clear -Hu. destruct rs as [|r1 rs]; cbn [upgrades] in Hu; [by injection Hu as <-|].
    destruct (apply_ops s1 (rev_upgrade r1)) as [s2|]; [|done]. cbn [mbind option_bind] in Hu.
    destruct (upgrades s2 rs); [|done]. by injection Hu as <-. }
  change (ss1 !! 0%nat = Some s') in Hs'. injection Hs as <-. injection Hr as <-. congruence.
Qed.

(** The schemas from the empty one to head. *)
Definition history : list Schema := default [] (upgrades empty_schema (path versions)).
Definition head_schema : Schema := default empty_schema (last history).

Lemma history_ok :
  upgrades empty_schema (path versions) = Some history /\ reverts history (path versions) = true.
Proof. split; vm_compute; reflexivity. Qed.

Lemma head_tables :
  bool_decide (dom (tables head_schema) = list_to_set (mt_name <$> metadata)) = true /\
  forallb (fun m => match tables head_schema !! mt_name m with
                    | Some t => bool_decide (same_table t (declared m)) | None => false end) metadata = true.
Proof. split; vm_compute; reflexivity. Qed.

(** C35. The migrations and the models agree.  The seven revisions form one chain; run from an
    empty database every operation of it is accepted; each downgrade brings back exactly the
    schema its upgrade started from; and at head the tables are those of models.py, each with
    the declared columns (type, nullability, default), constraints and indexes. *)
Theorem migrations_build_models :
  path versions =
    [revision_563ecbcbfc25; revision_47069376f20d; revision_41d83d6154ec; revision_11c133e33848;
     revision_207c3d160896; revision_fcc1cc4c48d7; revision_853dcecf0a07] /\
  upgrades empty_schema (path versions) = Some history /\
  (forall i s s' r, history !! i = Some s -> history !! S i = Some s' -> path versions !! i = Some r ->
     apply_ops s (rev_upgrade r) = Some s' /\ apply_ops s' (rev_downgrade r) = Some s) /\
  last history = Some head_schema /\
  dom (tables head_schema) = list_to_set (mt_name <$> metadata) /\
  forall m, m ∈ metadata -> exists t, tables head_schema !! mt_name m = Some t /\ same_table t (declared m).
Proof.
  destruct history_ok as [Hup Hrev]. destruct head_tables as [Hdom Hall].
  split; [vm_compute; reflexivity|]. split; [exact Hup|].
  split; [intros i s s' r Hs Hs' Hr; split; [by eapply upgrades_at|by eapply reverts_at]|].
  split; [vm_compute; reflexivity|]. split; [by apply bool_decide_eq_true in Hdom|].
  intros m Hm. assert (Hb := proj1 (forallb_forall _ _) Hall m (proj1 (list_elem_of_In _ _) Hm)).
  cbv beta in Hb. destruct (tables head_schema !! mt_name m) as [t|]; [|done]. exists t. split; [done|].
  by apply bool_decide_eq_true in Hb.
Qed.
