(* ===== verification/Store.v ===== *)
(** Store: the tables of app/infra/db/models.py, the writes a session makes to them, the
    exceptions the program raises, and the platform the program runs on.

    A table is a map from primary key to row (a list where rows are only ever appended
    and scanned).  Surrogate keys that nothing reads (of journal_lines,
    payment_status_history, settlement_file_records, reconciliation_breaks) and the
    write-only timestamps are left out; every other column is a field. *)
From S2P Require Import Prelude Decimals PyText PyVal Ledger Fx PaymentSM Recon Csv Webhooks.

#[local] Open Scope Z_scope.

(** * The platform: code that is not in the repository *)

(** PostgreSQL's NUMERIC(18,2) coercion and its unordered scans, CPython's set iteration
    order, and the hash functions of the standard library's [hashlib] and [hmac]. *)
Class Platform := {
  pg_numeric_18_2 : Decimal -> option Decimal;
  pg_numeric_stored d d' :
    pg_numeric_18_2 d = Some d' -> column_amount d' \/ (d' = NaN false /\ exists b, d = NaN b);
  pg_numeric_exact d : column_amount d -> pg_numeric_18_2 d = Some d;
  pg_numeric_overflow d : is_cents d -> 10 ^ 18 <= Z.abs (cents_of d) -> pg_numeric_18_2 d = None;
  pg_numeric_underflow c e : 200 * Z.of_N c < 10 ^ (- e) -> pg_numeric_18_2 (Fin false c e) = Some (of_cents 0);
  pg_scan {A} : list A -> list A;
  pg_scan_perm {A} (l : list A) : pg_scan l ≡ₚ l;
  set_iter : list UUID -> list UUID;      (* of the set these elements were inserted into *)
  set_iter_perm (l : list UUID) : set_iter l ≡ₚ elements (list_to_set l : gset UUID);
  sha256_hex : list N -> string;
  sha256_hex_len b : len (sha256_hex b) = 64;
  hmac_sha256_hex : list N -> list N -> string;
}.

(** * Exceptions *)

Inductive Exn :=
| ELedger (e : LedgerError)
| ETransition (e : TransitionError)
| EMatch (e : MatchError)
| EDecimal (s : Signal)
| AccountNotFoundError (identifier : UUID + string)
| PaymentNotFoundError (payment_id : UUID)
| FxRateNotFoundError (base_currency quote_currency : string)
| ReconciliationRunNotFoundError (run_id : UUID)
| InvalidPaymentAmountError (amount : Decimal)
| SamePaymentAccountError (account_id : UUID)
| PaymentCurrencyMismatchError (account_currency payment_currency : string)
| ConcurrentModificationError (account_ids : gset UUID) (attempts : Z)
| ConcurrentPaymentModificationError (payment_id : UUID) (attempts : Z)
| IdempotencyInProgressError (key endpoint : string)
| IdempotencyKeyReusedError (key endpoint : string)
| IntegrityError (constraint : string)
| DataError (column : string)
| NoResultFound
| KeyError
| InvalidRequestError
| StaleDataError
| AssertionError
| OverflowError
| AttributeError
| ValueError
| DBAPIError            (* the server or the connection failed: deadlock, shutdown, loss *)
| TimeoutError          (* sqlalchemy.exc: the pool had no connection within its timeout *)
| CsvError
| SettlementCsvError (failure : CsvFailure)
| Pacs008EmissionError (status : PaymentStatus).

#[export] Instance LedgerError_eq_dec : EqDecision LedgerError.
Proof. solve_decision. Defined.
#[export] Instance MatchError_eq_dec : EqDecision MatchError.
Proof. solve_decision. Defined.
#[export] Instance Exn_eq_dec : EqDecision Exn.
Proof. solve_decision. Defined.

(** * Rows *)

Record JournalEntryModel := {
  jem_payment_id : option UUID;
  jem_entry_type : string;
  jem_idempotency_key_id : option UUID;
}.

Record JournalLineModel := {
  jlm_journal_entry_id : UUID;
  jlm_line : JournalLine;
}.

Record PaymentStatusHistoryModel := {
  psh_payment_id : UUID;
  psh_from_status : option PaymentStatus;
  psh_to_status : PaymentStatus;
  psh_transitioned_at : Z;
  psh_reason : option string;
}.

(** The two values the status column of idempotency_keys takes. *)
Inductive KeyStatus := IN_PROGRESS | COMPLETED.

Record IdempotencyKeyModel := {
  ik_id : UUID;
  ik_request_hash : string;
  ik_status : KeyStatus;
  ik_response_status_code : option Z;
  ik_response_body : option pydict;
}.

Record WebhookDeliveryModel := {
  wdm_delivery : WebhookDelivery;
  wdm_created_at : Z;
}.

Record SettlementFileRecordModel := {
  sfr_batch_id : UUID;
  sfr_record : SettlementRecord;
}.

Record ReconciliationRunModel := {
  rrm_id : UUID;
  rrm_batch_id : UUID;
  rrm_matched_count : Z;
  rrm_break_count : Z;
  rrm_status : string;
}.

Record ReconciliationBreakModel := {
  rbm_run_id : UUID;
  rbm_break : ReconciliationBreak;
}.

#[export] Instance JournalEntryModel_eq_dec : EqDecision JournalEntryModel.
Proof. solve_decision. Defined.
#[export] Instance KeyStatus_eq_dec : EqDecision KeyStatus.
Proof. solve_decision. Defined.
#[export] Instance IdempotencyKeyModel_eq_dec : EqDecision IdempotencyKeyModel.
Proof. solve_decision. Defined.

(** * The database *)

Record DB := {
  accounts : gmap UUID Account;
  journal_entries : gmap UUID JournalEntryModel;
  journal_lines : list JournalLineModel;
  payments : gmap UUID Payment;
  payment_status_history : list PaymentStatusHistoryModel;
  idempotency_keys : gmap (string * string) IdempotencyKeyModel;
  webhook_subscriptions : gmap UUID WebhookSubscription;
  webhook_deliveries : gmap UUID WebhookDeliveryModel;
  settlement_file_records : list SettlementFileRecordModel;
  reconciliation_runs : gmap UUID ReconciliationRunModel;
  reconciliation_breaks : list ReconciliationBreakModel;
  fx_rates : list FxRate;
}.

Definition empty_db : DB :=
  {| accounts := ∅; journal_entries := ∅; journal_lines := []; payments := ∅;
     payment_status_history := []; idempotency_keys := ∅; webhook_subscriptions := ∅;
     webhook_deliveries := ∅; settlement_file_records := []; reconciliation_runs := ∅;
     reconciliation_breaks := []; fx_rates := [] |}.

(** * Writes *)

(** One row inserted or replaced by a statement. *)
Inductive Write :=
| PutAccount (a : Account)
| AddEntry (id : UUID) (e : JournalEntryModel)
| AddLine (l : JournalLineModel)
| PutPayment (p : Payment)
| AddHistory (h : PaymentStatusHistoryModel)
| PutKey (endpoint key : string) (k : IdempotencyKeyModel)
| PutSubscription (s : WebhookSubscription)
| PutDelivery (d : WebhookDeliveryModel)
| AddFileRecord (r : SettlementFileRecordModel)
| AddRun (r : ReconciliationRunModel)
| AddBreak (b : ReconciliationBreakModel).

Definition apply_write (db : DB) (w : Write) : DB :=
  let '{| accounts := ac; journal_entries := je; journal_lines := jl; payments := pa;
          payment_status_history := hi; idempotency_keys := ik; webhook_subscriptions := ws;
          webhook_deliveries := wd; settlement_file_records := sf; reconciliation_runs := rr;
          reconciliation_breaks := rb; fx_rates := fx |} := db in
  match w with
  | PutAccount a => Build_DB (<[acc_id a := a]> ac) je jl pa hi ik ws wd sf rr rb fx
  | AddEntry id e => Build_DB ac (<[id := e]> je) jl pa hi ik ws wd sf rr rb fx
  | AddLine l => Build_DB ac je (jl ++ [l]) pa hi ik ws wd sf rr rb fx
  | PutPayment p => Build_DB ac je jl (<[pay_id p := p]> pa) hi ik ws wd sf rr rb fx
  | AddHistory h => Build_DB ac je jl pa (hi ++ [h]) ik ws wd sf rr rb fx
  | PutKey e k r => Build_DB ac je jl pa hi (<[(e, k) := r]> ik) ws wd sf rr rb fx
  | PutSubscription s => Build_DB ac je jl pa hi ik (<[sub_id s := s]> ws) wd sf rr rb fx
  | PutDelivery d =>
      Build_DB ac je jl pa hi ik ws (<[dl_id (wdm_delivery d) := d]> wd) sf rr rb fx
  | AddFileRecord r => Build_DB ac je jl pa hi ik ws wd (sf ++ [r]) rr rb fx
  | AddRun r => Build_DB ac je jl pa hi ik ws wd sf (<[rrm_id r := r]> rr) rb fx
  | AddBreak b => Build_DB ac je jl pa hi ik ws wd sf rr (rb ++ [b]) fx
  end.

(** What a session sees: the committed rows overlaid with its own uncommitted writes.
    Committing makes this the committed database. *)
Definition view (db : DB) (log : list Write) : DB := foldl apply_write db log.

(** * Column types and constraints *)

(** A VARCHAR(n) parameter: at most [n] characters and no NUL. *)
Definition varchar (n : Z) (s : string) : bool :=
  (len s <=? n) && forallb (fun c => negb (N_of_ascii c =? 0)%N) (list_ascii_of_string s).
Definition varchar_opt (n : Z) (s : option string) : bool := from_option (varchar n) true s.
(** A TEXT parameter: no NUL. *)
Definition text (s : string) : bool :=
  forallb (fun c => negb (N_of_ascii c =? 0)%N) (list_ascii_of_string s).

(** [CHECK (amount > 0)]: PostgreSQL orders NaN above every number. *)
Definition sql_gt0 (d : Decimal) : bool :=
  match d with
  | Fin s c _ => negb s && negb (c =? 0)%N
  | Inf s => negb s
  | NaN _ => true
  end.

(** A 32-bit INTEGER column. *)
Definition int4_max : Z := 2147483647.

Definition require (b : bool) (e : Exn) : result Exn unit := if b then Ok tt else Err e.

(** * Lemmas *)

Lemma view_nil db : view db [] = db.
Proof. done. Qed.

Lemma view_app db l1 l2 : view db (l1 ++ l2) = view (view db l1) l2.
Proof. apply foldl_app. Qed.

Lemma view_cons db w l : view db (w :: l) = view (apply_write db w) l.
Proof. done. Qed.

Lemma view_snoc db l w : view db (l ++ [w]) = apply_write (view db l) w.
Proof. by rewrite view_app. Qed.

Lemma require_true e : require true e = Ok tt.
Proof. done. Qed.

Lemma require_ok b e u : require b e = Ok u -> b = true.
Proof. by destruct b. Qed.

Lemma require_bind {B} b e (f : unit -> result Exn B) r :
  require b e ≫= f = Ok r <-> b = true /\ f tt = Ok r.
Proof. destruct b; simpl; [tauto|]. split; [done|by intros [? _]]. Qed.

Lemma or_raise_bind {A B} (o : option A) e (f : A -> result Exn B) r :
  or_raise o e ≫= f = Ok r <-> exists a, o = Some a /\ f a = Ok r.
Proof. destruct o; simpl; naive_solver. Qed.

Lemma result_bind_inv {A B} (m : result Exn A) (f : A -> result Exn B) r :
  m ≫= f = Ok r <-> exists a, m = Ok a /\ f a = Ok r.
Proof. destruct m; simpl; naive_solver. Qed.

Lemma or_raise_some {A} (a : A) (e : Exn) : or_raise (Some a) e = Ok a.
Proof. done. Qed.

#[export] Hint Rewrite view_nil view_app view_cons @require_true @or_raise_some : ledger_rw.

(** Takes a successful statement apart, one check at a time. *)
Ltac stmt_ok H :=
  repeat first
    [ apply require_bind in H as [? H]
     | apply or_raise_bind in H as (? & ? & H)
     | apply result_bind_inv in H as (? & ? & H) ];
  simpl in H; simplify_eq.

(** Each table of a database after one write. *)
Section projections.
Context (db : DB).
Ltac solve_proj := destruct db; reflexivity.

Lemma accounts_write w :
  accounts (apply_write db w) =
  match w with PutAccount a => <[acc_id a := a]> (accounts db) | _ => accounts db end.
Proof. destruct w; solve_proj. Qed.
Lemma entries_write w :
  journal_entries (apply_write db w) =
  match w with AddEntry i e => <[i := e]> (journal_entries db) | _ => journal_entries db end.
Proof. destruct w; solve_proj. Qed.
Lemma lines_write w :
  journal_lines (apply_write db w) =
  match w with AddLine l => journal_lines db ++ [l] | _ => journal_lines db end.
Proof. destruct w; solve_proj. Qed.
Lemma payments_write w :
  payments (apply_write db w) =
  match w with PutPayment p => <[pay_id p := p]> (payments db) | _ => payments db end.
Proof. destruct w; solve_proj. Qed.
Lemma history_write w :
  payment_status_history (apply_write db w) =
  match w with AddHistory h => payment_status_history db ++ [h] | _ => payment_status_history db end.
Proof. destruct w; solve_proj. Qed.
Lemma keys_write w :
  idempotency_keys (apply_write db w) =
  match w with PutKey e k r => <[(e, k) := r]> (idempotency_keys db) | _ => idempotency_keys db end.
Proof. destruct w; solve_proj. Qed.
Lemma subscriptions_write w :
  webhook_subscriptions (apply_write db w) =
  match w with
  | PutSubscription s => <[sub_id s := s]> (webhook_subscriptions db)
  | _ => webhook_subscriptions db
  end.
Proof. destruct w; solve_proj. Qed.
Lemma deliveries_write w :
  webhook_deliveries (apply_write db w) =
  match w with
  | PutDelivery d => <[dl_id (wdm_delivery d) := d]> (webhook_deliveries db)
  | _ => webhook_deliveries db
  end.
Proof. destruct w; solve_proj. Qed.
Lemma fx_rates_write w : fx_rates (apply_write db w) = fx_rates db.
Proof. destruct w; solve_proj. Qed.
End projections.

(** ** Iteration over a set *)

Section set_iter.
Context `{Platform}.

Lemma elem_of_set_iter l i : i ∈ set_iter l <-> i ∈ l.
Proof. rewrite set_iter_perm, elem_of_elements. apply elem_of_list_to_set. Qed.

Lemma set_iter_NoDup l : NoDup (set_iter l).
Proof. rewrite set_iter_perm. apply NoDup_elements. Qed.

Lemma set_iter_nil : set_iter [] = [].
Proof. apply Permutation_nil_r. by rewrite set_iter_perm. Qed.
End set_iter.
