(* ===== verification/Columns.v ===== *)
(** Columns: which texts a character column takes (app/infra/db/models.py).  What the program
    renders itself, numbers, decimals, identifiers and quoted strings, never holds the NUL
    character that PostgreSQL refuses. *)
From S2P Require Import Prelude Decimals PyText DecText Ledger Store.

#[local] Open Scope Z_scope.

Definition no_nul (c : ascii) : bool := negb (N_of_ascii c =? 0)%N.

Lemma text_app s1 s2 : text (s1 +:+ s2) = text s1 && text s2.
Proof. unfold text. by rewrite list_string_app, forallb_app. Qed.

Lemma no_nul_of_N n : (0 < n < 256)%N -> no_nul (ascii_of_N n) = true.
Proof. intros Hn. unfold no_nul. rewrite N_ascii_embedding by lia. apply negb_true_iff, N.eqb_neq. lia. Qed.

Lemma no_nul_all l : Forall (fun c => no_nul c = true) l -> forallb no_nul l = true.
Proof. intros Hl. apply forallb_forall. intros c Hc%list_elem_of_In. by eapply Forall_forall in Hl. Qed.

Lemma text_digits n : text (digits_str n) = true.
Proof.
  apply no_nul_all. rewrite list_digits_str. apply Forall_fmap.
  eapply Forall_impl; [apply digits_of_small|]. intros d Hd. cbv beta in Hd. apply (no_nul_of_N (48 + d)). lia.
Qed.

Lemma text_str_Z z : text (str_Z z) = true.
Proof. unfold str_Z. rewrite text_app, text_digits. by destruct (z <? 0). Qed.

Lemma no_nul_hex k n : Forall (fun c => no_nul c = true) (hex_digits k n).
Proof.
  revert n. induction k as [|k IH]; intros n; [constructor|]. cbn [hex_digits]. apply Forall_app. split; [done|].
  constructor; [|constructor]. unfold hex_digit. assert (Hn : (n mod 16 < 16)%N) by (apply N.mod_lt; lia).
  set (m := (n mod 16)%N) in *. clearbody m. destruct (N.ltb_spec m 10); apply no_nul_of_N; lia.
Qed.

Lemma varchar_uuid n u : 36 <= n -> varchar n (uuid_str u) = true.
Proof.
  intros Hn. unfold varchar. apply andb_true_intro. split; [apply Z.leb_le; exact Hn|].
  apply no_nul_all. unfold uuid_str. rewrite list_ascii_of_string_of_list_ascii.
  pose proof (no_nul_hex 32 u) as Hh. set (h := hex_digits 32 u) in *. clearbody h.
  repeat first [apply Forall_app; split | apply Forall_cons; split | apply Forall_take | apply Forall_drop | done].
Qed.

Lemma varchar_text n s : varchar n s = true -> text s = true.
Proof. unfold varchar. by intros [_ ?]%andb_prop. Qed.

Lemma varchar_mono m n s : m <= n -> varchar m s = true -> varchar n s = true.
Proof.
  unfold varchar. intros Hmn [Hl Ht]%andb_prop. apply Z.leb_le in Hl. rewrite Ht, andb_true_r. apply Z.leb_le. lia.
Qed.

Lemma text_uuid u : text (uuid_str u) = true.
Proof. by apply (varchar_text 36), varchar_uuid. Qed.

Lemma text_dec_str s c e : text (dec_str (Fin s c e)) = true.
Proof.
  destruct (dec_str_printed s c e) as (ip & fp & ex & Hp). apply printed_chars in Hp. apply no_nul_all.
  eapply Forall_impl; [exact Hp|]. intros x [(d & Hd & ->)|[->|[->|[->| ->]]]]; [|done..].
  apply (no_nul_of_N (48 + d)). lia.
Qed.

Lemma text_repr s : text (py_repr s) = true.
Proof.
  unfold py_repr. set (q := if decide _ then _ else _).
  assert (Hq : no_nul q = true) by (unfold q; by destruct (decide _)). clearbody q.
  apply no_nul_all. rewrite list_ascii_of_string_of_list_ascii. constructor; [done|].
  apply Forall_app. split; [|by repeat constructor].
  induction (list_ascii_of_string s) as [|c l IH]; [constructor|]. cbn [fmap list_fmap concat].
  apply Forall_app. split; [|done]. unfold repr_char.
  destruct (decide _) as [[-> | ->]|_]; [by repeat constructor..|].
  repeat (case_match; [by repeat constructor|]).
  destruct (printable c) eqn:Hp.
  - constructor; [|constructor]. unfold no_nul. apply negb_true_iff, N.eqb_neq. intros Hz.
    unfold printable in Hp. by rewrite Hz in Hp.
  - constructor; [done|]. constructor; [done|]. apply no_nul_hex.
Qed.
