(* ===== verification/Rows.v ===== *)
(** Rows: the columns of app/infra/db/models.py and the [_to_domain_*] functions of
    app/infra/db/repositories/.

    The tables of Store hold the domain's own records.  What PostgreSQL holds are columns,
    with enumerations as text and no constraint on the text.  The lemmas here say that the
    columns the repositories write read back as the records they were written from, and that
    no other columns do: a table of Store stands for exactly one table of columns. *)
From S2P Require Import Prelude Decimals PyText PyVal Ledger Fx PaymentSM Recon Webhooks Store.

#[local] Open Scope Z_scope.

(** * Columns *)

Record AccountModel := {
  am_id : UUID;
  am_account_number : string;
  am_owner_name : string;
  am_account_type : string;
  am_currency : string;
  am_status : string;
  am_version : Z;
}.

Record PaymentModel := {
  pm_id : UUID;
  pm_debtor_account_id : UUID;
  pm_creditor_account_id : UUID;
  pm_amount : Decimal;
  pm_currency : string;
  pm_fx_rate_id : option UUID;
  pm_creditor_amount : option Decimal;
  pm_status : string;
  pm_end_to_end_id : option string;
  pm_version : Z;
}.

Record WebhookSubscriptionModel := {
  wsm_id : UUID;
  wsm_url : string;
  wsm_secret : string;
  wsm_event_types : list string;
  wsm_active : bool;
}.

(** The columns of webhook_deliveries but [created_at]. *)
Record DeliveryColumns := {
  dc_id : UUID;
  dc_subscription_id : UUID;
  dc_payment_id : option UUID;
  dc_event_type : string;
  dc_payload : pydict;
  dc_status : string;
  dc_attempt_count : Z;
  dc_next_attempt_at : Z;
  dc_last_error : option string;
}.

(** * Reading *)

Definition _to_domain_account (row : AccountModel) : Account :=
  {| acc_id := am_id row; acc_account_number := am_account_number row;
     acc_owner_name := am_owner_name row; acc_account_type := am_account_type row;
     acc_currency := am_currency row; acc_status := am_status row; acc_version := am_version row |}.

Definition _to_domain_payment (row : PaymentModel) : result Exn Payment :=
  status ← or_raise (status_of_value (pm_status row)) ValueError;
  Ok {| pay_id := pm_id row; pay_debtor_account_id := pm_debtor_account_id row;
        pay_creditor_account_id := pm_creditor_account_id row; pay_amount := pm_amount row;
        pay_currency := pm_currency row; pay_status := status; pay_version := pm_version row;
        pay_end_to_end_id := pm_end_to_end_id row; pay_fx_rate_id := pm_fx_rate_id row;
        pay_creditor_amount := pm_creditor_amount row |}.

Definition _to_domain_subscription (row : WebhookSubscriptionModel) : WebhookSubscription :=
  {| sub_id := wsm_id row; sub_url := wsm_url row; sub_secret := wsm_secret row;
     sub_event_types := wsm_event_types row; sub_active := wsm_active row |}.

(** [DeliveryStatus(value)]: [None] is the ValueError. *)
Definition delivery_status_of_value (v : string) : option DeliveryStatus :=
  list_find (fun s => delivery_status_value s = v) [PENDING; DELIVERED; DEAD_LETTER]
    ≫= λ p, Some p.2.

Definition _to_domain_delivery (row : DeliveryColumns) : result Exn WebhookDelivery :=
  status ← or_raise (delivery_status_of_value (dc_status row)) ValueError;
  Ok {| dl_id := dc_id row; dl_subscription_id := dc_subscription_id row;
        dl_payment_id := dc_payment_id row; dl_event_type := dc_event_type row;
        dl_payload := dc_payload row; dl_status := status; dl_attempt_count := dc_attempt_count row;
        dl_next_attempt_at := dc_next_attempt_at row; dl_last_error := dc_last_error row |}.

(** * Writing: the columns a record is stored in *)

Definition account_columns (a : Account) : AccountModel :=
  {| am_id := acc_id a; am_account_number := acc_account_number a; am_owner_name := acc_owner_name a;
     am_account_type := acc_account_type a; am_currency := acc_currency a; am_status := acc_status a;
     am_version := acc_version a |}.

Definition payment_columns (p : Payment) : PaymentModel :=
  {| pm_id := pay_id p; pm_debtor_account_id := pay_debtor_account_id p;
     pm_creditor_account_id := pay_creditor_account_id p; pm_amount := pay_amount p;
     pm_currency := pay_currency p; pm_fx_rate_id := pay_fx_rate_id p;
     pm_creditor_amount := pay_creditor_amount p; pm_status := status_value (pay_status p);
     pm_end_to_end_id := pay_end_to_end_id p; pm_version := pay_version p |}.

Definition subscription_columns (s : WebhookSubscription) : WebhookSubscriptionModel :=
  {| wsm_id := sub_id s; wsm_url := sub_url s; wsm_secret := sub_secret s;
     wsm_event_types := sub_event_types s; wsm_active := sub_active s |}.

Definition delivery_columns (d : WebhookDelivery) : DeliveryColumns :=
  {| dc_id := dl_id d; dc_subscription_id := dl_subscription_id d; dc_payment_id := dl_payment_id d;
     dc_event_type := dl_event_type d; dc_payload := dl_payload d;
     dc_status := delivery_status_value (dl_status d); dc_attempt_count := dl_attempt_count d;
     dc_next_attempt_at := dl_next_attempt_at d; dc_last_error := dl_last_error d |}.

(** * Lemmas *)

Lemma status_of_value_inv v s : status_of_value v = Some s -> v = status_value s.
Proof.
  unfold status_of_value. destruct (list_find _ _) as [[i x]|] eqn:Hf; [|done].
  intros [= <-]. by apply list_find_Some in Hf as (_ & <- & _).
Qed.
Lemma delivery_status_of_value_inv v s : delivery_status_of_value v = Some s -> v = delivery_status_value s.
Proof.
  unfold delivery_status_of_value. destruct (list_find _ _) as [[i x]|] eqn:Hf; [|done].
  intros [= <-]. by apply list_find_Some in Hf as (_ & <- & _).
Qed.
Lemma delivery_status_of_value_value s : delivery_status_of_value (delivery_status_value s) = Some s.
Proof. by destruct s. Qed.

Lemma account_reads_back row a : _to_domain_account row = a <-> row = account_columns a.
Proof. destruct row, a. split; [by intros [= <- <- <- <- <- <- <-]|by intros [= -> -> -> -> -> -> ->]]. Qed.

Lemma subscription_reads_back row s : _to_domain_subscription row = s <-> row = subscription_columns s.
Proof. destruct row, s. split; [by intros [= <- <- <- <- <-]|by intros [= -> -> -> -> ->]]. Qed.

Lemma payment_reads_back row p : _to_domain_payment row = Ok p <-> row = payment_columns p.
Proof.
  unfold _to_domain_payment. split.
  - destruct (status_of_value (pm_status row)) as [s|] eqn:Hs; [|done].
    apply status_of_value_inv in Hs. intros [= <-]. destruct row. simpl in *. by subst.
  - intros ->. cbn [payment_columns pm_status]. rewrite status_of_value_value. by destruct p.
Qed.

Lemma delivery_reads_back row d : _to_domain_delivery row = Ok d <-> row = delivery_columns d.
Proof.
  unfold _to_domain_delivery. split.
  - destruct (delivery_status_of_value (dc_status row)) as [s|] eqn:Hs; [|done].
    apply delivery_status_of_value_inv in Hs. intros [= <-]. destruct row. simpl in *. by subst.
  - intros ->. cbn [delivery_columns dc_status]. rewrite delivery_status_of_value_value. by destruct d.
Qed.

(** A status no transition writes makes every read of the row fail. *)
Lemma unknown_status_raises row :
  pm_status row ∉ (status_value <$> [INITIATED; AUTHORISED; SETTLED; REVERSED; FAILED]) ->
  _to_domain_payment row = Err ValueError.
Proof.
  intros Hn. unfold _to_domain_payment. destruct (status_of_value _) as [s|] eqn:Hs; [|done].
  apply status_of_value_inv in Hs. destruct Hn. rewrite Hs. by destruct s; set_solver.
Qed.
