(* ===== verification/Session.v ===== *)
(** Session: sessions and units of work (app/infra/db/session.py,
    app/infra/db/unit_of_work.py, app/domain/unit_of_work.py).

    The asynchronous code is a [Prog]: a tree of the effects it performs, each with the
    continuation of its outcome.  [every_run] gives the meaning of a program as a
    predicate transformer over all its executions (all interleavings with other sessions
    that a rely condition admits, all clocks, identifiers and network answers); [exec]
    runs a program on one given oracle, and [exec_sound] ties the two together. *)
From S2P Require Import Prelude Decimals Ledger Store.

#[local] Open Scope Z_scope.

(** * Programs *)

(** A SQL statement: from the transaction's start time and the rows the session sees to a
    result and the rows written, or to an exception. *)
Definition Stmt (R : Type) : Type := Z -> DB -> result Exn (R * list Write).

(** An outgoing HTTP request. *)
Record Request := {
  rq_url : string;
  rq_headers : list (string * string);
  rq_body : list N;
}.

Inductive Prog (A : Type) : Type :=
| Ret (a : A)
| Raise (e : Exn)
| Sql (R : Type) (stmt : Stmt R) (k : result Exn R -> Prog A)
| NewUuid (k : UUID -> Prog A)                          (* uuid.uuid4() *)
| Now (k : Z -> Prog A)                                 (* datetime.now(UTC), microseconds *)
| OpenTx (k : Prog A)                                   (* sessionmaker() *)
| Commit (k : result Exn unit -> Prog A)                (* session.commit() *)
| Rollback (k : Prog A)                                 (* session.rollback() *)
| CloseTx (k : Prog A)                                  (* session.close() *)
| Sleep (attempt : Z) (k : Prog A)                      (* asyncio.sleep(backoff(attempt)) *)
| Send (rq : Request) (k : result string Z -> Prog A).  (* status code, or what was raised *)
Arguments Ret {A} _.
Arguments Raise {A} _.
Arguments Sql {A R} _ _.
Arguments NewUuid {A} _.
Arguments Now {A} _.
Arguments OpenTx {A} _.
Arguments Commit {A} _.
Arguments Rollback {A} _.
Arguments CloseTx {A} _.
Arguments Sleep {A} _ _.
Arguments Send {A} _ _.

Fixpoint prog_bind {A B} (f : A -> Prog B) (m : Prog A) : Prog B :=
  match m with
  | Ret a => f a
  | Raise e => Raise e
  | Sql stmt k => Sql stmt (fun r => prog_bind f (k r))
  | NewUuid k => NewUuid (fun u => prog_bind f (k u))
  | Now k => Now (fun t => prog_bind f (k t))
  | OpenTx k => OpenTx (prog_bind f k)
  | Commit k => Commit (fun r => prog_bind f (k r))
  | Rollback k => Rollback (prog_bind f k)
  | CloseTx k => CloseTx (prog_bind f k)
  | Sleep a k => Sleep a (prog_bind f k)
  | Send rq k => Send rq (fun r => prog_bind f (k r))
  end.

#[export] Instance prog_ret : MRet Prog := fun A a => Ret a.
#[export] Instance prog_mbind : MBind Prog := fun A B f m => prog_bind f m.

(** [try: m] with the outcome as a value; the handlers look at it. *)
Fixpoint attempt {A} (m : Prog A) : Prog (result Exn A) :=
  match m with
  | Ret a => Ret (Ok a)
  | Raise e => Ret (Err e)
  | Sql stmt k => Sql stmt (fun r => attempt (k r))
  | NewUuid k => NewUuid (fun u => attempt (k u))
  | Now k => Now (fun t => attempt (k t))
  | OpenTx k => OpenTx (attempt k)
  | Commit k => Commit (fun r => attempt (k r))
  | Rollback k => Rollback (attempt k)
  | CloseTx k => CloseTx (attempt k)
  | Sleep a k => Sleep a (attempt k)
  | Send rq k => Send rq (fun r => attempt (k r))
  end.

Definition of_result {A} (r : result Exn A) : Prog A :=
  match r with Ok a => Ret a | Err e => Raise e end.

Definition sql {R} (stmt : Stmt R) : Prog R := Sql stmt of_result.
Definition uuid4 : Prog UUID := NewUuid Ret.
Definition now : Prog Z := Now Ret.
Definition commit : Prog unit := Commit of_result.
Definition rollback : Prog unit := Rollback (Ret tt).
Definition sleep (attempt : Z) : Prog unit := Sleep attempt (Ret tt).
Definition send (rq : Request) : Prog (result string Z) := Send rq Ret.

(** A query, whose result may be an exception of the code that reads it. *)
Definition select {R} (q : DB -> result Exn R) : Prog R :=
  sql (fun _ db => r ← q db; Ok (r, [])).

(** A [for] loop. *)
Fixpoint for_ {A} (l : list A) (body : A -> Prog unit) : Prog unit :=
  match l with
  | [] => Ret tt
  | x :: l' => body x ;; for_ l' body
  end.

(** * Units of work *)

Definition __aenter__ : Prog unit := OpenTx (Ret tt).

(** Rolls back when the block was left by an exception, and closes the session, which
    rolls back whatever was not committed. *)
Definition __aexit__ (raised : bool) : Prog unit :=
  if raised then Rollback (CloseTx (Ret tt)) else CloseTx (Ret tt).

(** [async with uow_factory() as uow: body] *)
Definition with_uow {A} (body : Prog A) : Prog A :=
  __aenter__ ;;
  r ← attempt body;
  __aexit__ (negb (is_ok r)) ;;
  of_result r.

(** * All executions *)

Record Sess := {
  s_db : DB;                                (* what is committed *)
  s_log : list Write;                       (* the session's own uncommitted writes *)
  s_now : Z;                                (* start of the transaction *)
  s_commits : list (list Write);            (* what this program has committed *)
  s_sent : list (Request * result string Z);
  s_sleeps : list Z;
}.

Definition with_sql (s : Sess) (db : DB) (log : list Write) : Sess :=
  {| s_db := db; s_log := log; s_now := s_now s; s_commits := s_commits s;
     s_sent := s_sent s; s_sleeps := s_sleeps s |}.
Definition with_open (s : Sess) (t : Z) : Sess :=
  {| s_db := s_db s; s_log := []; s_now := t; s_commits := s_commits s;
     s_sent := s_sent s; s_sleeps := s_sleeps s |}.
Definition with_commit (s : Sess) (db : DB) : Sess :=
  {| s_db := view db (s_log s); s_log := []; s_now := s_now s;
     s_commits := s_commits s ++ (if s_log s is [] then [] else [s_log s]);
     s_sent := s_sent s; s_sleeps := s_sleeps s |}.
Definition with_sent (s : Sess) (rq : Request) (r : result string Z) : Sess :=
  {| s_db := s_db s; s_log := s_log s; s_now := s_now s; s_commits := s_commits s;
     s_sent := s_sent s ++ [(rq, r)]; s_sleeps := s_sleeps s |}.
Definition with_sleep (s : Sess) (a : Z) : Sess :=
  {| s_db := s_db s; s_log := s_log s; s_now := s_now s; s_commits := s_commits s;
     s_sent := s_sent s; s_sleeps := s_sleeps s ++ [a] |}.

Definition init_sess (db : DB) : Sess :=
  {| s_db := db; s_log := []; s_now := 0; s_commits := []; s_sent := []; s_sleeps := [] |}.

(** A [uuid4] does not repeat an identifier in use. *)
Definition fresh_uuid (db : DB) (u : UUID) : Prop :=
  accounts db !! u = None /\ journal_entries db !! u = None /\ payments db !! u = None /\
  webhook_subscriptions db !! u = None /\ webhook_deliveries db !! u = None /\
  reconciliation_runs db !! u = None /\
  map_Forall (fun _ r => ik_id r <> u) (idempotency_keys db).

(** What the world may do to a program.  [rely_db]: what other sessions may have committed
    since the last statement, i.e. the committed databases possible now, given the state
    this program left behind.  [rely_faults]: whether the database may fail any statement
    or commit (deadlock, shutdown, lost connection). *)
Record Rely := {
  rely_db :> Sess -> DB -> Prop;
  rely_faults : Prop;
}.

(** Nothing happens: this program runs alone, on a database that stays up. *)
Definition quiet : Rely := {| rely_db := fun s db => db = s_db s; rely_faults := False |}.

(** What this program's own commits must satisfy: a condition on its state when it commits
    and the database it commits to. *)
Definition Guarantee : Type := Sess -> DB -> Prop.
Definition anything : Guarantee := fun _ _ => True.

(** [Q] holds of the final state and outcome of every execution of [m] from [s], and every
    commit on the way satisfies [guar].  Each statement reads the rows committed when it
    runs (READ COMMITTED).  A statement the database fails does nothing; a commit it fails
    rolls the transaction back. *)
Fixpoint every_run {A} (rely : Rely) (guar : Guarantee) (m : Prog A) (s : Sess)
    (Q : Sess -> result Exn A -> Prop) : Prop :=
  match m with
  | Ret a => Q s (Ok a)
  | Raise e => Q s (Err e)
  | Sql stmt k =>
      (forall db, rely s db ->
       match stmt (s_now s) (view db (s_log s)) with
       | Ok (r, ws) => every_run rely guar (k (Ok r)) (with_sql s db (s_log s ++ ws)) Q
       | Err e => every_run rely guar (k (Err e)) (with_sql s db (s_log s)) Q
       end) /\
      (rely_faults rely -> every_run rely guar (k (Err DBAPIError)) s Q)
  | NewUuid k => forall u, fresh_uuid (view (s_db s) (s_log s)) u -> every_run rely guar (k u) s Q
  | Now k => forall t, every_run rely guar (k t) s Q
  | OpenTx k => forall t, every_run rely guar k (with_open s t) Q
  | Commit k =>
      (forall db, rely s db ->
       guar s db /\ every_run rely guar (k (Ok tt)) (with_commit s db) Q) /\
      (rely_faults rely -> every_run rely guar (k (Err DBAPIError)) (with_sql s (s_db s) []) Q)
  | Rollback k => every_run rely guar k (with_sql s (s_db s) []) Q
  | CloseTx k => every_run rely guar k (with_sql s (s_db s) []) Q
  | Sleep a k => every_run rely guar k (with_sleep s a) Q
  | Send rq k => forall r, every_run rely guar (k r) (with_sent s rq r) Q
  end.

(** * One execution *)

(** What the environment answers, in order. *)
Record Oracle := {
  o_env : list (option (DB -> DB));      (* other sessions' commits before each statement *)
                                         (* or commit, or its failure *)
  o_uuids : list UUID;
  o_clock : list Z;
  o_net : list (result string Z);
}.

Definition next {A} (d : A) (l : list A) : A * list A :=
  match l with [] => (d, []) | x :: l' => (x, l') end.

Definition pop_env (o : Oracle) : option (DB -> DB) * Oracle :=
  let '(f, l) := next (Some id) (o_env o) in
  (f, {| o_env := l; o_uuids := o_uuids o; o_clock := o_clock o; o_net := o_net o |}).
Definition pop_uuid (o : Oracle) : UUID * Oracle :=
  let '(u, l) := next 0%N (o_uuids o) in
  (u, {| o_env := o_env o; o_uuids := l; o_clock := o_clock o; o_net := o_net o |}).
Definition pop_clock (o : Oracle) : Z * Oracle :=
  let '(t, l) := next 0 (o_clock o) in
  (t, {| o_env := o_env o; o_uuids := o_uuids o; o_clock := l; o_net := o_net o |}).
Definition pop_net (o : Oracle) : result string Z * Oracle :=
  let '(r, l) := next (Err "TimeoutError: ") (o_net o) in
  (r, {| o_env := o_env o; o_uuids := o_uuids o; o_clock := o_clock o; o_net := l |}).

Fixpoint exec {A} (m : Prog A) (s : Sess) (o : Oracle) : Sess * result Exn A :=
  match m with
  | Ret a => (s, Ok a)
  | Raise e => (s, Err e)
  | Sql stmt k =>
      match pop_env o with
      | (Some f, o') =>
          let db := f (s_db s) in
          match stmt (s_now s) (view db (s_log s)) with
          | Ok (r, ws) => exec (k (Ok r)) (with_sql s db (s_log s ++ ws)) o'
          | Err e => exec (k (Err e)) (with_sql s db (s_log s)) o'
          end
      | (None, o') => exec (k (Err DBAPIError)) s o'
      end
  | NewUuid k => let '(u, o') := pop_uuid o in exec (k u) s o'
  | Now k => let '(t, o') := pop_clock o in exec (k t) s o'
  | OpenTx k => let '(t, o') := pop_clock o in exec k (with_open s t) o'
  | Commit k =>
      match pop_env o with
      | (Some f, o') => exec (k (Ok tt)) (with_commit s (f (s_db s))) o'
      | (None, o') => exec (k (Err DBAPIError)) (with_sql s (s_db s) []) o'
      end
  | Rollback k | CloseTx k => exec k (with_sql s (s_db s) []) o
  | Sleep a k => exec k (with_sleep s a) o
  | Send rq k => let '(r, o') := pop_net o in exec (k r) (with_sent s rq r) o'
  end.

(** The oracle stays within the rely condition and gives fresh identifiers. *)
Fixpoint obeys {A} (rely : Rely) (m : Prog A) (s : Sess) (o : Oracle) : Prop :=
  match m with
  | Ret _ | Raise _ => True
  | Sql stmt k =>
      match pop_env o with
      | (Some f, o') =>
          let db := f (s_db s) in
          rely s db /\
          match stmt (s_now s) (view db (s_log s)) with
          | Ok (r, ws) => obeys rely (k (Ok r)) (with_sql s db (s_log s ++ ws)) o'
          | Err e => obeys rely (k (Err e)) (with_sql s db (s_log s)) o'
          end
      | (None, o') => rely_faults rely /\ obeys rely (k (Err DBAPIError)) s o'
      end
  | NewUuid k =>
      let '(u, o') := pop_uuid o in
      fresh_uuid (view (s_db s) (s_log s)) u /\ obeys rely (k u) s o'
  | Now k => let '(t, o') := pop_clock o in obeys rely (k t) s o'
  | OpenTx k => let '(t, o') := pop_clock o in obeys rely k (with_open s t) o'
  | Commit k =>
      match pop_env o with
      | (Some f, o') =>
          rely s (f (s_db s)) /\ obeys rely (k (Ok tt)) (with_commit s (f (s_db s))) o'
      | (None, o') => rely_faults rely /\ obeys rely (k (Err DBAPIError)) (with_sql s (s_db s) []) o'
      end
  | Rollback k | CloseTx k => obeys rely k (with_sql s (s_db s) []) o
  | Sleep a k => obeys rely k (with_sleep s a) o
  | Send rq k => let '(r, o') := pop_net o in obeys rely (k r) (with_sent s rq r) o'
  end.

(** * Lemmas *)

Section rules.
Context (rely : Rely) (guar : Guarantee).

Lemma run_mono {A} (m : Prog A) s (Q Q' : Sess -> result Exn A -> Prop) :
  every_run rely guar m s Q -> (forall s' r, Q s' r -> Q' s' r) -> every_run rely guar m s Q'.
Proof.
  intros Hm HQ. revert s Hm. induction m as [| |R stmt k IH| | | | | | | |]; simpl; intros s Hm; eauto.
  - destruct Hm as [Hm Hf]. split; [|eauto].
    intros db Hdb. specialize (Hm db Hdb). destruct (stmt _ _) as [[]|]; eauto.
  - destruct Hm as [Hm Hf]. split; [|eauto]. intros db Hdb. destruct (Hm db Hdb). eauto.
Qed.

Lemma run_bind {A B} (m : Prog A) (f : A -> Prog B) s Q :
  every_run rely guar m s (fun s' r =>
   match r with Ok a => every_run rely guar (f a) s' Q | Err e => Q s' (Err e) end) ->
  every_run rely guar (m ≫= f) s Q.
Proof.
  revert s. unfold mbind, prog_mbind.
  induction m as [| |R stmt k IH| | | | | | | |]; simpl; intros s Hm; eauto.
  - destruct Hm as [Hm Hf]. split; [|eauto].
    intros db Hdb. specialize (Hm db Hdb). destruct (stmt _ _) as [[]|]; eauto.
  - destruct Hm as [Hm Hf]. split; [|eauto]. intros db Hdb. destruct (Hm db Hdb). eauto.
Qed.

Lemma run_attempt {A} (m : Prog A) s Q :
  every_run rely guar m s (fun s' r => Q s' (Ok r)) -> every_run rely guar (attempt m) s Q.
Proof.
  revert s. induction m as [| |R stmt k IH| | | | | | | |]; simpl; intros s Hm; eauto.
  - destruct Hm as [Hm Hf]. split; [|eauto].
    intros db Hdb. specialize (Hm db Hdb). destruct (stmt _ _) as [[]|]; eauto.
  - destruct Hm as [Hm Hf]. split; [|eauto]. intros db Hdb. destruct (Hm db Hdb). eauto.
Qed.

Lemma run_of_result {A} (r : result Exn A) s Q :
  Q s r -> every_run rely guar (of_result r) s Q.
Proof. by destruct r. Qed.

Lemma run_sql {R} (stmt : Stmt R) s Q :
  (forall db, rely s db ->
   match stmt (s_now s) (view db (s_log s)) with
   | Ok (r, ws) => Q (with_sql s db (s_log s ++ ws)) (Ok r)
   | Err e => Q (with_sql s db (s_log s)) (Err e)
   end) ->
  (rely_faults rely -> Q s (Err DBAPIError)) ->
  every_run rely guar (sql stmt) s Q.
Proof.
  intros H Hf. split; [|exact Hf].
  intros db Hdb. specialize (H db Hdb). by destruct (stmt _ _) as [[]|].
Qed.

Lemma run_ret {A} (a : A) s Q : Q s (Ok a) -> every_run rely guar (Ret a) s Q.
Proof. done. Qed.
Lemma run_ret_inv {A} (a : A) s (Q : Sess -> result Exn A -> Prop) :
  every_run rely guar (Ret a) s Q -> Q s (Ok a).
Proof. done. Qed.
Lemma run_raise {A} e s (Q : Sess -> result Exn A -> Prop) :
  Q s (Err e) -> every_run rely guar (Raise e) s Q.
Proof. done. Qed.
Lemma run_uuid4 s Q :
  (forall u, fresh_uuid (view (s_db s) (s_log s)) u -> Q s (Ok u)) -> every_run rely guar uuid4 s Q.
Proof. done. Qed.
Lemma run_now s Q : (forall t, Q s (Ok t)) -> every_run rely guar now s Q.
Proof. done. Qed.
Lemma run_commit s Q :
  (forall db, rely s db -> guar s db /\ Q (with_commit s db) (Ok tt)) ->
  (rely_faults rely -> Q (with_sql s (s_db s) []) (Err DBAPIError)) ->
  every_run rely guar commit s Q.
Proof. done. Qed.
Lemma run_rollback s Q : Q (with_sql s (s_db s) []) (Ok tt) -> every_run rely guar rollback s Q.
Proof. done. Qed.
Lemma run_sleep a s Q : Q (with_sleep s a) (Ok tt) -> every_run rely guar (sleep a) s Q.
Proof. done. Qed.
Lemma run_send rq s Q :
  (forall r, Q (with_sent s rq r) (Ok r)) -> every_run rely guar (send rq) s Q.
Proof. done. Qed.

Lemma run_select {R} (q : DB -> result Exn R) s Q :
  (forall db, rely s db ->
   Q (with_sql s db (s_log s)) (q (view db (s_log s)))) ->
  (rely_faults rely -> Q s (Err DBAPIError)) ->
  every_run rely guar (select q) s Q.
Proof.
  intros H Hf. apply run_sql; [|exact Hf]. intros db Hdb. specialize (H db Hdb).
  destruct (q _); [by rewrite result_bind_ok, app_nil_r|done].
Qed.

(** A unit of work ends with an empty log: what was not committed is gone. *)
Lemma run_with_uow {A} (body : Prog A) s Q :
  (forall t, every_run rely guar body (with_open s t) (fun s' r => Q (with_sql s' (s_db s') []) r)) ->
  every_run rely guar (with_uow body) s Q.
Proof.
  intros H. unfold with_uow. apply run_bind. intros t. simpl.
  apply run_bind, run_attempt. eapply run_mono; [apply H|].
  intros s' r HQ. simpl. apply run_bind. destruct r; simpl; exact HQ.
Qed.

Lemma exec_sound {A} (m : Prog A) s o Q :
  every_run rely guar m s Q -> obeys rely m s o -> Q (exec m s o).1 (exec m s o).2.
Proof.
  revert s o. induction m as [| |R stmt k IH| | | | | | | |]; intros s o; cbn [every_run obeys exec].
  - done.
  - done.
  - destruct (pop_env o) as [[f|] o']; intros [Hm Hf] [Hr Ho]; [|auto].
    specialize (Hm _ Hr). destruct (stmt _ _) as [[]|]; auto.
  - destruct (pop_uuid o) as [u o']. intros Hm [Hr Ho]. auto.
  - destruct (pop_clock o) as [u o']. auto.
  - destruct (pop_clock o) as [u o']. auto.
  - destruct (pop_env o) as [[f|] o']; intros [Hm Hf] [Hr Ho]; [|auto]. destruct (Hm _ Hr). auto.
  - auto.
  - auto.
  - auto.
  - destruct (pop_net o) as [u o']. auto.
Qed.
End rules.

(** Runs are taken apart by the rules above, not by computation. *)
#[global] Opaque every_run.
