(* ===== verification/Repos.v ===== *)
(** Repositories: app/infra/db/repositories/.

    Every method of the six [SqlAlchemy...Repository] classes as the statements it sends.
    A flush of several new rows is one statement; the column types, CHECK, unique and
    foreign-key constraints of app/infra/db/models.py are checked by it in the order
    PostgreSQL checks them (types and CHECKs row by row, keys, foreign keys last). *)
From S2P Require Import Prelude Decimals PyText PyVal Ledger Fx PaymentSM Recon Webhooks Store.
From S2P Require Import Session.

#[local] Open Scope Z_scope.

(** A foreign key that may be NULL. *)
Definition fk {K V} `{Countable K} (m : gmap K V) (o : option K) : bool :=
  from_option (fun k => bool_decide (is_Some (m !! k))) true o.

Definition no_key {K V} `{Countable K} (m : gmap K V) (k : K) : bool := bool_decide (m !! k = None).

Section repositories.
Context `{Platform}.

(** NUMERIC(18,2) coercion of a parameter. *)
Definition numeric (column : string) (d : Decimal) : result Exn Decimal :=
  or_raise (pg_numeric_18_2 d) (DataError column).
Definition numeric_opt (column : string) (o : option Decimal) : result Exn (option Decimal) :=
  match o with None => Ok None | Some d => d' ← numeric column d; Ok (Some d') end.

(** ** ledger_repository.py *)

Definition account_row (id : UUID) (account_number owner_name account_type currency : string)
  : Account :=
  {| acc_id := id; acc_account_number := account_number; acc_owner_name := owner_name;
   acc_account_type := account_type; acc_currency := currency; acc_status := "active";
   acc_version := 0 |}.

Definition insert_account (row : Account) : Stmt unit := fun _ db =>
  require (varchar 34 (acc_account_number row)) (DataError "account_number") ;;
  require (varchar 255 (acc_owner_name row)) (DataError "owner_name") ;;
  require (varchar 20 (acc_account_type row)) (DataError "account_type") ;;
  require (varchar 3 (acc_currency row)) (DataError "currency") ;;
  require (no_key (accounts db) (acc_id row)) (IntegrityError "accounts_pkey") ;;
  require (bool_decide (map_Forall (fun _ a => acc_account_number a <> acc_account_number row)
           (accounts db))) (IntegrityError "accounts_account_number_key") ;;
  Ok (tt, [PutAccount row]).

Definition create_account (account_number owner_name account_type currency : string)
  : Prog Account :=
  id ← uuid4;
  sql (insert_account (account_row id account_number owner_name account_type currency)) ;;
  select (fun db => or_raise (accounts db !! id) InvalidRequestError).

Definition get_account (account_id : UUID) : Prog Account :=
  select (fun db => or_raise (accounts db !! account_id) (AccountNotFoundError (inl account_id))).

Definition get_account_by_number (account_number : string) : Prog Account :=
  select (fun db =>
   match filter (fun kv => acc_account_number kv.2 = account_number) (map_to_list (accounts db)) with
   | kv :: _ => Ok kv.2
   | [] => Err (AccountNotFoundError (inr account_number))
   end).

Definition get_account_versions (account_ids : list UUID) : Prog (gmap UUID Z) :=
  versions ← select (fun db =>
   Ok (acc_version <$> filter (fun kv => kv.1 ∈ account_ids) (accounts db)));
  let missing := filter (fun i => versions !! i = None) (set_iter account_ids) in
  match set_iter missing with
  | [] => Ret versions
  | id :: _ => Raise (AccountNotFoundError (inl id))
  end.

(** SUM over a NUMERIC(18,2) column: NaN if any row is NaN. *)
Definition sum_signed (lines : list JournalLine) : Decimal :=
  if existsb (fun l => match jl_amount l with NaN _ => true | _ => false end) lines
  then NaN false
  else match lines with
     | [] => Fin false 0 0
     | _ => of_cents (sumZ (signed_cents <$> lines))
     end.

Definition get_balance (account_id : UUID) (currency : string) : Prog Decimal :=
  select (fun db =>
   Ok (sum_signed (filter (fun l => jl_account_id l = account_id /\ jl_currency l = currency)
                     (jlm_line <$> journal_lines db)))).

Definition insert_entry_row (id : UUID) (row : JournalEntryModel) : Stmt unit := fun _ db =>
  require (varchar 30 (jem_entry_type row)) (DataError "entry_type") ;;
  require (no_key (journal_entries db) id) (IntegrityError "journal_entries_pkey") ;;
  require (fk (payments db) (jem_payment_id row)) (IntegrityError "journal_entries_payment_id_fkey") ;;
  require (from_option (fun i =>
           negb (bool_decide (map_Forall (fun _ r => ik_id r <> i) (idempotency_keys db))))
           true (jem_idempotency_key_id row))
  (IntegrityError "journal_entries_idempotency_key_id_fkey") ;;
  Ok (tt, [AddEntry id row]).

(** One JournalLineModel as stored. *)
Definition line_row (entry_id : UUID) (line : JournalLine) : result Exn JournalLineModel :=
  amount ← numeric "amount" (jl_amount line);
  require (varchar 3 (jl_currency line)) (DataError "currency") ;;
  require (sql_gt0 amount) (IntegrityError "ck_journal_lines_amount_positive") ;;
  Ok {| jlm_journal_entry_id := entry_id;
      jlm_line := {| jl_account_id := jl_account_id line; jl_direction := jl_direction line;
                     jl_amount := amount; jl_currency := jl_currency line |} |}.

Definition insert_line_rows (entry_id : UUID) (lines : list JournalLine) : Stmt unit := fun _ db =>
  rows ← mapM (line_row entry_id) lines;
  require (fk (journal_entries db) (Some entry_id))
    (IntegrityError "journal_lines_journal_entry_id_fkey") ;;
  require (forallb (fun l => fk (accounts db) (Some (jl_account_id l))) lines)
    (IntegrityError "journal_lines_account_id_fkey") ;;
  Ok (tt, AddLine <$> rows).

Definition insert_journal_entry (entry : JournalEntry) : Prog UUID :=
  id ← uuid4;
  sql (insert_entry_row id {| jem_payment_id := je_payment_id entry;
                            jem_entry_type := je_entry_type entry;
                            jem_idempotency_key_id := je_idempotency_key_id entry |}) ;;
  sql (insert_line_rows id (je_lines entry)) ;;
  Ret id.

Definition bump_row (a : Account) : Account :=
  {| acc_id := acc_id a; acc_account_number := acc_account_number a;
   acc_owner_name := acc_owner_name a; acc_account_type := acc_account_type a;
   acc_currency := acc_currency a; acc_status := acc_status a;
   acc_version := acc_version a + 1 |}.

Definition bump_account_version (account_id : UUID) (expected_version : Z) : Prog bool :=
  sql (fun _ db =>
   match accounts db !! account_id with
   | Some a =>
       if acc_version a =? expected_version then
         require (acc_version a + 1 <=? int4_max) (DataError "version") ;;
         Ok (true, [PutAccount (bump_row a)])
       else Ok (false, [])
   | None => Ok (false, [])
   end).

(** ** payment_repository.py *)

Definition insert_payment (row : Payment) : Stmt unit := fun _ db =>
  amount ← numeric "amount" (pay_amount row);
  require (varchar 3 (pay_currency row)) (DataError "currency") ;;
  require (varchar_opt 35 (pay_end_to_end_id row)) (DataError "end_to_end_id") ;;
  require (sql_gt0 amount) (IntegrityError "ck_payments_amount_positive") ;;
  require (no_key (payments db) (pay_id row)) (IntegrityError "payments_pkey") ;;
  require (fk (accounts db) (Some (pay_debtor_account_id row)))
    (IntegrityError "payments_debtor_account_id_fkey") ;;
  require (fk (accounts db) (Some (pay_creditor_account_id row)))
    (IntegrityError "payments_creditor_account_id_fkey") ;;
  Ok (tt, [PutPayment {| pay_id := pay_id row;
                       pay_debtor_account_id := pay_debtor_account_id row;
                       pay_creditor_account_id := pay_creditor_account_id row;
                       pay_amount := amount; pay_currency := pay_currency row;
                       pay_status := pay_status row; pay_version := pay_version row;
                       pay_end_to_end_id := pay_end_to_end_id row;
                       pay_fx_rate_id := pay_fx_rate_id row;
                       pay_creditor_amount := pay_creditor_amount row |}]).

Definition payment_row (id debtor_account_id creditor_account_id : UUID) (amount : Decimal)
  (currency : string) (end_to_end_id : option string) : Payment :=
  {| pay_id := id; pay_debtor_account_id := debtor_account_id;
   pay_creditor_account_id := creditor_account_id; pay_amount := amount;
   pay_currency := currency; pay_status := INITIATED; pay_version := 0;
   pay_end_to_end_id := end_to_end_id; pay_fx_rate_id := None; pay_creditor_amount := None |}.

Definition repo_create_payment (debtor_account_id creditor_account_id : UUID) (amount : Decimal)
  (currency : string) (end_to_end_id : option string) : Prog Payment :=
  id ← uuid4;
  sql (insert_payment
       (payment_row id debtor_account_id creditor_account_id amount currency end_to_end_id)) ;;
  select (fun db => or_raise (payments db !! id) InvalidRequestError).

Definition get_payment (payment_id : UUID) : Prog Payment :=
  select (fun db => or_raise (payments db !! payment_id) (PaymentNotFoundError payment_id)).

Definition set_status (p : Payment) (new_status : PaymentStatus) : Payment :=
  {| pay_id := pay_id p; pay_debtor_account_id := pay_debtor_account_id p;
   pay_creditor_account_id := pay_creditor_account_id p; pay_amount := pay_amount p;
   pay_currency := pay_currency p; pay_status := new_status; pay_version := pay_version p + 1;
   pay_end_to_end_id := pay_end_to_end_id p; pay_fx_rate_id := pay_fx_rate_id p;
   pay_creditor_amount := pay_creditor_amount p |}.

Definition update_payment_status (payment_id : UUID) (expected_version : Z)
  (new_status : PaymentStatus) : Prog bool :=
  sql (fun _ db =>
   match payments db !! payment_id with
   | Some p =>
       if pay_version p =? expected_version then
         require (pay_version p + 1 <=? int4_max) (DataError "version") ;;
         Ok (true, [PutPayment (set_status p new_status)])
       else Ok (false, [])
   | None => Ok (false, [])
   end).

Definition record_status_transition (payment_id : UUID) (from_status : option PaymentStatus)
  (to_status : PaymentStatus) (reason : option string) : Prog unit :=
  sql (fun now db =>
   require (from_option text true reason) (DataError "reason") ;;
   require (fk (payments db) (Some payment_id))
     (IntegrityError "payment_status_history_payment_id_fkey") ;;
   Ok (tt, [AddHistory {| psh_payment_id := payment_id; psh_from_status := from_status;
                          psh_to_status := to_status; psh_transitioned_at := now;
                          psh_reason := reason |}])).

Definition set_fx (p : Payment) (fx_rate_id : option UUID) (creditor_amount : option Decimal)
  : Payment :=
  {| pay_id := pay_id p; pay_debtor_account_id := pay_debtor_account_id p;
   pay_creditor_account_id := pay_creditor_account_id p; pay_amount := pay_amount p;
   pay_currency := pay_currency p; pay_status := pay_status p; pay_version := pay_version p;
   pay_end_to_end_id := pay_end_to_end_id p; pay_fx_rate_id := fx_rate_id;
   pay_creditor_amount := creditor_amount |}.

Definition set_fx_details (payment_id fx_rate_id : UUID) (creditor_amount : Decimal) : Prog unit :=
  sql (fun _ db =>
   match payments db !! payment_id with
   | Some p =>
       amount ← numeric "creditor_amount" creditor_amount;
       require (existsb (fun r => (fx_id r =? fx_rate_id)%N) (fx_rates db))
         (IntegrityError "fk_payments_fx_rate_id_fx_rates") ;;
       Ok (tt, [PutPayment (set_fx p (Some fx_rate_id) (Some amount))])
   | None => Ok (tt, [])
   end).

(** ** fx_repository.py *)

Definition booked_later (r1 r2 : FxRate) : Prop := fx_booked_at r2 <= fx_booked_at r1.
#[local] Instance booked_later_dec r1 r2 : Decision (booked_later r1 r2).
Proof. unfold booked_later. apply _. Defined.

Definition get_latest_rate (base_currency quote_currency : string) : Prog FxRate :=
  select (fun db =>
   match merge_sort booked_later (pg_scan (filter (fun r =>
           fx_base_currency r = base_currency /\ fx_quote_currency r = quote_currency)
           (fx_rates db))) with
   | r :: _ => Ok r
   | [] => Err (FxRateNotFoundError base_currency quote_currency)
   end).
End repositories.
