(* ===== verification/SupportRepos.v ===== *)
(** SupportRepos: the idempotency, webhook and reconciliation repositories of
    app/infra/db/repositories/, in the style of Repos.v. *)
From S2P Require Import Prelude Decimals PyText PyVal Ledger Fx PaymentSM Recon Webhooks Store.
From S2P Require Import Session Repos.

#[local] Open Scope Z_scope.

(** * idempotency_repository.py and app/domain/idempotency/entities.py *)

Inductive IdempotencyOutcomeKind := STARTED | REPLAY | IN_PROGRESS_CONFLICT | HASH_MISMATCH.

Record IdempotencyOutcome := {
  io_kind : IdempotencyOutcomeKind;
  io_response_status_code : option Z;
  io_response_body : option pydict;
}.

#[export] Instance IdempotencyOutcomeKind_eq_dec : EqDecision IdempotencyOutcomeKind.
Proof. solve_decision. Defined.
#[export] Instance IdempotencyOutcome_eq_dec : EqDecision IdempotencyOutcome.
Proof. solve_decision. Defined.

(** [INSERT ... ON CONFLICT DO NOTHING RETURNING id]: whether a row came back. *)
Definition claim_key (id : UUID) (key endpoint request_hash : string) : Stmt bool := fun _ db =>
  require (varchar 255 key) (DataError "key") ;;
  require (varchar 100 endpoint) (DataError "endpoint") ;;
  require (varchar 64 request_hash) (DataError "request_hash") ;;
  if no_key (idempotency_keys db) (endpoint, key) then
    require (bool_decide (map_Forall (fun _ r => ik_id r <> id) (idempotency_keys db)))
      (IntegrityError "idempotency_keys_pkey") ;;
    Ok (true, [PutKey endpoint key
                 {| ik_id := id; ik_request_hash := request_hash; ik_status := IN_PROGRESS;
                    ik_response_status_code := None; ik_response_body := None |}])
  else Ok (false, []).

Definition begin_attempt (key endpoint request_hash : string) : Prog IdempotencyOutcome :=
  id ← uuid4;
  inserted ← sql (claim_key id key endpoint request_hash);
  if (inserted : bool) then
    Ret {| io_kind := STARTED; io_response_status_code := None; io_response_body := None |}
  else
    existing ← select (fun db => or_raise (idempotency_keys db !! (endpoint, key)) NoResultFound);
    if decide (ik_status existing = IN_PROGRESS) then
      Ret {| io_kind := IN_PROGRESS_CONFLICT; io_response_status_code := None;
             io_response_body := None |}
    else if negb (bool_decide (ik_request_hash existing = request_hash)) then
      Ret {| io_kind := HASH_MISMATCH; io_response_status_code := None; io_response_body := None |}
    else
      Ret {| io_kind := REPLAY; io_response_status_code := ik_response_status_code existing;
             io_response_body := ik_response_body existing |}.

Definition complete_row (r : IdempotencyKeyModel) (response_status_code : Z)
    (response_body : pydict) : IdempotencyKeyModel :=
  {| ik_id := ik_id r; ik_request_hash := ik_request_hash r; ik_status := COMPLETED;
     ik_response_status_code := Some response_status_code;
     ik_response_body := Some (_json_serializer response_body) |}.

Definition complete_attempt (key endpoint : string) (response_status_code : Z)
    (response_body : pydict) : Prog unit :=
  sql (fun _ db =>
    match idempotency_keys db !! (endpoint, key) with
    | Some r => Ok (tt, [PutKey endpoint key (complete_row r response_status_code response_body)])
    | None => Ok (tt, [])
    end).

Section webhooks.
Context `{Platform}.

(** * webhook_repository.py *)

Definition insert_subscription (row : WebhookSubscription) : Stmt unit := fun _ db =>
  require (varchar 2048 (sub_url row)) (DataError "url") ;;
  require (varchar 255 (sub_secret row)) (DataError "secret") ;;
  require (forallb (varchar 50) (sub_event_types row)) (DataError "event_types") ;;
  require (no_key (webhook_subscriptions db) (sub_id row))
    (IntegrityError "webhook_subscriptions_pkey") ;;
  Ok (tt, [PutSubscription row]).

Definition create_subscription (url secret : string) (event_types : list string)
  : Prog WebhookSubscription :=
  id ← uuid4;
  sql (insert_subscription {| sub_id := id; sub_url := url; sub_secret := secret;
                            sub_event_types := event_types; sub_active := true |}) ;;
  select (fun db => or_raise (webhook_subscriptions db !! id) InvalidRequestError).

Definition active_subscriptions (db : DB) : list WebhookSubscription :=
  pg_scan (filter (fun s => sub_active s = true) (map_to_list (webhook_subscriptions db)).*2).

Definition list_active_subscriptions : Prog (list WebhookSubscription) :=
  select (fun db => Ok (active_subscriptions db)).

Definition insert_delivery (id subscription_id : UUID) (payment_id : option UUID)
  (event_type : string) (payload : pydict) : Stmt unit := fun now db =>
  require (varchar 50 event_type) (DataError "event_type") ;;
  require (no_key (webhook_deliveries db) id) (IntegrityError "webhook_deliveries_pkey") ;;
  require (fk (webhook_subscriptions db) (Some subscription_id))
    (IntegrityError "webhook_deliveries_subscription_id_fkey") ;;
  require (fk (payments db) payment_id) (IntegrityError "webhook_deliveries_payment_id_fkey") ;;
  Ok (tt, [PutDelivery {| wdm_delivery :=
                          {| dl_id := id; dl_subscription_id := subscription_id;
                             dl_payment_id := payment_id; dl_event_type := event_type;
                             dl_payload := _json_serializer payload; dl_status := PENDING;
                             dl_attempt_count := 0; dl_next_attempt_at := now;
                             dl_last_error := None |};
                        wdm_created_at := now |}]).

Definition enqueue_delivery (subscription_id : UUID) (payment_id : option UUID)
  (event_type : string) (payload : pydict) : Prog UUID :=
  id ← uuid4;
  sql (insert_delivery id subscription_id payment_id event_type payload) ;;
  Ret id.

Definition due_sooner (d1 d2 : WebhookDelivery) : Prop :=
  dl_next_attempt_at d1 <= dl_next_attempt_at d2.
#[local] Instance due_sooner_dec d1 d2 : Decision (due_sooner d1 d2).
Proof. unfold due_sooner. apply _. Defined.

Definition list_due_deliveries (now limit : Z) : Prog (list WebhookDelivery) :=
  select (fun db =>
   require (0 <=? limit) (DataError "limit") ;;
   Ok (take (Z.to_nat limit) (merge_sort due_sooner (pg_scan
         (filter (fun d => dl_status d = PENDING /\ dl_next_attempt_at d <= now)
            (wdm_delivery <$> (map_to_list (webhook_deliveries db)).*2)))))).

(** The ORM's UPDATE of a loaded row: only the columns whose value changed since it was
    loaded, and no statement when none did.  It is sent at the commit, which in the
    program directly follows. *)
Definition changed {A} `{EqDecision A} (loaded target current : A) : A :=
  if decide (target = loaded) then current else target.

Definition merge_delivery (loaded target current : WebhookDelivery) : WebhookDelivery :=
  {| dl_id := dl_id current; dl_subscription_id := dl_subscription_id current;
   dl_payment_id := dl_payment_id current; dl_event_type := dl_event_type current;
   dl_payload := dl_payload current;
   dl_status := changed (dl_status loaded) (dl_status target) (dl_status current);
   dl_attempt_count :=
     changed (dl_attempt_count loaded) (dl_attempt_count target) (dl_attempt_count current);
   dl_next_attempt_at :=
     changed (dl_next_attempt_at loaded) (dl_next_attempt_at target) (dl_next_attempt_at current);
   dl_last_error :=
     changed (dl_last_error loaded) (dl_last_error target) (dl_last_error current) |}.

Definition flush_delivery (loaded target : WebhookDelivery) : Prog unit :=
  if decide (target = loaded) then Ret tt
  else sql (fun _ db =>
   match webhook_deliveries db !! dl_id loaded with
   | None => Err StaleDataError
   | Some row =>
       require (from_option text true (dl_last_error target)) (DataError "last_error") ;;
       require (dl_attempt_count target <=? int4_max) (DataError "attempt_count") ;;
       Ok (tt, [PutDelivery {| wdm_delivery := merge_delivery loaded target (wdm_delivery row);
                               wdm_created_at := wdm_created_at row |}])
   end).

(** [session.get] followed by [assert row is not None]. *)
Definition load_delivery (delivery_id : UUID) : Prog WebhookDelivery :=
  select (fun db => or_raise (wdm_delivery <$> webhook_deliveries db !! delivery_id) AssertionError).

Definition set_delivery (d : WebhookDelivery) (status : DeliveryStatus) (attempt_count : Z)
  (next_attempt_at : Z) (last_error : option string) : WebhookDelivery :=
  {| dl_id := dl_id d; dl_subscription_id := dl_subscription_id d;
   dl_payment_id := dl_payment_id d; dl_event_type := dl_event_type d;
   dl_payload := dl_payload d; dl_status := status; dl_attempt_count := attempt_count;
   dl_next_attempt_at := next_attempt_at; dl_last_error := last_error |}.

Definition mark_delivered (delivery_id : UUID) : Prog unit :=
  row ← load_delivery delivery_id;
  flush_delivery row (set_delivery row DELIVERED (dl_attempt_count row) (dl_next_attempt_at row)
                      (dl_last_error row)).

Definition mark_retry (delivery_id : UUID) (attempt_count next_attempt_at : Z)
  (last_error : string) : Prog unit :=
  row ← load_delivery delivery_id;
  flush_delivery row (set_delivery row (dl_status row) attempt_count next_attempt_at
                      (Some last_error)).

Definition mark_dead_letter (delivery_id : UUID) (attempt_count : Z) (last_error : string)
  : Prog unit :=
  row ← load_delivery delivery_id;
  flush_delivery row (set_delivery row DEAD_LETTER attempt_count (dl_next_attempt_at row)
                      (Some last_error)).

Definition created_later (d1 d2 : WebhookDeliveryModel) : Prop :=
  wdm_created_at d2 <= wdm_created_at d1.
#[local] Instance created_later_dec d1 d2 : Decision (created_later d1 d2).
Proof. unfold created_later. apply _. Defined.

Definition list_dead_letters : Prog (list WebhookDelivery) :=
  select (fun db =>
   Ok (wdm_delivery <$> merge_sort created_later (pg_scan
         (filter (fun r => dl_status (wdm_delivery r) = DEAD_LETTER)
            (map_to_list (webhook_deliveries db)).*2)))).

(** * reconciliation_repository.py *)

(** The join of payment_status_history with payments, one output row per matching pair. *)
Definition settled_row (db : DB) (window_start window_end : Z) (h : PaymentStatusHistoryModel)
  : option LedgerSettledPayment :=
  if decide (psh_to_status h = SETTLED /\ window_start <= psh_transitioned_at h < window_end) then
  p ← payments db !! psh_payment_id h;
  Some {| lsp_payment_id := pay_id p;
          lsp_external_ref :=
            match pay_end_to_end_id p with
            | None | Some EmptyString => uuid_str (pay_id p)
            | Some ref => ref
            end;
          lsp_amount := pay_amount p; lsp_currency := pay_currency p |}
  else None.

Definition list_settled_payments (window_start window_end : Z)
  : Prog (list LedgerSettledPayment) :=
  select (fun db =>
   Ok (pg_scan (omap (settled_row db window_start window_end) (payment_status_history db)))).

Definition file_record_row (batch_id : UUID) (r : SettlementRecord)
  : result Exn SettlementFileRecordModel :=
  require (varchar 100 (sr_external_ref r)) (DataError "external_ref") ;;
  amount ← numeric "amount" (sr_amount r);
  require (varchar 3 (sr_currency r)) (DataError "currency") ;;
  require (text (sr_raw_line r)) (DataError "raw_line") ;;
  Ok {| sfr_batch_id := batch_id;
      sfr_record := {| sr_external_ref := sr_external_ref r; sr_amount := amount;
                       sr_currency := sr_currency r; sr_settled_at := sr_settled_at r;
                       sr_raw_line := sr_raw_line r |} |}.

Definition load_settlement_records (batch_id : UUID) (records : list SettlementRecord)
  : Prog unit :=
  sql (fun _ db =>
   rows ← mapM (file_record_row batch_id) records;
   Ok (tt, AddFileRecord <$> rows)).

Definition insert_run (row : ReconciliationRunModel) : Stmt unit := fun _ db =>
  require (rrm_matched_count row <=? int4_max) (DataError "matched_count") ;;
  require (rrm_break_count row <=? int4_max) (DataError "break_count") ;;
  require (no_key (reconciliation_runs db) (rrm_id row)) (IntegrityError "reconciliation_runs_pkey") ;;
  Ok (tt, [AddRun row]).

Definition break_row (run_id : UUID) (b : ReconciliationBreak)
  : result Exn ReconciliationBreakModel :=
  require (varchar 100 (rb_external_ref b)) (DataError "external_ref") ;;
  ledger_amount ← numeric_opt "ledger_amount" (rb_ledger_amount b);
  settlement_amount ← numeric_opt "settlement_amount" (rb_settlement_amount b);
  require (text (rb_details b)) (DataError "details") ;;
  Ok {| rbm_run_id := run_id;
      rbm_break := {| rb_break_type := rb_break_type b;
                      rb_external_ref := rb_external_ref b;
                      rb_payment_id := rb_payment_id b;
                      rb_ledger_amount := ledger_amount;
                      rb_settlement_amount := settlement_amount;
                      rb_details := rb_details b |} |}.

Definition insert_breaks (run_id : UUID) (breaks : list ReconciliationBreak) : Stmt unit :=
  fun _ db =>
  rows ← mapM (break_row run_id) breaks;
  require (fk (reconciliation_runs db) (Some run_id))
    (IntegrityError "reconciliation_breaks_run_id_fkey") ;;
  require (forallb (fun b => fk (payments db) (rb_payment_id b)) breaks)
    (IntegrityError "reconciliation_breaks_payment_id_fkey") ;;
  Ok (tt, AddBreak <$> rows).

Definition record_run (batch_id : UUID) (result : ReconciliationResult) : Prog UUID :=
  id ← uuid4;
  sql (insert_run {| rrm_id := id; rrm_batch_id := batch_id;
                   rrm_matched_count := rr_matched_count result;
                   rrm_break_count := break_count result; rrm_status := "completed" |}) ;;
  sql (insert_breaks id (rr_breaks result)) ;;
  Ret id.

Definition get_run (run_id : UUID) : Prog ReconciliationRunModel :=
  select (fun db => or_raise (reconciliation_runs db !! run_id) (ReconciliationRunNotFoundError run_id)).

Definition list_breaks_for_run (run_id : UUID) : Prog (list ReconciliationBreak) :=
  select (fun db =>
   Ok (pg_scan (rbm_break <$> filter (fun r => rbm_run_id r = run_id)
                                (reconciliation_breaks db)))).
End webhooks.
