(* ===== verification/LedgerService.v ===== *)
(** LedgerService: app/domain/ledger/services.py, and the retry loop that every
    optimistically locked operation of the program is written as. *)
From S2P Require Import Prelude Decimals PyText Ledger Store Session Repos.

#[local] Open Scope Z_scope.

(** app/domain/concurrency.py *)
Definition DEFAULT_MAX_ATTEMPTS : Z := 5.

(** [for attempt in range(max_attempts)]: one unit of work per attempt; [Some] is the
    [return] inside the block, [None] a conflict that rolled it back.  [n] is the number
    of iterations left. *)
Fixpoint attempts_loop {A} (n : nat) (attempt max_attempts : Z) (body : Prog (option A))
    (exhausted : Exn) : Prog A :=
  match n with
  | O => Raise exhausted
  | S n' =>
      r ← with_uow body;
      match r with
      | Some a => Ret a
      | None =>
          (if attempt <? max_attempts - 1 then sleep attempt else Ret tt) ;;
          attempts_loop n' (attempt + 1) max_attempts body exhausted
      end
  end.

Definition for_attempts {A} (max_attempts : Z) (body : Prog (option A)) (exhausted : Exn)
    : Prog A :=
  attempts_loop (Z.to_nat max_attempts) 0 max_attempts body exhausted.

(** [versions[account_id]] *)
Definition dict_get {A} (m : gmap UUID A) (k : UUID) : Prog A :=
  of_result (or_raise (m !! k) KeyError).

(** The loop over [account_ids], left by [break] at the first stale version: [true] is
    [conflict]. *)
Fixpoint bump_all (account_ids : list UUID) (versions : gmap UUID Z) : Prog bool :=
  match account_ids with
  | [] => Ret false
  | id :: rest =>
      v ← dict_get versions id;
      bumped ← bump_account_version id v;
      if (bumped : bool) then bump_all rest versions else Ret true
  end.

Section service.
Context `{Platform}.

Definition post_journal_entry (entry : JournalEntry) (max_attempts : Z) : Prog UUID :=
  of_result (map_err ELedger (validate_journal_entry (je_lines entry))) ;;
  let account_ids := set_iter (account_ids entry) in
  for_attempts max_attempts
    (versions ← get_account_versions account_ids;
     entry_id ← insert_journal_entry entry;
     conflict ← bump_all account_ids versions;
     if (conflict : bool) then rollback ;; Ret None
     else commit ;; Ret (Some entry_id))
  (ConcurrentModificationError (list_to_set (Ledger.account_ids entry)) max_attempts).
End service.
