(* ===== verification/PaymentService.v ===== *)
(** PaymentService: app/domain/payments/services.py and
    app/domain/webhooks/services.py. *)
From S2P Require Import Prelude Decimals PyText PyVal Ledger Fx PaymentSM Recon Webhooks Store.
From S2P Require Import Session Repos SupportRepos LedgerService.

#[local] Open Scope Z_scope.

Definition IDEMPOTENCY_ENDPOINT_INITIATE_PAYMENT : string := "POST /payments".
Definition FX_SUSPENSE_ACCOUNT_NUMBER : string := "FX-SUSPENSE".

Definition vopt {A} (f : A -> PyVal) (o : option A) : PyVal := from_option f VNone o.

Definition _payment_response_dict (payment : Payment) : pydict :=
  list_to_map
    [("id", VUuid (pay_id payment));
     ("debtor_account_id", VUuid (pay_debtor_account_id payment));
     ("creditor_account_id", VUuid (pay_creditor_account_id payment));
     ("amount", VDec (pay_amount payment));
     ("currency", VStr (pay_currency payment));
     ("status", VStr (status_value (pay_status payment)));
     ("version", VInt (pay_version payment));
     ("end_to_end_id", vopt VStr (pay_end_to_end_id payment));
     ("fx_rate_id", vopt VUuid (pay_fx_rate_id payment));
     ("creditor_amount", vopt VDec (pay_creditor_amount payment))].

Definition _validate_new_payment (amount : Decimal) (debtor_account_id creditor_account_id : UUID)
    : result Exn unit :=
  nonpositive ← map_err EDecimal (dec_le0 amount);
  raise_if nonpositive (InvalidPaymentAmountError amount) ;;
  raise_if (bool_decide (debtor_account_id = creditor_account_id))
    (SamePaymentAccountError debtor_account_id).

(** What [field_overrides] can hold: nothing, or fx_rate_id and creditor_amount. *)
Definition FieldOverrides : Type := option (UUID * Decimal).
Definition BuildLinesResult : Type := string * list JournalLine * FieldOverrides.
Definition BuildLines : Type := Payment -> Prog BuildLinesResult.

(** [replace(payment, status=to_status, version=payment.version + 1, **field_overrides)] *)
Definition replaced (payment : Payment) (to_status : PaymentStatus) (o : FieldOverrides) : Payment :=
  let p := set_status payment to_status in
  match o with
  | Some (rate_id, creditor_amount) => set_fx p (Some rate_id) (Some creditor_amount)
  | None => p
  end.

Definition line (account_id : UUID) (direction : Direction) (amount : Decimal) (currency : string)
    : JournalLine :=
  {| jl_account_id := account_id; jl_direction := direction; jl_amount := amount;
     jl_currency := currency |}.

Definition event_type_of (to_status : PaymentStatus) : string :=
  "payment." +:+ status_value to_status.

Section service.
Context `{Platform}.

(** app/domain/webhooks/services.py *)
Definition enqueue_payment_webhook_event (payment_id : UUID) (event_type : string)
  (payload : pydict) : Prog unit :=
  subscriptions ← list_active_subscriptions;
  for_ subscriptions (fun subscription =>
   if negb (bool_decide (sub_event_types subscription = [])) &&
      negb (bool_decide (event_type ∈ sub_event_types subscription))
   then Ret tt
   else enqueue_delivery (sub_id subscription) (Some payment_id) event_type payload ;; Ret tt).

Definition _assert_debtor_currency_matches (debtor_account_id : UUID) (currency : string)
  : Prog unit :=
  debtor_account ← get_account debtor_account_id;
  if bool_decide (acc_currency debtor_account = currency) then Ret tt
  else Raise (PaymentCurrencyMismatchError (acc_currency debtor_account) currency).

Definition _create_payment_within (debtor_account_id creditor_account_id : UUID)
  (amount : Decimal) (currency : string) (end_to_end_id : option string) : Prog Payment :=
  _assert_debtor_currency_matches debtor_account_id currency ;;
  payment ← repo_create_payment debtor_account_id creditor_account_id amount currency end_to_end_id;
  record_status_transition (pay_id payment) None INITIATED None ;;
  enqueue_payment_webhook_event (pay_id payment) "payment.initiated"
    (_payment_response_dict payment) ;;
  Ret payment.

Definition initiate_payment (debtor_account_id creditor_account_id : UUID) (amount : Decimal)
  (currency : string) (end_to_end_id : option string) : Prog Payment :=
  of_result (_validate_new_payment amount debtor_account_id creditor_account_id) ;;
  with_uow
    (payment ← _create_payment_within debtor_account_id creditor_account_id amount currency
                 end_to_end_id;
     commit ;;
     Ret payment).

(** The encoding is ASCII, so its UTF-8 bytes are its code points. *)
Definition hash_request_body (body : pyitems) : string :=
  sha256_hex (N_of_ascii <$> list_ascii_of_string (json_dumps_sorted body)).

Definition assert_some {A} (o : option A) : Prog A := of_result (or_raise o AssertionError).

Definition initiate_payment_idempotent (idempotency_key : string) (request_body : pyitems)
  (debtor_account_id creditor_account_id : UUID) (amount : Decimal) (currency : string)
  (end_to_end_id : option string) : Prog (Z * pydict) :=
  of_result (_validate_new_payment amount debtor_account_id creditor_account_id) ;;
  let request_hash := hash_request_body request_body in
  outcome ← with_uow
    (_assert_debtor_currency_matches debtor_account_id currency ;;
     outcome ← begin_attempt idempotency_key IDEMPOTENCY_ENDPOINT_INITIATE_PAYMENT request_hash;
     commit ;;
     Ret outcome);
  match io_kind outcome with
  | REPLAY =>
    code ← assert_some (io_response_status_code outcome);
    body ← assert_some (io_response_body outcome);
    Ret (code, body)
  | IN_PROGRESS_CONFLICT =>
    Raise (IdempotencyInProgressError idempotency_key IDEMPOTENCY_ENDPOINT_INITIATE_PAYMENT)
  | HASH_MISMATCH =>
    Raise (IdempotencyKeyReusedError idempotency_key IDEMPOTENCY_ENDPOINT_INITIATE_PAYMENT)
  | STARTED =>
    response_body ← with_uow
      (payment ← _create_payment_within debtor_account_id creditor_account_id amount currency
                   end_to_end_id;
       let response_body := _payment_response_dict payment in
       complete_attempt idempotency_key IDEMPOTENCY_ENDPOINT_INITIATE_PAYMENT 201
         response_body ;;
       commit ;;
       Ret response_body);
    Ret (201, response_body)
  end.

Definition lift_transition (r : result TransitionError unit) : Prog unit :=
  of_result (map_err ETransition r).

(** One attempt of [_transition_status_only]: the body of its loop. *)
Definition status_attempt (payment_id : UUID) (to_status : PaymentStatus)
  (reason : option string) : Prog (option Payment) :=
  (payment ← get_payment payment_id;
   lift_transition (assert_transition_allowed (pay_status payment) to_status) ;;
   bumped ← update_payment_status payment_id (pay_version payment) to_status;
   if negb bumped then rollback ;; Ret None
   else
   record_status_transition payment_id (Some (pay_status payment)) to_status reason ;;
   let updated := replaced payment to_status None in
   enqueue_payment_webhook_event payment_id (event_type_of to_status)
     (_payment_response_dict updated) ;;
   commit ;;
   Ret (Some updated)).

Definition _transition_status_only (payment_id : UUID) (to_status : PaymentStatus)
  (reason : option string) (max_attempts : Z) : Prog Payment :=
  for_attempts max_attempts (status_attempt payment_id to_status reason)
  (ConcurrentPaymentModificationError payment_id max_attempts).

Definition authorise_payment (payment_id : UUID) (max_attempts : Z) : Prog Payment :=
  _transition_status_only payment_id AUTHORISED None max_attempts.

Definition fail_payment (payment_id : UUID) (reason : option string) (max_attempts : Z)
  : Prog Payment :=
  _transition_status_only payment_id FAILED reason max_attempts.

(** One attempt of [_transition_with_ledger_entry]: the body of its loop. *)
Definition entry_attempt (payment_id : UUID) (to_status : PaymentStatus)
  (build_lines : BuildLines) : Prog (option Payment) :=
  (payment ← get_payment payment_id;
   lift_transition (assert_transition_allowed (pay_status payment) to_status) ;;
   built ← build_lines payment;
   let '(entry_type, lines, field_overrides) := built in
   let entry := {| je_entry_type := entry_type; je_lines := lines;
                 je_payment_id := Some (pay_id payment); je_idempotency_key_id := None |} in
   of_result (map_err ELedger (validate_journal_entry (je_lines entry))) ;;
   let account_ids := set_iter (account_ids entry) in
   versions ← get_account_versions account_ids;
   insert_journal_entry entry ;;
   conflict ← bump_all account_ids versions;
   conflict ← (if (conflict : bool) then Ret true
             else updated ← update_payment_status payment_id (pay_version payment) to_status;
                  Ret (negb updated));
   if (conflict : bool) then rollback ;; Ret None
   else
   record_status_transition payment_id (Some (pay_status payment)) to_status None ;;
   let updated := replaced payment to_status field_overrides in
   enqueue_payment_webhook_event payment_id (event_type_of to_status)
     (_payment_response_dict updated) ;;
   commit ;;
   Ret (Some updated)).

Definition _transition_with_ledger_entry (payment_id : UUID) (to_status : PaymentStatus)
  (build_lines : BuildLines) (max_attempts : Z) : Prog Payment :=
  for_attempts max_attempts (entry_attempt payment_id to_status build_lines)
  (ConcurrentPaymentModificationError payment_id max_attempts).

Definition _settlement_lines : BuildLines := fun payment =>
  debtor ← get_account (pay_debtor_account_id payment);
  creditor ← get_account (pay_creditor_account_id payment);
  if bool_decide (acc_currency debtor = acc_currency creditor) then
  Ret ("transfer",
       [line (pay_debtor_account_id payment) DEBIT (pay_amount payment) (pay_currency payment);
        line (pay_creditor_account_id payment) CREDIT (pay_amount payment) (pay_currency payment)],
       None)
  else
  rate ← get_latest_rate (acc_currency debtor) (acc_currency creditor);
  creditor_amount ← of_result (map_err EDecimal (convert_amount (pay_amount payment) (fx_rate rate)));
  suspense ← get_account_by_number FX_SUSPENSE_ACCOUNT_NUMBER;
  set_fx_details (pay_id payment) (fx_id rate) creditor_amount ;;
  Ret ("fx_conversion",
       [line (pay_debtor_account_id payment) DEBIT (pay_amount payment) (acc_currency debtor);
        line (acc_id suspense) CREDIT (pay_amount payment) (acc_currency debtor);
        line (acc_id suspense) DEBIT creditor_amount (acc_currency creditor);
        line (pay_creditor_account_id payment) CREDIT creditor_amount (acc_currency creditor)],
       Some (fx_id rate, creditor_amount)).

Definition _reversal_lines : BuildLines := fun payment =>
  match pay_creditor_amount payment with
  | None =>
    Ret ("reversal",
         [line (pay_creditor_account_id payment) DEBIT (pay_amount payment) (pay_currency payment);
          line (pay_debtor_account_id payment) CREDIT (pay_amount payment) (pay_currency payment)],
         None)
  | Some creditor_amount =>
    debtor ← get_account (pay_debtor_account_id payment);
    creditor ← get_account (pay_creditor_account_id payment);
    suspense ← get_account_by_number FX_SUSPENSE_ACCOUNT_NUMBER;
    Ret ("fx_conversion_reversal",
         [line (acc_id suspense) DEBIT (pay_amount payment) (acc_currency debtor);
          line (pay_debtor_account_id payment) CREDIT (pay_amount payment) (acc_currency debtor);
          line (pay_creditor_account_id payment) DEBIT creditor_amount (acc_currency creditor);
          line (acc_id suspense) CREDIT creditor_amount (acc_currency creditor)],
         None)
  end.

Definition settle_payment (payment_id : UUID) (max_attempts : Z) : Prog Payment :=
  _transition_with_ledger_entry payment_id SETTLED _settlement_lines max_attempts.

Definition reverse_payment (payment_id : UUID) (max_attempts : Z) : Prog Payment :=
  _transition_with_ledger_entry payment_id REVERSED _reversal_lines max_attempts.
End service.
