(* ===== verification/Atomicity.v ===== *)
(** Atomicity: what a program has committed when it ends, read off its shape.

    [no_commit m]: [m] never commits.  [commit_if P m]: [m] commits at most once, and has
    done so exactly when its outcome satisfies [P].  Both are closed under the combinators the
    services are written with, and hold of every interleaving. *)
From S2P Require Import Prelude Decimals PyText PyVal Ledger Fx PaymentSM Recon Webhooks Store.
From S2P Require Import Session Repos SupportRepos LedgerService PaymentService.

#[local] Open Scope Z_scope.

Fixpoint no_commit {A} (m : Prog A) : Prop :=
  match m with
  | Ret _ | Raise _ => True
  | Sql _ k => forall r, no_commit (k r)
  | NewUuid k => forall u, no_commit (k u)
  | Now k => forall t, no_commit (k t)
  | OpenTx k | Rollback k | CloseTx k | Sleep _ k => no_commit k
  | Send _ k => forall r, no_commit (k r)
  | Commit _ => False
  end.

(** After the commit: nothing more is committed, and the outcome satisfies [P]. *)
Fixpoint after_commit {A} (P : result Exn A -> bool) (m : Prog A) : Prop :=
  match m with
  | Ret a => P (Ok a) = true
  | Raise e => P (Err e) = true
  | Sql _ k => forall r, after_commit P (k r)
  | NewUuid k => forall u, after_commit P (k u)
  | Now k => forall t, after_commit P (k t)
  | OpenTx k | Rollback k | CloseTx k | Sleep _ k => after_commit P k
  | Send _ k => forall r, after_commit P (k r)
  | Commit _ => False
  end.

Fixpoint commit_if {A} (P : result Exn A -> bool) (m : Prog A) : Prop :=
  match m with
  | Ret a => P (Ok a) = false
  | Raise e => P (Err e) = false
  | Sql _ k => forall r, commit_if P (k r)
  | NewUuid k => forall u, commit_if P (k u)
  | Now k => forall t, commit_if P (k t)
  | OpenTx k | Rollback k | CloseTx k | Sleep _ k => commit_if P k
  | Send _ k => forall r, commit_if P (k r)
  | Commit k => after_commit P (k (Ok tt)) /\ forall e, commit_if P (k (Err e))
  end.

(** * Combinators *)

Lemma no_commit_bind {A B} (m : Prog A) (f : A -> Prog B) :
  no_commit m -> (forall a, no_commit (f a)) -> no_commit (m ≫= f).
Proof. intros Hm Hf. unfold mbind, prog_mbind. induction m; simpl in *; auto. Qed.

Lemma no_commit_select {R} (q : DB -> result Exn R) : no_commit (select q).
Proof. intros r. by destruct r. Qed.
Lemma no_commit_sql {R} (stmt : Stmt R) : no_commit (sql stmt).
Proof. intros r. by destruct r. Qed.
Lemma no_commit_of_result {A} (r : result Exn A) : no_commit (of_result r).
Proof. by destruct r. Qed.
Lemma no_commit_for {A} (l : list A) body : (forall x, no_commit (body x)) -> no_commit (for_ l body).
Proof. intros Hb. induction l as [|x l IH]; [done|]. apply no_commit_bind; [apply Hb|done]. Qed.
Lemma no_commit_uuid4 : no_commit uuid4.
Proof. done. Qed.
Lemma no_commit_ret {A} (a : A) : no_commit (Ret a).
Proof. done. Qed.
Lemma no_commit_raise {A} e : no_commit (@Raise A e).
Proof. done. Qed.
Lemma no_commit_rollback : no_commit rollback.
Proof. done. Qed.
Lemma no_commit_sleep a : no_commit (sleep a).
Proof. done. Qed.

Create HintDb commits.
#[export] Hint Resolve no_commit_select no_commit_sql no_commit_of_result no_commit_uuid4
  no_commit_ret no_commit_raise no_commit_rollback no_commit_sleep : commits.

Lemma no_commit_if {A} (P : result Exn A -> bool) (m : Prog A) :
  no_commit m -> (forall r, P r = false) -> commit_if P m.
Proof. intros Hm HP. induction m; simpl in *; auto. done. Qed.

(** What precedes the commit. *)
Lemma commit_if_bind_before {A B} (P : result Exn B -> bool) (m : Prog A) (f : A -> Prog B) :
  no_commit m -> (forall e, P (Err e) = false) -> (forall a, commit_if P (f a)) ->
  commit_if P (m ≫= f).
Proof. intros Hm HP Hf. unfold mbind, prog_mbind. induction m; simpl in *; auto. done. Qed.

Lemma after_commit_bind {A B} (P : result Exn A -> bool) (R : result Exn B -> bool) (m : Prog A)
    (f : A -> Prog B) :
  after_commit P m -> (forall e, P (Err e) = true -> R (Err e) = true) ->
  (forall a, P (Ok a) = true -> after_commit R (f a)) ->
  after_commit R (m ≫= f).
Proof. intros Hm HP Hf. unfold mbind, prog_mbind. induction m; simpl in *; auto. Qed.

Lemma commit_if_bind {A B} (P : result Exn A -> bool) (R : result Exn B -> bool) (m : Prog A)
    (f : A -> Prog B) :
  commit_if P m -> (forall e, P (Err e) = R (Err e)) ->
  (forall a, P (Ok a) = true -> after_commit R (f a)) ->
  (forall a, P (Ok a) = false -> commit_if R (f a)) ->
  commit_if R (m ≫= f).
Proof.
  intros Hm HP Ht Hf. unfold mbind, prog_mbind. induction m; simpl in *; auto.
  - by rewrite <- HP.
  - destruct Hm as [Ha He]. split; [|auto].
    eapply after_commit_bind; [done| |done]. intros e. by rewrite HP.
Qed.

Definition attempted {A} (P : result Exn A -> bool) (r : result Exn (result Exn A)) : bool :=
  match r with Ok r => P r | Err _ => false end.

Lemma after_commit_attempt {A} (P : result Exn A -> bool) (m : Prog A) :
  after_commit P m -> after_commit (attempted P) (attempt m).
Proof. intros Hm. induction m; simpl in *; auto. Qed.
Lemma commit_if_attempt {A} (P : result Exn A -> bool) (m : Prog A) :
  commit_if P m -> commit_if (attempted P) (attempt m).
Proof.
  intros Hm. induction m; simpl in *; auto.
  destruct Hm. split; [by apply after_commit_attempt|auto].
Qed.
Lemma no_commit_attempt {A} (m : Prog A) : no_commit m -> no_commit (attempt m).
Proof. intros Hm. induction m; simpl in *; auto. Qed.

Lemma commit_if_uow {A} (P : result Exn A -> bool) (body : Prog A) :
  (forall e, P (Err e) = false) -> commit_if P body -> commit_if P (with_uow body).
Proof.
  intros HP Hb. apply commit_if_bind_before; [done|done|intros _].
  apply (commit_if_bind (attempted P)); [by apply commit_if_attempt|by intros e; rewrite HP|..].
  - intros [a|e] Hr; simpl in Hr; [done|congruence].
  - intros [a|e] Hr; simpl in Hr; done.
Qed.

Lemma no_commit_uow {A} (body : Prog A) : no_commit body -> no_commit (with_uow body).
Proof.
  intros Hb. apply no_commit_bind; [done|intros _]. apply no_commit_bind; [by apply no_commit_attempt|].
  by intros [a|e].
Qed.

Definition returned {A} (r : result Exn (option A)) : bool :=
  match r with Ok (Some _) => true | _ => false end.

Lemma commit_if_commit_ret {A} (P : result Exn A -> bool) (a : A) :
  P (Ok a) = true -> (forall e, P (Err e) = false) -> commit_if P (commit ;; Ret a).
Proof. by split. Qed.

(** A retry loop commits exactly when it returns. *)
Lemma commit_if_attempts {A} n attempt max_attempts (body : Prog (option A)) exhausted :
  commit_if returned body ->
  commit_if is_ok (attempts_loop n attempt max_attempts body exhausted).
Proof.
  intros Hb. revert attempt. induction n as [|n IH]; intros attempt; [done|]. cbn [attempts_loop].
  apply (commit_if_bind returned); [by apply commit_if_uow|done|by intros [a|]|].
  intros [a|] Hr; [done|]. apply commit_if_bind_before; [|done|intros _; apply IH].
  by destruct (attempt <? max_attempts - 1).
Qed.

(** * Meaning *)

Section meaning.
Context (rely : Rely) (guar : Guarantee).

Lemma run_after_commit {A} (P : result Exn A -> bool) (m : Prog A) s Q :
  after_commit P m -> every_run rely guar m s Q ->
  every_run rely guar m s (fun s' r => Q s' r /\ P r = true /\ s_commits s' = s_commits s).
Proof.
  #[local] Transparent every_run.
  revert s. induction m as [| |R stmt k IH|? IH|? IH|? IH|? IH|? IH|? IH|a ? IH|rq ? IH];
  intros s Hsh Hm; cbn [every_run after_commit] in *; try done.
  - destruct Hm as [Hm Hf]. split; [|auto].
    intros db Hdb. specialize (Hm db Hdb). destruct (stmt _ _) as [[]|];
      (eapply run_mono; [by eapply IH|]; done).
  - intros u Hu. auto.
  - intros t. auto.
  - intros t. eapply run_mono; [by eapply IH|]; done.
  - eapply run_mono; [by eapply IH|]; done.
  - eapply run_mono; [by eapply IH|]; done.
  - eapply run_mono; [by eapply IH|]; done.
  - intros r. eapply run_mono; [by eapply IH|]; done.
Qed.

(** At most one commit, and none unless the outcome satisfies [P]. *)
Lemma run_commit_if {A} (P : result Exn A -> bool) (m : Prog A) s Q :
  commit_if P m -> every_run rely guar m s Q ->
  every_run rely guar m s (fun s' r => Q s' r /\
   if P r then exists l, (length l <= 1)%nat /\ s_commits s' = s_commits s ++ l
   else s_commits s' = s_commits s).
Proof.
  revert s. induction m as [| |R stmt k IH|? IH|? IH|? IH|? IH|? IH|? IH|a ? IH|rq ? IH];
  intros s Hsh Hm; cbn [every_run commit_if] in *.
  - by rewrite Hsh.
  - by rewrite Hsh.
  - destruct Hm as [Hm Hf]. split; [|auto].
    intros db Hdb. specialize (Hm db Hdb). destruct (stmt _ _) as [[]|];
      (eapply run_mono; [by eapply IH|]; done).
  - intros u Hu. auto.
  - intros t. auto.
  - intros t. eapply run_mono; [by eapply IH|]; done.
  - destruct Hm as [Hm Hf]. destruct Hsh as [Ha He]. split.
    + intros db Hdb. destruct (Hm db Hdb) as [Hg Hk]. split; [done|].
      eapply run_mono; [by eapply run_after_commit|]. intros s' r (HQ & -> & Hc). split; [done|].
      exists (if s_log s is [] then [] else [s_log s]). split; [by destruct (s_log s); simpl; lia|done].
    + intros Hfault. eapply run_mono; [eapply IH; [apply He|by apply Hf]|]. done.
  - eapply run_mono; [by eapply IH|]; done.
  - eapply run_mono; [by eapply IH|]; done.
  - eapply run_mono; [by eapply IH|]; done.
  - intros r. eapply run_mono; [by eapply IH|]; done.
Qed.
#[local] Opaque every_run.
End meaning.

(** * The services *)

Section services.
Context `{Platform}.

Lemma no_commit_get_account id : no_commit (get_account id).
Proof. apply no_commit_select. Qed.
Lemma no_commit_enqueue sub pid et payload : no_commit (enqueue_delivery sub pid et payload).
Proof. apply no_commit_bind; [done|intros u]. apply no_commit_bind; [auto with commits|done]. Qed.
Lemma no_commit_enqueue_event pid et payload : no_commit (enqueue_payment_webhook_event pid et payload).
Proof.
  apply no_commit_bind; [apply no_commit_select|intros subs]. apply no_commit_for. intros sub.
  destruct (negb _ && negb _); [done|]. apply no_commit_bind; [apply no_commit_enqueue|done].
Qed.
Lemma no_commit_versions ids : no_commit (get_account_versions ids).
Proof. apply no_commit_bind; [apply no_commit_select|intros v]. cbv zeta. by case_match. Qed.
Lemma no_commit_insert_entry entry : no_commit (insert_journal_entry entry).
Proof.
  apply no_commit_bind; [done|intros u]. apply no_commit_bind; [apply no_commit_sql|intros _].
  apply no_commit_bind; [apply no_commit_sql|done].
Qed.
Lemma no_commit_bump ids versions : no_commit (bump_all ids versions).
Proof.
  induction ids as [|i ids IH]; [done|]. apply no_commit_bind; [apply no_commit_of_result|intros v].
  apply no_commit_bind; [apply no_commit_sql|]. by intros [].
Qed.
Lemma no_commit_transition pid a b reason : no_commit (record_status_transition pid a b reason).
Proof. apply no_commit_sql. Qed.
Lemma no_commit_update pid v st : no_commit (update_payment_status pid v st).
Proof. apply no_commit_sql. Qed.

Hint Resolve no_commit_get_account no_commit_enqueue_event no_commit_versions no_commit_insert_entry
  no_commit_bump no_commit_transition no_commit_update : commits.

(** The last statements of a payment transaction. *)
Lemma commit_if_finish {A} pid from to_status reason et payload (a : A) :
  commit_if returned (record_status_transition pid from to_status reason ;;
   enqueue_payment_webhook_event pid et payload ;; commit ;; Ret (Some a)).
Proof.
  apply commit_if_bind_before; [auto with commits|done|intros _].
  apply commit_if_bind_before; [auto with commits|done|done].
Qed.

Lemma commit_if_conflict {A} : commit_if (@returned A) (rollback ;; Ret None).
Proof. done. Qed.

Ltac before := apply commit_if_bind_before; [solve [auto with commits]|done|].

Lemma commit_if_status_attempt pid to_status reason :
  commit_if returned (status_attempt pid to_status reason).
Proof.
  apply commit_if_bind_before; [apply no_commit_select|done|intros p].
  apply commit_if_bind_before; [apply no_commit_of_result|done|intros _].
  apply commit_if_bind_before; [auto with commits|done|intros bumped].
  destruct bumped; [apply commit_if_finish|apply commit_if_conflict].
Qed.

Lemma commit_if_entry_attempt pid to_status build_lines :
  (forall p, no_commit (build_lines p)) ->
  commit_if returned (entry_attempt pid to_status build_lines).
Proof.
  intros Hb.
  apply commit_if_bind_before; [apply no_commit_select|done|intros p].
  apply commit_if_bind_before; [apply no_commit_of_result|done|intros _].
  apply commit_if_bind_before; [apply Hb|done|intros [[et lines] fx]].
  apply commit_if_bind_before; [apply no_commit_of_result|done|intros _]. cbv zeta.
  before. intros versions. before. intros eid. before. intros conflict.
  apply commit_if_bind_before; [|done|].
  { destruct conflict; [done|]. apply no_commit_bind; [auto with commits|done]. }
  intros [|]; [apply commit_if_conflict|apply commit_if_finish].
Qed.

Lemma no_commit_settlement_lines p : no_commit (_settlement_lines p).
Proof.
  apply no_commit_bind; [auto with commits|intros d]. apply no_commit_bind; [auto with commits|intros c].
  destruct (bool_decide _); [done|].
  apply no_commit_bind; [apply no_commit_select|intros rate].
  apply no_commit_bind; [apply no_commit_of_result|intros amount].
  apply no_commit_bind; [apply no_commit_select|intros suspense].
  apply no_commit_bind; [apply no_commit_sql|done].
Qed.
Lemma no_commit_reversal_lines p : no_commit (_reversal_lines p).
Proof.
  unfold _reversal_lines. destruct (pay_creditor_amount p) as [amount|]; [|done].
  apply no_commit_bind; [auto with commits|intros d]. apply no_commit_bind; [auto with commits|intros c].
  apply no_commit_bind; [apply no_commit_select|done].
Qed.

Lemma no_commit_create_within d c amount ccy e2e : no_commit (_create_payment_within d c amount ccy e2e).
Proof.
  apply no_commit_bind.
  { apply no_commit_bind; [auto with commits|intros a]. by destruct (bool_decide _). }
  intros _. apply no_commit_bind.
  { apply no_commit_bind; [done|intros u]. apply no_commit_bind; [apply no_commit_sql|intros _].
  apply no_commit_select. }
  intros p. apply no_commit_bind; [auto with commits|intros _].
  apply no_commit_bind; [auto with commits|done].
Qed.

Lemma no_commit_begin key endpoint hash : no_commit (begin_attempt key endpoint hash).
Proof.
  apply no_commit_bind; [done|intros u]. apply no_commit_bind; [apply no_commit_sql|intros []]; [done|].
  apply no_commit_bind; [apply no_commit_select|intros r]. destruct (decide _); [done|].
  by destruct (negb _).
Qed.
End services.
