(* ===== verification/Invariant.v ===== *)
(** Invariant: what every committed state of the ledger database satisfies, how it may
    evolve, and what row locks keep other sessions from changing. *)
From S2P Require Import Prelude Decimals PyText PyVal Ledger Fx PaymentSM Recon Webhooks Store.
From S2P Require Import Session Repos SupportRepos LedgerService PaymentService.

#[local] Open Scope Z_scope.

(** * The journal *)

Definition entry_lines (db : DB) (entry : UUID) : list JournalLine :=
  jlm_line <$> filter (fun l => jlm_journal_entry_id l = entry) (journal_lines db).

(** What a line moves on one account in one currency. *)
Definition acct_cents (account : UUID) (ccy : string) (l : JournalLine) : Z :=
  if decide (jl_account_id l = account /\ jl_currency l = ccy) then signed_cents l else 0.
Definition account_net (account : UUID) (ccy : string) (lines : list JournalLine) : Z :=
  sumZ (acct_cents account ccy <$> lines).

Definition entry_of_payment (db : DB) (payment entry : UUID) : Prop :=
  (journal_entries db !! entry) ≫= jem_payment_id = Some payment.
#[export] Instance entry_of_payment_dec db p e : Decision (entry_of_payment db p e).
Proof. unfold entry_of_payment. apply _. Defined.

(** The lines of all entries posted for a payment. *)
Definition payment_lines (db : DB) (payment : UUID) : list JournalLine :=
  jlm_line <$> filter (fun l => entry_of_payment db payment (jlm_journal_entry_id l)) (journal_lines db).

Definition payment_entries (db : DB) (payment : UUID) : gmap UUID JournalEntryModel :=
  filter (fun kv => jem_payment_id kv.2 = Some payment) (journal_entries db).

(** * What a settled payment moves *)

Definition account_currency (db : DB) (id : UUID) : string :=
  from_option acc_currency "" (accounts db !! id).

Definition is_suspense (a : Account) : Prop := acc_account_number a = FX_SUSPENSE_ACCOUNT_NUMBER.
#[export] Instance is_suspense_dec a : Decision (is_suspense a).
Proof. unfold is_suspense. apply _. Defined.

Definition suspense_id (db : DB) : UUID :=
  from_option fst 0%N (head (filter (fun kv => is_suspense kv.2) (map_to_list (accounts db)))).

(** The amount leaves the debtor; the same amount, or the booked creditor amount through
    the suspense account, reaches the creditor. *)
Definition booked_lines (db : DB) (p : Payment) : list JournalLine :=
  match pay_creditor_amount p with
  | None =>
      [line (pay_debtor_account_id p) DEBIT (pay_amount p) (pay_currency p);
       line (pay_creditor_account_id p) CREDIT (pay_amount p) (pay_currency p)]
  | Some creditor_amount =>
      let dc := account_currency db (pay_debtor_account_id p) in
      let cc := account_currency db (pay_creditor_account_id p) in
      [line (pay_debtor_account_id p) DEBIT (pay_amount p) dc;
       line (suspense_id db) CREDIT (pay_amount p) dc;
       line (suspense_id db) DEBIT creditor_amount cc;
       line (pay_creditor_account_id p) CREDIT creditor_amount cc]
  end.

(** * Invariant *)

Definition pos_column (d : Decimal) : Prop := exists z, d = of_cents z /\ 0 < z < 10 ^ 18.

(** The statuses recorded for a payment, in commit order. *)
Definition history_of (db : DB) (payment : UUID) : list PaymentStatus :=
  psh_to_status <$> filter (fun h => psh_payment_id h = payment) (payment_status_history db).

Definition money_moved (s : PaymentStatus) : bool :=
  match s with SETTLED | REVERSED => true | _ => false end.

(** Entries posted for a payment: one when it settles, one more when it is reversed. *)
Definition entry_count (s : PaymentStatus) : nat :=
  match s with SETTLED => 1%nat | REVERSED => 2%nat | _ => 0%nat end.

(** The recorded statuses form a lifecycle that ends in the current status, and the version
    counts its transitions. *)
Definition history_ok (db : DB) (p : Payment) : Prop :=
  exists path,
    history_of db (pay_id p) = INITIATED :: path /\ lifecycle INITIATED path /\
    last (INITIATED :: path) = Some (pay_status p) /\
    pay_version p = Z.of_nat (length path).

Record payment_ok (db : DB) (id : UUID) (p : Payment) : Prop := {
  po_id : pay_id p = id;
  po_amount : pos_column (pay_amount p);
  po_debtor : is_Some (accounts db !! pay_debtor_account_id p);
  po_creditor : is_Some (accounts db !! pay_creditor_account_id p);
  po_distinct : pay_debtor_account_id p <> pay_creditor_account_id p;
  po_currency : pay_currency p = account_currency db (pay_debtor_account_id p);
  po_unmoved : money_moved (pay_status p) = false -> pay_creditor_amount p = None;
  po_moved : money_moved (pay_status p) = true ->
    (pay_creditor_amount p = None <->
     account_currency db (pay_debtor_account_id p) = account_currency db (pay_creditor_account_id p));
  po_fx : forall d, pay_creditor_amount p = Some d ->
    pos_column d /\ exists id a, accounts db !! id = Some a /\ is_suspense a;
  po_history : history_ok db p;
  po_posted : forall a c, account_net a c (payment_lines db id) =
    if decide (pay_status p = SETTLED) then account_net a c (booked_lines db p) else 0;
  po_entries : size (payment_entries db id) = entry_count (pay_status p);
}.

(** A completed key has the response it replays; a key in progress has none. *)
Definition key_ok (r : IdempotencyKeyModel) : Prop :=
  match ik_status r with
  | COMPLETED => is_Some (ik_response_status_code r) /\ is_Some (ik_response_body r)
  | IN_PROGRESS => ik_response_status_code r = None /\ ik_response_body r = None
  end.

(** Every entry is posted for a payment. *)
Definition posted_entry (db : DB) (e : JournalEntryModel) : Prop :=
  exists p, jem_payment_id e = Some p /\ is_Some (payments db !! p).

Record Inv (db : DB) : Prop := {
  inv_account_id : forall id a, accounts db !! id = Some a -> acc_id a = id;
  inv_account_number : forall i j a b,
    accounts db !! i = Some a -> accounts db !! j = Some b ->
    acc_account_number a = acc_account_number b -> i = j;
  inv_payment : forall id p, payments db !! id = Some p -> payment_ok db id p;
  inv_history : forall h, h ∈ payment_status_history db -> is_Some (payments db !! psh_payment_id h);
  inv_entry_payment : forall i e, journal_entries db !! i = Some e -> posted_entry db e;
  inv_line_entry : forall l, l ∈ journal_lines db -> is_Some (journal_entries db !! jlm_journal_entry_id l);
  inv_line_amount : forall l, l ∈ journal_lines db -> pos_column (jl_amount (jlm_line l));
  inv_balanced : forall i, balanced (entry_lines db i);
  inv_key : forall k r, idempotency_keys db !! k = Some r -> key_ok r;
  inv_delivery : forall i d, webhook_deliveries db !! i = Some d -> dl_id (wdm_delivery d) = i;
  inv_subscription : forall i s, webhook_subscriptions db !! i = Some s -> sub_id s = i;
}.

(** * Evolution *)

Definition same_account (a b : Account) : Prop :=
  acc_id a = acc_id b /\ acc_account_number a = acc_account_number b /\
  acc_owner_name a = acc_owner_name b /\ acc_account_type a = acc_account_type b /\
  acc_currency a = acc_currency b /\ acc_status a = acc_status b.

Definition account_evolves (a b : Account) : Prop :=
  same_account a b /\ acc_version a <= acc_version b.

Definition same_order (p q : Payment) : Prop :=
  pay_id p = pay_id q /\ pay_debtor_account_id p = pay_debtor_account_id q /\
  pay_creditor_account_id p = pay_creditor_account_id q /\ pay_amount p = pay_amount q /\
  pay_currency p = pay_currency q /\ pay_end_to_end_id p = pay_end_to_end_id q.

(** A payment changes only together with its version. *)
Definition payment_evolves (p q : Payment) : Prop :=
  p = q \/ (same_order p q /\ pay_version p < pay_version q).

Definition key_evolves (r s : IdempotencyKeyModel) : Prop :=
  r = s \/ (ik_status r = IN_PROGRESS /\ ik_request_hash r = ik_request_hash s).

Record evolves (db db' : DB) : Prop := {
  ev_account : forall i a, accounts db !! i = Some a ->
    exists a', accounts db' !! i = Some a' /\ account_evolves a a';
  ev_payment : forall i p, payments db !! i = Some p ->
    exists p', payments db' !! i = Some p' /\ payment_evolves p p';
  ev_entry : forall i e, journal_entries db !! i = Some e -> journal_entries db' !! i = Some e;
  ev_lines : journal_lines db `prefix_of` journal_lines db';
  ev_history : payment_status_history db `prefix_of` payment_status_history db';
  ev_key : forall k r, idempotency_keys db !! k = Some r ->
    exists r', idempotency_keys db' !! k = Some r' /\ key_evolves r r' /\ ik_id r = ik_id r';
  ev_subscription : forall i s, webhook_subscriptions db !! i = Some s ->
    webhook_subscriptions db' !! i = Some s;
  ev_delivery : forall i d, webhook_deliveries db !! i = Some d ->
    is_Some (webhook_deliveries db' !! i);
  ev_run : forall i r, reconciliation_runs db !! i = Some r -> reconciliation_runs db' !! i = Some r;
}.

(** * Locks *)

(** PostgreSQL holds a lock on every row a session has written, and on every unique key it
    has inserted, until the session ends: no other session commits a change to them. *)
Definition lock_ok (db db' : DB) (w : Write) : Prop :=
  match w with
  | PutAccount a =>
      accounts db' !! acc_id a = accounts db !! acc_id a /\
      forall i b, accounts db' !! i = Some b -> acc_account_number b = acc_account_number a ->
        is_Some (accounts db !! i)
  | AddEntry i _ => journal_entries db' !! i = journal_entries db !! i
  | PutPayment p => payments db' !! pay_id p = payments db !! pay_id p
  | PutKey e k r =>
      idempotency_keys db' !! (e, k) = idempotency_keys db !! (e, k)
  | PutSubscription s => webhook_subscriptions db' !! sub_id s = webhook_subscriptions db !! sub_id s
  | PutDelivery d =>
      webhook_deliveries db' !! dl_id (wdm_delivery d) = webhook_deliveries db !! dl_id (wdm_delivery d)
  | AddRun r => reconciliation_runs db' !! rrm_id r = reconciliation_runs db !! rrm_id r
  | AddLine _ | AddHistory _ | AddFileRecord _ | AddBreak _ => True
  end.

Definition respects_locks (log : list Write) (db db' : DB) : Prop := Forall (lock_ok db db') log.

(** The program inserted the key: the request that did is the only one that goes on to
    complete it, every other request stops at the conflict. *)
Definition claimed_by (commits : list (list Write)) (k : string * string) : Prop :=
  exists r, PutKey k.1 k.2 r ∈ concat commits /\ ik_status r = IN_PROGRESS.

Definition keeps_claims (commits : list (list Write)) (db db' : DB) : Prop :=
  forall k, claimed_by commits k -> idempotency_keys db' !! k = idempotency_keys db !! k.

(** A commit writes only keys that are new or its own. *)
Definition owns_keys (commits : list (list Write)) (db : DB) (log : list Write) : Prop :=
  forall e k r, PutKey e k r ∈ log ->
    idempotency_keys db !! (e, k) = None \/ claimed_by commits (e, k).

(** What the other sessions of the program may do between two statements, on a database
    that may fail at any moment, and what this session's commits must do in turn. *)
Definition others : Rely := {|
    rely_db := fun s db =>
      Inv db /\ evolves (s_db s) db /\ respects_locks (s_log s) (s_db s) db /\
      keeps_claims (s_commits s) (s_db s) db;
    rely_faults := True;
  |}.
Definition good (db db' : DB) : Prop := Inv db' /\ evolves db db'.
(** A commit records at most one status of one payment. *)
Definition one_status (db db' : DB) : Prop :=
  (length (payment_status_history db') <= S (length (payment_status_history db)))%nat.
Definition safe_commit : Guarantee := fun s db =>
  good db (view db (s_log s)) /\ owns_keys (s_commits s) db (s_log s) /\
  one_status db (view db (s_log s)).

(** * Lemmas *)

Lemma account_evolves_refl a : account_evolves a a.
Proof. split; [by repeat split|lia]. Qed.
Lemma account_evolves_trans a b c : account_evolves a b -> account_evolves b c -> account_evolves a c.
Proof. unfold account_evolves, same_account. intuition (congruence || lia). Qed.
Lemma same_order_trans p q r : same_order p q -> same_order q r -> same_order p r.
Proof. unfold same_order. intuition congruence. Qed.
Lemma payment_evolves_trans p q r : payment_evolves p q -> payment_evolves q r -> payment_evolves p r.
Proof.
  intros [->|[H1 V1]] [->|[H2 V2]]; [by left|by right|by right|right].
  split; [by eapply same_order_trans|lia].
Qed.
Lemma key_evolves_trans r s t : key_evolves r s -> key_evolves s t -> key_evolves r t.
Proof. unfold key_evolves. intuition (subst; auto). right. intuition congruence. Qed.

Lemma evolves_refl db : evolves db db.
Proof.
  split; try (by eauto using account_evolves_refl).
  - intros i p Hp. exists p. by split; [|left].
  - intros k r Hr. exists r. by split; [|split; [left|]].
Qed.

Lemma evolves_trans db1 db2 db3 : evolves db1 db2 -> evolves db2 db3 -> evolves db1 db3.
Proof.
  intros H12 H23. split.
  - intros i a (b & Hb & ?)%(ev_account _ _ H12).
    destruct (ev_account _ _ H23 _ _ Hb) as (c & ? & ?). eauto using account_evolves_trans.
  - intros i a (b & Hb & ?)%(ev_payment _ _ H12).
    destruct (ev_payment _ _ H23 _ _ Hb) as (c & ? & ?). eauto using payment_evolves_trans.
  - eauto using ev_entry.
  - etrans; [by eapply ev_lines|by eapply ev_lines].
  - etrans; [by eapply ev_history|by eapply ev_history].
  - intros i a (b & Hb & ? & ?)%(ev_key _ _ H12).
    destruct (ev_key _ _ H23 _ _ Hb) as (c & ? & ? & ?).
    exists c. split_and!; eauto using key_evolves_trans. congruence.
  - eauto using ev_subscription.
  - intros i d [b Hb]%(ev_delivery _ _ H12). eauto using ev_delivery.
  - eauto using ev_run.
Qed.

Lemma respects_locks_trans log db1 db2 db3 :
  evolves db2 db3 -> respects_locks log db1 db2 -> respects_locks log db2 db3 ->
  respects_locks log db1 db3.
Proof.
  intros Hev H12 H23. unfold respects_locks in *. rewrite Forall_forall in *. intros w Hw.
  specialize (H12 w Hw). specialize (H23 w Hw). destruct w; simpl in *; try congruence.
  destruct H12 as [H12 N12], H23 as [H23 N23]. split; [congruence|].
  intros i b Hb Hn. destruct (N23 i b Hb Hn) as [b2 Hb2]. apply (N12 i b2 Hb2).
  destruct (ev_account _ _ Hev _ _ Hb2) as (b' & Hb' & [Hs _]).
  unfold same_account in Hs. intuition congruence.
Qed.

Lemma respects_locks_refl log db : respects_locks log db db.
Proof. apply Forall_forall. intros [] _; simpl; eauto. Qed.

Lemma others_trans s db1 db2 :
  others s db1 -> others (with_sql s db1 (s_log s)) db2 -> others s db2.
Proof.
  intros (I2 & E12 & L12 & K12) (I3 & E23 & L23 & K23). simpl in *. split_and!; [done|..].
  - by eapply evolves_trans.
  - by eapply respects_locks_trans.
  - intros k Hk. by rewrite (K23 k Hk), (K12 k Hk).
Qed.

Lemma others_refl s : Inv (s_db s) -> others s (s_db s).
Proof. intros HI. split_and!; [done|apply evolves_refl|apply respects_locks_refl|by intros ? ?]. Qed.

#[export] Hint Resolve evolves_refl account_evolves_refl others_refl : ledger.
