(* ===== verification/Commits.v ===== *)
(** Commits: the tables after a commit, and when a commit preserves the invariant.

    A log is read table by table ([log_accounts], [log_payments], ...); [Inv_step] reduces
    the invariant of the database after a commit to the rows the commit touched. *)
From S2P Require Import Prelude Decimals PyText PyVal Ledger Fx PaymentSM Recon Webhooks Store.
From S2P Require Import Session Repos SupportRepos LedgerService PaymentService Invariant.

#[local] Open Scope Z_scope.

(** * The log, table by table *)

Definition log_accounts (log : list Write) : list Account :=
  omap (fun w => match w with PutAccount a => Some a | _ => None end) log.
Definition log_entries (log : list Write) : list (UUID * JournalEntryModel) :=
  omap (fun w => match w with AddEntry i e => Some (i, e) | _ => None end) log.
Definition log_lines (log : list Write) : list JournalLineModel :=
  omap (fun w => match w with AddLine l => Some l | _ => None end) log.
Definition log_payments (log : list Write) : list Payment :=
  omap (fun w => match w with PutPayment p => Some p | _ => None end) log.
Definition log_history (log : list Write) : list PaymentStatusHistoryModel :=
  omap (fun w => match w with AddHistory h => Some h | _ => None end) log.
Definition log_keys (log : list Write) : list ((string * string) * IdempotencyKeyModel) :=
  omap (fun w => match w with PutKey e k r => Some ((e, k), r) | _ => None end) log.
Definition log_subscriptions (log : list Write) : list WebhookSubscription :=
  omap (fun w => match w with PutSubscription s => Some s | _ => None end) log.
Definition log_deliveries (log : list Write) : list WebhookDeliveryModel :=
  omap (fun w => match w with PutDelivery d => Some d | _ => None end) log.
Definition log_runs (log : list Write) : list ReconciliationRunModel :=
  omap (fun w => match w with AddRun r => Some r | _ => None end) log.

(** Rows put into a table one after the other. *)
Definition puts {K V} `{Countable K} (m : gmap K V) (l : list (K * V)) : gmap K V :=
  foldl (fun m kv => <[kv.1 := kv.2]> m) m l.

Section view.
Context (db : DB).

Lemma accounts_view log :
  accounts (view db log) = puts (accounts db) ((fun a => (acc_id a, a)) <$> log_accounts log).
Proof. revert db. induction log as [|w log IH]; intros db; [done|].
rewrite view_cons, IH, accounts_write. by destruct w. Qed.
Lemma entries_view log :
  journal_entries (view db log) = puts (journal_entries db) (log_entries log).
Proof. revert db. induction log as [|w log IH]; intros db; [done|].
rewrite view_cons, IH, entries_write. by destruct w. Qed.
Lemma lines_view log : journal_lines (view db log) = journal_lines db ++ log_lines log.
Proof. revert db. induction log as [|w log IH]; intros db; [by rewrite app_nil_r|].
rewrite view_cons, IH, lines_write. destruct w; by rewrite <- ?app_assoc. Qed.
Lemma payments_view log :
  payments (view db log) = puts (payments db) ((fun p => (pay_id p, p)) <$> log_payments log).
Proof. revert db. induction log as [|w log IH]; intros db; [done|].
rewrite view_cons, IH, payments_write. by destruct w. Qed.
Lemma history_view log :
  payment_status_history (view db log) = payment_status_history db ++ log_history log.
Proof. revert db. induction log as [|w log IH]; intros db; [by rewrite app_nil_r|].
rewrite view_cons, IH, history_write. destruct w; by rewrite <- ?app_assoc. Qed.
Lemma keys_view log :
  idempotency_keys (view db log) = puts (idempotency_keys db) (log_keys log).
Proof. revert db. induction log as [|w log IH]; intros db; [done|].
rewrite view_cons, IH, keys_write. by destruct w. Qed.
Lemma subscriptions_view log :
  webhook_subscriptions (view db log) =
  puts (webhook_subscriptions db) ((fun s => (sub_id s, s)) <$> log_subscriptions log).
Proof. revert db. induction log as [|w log IH]; intros db; [done|].
rewrite view_cons, IH, subscriptions_write. by destruct w. Qed.
Lemma deliveries_view log :
  webhook_deliveries (view db log) =
  puts (webhook_deliveries db) ((fun d => (dl_id (wdm_delivery d), d)) <$> log_deliveries log).
Proof. revert db. induction log as [|w log IH]; intros db; [done|].
rewrite view_cons, IH, deliveries_write. by destruct w. Qed.
Lemma runs_view log :
  reconciliation_runs (view db log) =
  puts (reconciliation_runs db) ((fun r => (rrm_id r, r)) <$> log_runs log).
Proof. revert db. induction log as [|w log IH]; intros db; [done|].
rewrite view_cons, IH. by destruct w, db. Qed.
Lemma fx_rates_view log : fx_rates (view db log) = fx_rates db.
Proof. revert db. induction log as [|w log IH]; intros db; [done|].
by rewrite view_cons, IH, fx_rates_write. Qed.
End view.

(** The projections of a log that is an explicit list. *)
Ltac log_unfold :=
  unfold log_accounts, log_entries, log_lines, log_payments, log_history, log_keys, log_runs,
    log_subscriptions, log_deliveries.

Lemma omap_fmap_some {A B C} (f : A -> B) (g : B -> option C) (h : A -> C) (l : list A) :
  (forall x, g (f x) = Some (h x)) -> omap g (f <$> l) = h <$> l.
Proof. intros Hg. induction l as [|x l IH]; csimpl; [done|]. by rewrite Hg, IH. Qed.
Lemma omap_fmap_none {A B C} (f : A -> B) (g : B -> option C) (l : list A) :
  (forall x, g (f x) = None) -> omap g (f <$> l) = [].
Proof. intros Hg. induction l as [|x l IH]; csimpl; [done|]. by rewrite Hg, IH. Qed.

Ltac log_simpl :=
  log_unfold; rewrite ?omap_app; csimpl;
  repeat first
    [ rewrite omap_fmap_none by done
     | erewrite (omap_fmap_some _ _ (fun x => x)) by done
     | rewrite list_fmap_id ];
  rewrite ?app_nil_r; csimpl.

Lemma puts_lookup_none {K V} `{Countable K} (m : gmap K V) l k :
  k ∉ l.*1 -> puts m l !! k = m !! k.
Proof.
  revert m. induction l as [|[k' v] l IH]; intros m Hk; [done|].
  unfold puts in *. csimpl in Hk. simpl. rewrite IH by set_solver.
  apply lookup_insert_ne. set_solver.
Qed.

Lemma puts_lookup {K V} `{Countable K} (m : gmap K V) l k v :
  NoDup l.*1 -> (k, v) ∈ l -> puts m l !! k = Some v.
Proof.
  revert m. induction l as [|[k' v'] l IH]; intros m Hnd Hin; [set_solver|].
  apply NoDup_cons in Hnd as [Hk' Hnd]. apply elem_of_cons in Hin as [[= -> ->]|Hin].
  - change (puts (<[k':=v']> m) l !! k' = Some v'). rewrite puts_lookup_none by done.
    apply lookup_insert_eq.
  - by apply IH.
Qed.

Lemma puts_lookup_inv {K V} `{Countable K} (m : gmap K V) l k v :
  puts m l !! k = Some v -> (k, v) ∈ l \/ (m !! k = Some v).
Proof.
  revert m. induction l as [|[k' v'] l IH]; intros m Hk; [by right|].
  destruct (IH _ Hk) as [|Hm]; [left; set_solver|]. simpl in Hm.
  destruct (decide (k' = k)) as [->|].
  - rewrite lookup_insert_eq in Hm. simplify_eq. left. set_solver.
  - rewrite lookup_insert_ne in Hm by done. by right.
Qed.

Lemma puts_is_some {K V} `{Countable K} (m : gmap K V) l k :
  is_Some (puts m l !! k) <-> is_Some (m !! k) \/ k ∈ l.*1.
Proof.
  revert m. induction l as [|[k' v] l IH]; intros m; [set_solver|].
  change (is_Some (puts (<[k':=v]> m) l !! k) <-> is_Some (m !! k) \/ k ∈ ((k', v) :: l).*1).
  rewrite IH, lookup_insert_is_Some, fmap_cons, elem_of_cons. simpl.
  destruct (decide (k' = k)); naive_solver.
Qed.

Lemma puts_none_mono {K V} `{Countable K} (m m' : gmap K V) l k :
  (forall i, is_Some (m !! i) -> is_Some (m' !! i)) -> puts m' l !! k = None -> puts m l !! k = None.
Proof.
  intros Hm. rewrite !eq_None_not_Some, !puts_is_some. intros Hn [?|?]; apply Hn; auto.
Qed.

(** A row of a map after puts comes from the list, whatever the map, or is an old row. *)
Lemma puts_cases {K V} `{Countable K} (m : gmap K V) l k v :
  puts m l !! k = Some v -> (forall m', puts m' l !! k = Some v) \/ (m !! k = Some v /\ k ∉ l.*1).
Proof.
  revert m. induction l as [|[k' w] l IH]; intros m Hk; [by right; split; [|set_solver]|].
  destruct (IH (<[k':=w]> m) Hk) as [Hall|[Hm Hn]].
  - left. intros m'. apply (Hall (<[k':=w]> m')).
  - destruct (decide (k' = k)) as [->|Hne].
    + left. intros m'. rewrite lookup_insert_eq in Hm. simplify_eq.
      change (puts (<[k:=v]> m') l !! k = Some v). rewrite puts_lookup_none by done.
      apply lookup_insert_eq.
    + right. rewrite lookup_insert_ne in Hm by done. split; [done|]. csimpl. set_solver.
Qed.

(** * Rows that stay readable the same way *)

Lemma account_currency_evolves db db' id :
  evolves db db' -> is_Some (accounts db !! id) -> account_currency db' id = account_currency db id.
Proof.
  intros Hev [a Ha]. destruct (ev_account _ _ Hev _ _ Ha) as (a' & Ha' & [Hs _]).
  unfold account_currency. rewrite Ha, Ha'. simpl. unfold same_account in Hs. intuition congruence.
Qed.

Lemma suspense_id_spec db id a :
  Inv db -> accounts db !! id = Some a -> is_suspense a -> suspense_id db = id.
Proof.
  intros HI Ha Hs. unfold suspense_id.
  assert (Hin : (id, a) ∈ filter (fun kv => is_suspense kv.2) (map_to_list (accounts db))).
  { apply list_elem_of_filter. split; [done|]. by apply elem_of_map_to_list. }
  destruct (filter _ _) as [|[i b] l] eqn:Hf; [set_solver|]. simpl.
  assert (Hib : (i, b) ∈ filter (fun kv => is_suspense kv.2) (map_to_list (accounts db)))
    by (rewrite Hf; set_solver).
  apply list_elem_of_filter in Hib as [Hb Hib%elem_of_map_to_list]. simpl in Hb.
  eapply inv_account_number; eauto. unfold is_suspense in *. congruence.
Qed.

Lemma suspense_evolves db db' :
  (forall i j a b, accounts db' !! i = Some a -> accounts db' !! j = Some b ->
     acc_account_number a = acc_account_number b -> i = j) ->
  Inv db -> evolves db db' -> (exists id a, accounts db !! id = Some a /\ is_suspense a) ->
  suspense_id db' = suspense_id db.
Proof.
  intros Hu HI Hev (id & a & Ha & Hs). rewrite (suspense_id_spec db id a) by done.
  destruct (ev_account _ _ Hev _ _ Ha) as (a' & Ha' & [Hsame _]).
  assert (Hs' : is_suspense a') by (unfold is_suspense, same_account in *; intuition congruence).
  unfold suspense_id.
  assert (Hin : (id, a') ∈ filter (fun kv => is_suspense kv.2) (map_to_list (accounts db'))).
  { apply list_elem_of_filter. split; [done|]. by apply elem_of_map_to_list. }
  destruct (filter _ _) as [|[i b] l] eqn:Hf; [set_solver|]. simpl.
  assert (Hib : (i, b) ∈ filter (fun kv => is_suspense kv.2) (map_to_list (accounts db')))
    by (rewrite Hf; set_solver).
  apply list_elem_of_filter in Hib as [Hb Hib%elem_of_map_to_list]. simpl in Hb.
  eapply Hu; eauto. unfold is_suspense in *. congruence.
Qed.

(** * The invariant after a commit *)

Definition unique_numbers (db : DB) : Prop :=
  forall i j a b, accounts db !! i = Some a -> accounts db !! j = Some b ->
    acc_account_number a = acc_account_number b -> i = j.

(** A payment whose row, history and postings a commit did not touch. *)
Record untouched (db db' : DB) (id : UUID) : Prop := {
  un_row : payments db' !! id = payments db !! id;
  un_history : history_of db' id = history_of db id;
  un_lines : payment_lines db' id = payment_lines db id;
  un_entries : payment_entries db' id = payment_entries db id;
}.

Lemma booked_lines_evolves db db' p :
  Inv db -> evolves db db' -> unique_numbers db' ->
  is_Some (accounts db !! pay_debtor_account_id p) ->
  is_Some (accounts db !! pay_creditor_account_id p) ->
  (pay_creditor_amount p <> None -> exists id a, accounts db !! id = Some a /\ is_suspense a) ->
  booked_lines db' p = booked_lines db p.
Proof.
  intros HI Hev Hu Hd Hc Hs. unfold booked_lines. destruct (pay_creditor_amount p) as [d|]; [|done].
  rewrite (suspense_evolves db db') by auto.
  by rewrite !(account_currency_evolves db db').
Qed.

Lemma payment_ok_booked db db' id p :
  Inv db -> evolves db db' -> unique_numbers db' -> payment_ok db id p ->
  booked_lines db' p = booked_lines db p.
Proof.
  intros HI Hev Hu Hok. apply booked_lines_evolves; try done; try by destruct Hok.
  intros Hne. destruct (pay_creditor_amount p) as [d|] eqn:Hd; [|done].
  by apply (po_fx _ _ _ Hok d Hd).
Qed.

Lemma suspense_exists_evolves db db' :
  evolves db db' -> (exists id a, accounts db !! id = Some a /\ is_suspense a) ->
  exists id a, accounts db' !! id = Some a /\ is_suspense a.
Proof.
  intros Hev (i & a & Ha & Hs). destruct (ev_account _ _ Hev _ _ Ha) as (a' & Ha' & [Hsame _]).
  exists i, a'. split; [done|]. unfold is_suspense, same_account in *. intuition congruence.
Qed.

Lemma is_some_account_evolves db db' i :
  evolves db db' -> is_Some (accounts db !! i) -> is_Some (accounts db' !! i).
Proof. intros Hev [a Ha]. destruct (ev_account _ _ Hev _ _ Ha) as (a' & ? & _). eauto. Qed.

Lemma payment_ok_untouched db db' id p :
  Inv db -> evolves db db' -> unique_numbers db' -> untouched db db' id ->
  payment_ok db id p -> payment_ok db' id p.
Proof.
  intros HI Hev Hu Hun Hok. pose proof (payment_ok_booked _ _ _ _ HI Hev Hu Hok) as Hbl.
  pose proof (account_currency_evolves _ _ _ Hev (po_debtor _ _ _ Hok)) as Hdc.
  pose proof (account_currency_evolves _ _ _ Hev (po_creditor _ _ _ Hok)) as Hcc.
  destruct Hok. split; rewrite ?Hdc, ?Hcc; eauto using is_some_account_evolves.
  - intros d Hd. destruct (po_fx d Hd) as [? Hs]. split; [done|]. eauto using suspense_exists_evolves.
  - destruct po_history as (l & Hl & ?). exists l. split; [|done].
    rewrite po_id in *. by rewrite (un_history _ _ _ Hun).
  - intros a c. rewrite (un_lines _ _ _ Hun), Hbl. apply po_posted.
  - by rewrite (un_entries _ _ _ Hun).
Qed.

(** The obligations of a commit that go beyond [evolves]. *)
Record commit_ok (db db' : DB) : Prop := {
  co_account_id : forall id a, accounts db' !! id = Some a -> acc_id a = id;
  co_account_number : unique_numbers db';
  co_payment : forall id, untouched db db' id \/ exists p, payments db' !! id = Some p /\ payment_ok db' id p;
  co_history : forall h, h ∈ payment_status_history db' ->
    h ∈ payment_status_history db \/ is_Some (payments db' !! psh_payment_id h);
  co_entry : forall i e, journal_entries db' !! i = Some e ->
    journal_entries db !! i = Some e \/ posted_entry db' e;
  co_line : forall l, l ∈ journal_lines db' -> l ∈ journal_lines db \/
    (is_Some (journal_entries db' !! jlm_journal_entry_id l) /\ pos_column (jl_amount (jlm_line l)));
  co_balanced : forall i, entry_lines db' i = entry_lines db i \/ balanced (entry_lines db' i);
  co_key : forall k r, idempotency_keys db' !! k = Some r ->
    idempotency_keys db !! k = Some r \/ key_ok r;
  co_delivery : forall i d, webhook_deliveries db' !! i = Some d -> dl_id (wdm_delivery d) = i;
  co_subscription : forall i s, webhook_subscriptions db' !! i = Some s -> sub_id s = i;
}.

Lemma Inv_step db db' : Inv db -> evolves db db' -> commit_ok db db' -> Inv db'.
Proof.
  intros HI Hev Hco.
  assert (Hpay : forall i, is_Some (payments db !! i) -> is_Some (payments db' !! i)).
  { intros i [p Hp]. destruct (ev_payment _ _ Hev _ _ Hp) as (? & ? & _). eauto. }
  split; try by destruct Hco.
  - intros id p Hp. destruct (co_payment _ _ Hco id) as [Hun|(p' & Hp' & Hok)]; [|naive_solver].
    apply (payment_ok_untouched db); [done|done|by destruct Hco|done|]. apply (inv_payment _ HI).
    by rewrite <- (un_row _ _ _ Hun).
  - intros h [Hh|]%(co_history _ _ Hco); [|done]. apply Hpay. by apply (inv_history _ HI).
  - intros i e He. destruct (co_entry _ _ Hco i e He) as [Hold|]; [|done].
    destruct (inv_entry_payment _ HI _ _ Hold) as (p & ? & ?). exists p. auto.
  - intros l [Hl|[? _]]%(co_line _ _ Hco); [|done]. destruct (inv_line_entry _ HI _ Hl) as [e He].
    exists e. by eapply ev_entry.
  - intros l [Hl|[_ ?]]%(co_line _ _ Hco); [|done]. by apply (inv_line_amount _ HI).
  - intros i. destruct (co_balanced _ _ Hco i) as [->|]; [apply (inv_balanced _ HI)|done].
  - intros k r [?|]%(co_key _ _ Hco); [|done]. by eapply (inv_key _ HI).
Qed.

(** * Commits of a log *)

(** A map after puts: an old row that is not overwritten, or a row of the list. *)
Lemma puts_keeps {K V} `{Countable K} (m : gmap K V) l k v (P : V -> Prop) :
  m !! k = Some v -> P v -> Forall (fun kv => kv.1 = k -> P kv.2) l ->
  exists v', puts m l !! k = Some v' /\ P v'.
Proof.
  revert m v. induction l as [|[k' w] l IH]; intros m v Hk Hv Hl; [by exists v|].
  apply Forall_cons in Hl as [Hw Hl]. simpl in Hw.
  destruct (decide (k' = k)) as [->|].
  - apply (IH (<[k:=w]> m) w); [apply lookup_insert_eq|auto|done].
  - apply (IH (<[k':=w]> m) v); [by rewrite lookup_insert_ne|done|done].
Qed.

Record log_evolves (db : DB) (log : list Write) : Prop := {
  le_accounts : Forall (fun a => forall a0, accounts db !! acc_id a = Some a0 -> account_evolves a0 a)
                  (log_accounts log);
  le_entries : Forall (fun kv => journal_entries db !! kv.1 = None) (log_entries log);
  le_payments : forall i p, payments db !! i = Some p ->
    exists p', payments (view db log) !! i = Some p' /\ payment_evolves p p';
  le_keys : Forall (fun kv => forall r, idempotency_keys db !! kv.1 = Some r ->
              key_evolves r kv.2 /\ ik_id r = ik_id kv.2) (log_keys log);
  le_subscriptions : Forall (fun s => webhook_subscriptions db !! sub_id s = None) (log_subscriptions log);
  le_runs : Forall (fun r => reconciliation_runs db !! rrm_id r = None) (log_runs log);
}.

Lemma evolves_view db log : log_evolves db log -> evolves db (view db log).
Proof.
  intros []. split; [| done | | | | | | | ];
    rewrite ?accounts_view, ?entries_view, ?lines_view, ?history_view, ?keys_view,
      ?subscriptions_view, ?deliveries_view, ?runs_view; try by eexists.
  - intros i a Ha. apply (puts_keeps _ _ _ _ (account_evolves a) Ha (account_evolves_refl a)).
    apply Forall_fmap. eapply Forall_impl; [apply le_accounts0|]. simpl. intros b Hb <-. by apply Hb.
  - intros i e He. rewrite puts_lookup_none; [done|].
    intros (kv & -> & Hkv)%list_elem_of_fmap. rewrite Forall_forall in le_entries0.
    specialize (le_entries0 _ Hkv). congruence.
  - intros k r Hr.
    apply (puts_keeps _ _ _ _ (fun r' => key_evolves r r' /\ ik_id r = ik_id r') Hr); [by split; [left|]|].
    eapply Forall_impl; [apply le_keys0|]. simpl. intros kv Hkv <-. by apply Hkv.
  - intros i s Hs. rewrite puts_lookup_none; [done|]. rewrite <- list_fmap_compose.
    intros (x & -> & Hx)%list_elem_of_fmap. rewrite Forall_forall in le_subscriptions0.
    specialize (le_subscriptions0 _ Hx). simpl in Hs. congruence.
  - intros i d Hd.
    match goal with |- is_Some (puts _ ?l !! _) =>
      destruct (puts_keeps (webhook_deliveries db) l i d (fun _ => True) Hd I) as (? & ? & _) end;
      [by apply Forall_true|eauto].
  - intros i r Hr. rewrite puts_lookup_none; [done|]. rewrite <- list_fmap_compose.
    intros (x & -> & Hx)%list_elem_of_fmap. rewrite Forall_forall in le_runs0.
    specialize (le_runs0 _ Hx). simpl in Hr. congruence.
Qed.

(** Version bumps keep the account numbers unique. *)
Lemma bumps_unique db log :
  Inv db ->
  Forall (fun a => exists a0, accounts db !! acc_id a = Some a0 /\ account_evolves a0 a) (log_accounts log) ->
  unique_numbers (view db log).
Proof.
  intros HI Hacc i j a b. rewrite accounts_view.
  assert (Hold : forall k x, puts (accounts db) ((fun a => (acc_id a, a)) <$> log_accounts log) !! k = Some x ->
    exists x0, accounts db !! k = Some x0 /\ acc_account_number x0 = acc_account_number x).
  { intros k x [Hin|Hk]%puts_lookup_inv; [|eauto].
    apply list_elem_of_fmap in Hin as (y & [= -> ->] & Hy). rewrite Forall_forall in Hacc.
    destruct (Hacc _ Hy) as (y0 & ? & Hs & _). exists y0. unfold same_account in Hs. intuition. }
  intros (a0 & Ha & Hna)%Hold (b0 & Hb & Hnb)%Hold Heq.
  eapply (inv_account_number _ HI); [apply Ha|apply Hb|congruence].
Qed.

(** The journal after a commit that posts [rows] as one new entry. *)
Section post.
Context (db : DB) (log : list Write) (eid : UUID) (e : JournalEntryModel)
  (rows : list JournalLineModel).
Hypothesis HI : Inv db.
Hypothesis Hnone : journal_entries db !! eid = None.
Hypothesis He : log_entries log = [(eid, e)].
Hypothesis Hl : log_lines log = rows.
Hypothesis Hrows : Forall (fun r => jlm_journal_entry_id r = eid) rows.

Lemma old_line_entry : Forall (fun l => jlm_journal_entry_id l <> eid) (journal_lines db).
Proof.
  apply Forall_forall. intros l Hin <-. destruct (inv_line_entry _ HI _ Hin) as [? ?]. congruence.
Qed.

Lemma entry_lines_post i :
  entry_lines (view db log) i = if decide (i = eid) then jlm_line <$> rows else entry_lines db i.
Proof.
  unfold entry_lines. rewrite lines_view, Hl, filter_app, fmap_app. case_decide as Hi.
  - subst i. rewrite (filter_none _ (journal_lines db)) by apply old_line_entry.
  by rewrite (filter_every _ rows).
  - rewrite (filter_none _ rows), app_nil_r; [done|].
  eapply Forall_impl; [apply Hrows|]. simpl. congruence.
Qed.

Lemma entries_post : journal_entries (view db log) = <[eid := e]> (journal_entries db).
Proof. by rewrite entries_view, He. Qed.

Lemma payment_lines_post pid :
  payment_lines (view db log) pid =
  payment_lines db pid ++ (if decide (jem_payment_id e = Some pid) then jlm_line <$> rows else []).
Proof.
  unfold payment_lines. rewrite lines_view, Hl, filter_app, fmap_app. f_equal.
  - f_equal. apply filter_same. eapply Forall_impl; [apply old_line_entry|]. simpl. intros l Hne.
  unfold entry_of_payment. by rewrite entries_post, lookup_insert_ne.
  - case_decide as Hp; [rewrite filter_every|rewrite filter_none]; try done;
    eapply Forall_impl; try apply Hrows; simpl; intros l ->;
    unfold entry_of_payment; rewrite entries_post, lookup_insert_eq; simpl; congruence.
Qed.

Lemma payment_entries_post pid :
  payment_entries (view db log) pid =
  if decide (jem_payment_id e = Some pid) then <[eid := e]> (payment_entries db pid)
  else payment_entries db pid.
Proof.
  unfold payment_entries. rewrite entries_post. case_decide.
  - by rewrite map_filter_insert_True.
  - rewrite map_filter_insert_False by done. by rewrite delete_id.
Qed.

Lemma payment_entries_size_post pid :
  size (payment_entries (view db log) pid) =
  (size (payment_entries db pid) + (if decide (jem_payment_id e = Some pid) then 1 else 0))%nat.
Proof.
  rewrite payment_entries_post. case_decide; [|lia].
  rewrite map_size_insert_None; [lia|]. apply map_lookup_filter_None. by left.
Qed.
End post.

Lemma history_of_view db log pid :
  history_of (view db log) pid =
  history_of db pid ++ (psh_to_status <$> filter (fun h => psh_payment_id h = pid) (log_history log)).
Proof. unfold history_of. by rewrite history_view, filter_app, fmap_app. Qed.

(** A commit without entries and lines leaves the postings as they are. *)
Lemma no_posting_lines db log pid :
  log_entries log = [] -> log_lines log = [] ->
  payment_lines (view db log) pid = payment_lines db pid /\
  payment_entries (view db log) pid = payment_entries db pid /\
  entry_lines (view db log) pid = entry_lines db pid.
Proof.
  intros He Hl.
  assert (Hl' : journal_lines (view db log) = journal_lines db)
    by by rewrite lines_view, Hl, app_nil_r.
  assert (He' : journal_entries (view db log) = journal_entries db)
    by by rewrite entries_view, He.
  unfold payment_lines, payment_entries, entry_lines. rewrite Hl', He'. split_and!; try done.
  f_equal. apply filter_same, Forall_true. intros l. unfold entry_of_payment. by rewrite He'.
Qed.
