(* ===== verification/Transactions.v ===== *)
(** Transactions: what a payment transaction has written so far, and that no other session
    can spoil it before the commit.

    [tx_facts] and [payment_row] describe a log and the committed rows it depends on; both
    survive whatever other sessions commit under the row locks ([tx_facts_others],
    [payment_row_others]).  [payment_commit] turns them into the obligations of the
    commit. *)
From S2P Require Import Prelude Decimals PyText PyVal Ledger Fx PaymentSM Recon Webhooks Store.
From S2P Require Import Session Repos SupportRepos LedgerService PaymentService Invariant.
From S2P Require Import Commits.

#[local] Open Scope Z_scope.

(** The journal entry a transaction posts, if any: its key, its row and its lines. *)
Abbreviation posting := (option (UUID * JournalEntryModel * list JournalLineModel)).

Record tx_facts (db : DB) (log : list Write) (post : posting) : Prop := {
  tf_entries : log_entries log = match post with Some (i, e, _) => [(i, e)] | None => [] end;
  tf_lines : log_lines log = match post with Some (_, _, rows) => rows | None => [] end;
  tf_post : match post with
            | Some (i, _, rows) => journal_entries db !! i = None /\
                Forall (fun r => jlm_journal_entry_id r = i) rows
            | None => True
            end;
  tf_accounts : Forall (fun a => exists a0, accounts db !! acc_id a = Some a0 /\ account_evolves a0 a)
                  (log_accounts log);
  tf_keys : Forall (fun kv => key_ok kv.2 /\ forall r, idempotency_keys db !! kv.1 = Some r ->
              key_evolves r kv.2 /\ ik_id r = ik_id kv.2) (log_keys log);
  tf_subscriptions : log_subscriptions log = [];
  tf_runs : log_runs log = [];
}.

(** Elements of a projected log are writes of the log. *)
Lemma log_accounts_in a log : a ∈ log_accounts log -> PutAccount a ∈ log.
Proof. intros ([] & ? & ?)%list_elem_of_omap; by simplify_eq. Qed.
Lemma log_entries_in i e log : (i, e) ∈ log_entries log -> AddEntry i e ∈ log.
Proof. intros ([] & ? & ?)%list_elem_of_omap; by simplify_eq. Qed.
Lemma log_payments_in p log : p ∈ log_payments log -> PutPayment p ∈ log.
Proof. intros ([] & ? & ?)%list_elem_of_omap; by simplify_eq. Qed.
Lemma log_keys_in k r log : (k, r) ∈ log_keys log -> PutKey k.1 k.2 r ∈ log.
Proof. intros ([] & ? & ?)%list_elem_of_omap; by simplify_eq. Qed.

Lemma locked w log db db' : respects_locks log db db' -> w ∈ log -> lock_ok db db' w.
Proof. intros H Hw. by eapply Forall_forall in H. Qed.

Lemma tx_facts_others s db post :
  tx_facts (s_db s) (s_log s) post -> others s db -> tx_facts db (s_log s) post.
Proof.
  intros [He Hl Hp Ha Hk Hs Hr] (HI & Hev & HL & _). split; try done.
  - destruct post as [[[i e] rows]|]; [|done]. destruct Hp as [Hi ?]. split; [|done].
    rewrite <- Hi. apply (locked (AddEntry i e) _ _ _ HL), log_entries_in. rewrite He. set_solver.
  - rewrite Forall_forall in *. intros a Hin. destruct (Ha a Hin) as (a0 & Ha0 & ?).
    exists a0. split; [|done]. rewrite <- Ha0.
    by apply (locked (PutAccount a) _ _ _ HL), log_accounts_in.
  - rewrite Forall_forall in *. intros [k r] Hin. destruct (Hk _ Hin) as [? Hold]. split; [done|].
    intros r0 Hr0. apply Hold. rewrite <- Hr0. symmetry. destruct k as [ep k].
    apply (locked (PutKey ep k r) _ _ _ HL). by apply (log_keys_in (ep, k)).
Qed.

Lemma tx_facts_nil db : tx_facts db [] None.
Proof. by split. Qed.

(** Writes that [tx_facts] does not look at. *)
Definition quiet_write (w : Write) : Prop :=
  match w with PutPayment _ | AddHistory _ | PutDelivery _ => True | _ => False end.

Lemma tx_facts_quiet db log ws post :
  Forall quiet_write ws -> tx_facts db log post -> tx_facts db (log ++ ws) post.
Proof.
  intros Hws [He Hl Hp Ha Hk Hs Hr].
  assert (Hn : log_accounts ws = [] /\ log_entries ws = [] /\ log_lines ws = [] /\ log_keys ws = [] /\
               log_subscriptions ws = [] /\ log_runs ws = []).
  { induction Hws as [|[] ws Hw _ IH]; by simpl in *. }
  destruct Hn as (N1 & N2 & N3 & N4 & N5 & N6).
  split; log_unfold; rewrite ?omap_app; fold (log_accounts ws); fold (log_entries ws);
    fold (log_lines ws); fold (log_keys ws); fold (log_subscriptions ws); fold (log_runs ws);
    rewrite ?N1, ?N2, ?N3, ?N4, ?N5, ?N6, ?app_nil_r; done.
Qed.

(** ** The payment's row *)

(** Until its status is updated, the row is at least as new as the one that was read; it
    is locked once the FX details are set. *)
Definition fx_writes (p : Payment) (fx : FieldOverrides) : list Payment :=
  match fx with Some (rate_id, amount) => [set_fx p (Some rate_id) (Some amount)] | None => [] end.

Definition reading_row (db : DB) (log : list Write) (pid : UUID) (p : Payment)
    (fx : FieldOverrides) : Prop :=
  exists p2, payments db !! pid = Some p2 /\ payment_evolves p p2 /\ log_payments log = fx_writes p2 fx.

(** After the update, the committed row is the one that was read. *)
Definition updated_row (db : DB) (log : list Write) (pid : UUID) (p : Payment)
    (fx : FieldOverrides) (to_status : PaymentStatus) : Prop :=
  payments db !! pid = Some p /\
  log_payments log = fx_writes p fx ++ [replaced p to_status fx].

Lemma payment_row_locked s db q :
  others s db -> q ∈ log_payments (s_log s) -> payments db !! pay_id q = payments (s_db s) !! pay_id q.
Proof. intros (_ & _ & HL & _) Hin%log_payments_in. by apply (locked _ _ _ _ HL) in Hin. Qed.

Lemma reading_row_others s db pid p fx :
  Inv (s_db s) -> reading_row (s_db s) (s_log s) pid p fx -> others s db ->
  reading_row db (s_log s) pid p fx.
Proof.
  intros HI (p2 & Hp2 & Hev & Hlog) Ho. destruct fx as [[r a]|].
  - exists p2. split_and!; [|done|done]. rewrite <- Hp2.
    pose proof (po_id _ _ _ (inv_payment _ HI _ _ Hp2)) as Hid.
    pose proof (payment_row_locked s db (set_fx p2 (Some r) (Some a)) Ho) as Hlk.
    simpl in Hlk. rewrite Hid in Hlk. apply Hlk. rewrite Hlog. simpl. set_solver.
  - destruct Ho as (_ & Hdb & _). destruct (ev_payment _ _ Hdb _ _ Hp2) as (p3 & Hp3 & Hev').
    exists p3. split_and!; [done| |done]. by eapply payment_evolves_trans.
Qed.

Lemma replaced_id p to_status fx : pay_id (replaced p to_status fx) = pay_id p.
Proof. by destruct fx as [[]|]. Qed.

Lemma updated_row_others s db pid p fx to_status :
  Inv (s_db s) -> updated_row (s_db s) (s_log s) pid p fx to_status -> others s db ->
  updated_row db (s_log s) pid p fx to_status.
Proof.
  intros HI [Hp Hlog] Ho. split; [|done]. rewrite <- Hp.
  pose proof (po_id _ _ _ (inv_payment _ HI _ _ Hp)) as Hid.
  pose proof (payment_row_locked s db (replaced p to_status fx) Ho) as Hlk.
  rewrite replaced_id, Hid in Hlk. apply Hlk. rewrite Hlog. set_solver.
Qed.

(** The update finds the version it expects only if the row is still the one read. *)
Lemma same_version p q : payment_evolves p q -> pay_version q = pay_version p -> q = p.
Proof. intros [->|[_ ?]] ?; [done|lia]. Qed.

Lemma payments_updated db log pid p fx to_status :
  pay_id p = pid -> updated_row db log pid p fx to_status ->
  payments (view db log) = <[pid := replaced p to_status fx]> (payments db).
Proof.
  intros Hid [_ Hlog]. rewrite payments_view, Hlog. destruct fx as [[r a]|]; simpl; rewrite Hid.
  - apply insert_insert_eq.
  - done.
Qed.

(** * The commit of a payment transaction *)

Lemma account_net_app a c l1 l2 :
  account_net a c (l1 ++ l2) = account_net a c l1 + account_net a c l2.
Proof. unfold account_net. by rewrite fmap_app, sumZ_app. Qed.

Definition cross_currency (db : DB) (p : Payment) : Prop :=
  account_currency db (pay_debtor_account_id p) <> account_currency db (pay_creditor_account_id p).

(** What the lines of a settlement or a reversal move, and the FX details they book. *)
Definition lines_ok (db : DB) (p : Payment) (to_status : PaymentStatus) (fx : FieldOverrides)
    (lines : list JournalLine) : Prop :=
  match to_status with
  | SETTLED =>
      (forall a c, account_net a c lines = account_net a c (booked_lines db (replaced p SETTLED fx))) /\
      (fx = None <-> ~ cross_currency db p) /\
      forall r d, fx = Some (r, d) ->
        pos_column d /\ exists id a, accounts db !! id = Some a /\ is_suspense a
  | REVERSED => fx = None /\ forall a c, account_net a c lines = - account_net a c (booked_lines db p)
  | _ => False
  end.

Definition posting_ok (db : DB) (p : Payment) (to_status : PaymentStatus) (fx : FieldOverrides)
    (post : posting) : Prop :=
  match post with
  | None => money_moved to_status = false /\ fx = None
  | Some (_, e, rows) =>
      jem_payment_id e = Some (pay_id p) /\ balanced (jlm_line <$> rows) /\
      Forall (fun r => pos_column (jl_amount (jlm_line r))) rows /\
      lines_ok db p to_status fx (jlm_line <$> rows)
  end.

Section commit.
Context (db : DB) (log : list Write) (pid : UUID) (p : Payment) (to_status : PaymentStatus)
  (fx : FieldOverrides) (post : posting) (h : PaymentStatusHistoryModel).
Hypothesis HI : Inv db.
Hypothesis Hfacts : tx_facts db log post.
Hypothesis Hrow : updated_row db log pid p fx to_status.
Hypothesis Hallowed : allowed (pay_status p) to_status.
Hypothesis Hpost : posting_ok db p to_status fx post.
Hypothesis Hhist : log_history log = [h].
Hypothesis Hh : psh_payment_id h = pid /\ psh_to_status h = to_status.

Let db' := view db log.
Let p' := replaced p to_status fx.

Lemma old_payment : payment_ok db pid p.
Proof. apply (inv_payment _ HI), Hrow. Qed.

Lemma tx_cases :
  (pay_status p = INITIATED /\ to_status = AUTHORISED) \/
  (pay_status p = INITIATED /\ to_status = FAILED) \/
  (pay_status p = AUTHORISED /\ to_status = SETTLED) \/
  (pay_status p = AUTHORISED /\ to_status = FAILED) \/
  (pay_status p = SETTLED /\ to_status = REVERSED).
Proof. exact (proj1 (allowed_cases _ _) Hallowed). Qed.

Lemma tx_pid : pay_id p = pid.
Proof. by destruct old_payment. Qed.

Lemma tx_payments : payments db' = <[pid := p']> (payments db).
Proof. apply payments_updated; [apply tx_pid|apply Hrow]. Qed.

Lemma replaced_same_order : same_order p p' /\ pay_version p' = pay_version p + 1 /\
  pay_status p' = to_status.
Proof. unfold p', replaced, same_order. destruct fx as [[]|]; simpl; split_and!; done. Qed.

Lemma tx_evolves : evolves db db'.
Proof.
  apply evolves_view. destruct Hfacts as [He Hl Hp Ha Hk Hs Hr]. split.
  - eapply Forall_impl; [apply Ha|]. intros a (a0 & Ha0 & ?) a1 Ha1. by simplify_eq.
  - rewrite He. destruct post as [[[i e] rows]|]; [|done]. simpl.
  apply Forall_singleton, Hp.
  - fold db'. rewrite tx_payments. intros i q Hq. destruct (decide (i = pid)) as [->|Hne].
  + exists p'. rewrite lookup_insert_eq. split; [done|].
    destruct replaced_same_order as (? & ? & _), Hrow as [Hp0 _].
    assert (q = p) as -> by congruence. right. split; [done|lia].
  + exists q. rewrite lookup_insert_ne by done. split; [done|by left].
  - eapply Forall_impl; [apply Hk|]. tauto.
  - by rewrite Hs.
  - by rewrite Hr.
Qed.

Lemma tx_unique : unique_numbers db'.
Proof. apply bumps_unique; [done|]. by destruct Hfacts. Qed.

Lemma tx_history : history_of db' pid = history_of db pid ++ [to_status].
Proof.
  unfold db'. rewrite history_of_view, Hhist. destruct Hh as [Hi Hs].
  rewrite filter_cons_True by done. csimpl. by rewrite Hs.
Qed.

Lemma tx_history_other i : i <> pid -> history_of db' i = history_of db i.
Proof.
  intros Hne. unfold db'. rewrite history_of_view, Hhist. destruct Hh as [Hi Hs].
  rewrite filter_cons_False by congruence. csimpl. apply app_nil_r.
Qed.

Lemma tx_history_ok : history_ok db' p'.
Proof.
  destruct (po_history _ _ _ old_payment) as (l & Hl & Hlc & Hlast & Hv).
  rewrite tx_pid in Hl. destruct replaced_same_order as (Ho & Hv' & Hs').
  exists (l ++ [to_status]). replace (pay_id p') with pid
  by (destruct Ho as [<- _]; by rewrite tx_pid).
  rewrite tx_history, Hl. split_and!; [done| | |].
  - by eapply lifecycle_snoc.
  - by rewrite app_comm_cons, last_snoc, Hs'.
  - rewrite Hv', Hv, length_app. simpl. lia.
Qed.

(** The postings of the payment and of the others after the commit. *)
Lemma tx_lines i :
  payment_lines db' i = payment_lines db i ++
  (if decide (i = pid) then from_option (fun q => jlm_line <$> q.2) [] post else []).
Proof.
  destruct Hfacts as [He Hl Hp _ _ _ _]. destruct post as [[[eid e] rows]|].
  - destruct Hp as [Hnone Hrows], Hpost as (Hpay & _).
  unfold db'. rewrite (payment_lines_post db log eid e rows) by done.
  rewrite Hpay, tx_pid. f_equal. by repeat case_decide; simplify_eq.
  - unfold db'. destruct (no_posting_lines db log i He Hl) as (-> & _). by case_decide; rewrite app_nil_r.
Qed.

Lemma tx_entries i :
  (i <> pid -> payment_entries db' i = payment_entries db i) /\
  size (payment_entries db' pid) = (size (payment_entries db pid) + (if post is Some _ then 1 else 0))%nat.
Proof.
  destruct Hfacts as [He Hl Hp _ _ _ _]. destruct post as [[[eid e] rows]|].
  - destruct Hp as [Hnone Hrows], Hpost as (Hpay & _). unfold db'. split.
  + intros Hne. rewrite (payment_entries_post db log eid e) by done.
    rewrite decide_False by (rewrite Hpay, tx_pid; congruence). done.
  + rewrite (payment_entries_size_post db log eid e) by done.
    by rewrite decide_True by (by rewrite Hpay, tx_pid).
  - split; [intros _|]; unfold db'.
  + by destruct (no_posting_lines db log i He Hl) as (_ & -> & _).
  + destruct (no_posting_lines db log pid He Hl) as (_ & -> & _). lia.
Qed.

(** ** The payment after the commit *)

Lemma tx_currency id : is_Some (accounts db !! id) -> account_currency db' id = account_currency db id.
Proof. apply account_currency_evolves, tx_evolves. Qed.

Lemma replaced_creditor_amount :
  pay_creditor_amount p' = match fx with Some (_, d) => Some d | None => pay_creditor_amount p end.
Proof. unfold p', replaced. by destruct fx as [[]|]. Qed.

Lemma settled_creditor_amount :
  to_status = SETTLED -> pay_creditor_amount p = None /\ (pay_creditor_amount p' = None <-> fx = None).
Proof.
  intros Hto. pose proof tx_cases as Hal.
  assert (Hn : pay_creditor_amount p = None)
  by (apply (po_unmoved _ _ _ old_payment); destruct (pay_status p); naive_solver).
  split; [done|]. rewrite replaced_creditor_amount. rewrite Hn. by destruct fx as [[]|].
Qed.

(** Posting to a payment never books FX details that cannot be reversed. *)
Lemma tx_fx d :
  pay_creditor_amount p' = Some d ->
  pos_column d /\ exists id a, accounts db !! id = Some a /\ is_suspense a.
Proof.
  pose proof (po_fx _ _ _ old_payment) as Hold.
  rewrite replaced_creditor_amount. destruct fx as [[r d']|]; [|apply Hold].
  intros [= ->]. destruct post as [[[eid e] rows]|]; [|by destruct Hpost].
  destruct Hpost as (_ & _ & _ & Hlines). destruct to_status; simpl in Hlines; try done.
  - destruct Hlines as (_ & _ & Hd). by apply (Hd r).
  - by destruct Hlines.
Qed.

Lemma tx_booked : booked_lines db' p' = booked_lines db p'.
Proof.
  destruct replaced_same_order as [(_ & Hd & Hc & _) _].
  apply booked_lines_evolves; rewrite <- ?Hd, <- ?Hc;
  [done|apply tx_evolves|apply tx_unique|apply old_payment|apply old_payment|].
  intros Hne. destruct (pay_creditor_amount p') as [d|] eqn:Hca; [|done]. by apply (tx_fx d).
Qed.

Lemma tx_posted a c :
  account_net a c (payment_lines db' pid) =
  if decide (to_status = SETTLED) then account_net a c (booked_lines db' p') else 0.
Proof.
  rewrite tx_lines, decide_True, account_net_app, (po_posted _ _ _ old_payment), tx_booked by done.
  pose proof tx_cases as Hal. destruct post as [[[eid e] rows]|]; simpl.
  - destruct Hpost as (_ & _ & _ & Hlines). unfold lines_ok in Hlines.
  destruct to_status; simpl; try done.
  + destruct Hlines as (Hn & _). rewrite Hn, decide_False by intuition congruence. by rewrite Z.add_0_l.
  + destruct Hlines as (_ & Hn). rewrite Hn, decide_True by intuition congruence. lia.
  - destruct Hpost as [Hm _].
  assert (to_status <> SETTLED /\ to_status <> REVERSED)
    by (split; intros Hto; by rewrite Hto in Hm).
  by rewrite !decide_False by intuition congruence.
Qed.

Lemma tx_count : size (payment_entries db' pid) = entry_count to_status.
Proof.
  rewrite (proj2 (tx_entries pid)), (po_entries _ _ _ old_payment).
  pose proof tx_cases as Hal. destruct post as [[[eid e] rows]|].
  - destruct Hpost as (_ & _ & _ & Hlines). unfold lines_ok in Hlines.
  decompose [or and] Hal; replace (pay_status p); by destruct to_status.
  - destruct Hpost as [Hm _]. decompose [or and] Hal; replace (pay_status p); by destruct to_status.
Qed.

Lemma tx_moved :
  money_moved to_status = true -> (pay_creditor_amount p' = None <-> ~ cross_currency db p).
Proof.
  intros Hm. pose proof tx_cases as Hal. pose proof settled_creditor_amount as Hset.
  pose proof replaced_creditor_amount as Hca. pose proof (po_moved _ _ _ old_payment) as Hmv.
  destruct post as [[[eid e] rows]|]; [|destruct Hpost; congruence].
  destruct Hpost as (_ & _ & _ & Hlines). unfold lines_ok in Hlines.
  destruct (decide (to_status = SETTLED)) as [Hto|Hto].
  - rewrite (proj2 (Hset Hto)). rewrite Hto in Hlines. tauto.
  - assert (to_status = REVERSED) as Hrev by (destruct to_status; done).
  rewrite Hrev in Hlines. destruct Hlines as [Hfx _]. assert (Hps : pay_status p = SETTLED) by intuition congruence.
  rewrite Hca, Hfx, Hmv by (by rewrite Hps).
  unfold cross_currency. destruct (decide (account_currency db (pay_debtor_account_id p) =
      account_currency db (pay_creditor_account_id p))); tauto.
Qed.

Lemma tx_unmoved : money_moved to_status = false -> money_moved (pay_status p) = false.
Proof.
  intros Hm. pose proof tx_cases as Hal.
  decompose [or and] Hal; replace (pay_status p); try done; by replace to_status in Hm.
Qed.

Lemma tx_payment_ok : payment_ok db' pid p'.
Proof.
  pose proof old_payment as Hok. pose proof tx_evolves as Hev. pose proof tx_unmoved as Hunm.
  pose proof replaced_same_order as ((Hid & Hd & Hc & Ha & Hccy & _) & _ & Hs).
  split; rewrite <- ?Hid, <- ?Hd, <- ?Hc, <- ?Ha, <- ?Hccy, ?Hs, ?tx_currency by apply Hok;
  try apply Hok; eauto using tx_count, tx_posted, tx_history_ok.
  - eapply is_some_account_evolves; [done|apply Hok].
  - eapply is_some_account_evolves; [done|apply Hok].
  - intros Hm. rewrite replaced_creditor_amount. destruct fx as [[r d]|].
  + destruct post as [[[eid e] rows]|]; [|by destruct Hpost].
    destruct Hpost as (_ & _ & _ & Hlines). by destruct to_status.
  + apply (po_unmoved _ _ _ Hok), Hunm, Hm.
  - intros Hm. rewrite tx_moved by done. unfold cross_currency.
  destruct (decide (account_currency db (pay_debtor_account_id p) =
      account_currency db (pay_creditor_account_id p))); tauto.
  - intros d Hca. destruct (tx_fx d Hca). eauto using suspense_exists_evolves.
Qed.

Lemma tx_untouched i : i <> pid -> untouched db db' i.
Proof.
  intros Hne. split.
  - rewrite tx_payments. by rewrite lookup_insert_ne.
  - by apply tx_history_other.
  - by rewrite tx_lines, decide_False, app_nil_r.
  - by apply tx_entries.
Qed.

(** ** The commit *)

Lemma tx_entry i e :
  journal_entries db' !! i = Some e ->
  journal_entries db !! i = Some e \/ posted_entry db' e.
Proof.
  unfold db' at 1. rewrite entries_view. intros [Hin|]%puts_lookup_inv; [right|by left].
  rewrite (tf_entries _ _ _ Hfacts) in Hin. exists pid. rewrite tx_payments, lookup_insert_eq.
  destruct post as [[[eid e'] rows]|]; [|set_solver].
  apply list_elem_of_singleton in Hin as [= -> ->].
  destruct Hpost as (Hpay & _). rewrite tx_pid in Hpay. eauto.
Qed.

Lemma tx_line l :
  l ∈ journal_lines db' -> l ∈ journal_lines db \/
  (is_Some (journal_entries db' !! jlm_journal_entry_id l) /\ pos_column (jl_amount (jlm_line l))).
Proof.
  unfold db' at 1. rewrite lines_view, elem_of_app. intros [|Hl]; [by left|right].
  destruct Hfacts as [He Hlines Hp _ _ _ _]. rewrite Hlines in Hl.
  destruct post as [[[eid e] rows]|]; [|set_solver].
  destruct Hp as [Hnone Hrows], Hpost as (_ & _ & Hpos & _).
  rewrite Forall_forall in Hrows, Hpos. split; [|by apply Hpos].
  unfold db'. rewrite (entries_post db log eid e He), (Hrows _ Hl), lookup_insert_eq. eauto.
Qed.

Lemma tx_balanced i : entry_lines db' i = entry_lines db i \/ balanced (entry_lines db' i).
Proof.
  destruct Hfacts as [He Hlines Hp _ _ _ _]. unfold db'.
  destruct post as [[[eid e] rows]|].
  - destruct Hp as [Hnone Hrows], Hpost as (_ & Hbal & _).
  rewrite (entry_lines_post db log eid e rows) by done. case_decide; auto.
  - left. apply (no_posting_lines db log i He Hlines).
Qed.

Lemma payment_commit : good db db'.
Proof.
  split; [|apply tx_evolves]. apply (Inv_step db); [done|apply tx_evolves|].
  split; eauto using tx_unique, tx_entry, tx_line, tx_balanced.
  - unfold db'. intros i a. rewrite accounts_view. intros [Hin|Ha]%puts_lookup_inv.
  + by apply list_elem_of_fmap in Hin as (b & [= -> ->] & _).
  + by apply (inv_account_id _ HI).
  - intros i. destruct (decide (i = pid)) as [->|]; [right|left; by apply tx_untouched].
  exists p'. rewrite tx_payments, lookup_insert_eq. split; [done|apply tx_payment_ok].
  - unfold db' at 1. rewrite history_view, Hhist. intros g [|Hg]%elem_of_app; [by left|right].
  apply list_elem_of_singleton in Hg as ->. destruct Hh as [-> _].
  rewrite tx_payments, lookup_insert_eq. eauto.
  - unfold db'. intros k r. rewrite keys_view. intros [Hin|]%puts_lookup_inv; [right|by left].
  pose proof (tf_keys _ _ _ Hfacts) as Hk. rewrite Forall_forall in Hk. by apply (Hk _ Hin).
  - unfold db'. intros i d. rewrite deliveries_view. intros [Hin|Hd]%puts_lookup_inv.
  + by apply list_elem_of_fmap in Hin as (b & [= -> ->] & _).
  + by apply (inv_delivery _ HI).
  - unfold db'. intros i d. rewrite subscriptions_view, (tf_subscriptions _ _ _ Hfacts).
  apply (inv_subscription _ HI).
Qed.
End commit.
