(* ===== verification/PaymentRuns.v ===== *)
(** PaymentRuns: the statements of a payment transaction, run among other sessions.

    [tx_state] is the assertion carried from statement to statement: the invariant holds,
    and the log and the committed rows are as Transactions.v describes them.  Each lemma
    here is the rule of one repository call. *)
From S2P Require Import Prelude Decimals PyText PyVal Ledger Fx PaymentSM Recon Webhooks Store.
From S2P Require Import Session Repos SupportRepos LedgerService PaymentService Atomicity.
From S2P Require Import Invariant Commits Transactions.

#[local] Open Scope Z_scope.

(** What a transaction knows about the payment's row. *)
Definition row_pred : Type := DB -> list Write -> Prop.

(** [cs] is what this program has committed before the transaction. *)
Record stable (cs : list (list Write)) (row : row_pred) : Prop := {
  st_others : forall s db, s_commits s = cs -> Inv (s_db s) -> row (s_db s) (s_log s) -> others s db -> row db (s_log s);
  st_log : forall db log ws, log_payments ws = [] -> log_keys ws = [] -> row db log -> row db (log ++ ws);
}.

Record tx_state (cs : list (list Write)) (post : posting) (row : row_pred)
    (hs : list PaymentStatusHistoryModel) (s : Sess) : Prop := {
     ts_inv : Inv (s_db s);
     ts_commits : s_commits s = cs;
     ts_facts : tx_facts (s_db s) (s_log s) post;
     ts_row : row (s_db s) (s_log s);
     ts_history : log_history (s_log s) = hs;
     ts_keys : Forall (fun kv => claimed_by cs kv.1) (log_keys (s_log s));
   }.

Lemma log_payments_app l1 l2 : log_payments (l1 ++ l2) = log_payments l1 ++ log_payments l2.
Proof. apply omap_app. Qed.
Lemma log_history_app l1 l2 : log_history (l1 ++ l2) = log_history l1 ++ log_history l2.
Proof. apply omap_app. Qed.

Lemma stable_reading cs pid p fx : stable cs (fun db log => reading_row db log pid p fx).
Proof.
  split.
  - intros s db _. apply reading_row_others.
  - intros db log ws Hws _ (p2 & ? & ? & Hlog). exists p2. split_and!; try done.
    by rewrite log_payments_app, Hws, app_nil_r.
Qed.

Lemma stable_updated cs pid p fx to_status :
  stable cs (fun db log => updated_row db log pid p fx to_status).
Proof.
  split.
  - intros s db _. apply updated_row_others.
  - intros db log ws Hws _ (? & Hlog). split; [done|].
    by rewrite log_payments_app, Hws, app_nil_r.
Qed.

#[export] Hint Resolve stable_reading stable_updated : ledger.

(** A run of the program among the others. *)
Abbreviation runs := (every_run others safe_commit).

(** Exceptions roll back: only the invariant is left to show. *)
Definition on_error {A} (Q : Sess -> result Exn A -> Prop) : Prop :=
  forall s e, Inv (s_db s) -> Q s (Err e).

Lemma log_keys_app l1 l2 : log_keys (l1 ++ l2) = log_keys l1 ++ log_keys l2.
Proof. apply omap_app. Qed.

Lemma quiet_no_keys ws : Forall quiet_write ws -> log_keys ws = [].
Proof. induction 1 as [|[] ws Hw _ IH]; by simpl in *. Qed.

Section rules.
Context `{Platform} (cs : list (list Write)) (row : row_pred).
Hypothesis Hst : stable cs row.

Lemma tx_others post hs s db :
  tx_state cs post row hs s -> others s db -> tx_state cs post row hs (with_sql s db (s_log s)).
Proof.
  intros [HI Hev Hf Hr Hh Hown] Ho. pose proof Ho as (HI' & Hev' & _). split; simpl; try done.
  - by eapply tx_facts_others.
  - by eapply st_others.
Qed.

Lemma tx_quiet post hs s ws :
  Forall quiet_write ws -> log_payments ws = [] ->
  tx_state cs post row hs s ->
  tx_state cs post row (hs ++ log_history ws) (with_sql s (s_db s) (s_log s ++ ws)).
Proof.
  intros Hq Hp [HI Hev Hf Hr Hh]. split; simpl; try done.
  - by apply tx_facts_quiet.
  - apply (st_log cs row); [done|done|by apply quiet_no_keys|done].
  - by rewrite log_history_app, Hh.
  - by rewrite log_keys_app, (quiet_no_keys ws), app_nil_r.
Qed.

Lemma run_tx_select {R} (q : DB -> result Exn R) post hs s Q :
  tx_state cs post row hs s -> on_error Q ->
  (forall s', tx_state cs post row hs s' -> s_log s' = s_log s ->
   Q s' (q (view (s_db s') (s_log s')))) ->
  runs (select q) s Q.
Proof.
  intros Hs He HQ. apply run_select; [|intros _; apply He, Hs]. intros db Hdb.
  by apply (HQ (with_sql s db (s_log s))); [apply tx_others|].
Qed.

(** A statement that checks constraints and appends writes. *)
Lemma run_tx_sql {R} (stmt : Stmt R) post hs s Q :
  tx_state cs post row hs s -> on_error Q ->
  (forall s' r ws, tx_state cs post row hs s' -> s_log s' = s_log s ->
   stmt (s_now s') (view (s_db s') (s_log s')) = Ok (r, ws) ->
   Q (with_sql s' (s_db s') (s_log s' ++ ws)) (Ok r)) ->
  runs (sql stmt) s Q.
Proof.
  intros Hs He HQ. apply run_sql; [|intros _; apply He, Hs]. intros db Hdb. pose proof (tx_others _ _ _ _ Hs Hdb) as Hs'.
  specialize (HQ (with_sql s db (s_log s))). simpl in HQ.
  destruct (stmt _ _) as [[r ws]|e]; [by apply HQ|by apply He, Hs'].
Qed.

(** ** insert_journal_entry *)

Lemma line_row_ok eid l r :
  pos_column (jl_amount l) -> line_row eid l = Ok r ->
  r = {| jlm_journal_entry_id := eid; jlm_line := l |}.
Proof.
  intros (z & Hz & Hb). unfold line_row, numeric.
  rewrite pg_numeric_exact by (rewrite Hz; split; [apply is_cents_of_cents|rewrite cents_of_cents; lia]).
  simpl. intros Hr. stmt_ok Hr. by destruct l.
Qed.

Lemma line_rows_ok eid lines rows :
  Forall (fun l => pos_column (jl_amount l)) lines -> mapM (line_row eid) lines = Ok rows ->
  rows = Build_JournalLineModel eid <$> lines.
Proof.
  intros Hl Hm%mapM_ok. induction Hm as [|l r ls rs Hr _ IH]; [done|].
  apply Forall_cons in Hl as [Hpos Hl]. csimpl. rewrite <- IH by done. f_equal.
  by apply line_row_ok.
Qed.

Lemma tx_insert_entry hs s eid e :
  tx_state cs None row hs s -> journal_entries (s_db s) !! eid = None ->
  tx_state cs (Some (eid, e, [])) row hs (with_sql s (s_db s) (s_log s ++ [AddEntry eid e])).
Proof.
  intros [HI Hev [He Hl Hp Ha Hk Hs Hr] Hrow Hh Hown] Hnone. split; simpl; try done.
  - split; log_unfold; rewrite ?omap_app; fold (log_entries (s_log s));
    fold (log_accounts (s_log s)); fold (log_lines (s_log s)); fold (log_keys (s_log s));
    fold (log_subscriptions (s_log s)); fold (log_runs (s_log s)); simpl; rewrite ?app_nil_r;
    try done; by rewrite He.
  - by apply (st_log cs row).
  - by rewrite log_history_app, app_nil_r.
  - by rewrite log_keys_app, app_nil_r.
Qed.

Lemma log_lines_rows rows : log_lines (AddLine <$> rows) = rows.
Proof. by log_simpl. Qed.

Lemma tx_insert_lines hs s eid e rows :
  tx_state cs (Some (eid, e, [])) row hs s ->
  Forall (fun r => jlm_journal_entry_id r = eid) rows ->
  tx_state cs (Some (eid, e, rows)) row hs (with_sql s (s_db s) (s_log s ++ (AddLine <$> rows))).
Proof.
  intros [HI Hev [He Hl Hp Ha Hk Hs Hr] Hrow Hh Hown] Hrows. split; simpl; try done.
  - split; log_unfold; rewrite ?omap_app; fold (log_entries (s_log s));
    fold (log_accounts (s_log s)); fold (log_lines (s_log s)); fold (log_keys (s_log s));
    fold (log_subscriptions (s_log s)); fold (log_runs (s_log s));
    rewrite ?(omap_fmap_none AddLine) by done; rewrite ?app_nil_r; try done.
  + rewrite Hl. apply log_lines_rows.
  + by destruct Hp.
  - apply (st_log cs row); [done| | |done]; by log_simpl.
  - rewrite log_history_app, Hh. by log_simpl; rewrite ?app_nil_r.
  - rewrite log_keys_app. replace (log_keys (AddLine <$> rows)) with (@nil ((string * string) * IdempotencyKeyModel)) by by log_simpl.
  by rewrite app_nil_r.
Qed.

Lemma run_insert_journal_entry entry hs s Q :
  tx_state cs None row hs s -> Forall (fun l => pos_column (jl_amount l)) (je_lines entry) ->
  on_error Q ->
  (forall s' eid e, jem_payment_id e = je_payment_id entry ->
   tx_state cs (Some (eid, e, Build_JournalLineModel eid <$> je_lines entry)) row hs s' ->
   Q s' (Ok eid)) ->
  runs (insert_journal_entry entry) s Q.
Proof.
  intros Hs Hpos He HQ. apply run_bind, run_uuid4. intros eid _. apply run_bind. eapply run_tx_sql; [done|intros ? ? ?; by apply He|].
  intros s1 [] ws Hs1 Hlog Hstmt. unfold insert_entry_row in Hstmt. stmt_ok Hstmt.
  match goal with Hk : no_key _ eid = true |- _ => apply bool_decide_eq_true in Hk; rename Hk into Hnone end.
  rewrite entries_view, (tf_entries _ _ _ (ts_facts _ _ _ _ _ Hs1)) in Hnone. simpl in Hnone.
  pose proof (tx_insert_entry _ _ _ {| jem_payment_id := je_payment_id entry;
  jem_entry_type := je_entry_type entry; jem_idempotency_key_id := je_idempotency_key_id entry |}
  Hs1 Hnone) as Hs2.
  cbv beta iota. apply run_bind. eapply run_tx_sql; [done|intros ? ? ?; by apply He|].
  intros s3 [] ws Hs3 Hlog3 Hstmt. unfold insert_line_rows in Hstmt. stmt_ok Hstmt.
  match goal with Hm : mapM _ _ = Ok _ |- _ => apply line_rows_ok in Hm; [subst|done] end.
  apply run_ret. eapply HQ; [|by apply tx_insert_lines, Forall_fmap, Forall_true]. done.
Qed.

(** ** bump_account_version *)

Lemma tx_bump post hs s a :
  tx_state cs post row hs s -> accounts (view (s_db s) (s_log s)) !! acc_id a = Some a ->
  tx_state cs post row hs (with_sql s (s_db s) (s_log s ++ [PutAccount (bump_row a)])).
Proof.
  intros [HI Hev [He Hl Hp Ha Hk Hs Hr] Hrow Hh Hown] Hacc. split; simpl; try done.
  - split; log_unfold; rewrite ?omap_app; fold (log_entries (s_log s));
    fold (log_accounts (s_log s)); fold (log_lines (s_log s)); fold (log_keys (s_log s));
    fold (log_subscriptions (s_log s)); fold (log_runs (s_log s)); simpl; rewrite ?app_nil_r;
    try done.
  apply Forall_app. split; [done|]. apply Forall_singleton. simpl.
  assert (Hb : account_evolves a (bump_row a)) by (split; [by repeat split|simpl; lia]).
  rewrite accounts_view in Hacc. apply puts_lookup_inv in Hacc as [Hin|Hold]; [|by exists a].
  apply list_elem_of_fmap in Hin as (b & [= _ ->] & Hin). rewrite Forall_forall in Ha.
  destruct (Ha _ Hin) as (a0 & ? & ?). exists a0. split; [done|]. by eapply account_evolves_trans.
  - by apply (st_log cs row).
  - by rewrite log_history_app, app_nil_r.
  - by rewrite log_keys_app, app_nil_r.
Qed.

Lemma view_account_id post hs s i a :
  tx_state cs post row hs s -> accounts (view (s_db s) (s_log s)) !! i = Some a -> acc_id a = i.
Proof.
  intros Hs. rewrite accounts_view. intros [Hin|Ha]%puts_lookup_inv.
  - by apply list_elem_of_fmap in Hin as (b & [= -> ->] & _).
  - by apply (inv_account_id _ (ts_inv _ _ _ _ _ Hs)).
Qed.

Lemma run_bump_all ids versions post hs s Q :
  tx_state cs post row hs s -> on_error Q ->
  (forall s' b, tx_state cs post row hs s' -> Q s' (Ok b)) ->
  runs (bump_all ids versions) s Q.
Proof.
  intros Hs He HQ. revert s Hs. induction ids as [|i ids IH]; intros s Hs; [by apply run_ret, HQ|].
  cbn [bump_all].
  apply run_bind, run_of_result. destruct (or_raise _ _) as [v|e]; [|by apply He, Hs].
  apply run_bind. eapply run_tx_sql; [done|intros ? ? ?; by apply He|].
  intros s1 b ws Hs1 Hlog. destruct (accounts _ !! i) as [a|] eqn:Ha.
  2:{ intros [= <- <-]. rewrite app_nil_r. destruct s1. by apply run_ret, HQ. }
  destruct (acc_version a =? v).
  - intros Hstmt. stmt_ok Hstmt. apply IH, tx_bump; [done|].
  by rewrite (view_account_id _ _ _ _ _ Hs1 Ha).
  - intros [= <- <-]. rewrite app_nil_r. destruct s1. by apply run_ret, HQ.
Qed.

Lemma run_get_account_versions ids post hs s Q :
  tx_state cs post row hs s -> on_error Q ->
  (forall s' v, tx_state cs post row hs s' -> Q s' (Ok v)) ->
  runs (get_account_versions ids) s Q.
Proof.
  intros Hs He HQ. apply run_bind. eapply run_tx_select; [done|intros ? ? ?; by apply He|].
  intros s1 Hs1 _. cbv beta iota zeta. destruct (set_iter _); [by apply run_ret, HQ|by apply run_raise, He, Hs1].
Qed.
End rules.

(** * The status update, the history row, the outbox and the commit *)

Definition with_plan (row : row_pred) (plan : DB -> Prop) : row_pred :=
  fun db log => row db log /\ plan db.

(** A plan made from committed rows that later commits keep valid. *)
Definition stable_plan (plan : DB -> Prop) : Prop :=
  forall db db', Inv db -> Inv db' -> evolves db db' -> plan db -> plan db'.

Lemma stable_with_plan cs row plan :
  stable cs row -> stable_plan plan -> stable cs (with_plan row plan).
Proof.
  intros [Ho Hl] Hp. split.
  - intros s db Hcs HI [Hr Hpl] Hoth. split; [by apply (Ho s)|].
    destruct Hoth as (? & ? & _). by apply (Hp (s_db s)).
  - intros db log ws Hws Hks [? ?]. split; [by apply Hl|done].
Qed.

(** The actual row under the session's own FX update. *)
Lemma reading_row_view db log pid p fx :
  Inv db -> reading_row db log pid p fx ->
  exists p2, payments db !! pid = Some p2 /\ payment_evolves p p2 /\
    log_payments log = fx_writes p2 fx /\
    payments (view db log) !! pid =
      Some (match fx with Some (r, d) => set_fx p2 (Some r) (Some d) | None => p2 end).
Proof.
  intros HI (p2 & Hp2 & Hev & Hlog). exists p2. split_and!; try done.
  rewrite payments_view, Hlog. destruct fx as [[r d]|]; simpl; [|done].
  rewrite (po_id _ _ _ (inv_payment _ HI _ _ Hp2)). apply lookup_insert_eq.
Qed.

Lemma set_status_replaced p to_status fx :
  set_status (match fx with Some (r, d) => set_fx p (Some r) (Some d) | None => p end) to_status =
  replaced p to_status fx.
Proof. by destruct fx as [[]|]. Qed.

Lemma tx_update cs post plan hs s pid p fx to_status :
  tx_state cs post (with_plan (fun db log => reading_row db log pid p fx) plan) hs s ->
  payments (s_db s) !! pid = Some p -> log_payments (s_log s) = fx_writes p fx ->
  tx_state cs post (with_plan (fun db log => updated_row db log pid p fx to_status) plan) hs
    (with_sql s (s_db s) (s_log s ++ [PutPayment (replaced p to_status fx)])).
Proof.
  intros [HI Hev Hf [Hr Hpl] Hh Hown] Hp Hlog. split; simpl; try done.
  - apply tx_facts_quiet; [by repeat constructor|done].
  - split; [|done]. split; [done|]. by rewrite log_payments_app, Hlog.
  - rewrite log_history_app, Hh. apply app_nil_r.
  - by rewrite log_keys_app, app_nil_r.
Qed.

Lemma run_update_payment_status cs post plan hs s pid p fx to_status Q :
  stable_plan plan ->
  tx_state cs post (with_plan (fun db log => reading_row db log pid p fx) plan) hs s ->
  on_error Q ->
  (forall s', Inv (s_db s') -> Q s' (Ok false)) ->
  (forall s', tx_state cs post (with_plan (fun db log => updated_row db log pid p fx to_status) plan) hs s' ->
     Q s' (Ok true)) ->
  runs (update_payment_status pid (pay_version p) to_status) s Q.
Proof.
  intros Hplan Hs He Hf Ht.
  eapply run_tx_sql; [apply stable_with_plan; [apply stable_reading|apply Hplan]|done|done|].
  intros s1 b ws Hs1 _ Hstmt. pose proof Hs1 as [HI Hev Hfacts [Hr Hpl] Hh Hown].
  destruct (reading_row_view _ _ _ _ _ HI Hr) as (p2 & Hp2 & Hev2 & Hlog & Hview).
  rewrite Hview in Hstmt. destruct (Z.eqb_spec (pay_version
    match fx with Some (r, d) => set_fx p2 (Some r) (Some d) | None => p2 end) (pay_version p)) as [Hv|];
    [|simplify_eq; by apply Hf].
  assert (p2 = p) as -> by (apply same_version; [done|by destruct fx as [[]|]]).
  stmt_ok Hstmt. rewrite set_status_replaced. by apply Ht, tx_update.
Qed.

Lemma run_record_status_transition cs post row s pid from_status to_status reason Q :
  stable cs row -> tx_state cs post row [] s -> on_error Q ->
  (forall s' h, psh_payment_id h = pid -> psh_to_status h = to_status ->
     tx_state cs post row [h] s' -> Q s' (Ok tt)) ->
  runs (record_status_transition pid from_status to_status reason) s Q.
Proof.
  intros Hst Hs He HQ. eapply run_tx_sql; [done..|]. intros s1 [] ws Hs1 _ Hstmt. stmt_ok Hstmt.
  match goal with |- Q (with_sql _ _ (_ ++ [AddHistory ?h])) _ =>
    apply (HQ _ h); [done|done|];
    apply (tx_quiet _ _ Hst _ [] _ [AddHistory h]); [by repeat constructor|done|done]
  end.
Qed.

Section outbox.
Context `{Platform}.

Lemma run_enqueue_delivery cs post row hs s sub pid et payload Q :
  stable cs row -> tx_state cs post row hs s -> on_error Q ->
  (forall s' i, tx_state cs post row hs s' -> Q s' (Ok i)) ->
  runs (enqueue_delivery sub pid et payload) s Q.
Proof.
  intros Hst Hs He HQ. apply run_bind, run_uuid4. intros i _. cbv beta iota. apply run_bind.
  eapply run_tx_sql; [done|done|intros ? ? ?; by apply He|].
  intros s1 [] ws Hs1 _ Hstmt. unfold insert_delivery in Hstmt. stmt_ok Hstmt.
  apply run_ret, HQ. rewrite <- (app_nil_r hs).
  apply (tx_quiet _ _ Hst _ hs _ [PutDelivery _]); [by repeat constructor|done..].
Qed.

Lemma run_enqueue_payment_webhook_event cs post row hs s pid et payload Q :
  stable cs row -> tx_state cs post row hs s -> on_error Q ->
  (forall s', tx_state cs post row hs s' -> Q s' (Ok tt)) ->
  runs (enqueue_payment_webhook_event pid et payload) s Q.
Proof.
  intros Hst Hs He HQ. apply run_bind. eapply run_tx_select; [done|done|intros ? ? ?; by apply He|].
  intros s1 Hs1 _. cbv beta iota. generalize (active_subscriptions (view (s_db s1) (s_log s1))).
  intros subs. revert s1 Hs1. induction subs as [|sub subs IH]; intros s1 Hs1; [by apply run_ret, HQ|].
  cbn [for_]. apply run_bind. destruct (negb _ && negb _)%bool.
  - by apply run_ret, IH.
  - apply run_bind. eapply run_enqueue_delivery; [done|done|intros ? ? ?; by apply He|].
  intros s2 i Hs2. by apply run_ret, IH.
Qed.
End outbox.

(** ** Units of work and attempts *)

Lemma tx_start s t db pid p :
  Inv db -> payments db !! pid = Some p ->
  tx_state (s_commits s) None (fun db log => reading_row db log pid p None) [] (with_sql (with_open s t) db []).
Proof.
  intros HI Hp. split; simpl; try done. exists p. split_and!; [done|by left|done].
Qed.

(** A loop of attempts, each of which ends with the invariant and commits only if it is
    the last. *)
Lemma run_attempts_loop {A} n attempt max_attempts (body : Prog (option A)) exhausted cs s Q :
  commit_if returned body ->
  (forall s, Inv (s_db s) -> s_commits s = cs -> runs (with_uow body) s (fun s' r =>
     match r with Ok (Some a) => Q s' (Ok a) | Ok None | Err _ => Inv (s_db s') end)) ->
  (forall s e, Inv (s_db s) -> s_commits s = cs -> Q s (Err e)) ->
  Inv (s_db s) -> s_commits s = cs ->
  runs (attempts_loop n attempt max_attempts body exhausted) s Q.
Proof.
  intros Hsh Hbody He. revert attempt s. induction n as [|n IH]; intros attempt s HI Hcs.
  { by apply run_raise, He. }
  cbn [attempts_loop]. apply run_bind.
  eapply run_mono; [apply (run_commit_if _ _ returned); [by apply commit_if_uow|by apply Hbody]|].
  intros s' [[a|]|e] [Hr Hc]; cbn [returned] in Hc; [by apply run_ret| |apply He; [done|congruence]].
  apply run_bind. rewrite Hcs in Hc.
  destruct (attempt <? max_attempts - 1); [apply run_sleep|apply run_ret]; by apply IH.
Qed.
