(* ===== verification/PaymentSafety.v ===== *)
(** PaymentSafety: the payment transitions of app/domain/payments/services.py keep the
    ledger's invariant, whatever other sessions do.

    [LineBuilder] is the contract between [_transition_with_ledger_entry] and its
    [build_lines] callback; [_settlement_lines] and [_reversal_lines] are its two
    instances, and the transition is verified against the contract alone. *)
From S2P Require Import Prelude Decimals PyText PyVal Ledger Fx PaymentSM Recon Webhooks Store.
From S2P Require Import Session Repos SupportRepos LedgerService PaymentService Atomicity.
From S2P Require Import Invariant Commits Transactions PaymentRuns.

#[local] Open Scope Z_scope.

(** * Facts about accounts read earlier *)

Definition knows (db : DB) (id : UUID) (a : Account) : Prop :=
  exists a0, accounts db !! id = Some a0 /\ same_account a0 a.

Lemma stable_knows id a : stable_plan (fun db => knows db id a).
Proof.
  intros db db' _ _ Hev (a0 & Ha0 & Hs). destruct (ev_account _ _ Hev _ _ Ha0) as (a1 & Ha1 & [Hs1 _]).
  exists a1. split; [done|]. unfold same_account in *. intuition congruence.
Qed.

Lemma stable_and P Q : stable_plan P -> stable_plan Q -> stable_plan (fun db => P db /\ Q db).
Proof. intros HP HQ db db' ??? [? ?]. split; [by apply (HP db)|by apply (HQ db)]. Qed.

Lemma stable_const (P : Prop) : stable_plan (fun _ => P).
Proof. by intros db db'. Qed.

#[export] Hint Resolve stable_knows stable_and stable_const stable_with_plan : ledger.

Lemma knows_currency db id a : knows db id a -> account_currency db id = acc_currency a.
Proof.
  intros (a0 & Ha0 & Hs). unfold account_currency. rewrite Ha0. simpl.
  unfold same_account in Hs. intuition.
Qed.

Lemma knows_exists db id a : knows db id a -> is_Some (accounts db !! id).
Proof. intros (a0 & Ha0 & _). eauto. Qed.

Lemma knows_suspense db a :
  Inv db -> is_suspense a -> knows db (acc_id a) a ->
  suspense_id db = acc_id a /\ exists id b, accounts db !! id = Some b /\ is_suspense b.
Proof.
  intros HI Hs (a0 & Ha0 & Hsame).
  assert (is_suspense a0) by (unfold is_suspense, same_account in *; intuition congruence).
  split; [|eauto]. by eapply suspense_id_spec.
Qed.

(** An account row as a transaction sees it. *)
Lemma view_knows cs post row hs s id a :
  tx_state cs post row hs s -> accounts (view (s_db s) (s_log s)) !! id = Some a ->
  knows (s_db s) id a /\ acc_id a = id.
Proof.
  intros [HI _ [_ _ _ Ha _ _ _] _ _ _]. rewrite accounts_view. intros [Hin|Hold]%puts_lookup_inv.
  - apply list_elem_of_fmap in Hin as (b & [= -> ->] & Hb). rewrite Forall_forall in Ha.
    destruct (Ha b Hb) as (a0 & Ha0 & Hs & _). split; [by exists a0|done].
  - split; [by exists a|by apply (inv_account_id _ HI)].
Qed.

Lemma tx_row cs post (row row' : row_pred) hs s :
  tx_state cs post row hs s -> (row (s_db s) (s_log s) -> row' (s_db s) (s_log s)) ->
  tx_state cs post row' hs s.
Proof. intros [] H. split; auto. Qed.

(** Reading an account adds what it says to the plan. *)
Lemma run_get_account cs post row hs id plan s Q :
  stable cs row -> stable_plan plan -> tx_state cs post (with_plan row plan) hs s -> on_error Q ->
  (forall s' a, tx_state cs post (with_plan row (fun db => plan db /\ knows db id a)) hs s' ->
     Q s' (Ok a)) ->
  runs (get_account id) s Q.
Proof.
  intros Hst Hp Hs He HQ. eapply run_tx_select; [|done|done|]; [by auto with ledger|].
  intros s' Hs' _. destruct (accounts _ !! id) as [a|] eqn:Ha; [|by apply He, Hs'].
  apply HQ. eapply tx_row; [done|]. intros [? ?]. split; [done|]. split; [done|].
  by eapply view_knows.
Qed.

(** * The contract of build_lines *)

(** What the two line builders promise before the entry is validated. *)
Record draft_ok (db : DB) (p : Payment) (to_status : PaymentStatus) (fx : FieldOverrides)
    (lines : list JournalLine) : Prop := {
     dr_debtor : is_Some (accounts db !! pay_debtor_account_id p);
     dr_creditor : is_Some (accounts db !! pay_creditor_account_id p);
     dr_suspense : fx <> None \/ pay_creditor_amount p <> None ->
       exists id a, accounts db !! id = Some a /\ is_suspense a;
     dr_length : (length lines <= 4)%nat;
     dr_amounts : Forall (fun l => pos_column (jl_amount l) \/
       exists r, fx = Some (r, jl_amount l)) lines;
     dr_booked : forall r d, fx = Some (r, d) -> exists l, l ∈ lines /\ jl_amount l = d;
     dr_nets : match to_status with
       | SETTLED => pay_creditor_amount p = None /\ (fx = None <-> ~ cross_currency db p) /\
           forall a c, account_net a c lines = account_net a c (booked_lines db (replaced p SETTLED fx))
       | REVERSED => fx = None /\ forall a c, account_net a c lines = - account_net a c (booked_lines db p)
       | _ => False
       end;
   }.

(** The FX details as the column stores them: unchanged if the amount is one a line may
    have. *)
Definition stored_fx (fx fx' : FieldOverrides) : Prop :=
  match fx, fx' with
  | None, None => True
  | Some (r, d), Some (r', d') =>
      r = r' /\ (dec_le0 d = Ok false -> d = d' /\ pos_column d)
  | _, _ => False
  end.

Class LineBuilder `{Platform} (to_status : PaymentStatus) (build_lines : BuildLines) : Prop := {
  builder_commits p : no_commit (build_lines p);
  run_build_lines : forall cs pid p s Q,
    tx_state cs None (fun db log => reading_row db log pid p None) [] s ->
    payment_ok (s_db s) pid p -> allowed (pay_status p) to_status -> on_error Q ->
    (forall s' entry_type lines fx fx', stored_fx fx fx' ->
       tx_state cs None (with_plan (fun db log => reading_row db log pid p fx')
         (fun db => draft_ok db p to_status fx lines)) [] s' ->
       Q s' (Ok (entry_type, lines, fx))) ->
    runs (build_lines p) s Q;
}.

Lemma stable_draft p to_status fx lines : stable_plan (fun db => draft_ok db p to_status fx lines).
Proof.
  intros db db' HI HI' Hev [Hd Hc Hs Hlen Ha Hb Hn].
  assert (Hcd := account_currency_evolves _ _ _ Hev Hd).
  assert (Hcc := account_currency_evolves _ _ _ Hev Hc).
  split; eauto using is_some_account_evolves, suspense_exists_evolves.
  assert (Hbl : forall q, same_order p q -> (pay_creditor_amount q <> None -> fx <> None \/ pay_creditor_amount p <> None) ->
    booked_lines db' q = booked_lines db q).
  { intros q (_ & Hqd & Hqc & _) Hq. apply booked_lines_evolves; rewrite <- ?Hqd, <- ?Hqc; auto.
    by destruct HI'. }
  destruct to_status; try done.
  - destruct Hn as (Hp & Hx & Hn). split_and!; [done| |].
    + unfold cross_currency in *. by rewrite Hcd, Hcc.
    + intros a c. rewrite Hbl; [done|by destruct fx as [[]|]|]. destruct fx as [[]|]; simpl; [by left|by right].
  - destruct Hn as (-> & Hn). split; [done|]. intros a c. rewrite Hbl; [done| |by right].
    unfold same_order. by split_and!.
Qed.

(** ** After validation *)

Definition plan_ok (db : DB) (p : Payment) (to_status : PaymentStatus) (fx : FieldOverrides)
    (lines : list JournalLine) : Prop :=
  draft_ok db p to_status fx lines /\
  (forall r d, fx = Some (r, d) -> pos_column d) /\
  Forall (fun l => pos_column (jl_amount l)) lines /\ balanced lines.

Lemma stable_plan_ok p to_status fx lines : stable_plan (fun db => plan_ok db p to_status fx lines).
Proof. apply stable_and; [apply stable_draft|apply stable_const]. Qed.

Lemma pos_column_line l : pos_column (jl_amount l) -> column_line l.
Proof.
  intros (z & Hz & Hb). unfold column_line, column_amount. rewrite Hz, cents_of_cents.
  split; [apply is_cents_of_cents|lia].
Qed.

Lemma check_line_inv l : check_line l = Ok tt -> dec_le0 (jl_amount l) = Ok false.
Proof. unfold check_line. by destruct (dec_le0 _) as [[]|]. Qed.

(** A draft that passes [validate_journal_entry] can be posted as it is. *)
Lemma validated_draft db p to_status fx fx' lines :
  draft_ok db p to_status fx lines -> stored_fx fx fx' ->
  validate_journal_entry lines = Ok tt -> fx' = fx /\ plan_ok db p to_status fx lines.
Proof.
  intros Hdr Hfx Hval.
  assert (Hchk : Forall (fun l => dec_le0 (jl_amount l) = Ok false) lines).
  { unfold validate_journal_entry in Hval. destruct lines as [|l0 ls]; [done|].
    apply result_bind_ok_inv in Hval as ([] & Hval & _). apply for_each_ok in Hval.
    eapply Forall_impl; [apply Hval|]. apply check_line_inv. }
  assert (Hd : forall r d, fx = Some (r, d) -> fx' = fx /\ pos_column d).
  { intros r d ->. destruct (dr_booked _ _ _ _ _ Hdr r d eq_refl) as (l & Hl & <-).
    rewrite Forall_forall in Hchk. destruct fx' as [[r' d']|]; [|done].
    destruct Hfx as [-> Hd]. destruct (Hd (Hchk l Hl)) as [<- ?]. done. }
  assert (Hpos : Forall (fun l => pos_column (jl_amount l)) lines).
  { eapply Forall_impl; [apply (dr_amounts _ _ _ _ _ Hdr)|]. intros l [?|(r & Hr)]; [done|].
    by destruct (Hd _ _ Hr). }
  split; [|split_and!; [done| |done|]].
  - destruct fx as [[r d]|]; [by destruct (Hd r d eq_refl)|by destruct fx'].
  - intros r d Hr. by destruct (Hd r d Hr).
  - pose proof (validate_outcome_holds lines) as Hv. rewrite Hval in Hv.
    apply Hv; [eapply Forall_impl; [apply Hpos|apply pos_column_line]|].
    pose proof (dr_length _ _ _ _ _ Hdr). lia.
Qed.

Lemma plan_posting db p to_status fx lines eid e :
  plan_ok db p to_status fx lines -> jem_payment_id e = Some (pay_id p) ->
  posting_ok db p to_status fx (Some (eid, e, Build_JournalLineModel eid <$> lines)).
Proof.
  intros (Hdr & Hd & Hpos & Hbal) He. unfold posting_ok. rewrite <- list_fmap_compose.
  rewrite (list_fmap_id lines : (jlm_line ∘ Build_JournalLineModel eid <$> lines) = lines).
  split_and!; [done|done|by apply Forall_fmap|].
  pose proof (dr_nets _ _ _ _ _ Hdr) as Hn. destruct to_status; simpl in *; try done.
  destruct Hn as (_ & Hx & Hn). split_and!; [done|done|]. intros r d Hr. split; [by eapply Hd|].
  apply (dr_suspense _ _ _ _ _ Hdr). left. by rewrite Hr.
Qed.

(** * The line builders *)

Section builders.
Context `{Platform} (cs : list (list Write)) (pid : UUID) (p : Payment).

Abbreviation building plan := (tx_state cs None
  (with_plan (fun db log => reading_row db log pid p None) plan) []).

Lemma run_get_suspense plan s Q :
  stable_plan plan -> building plan s -> on_error Q ->
  (forall s' a, is_suspense a -> building (fun db => plan db /\ knows db (acc_id a) a) s' ->
   Q s' (Ok a)) ->
  runs (get_account_by_number FX_SUSPENSE_ACCOUNT_NUMBER) s Q.
Proof.
  intros Hp Hs He HQ. eapply run_tx_select; [|done|done|]; [by auto with ledger|].
  intros s' Hs' _. destruct (filter _ _) as [|[i a] l] eqn:Hf; [by apply He, Hs'|].
  assert (Hin : (i, a) ∈ (i, a) :: l) by set_solver. rewrite <- Hf in Hin.
  apply list_elem_of_filter in Hin as [Hn Hin%elem_of_map_to_list].
  destruct (view_knows _ _ _ _ _ _ _ Hs' Hin) as [Hk Hid].
  apply HQ; [done|]. eapply tx_row; [done|]. intros [? ?]. split; [done|]. split; [done|].
  simpl. by rewrite Hid.
Qed.

Lemma run_set_fx_details rate_id d plan s Q :
  pay_id p = pid -> stable_plan plan -> building plan s -> on_error Q ->
  (forall s' d', pg_numeric_18_2 d = Some d' ->
   tx_state cs None (with_plan (fun db log => reading_row db log pid p (Some (rate_id, d'))) plan) [] s' ->
   Q s' (Ok tt)) ->
  runs (set_fx_details (pay_id p) rate_id d) s Q.
Proof.
  intros Hid Hp Hs He HQ. rewrite Hid. eapply run_tx_sql; [|done|done|]; [by auto with ledger|].
  intros s1 [] ws [HI Hev Hfacts [Hr Hpl] Hh Hown] _ Hstmt.
  destruct (reading_row_view _ _ _ _ _ HI Hr) as (p2 & Hp2 & Hev2 & Hlog & Hview).
  rewrite Hview in Hstmt. unfold numeric in Hstmt. stmt_ok Hstmt.
  eapply HQ; [done|]. split; simpl; try done.
  - apply tx_facts_quiet; [by repeat constructor|done].
  - split; [|done]. exists p2. split_and!; [done..|]. by rewrite log_payments_app, Hlog.
  - by rewrite log_history_app, Hh.
  - by rewrite log_keys_app, app_nil_r.
Qed.
End builders.

Section instances.
Context `{Platform}.

Lemma stored_amount r d d' :
  (dec_le0 d = Ok false -> exists z, d = of_cents z /\ 0 < z) -> pg_numeric_18_2 d = Some d' ->
  stored_fx (Some (r, d)) (Some (r, d')).
Proof.
  intros Hc Hn. split; [done|]. intros Hpos. destruct (Hc Hpos) as (z & -> & Hz).
  destruct (Z.lt_ge_cases z (10 ^ 18)) as [Hlt|Hge].
  - rewrite pg_numeric_exact in Hn
    by (split; [apply is_cents_of_cents|rewrite cents_of_cents; lia]).
  simplify_eq. split; [done|]. by exists z.
  - rewrite pg_numeric_overflow in Hn; [done|apply is_cents_of_cents|rewrite cents_of_cents; lia].
Qed.

(** Both ways of settling. *)
Lemma direct_draft db p debtor creditor :
  pos_column (pay_amount p) -> pay_creditor_amount p = None ->
  knows db (pay_debtor_account_id p) debtor -> knows db (pay_creditor_account_id p) creditor ->
  acc_currency debtor = acc_currency creditor ->
  draft_ok db p SETTLED None
  [line (pay_debtor_account_id p) DEBIT (pay_amount p) (pay_currency p);
   line (pay_creditor_account_id p) CREDIT (pay_amount p) (pay_currency p)].
Proof.
  intros Hok Hn Hd Hc Heq.
  split; eauto using knows_exists; try done.
  - rewrite Hn. intuition.
  - split_and!; [done| |].
  + unfold cross_currency. rewrite (knows_currency _ _ _ Hd), (knows_currency _ _ _ Hc). tauto.
  + intros a c. unfold booked_lines. simpl. by rewrite Hn.
Qed.

Lemma fx_draft db p debtor creditor suspense r d :
  Inv db -> pos_column (pay_amount p) -> pay_creditor_amount p = None ->
  knows db (pay_debtor_account_id p) debtor -> knows db (pay_creditor_account_id p) creditor ->
  is_suspense suspense -> knows db (acc_id suspense) suspense ->
  acc_currency debtor <> acc_currency creditor ->
  draft_ok db p SETTLED (Some (r, d))
  [line (pay_debtor_account_id p) DEBIT (pay_amount p) (acc_currency debtor);
   line (acc_id suspense) CREDIT (pay_amount p) (acc_currency debtor);
   line (acc_id suspense) DEBIT d (acc_currency creditor);
   line (pay_creditor_account_id p) CREDIT d (acc_currency creditor)].
Proof.
  intros HI Hok Hn Hd Hc Hs Hks Hne.
  destruct (knows_suspense _ _ HI Hs Hks) as [Hsus Hex].
  split; eauto using knows_exists; try done.
  - repeat (apply Forall_cons; split; [(left; exact Hok) || (right; by exists r)|]). by apply Forall_nil.
  - intros r' d' [= <- <-]. eexists. split; [apply list_elem_of_further, list_elem_of_further, list_elem_of_here|done].
  - split_and!; [done| |].
  + unfold cross_currency. rewrite (knows_currency _ _ _ Hd), (knows_currency _ _ _ Hc). naive_solver.
  + intros a c. unfold booked_lines. simpl.
    by rewrite (knows_currency _ _ _ Hd), (knows_currency _ _ _ Hc), Hsus.
Qed.
End instances.

Section line_builders.
Context `{Platform}.

(** Before anything is read, the plan is empty. *)
Lemma building_start cs pid p s :
  tx_state cs None (fun db log => reading_row db log pid p None) [] s ->
  tx_state cs None (with_plan (fun db log => reading_row db log pid p None) (fun _ => True)) [] s.
Proof. intros Hs. eapply tx_row; [apply Hs|]. by split. Qed.

#[export] Instance settlement_builder : LineBuilder SETTLED _settlement_lines.
Proof.
  split; [apply no_commit_settlement_lines|]. intros cs pid p s Q Hs%building_start Hok Hal He HQ.
  assert (Hn : pay_creditor_amount p = None)
  by (apply (po_unmoved _ _ _ Hok); by rewrite (allowed_settled _ Hal)).
  pose proof (po_amount _ _ _ Hok) as Ha. pose proof (po_id _ _ _ Hok) as Hid.
  apply run_bind. eapply run_get_account; [| |done|by intros ? ?; apply He|]; [by auto with ledger..|].
  intros s1 debtor Hs1. cbv beta iota.
  apply run_bind. eapply run_get_account; [| |done|by intros ? ?; apply He|]; [by auto with ledger..|].
  intros s2 creditor Hs2. cbv beta iota.
  case_bool_decide as Heq.
  { apply run_ret. apply (HQ _ _ _ None None I). eapply tx_row; [done|].
  intros [? ((_ & ?) & ?)]. split; [done|]. by eapply direct_draft. }
  apply run_bind. eapply run_tx_select; [|done|intros ? ? ?; by apply He|]; [by auto 10 with ledger|].
  intros s3 Hs3 _. destruct (merge_sort _ _) as [|rate rates]; [by apply He, Hs3|]. cbv beta iota.
  apply run_bind, run_of_result. destruct (convert_amount _ _) as [d|] eqn:Hconv; [|by apply He, Hs3].
  apply run_bind. eapply run_get_suspense; [|done|by intros ? ?; apply He|]; [auto with ledger|].
  intros s4 suspense Hsus Hs4. cbv beta iota.
  apply run_bind. eapply run_set_fx_details; [done| |done|by intros ? ?; apply He|]; [auto 10 with ledger|].
  intros s5 d' Hd' Hs5. apply run_ret.
  eapply (HQ _ _ _ (Some (fx_id rate, d)) (Some (fx_id rate, d'))).
  - apply stored_amount; [|done]. intros Hpos. by eapply convert_amount_positive.
  - eapply tx_row; [done|]. intros [? (((_ & ?) & ?) & ?)]. split; [done|].
  by apply fx_draft; [apply Hs5|..].
Qed.

Lemma reversal_nets_direct db p a c :
  pay_creditor_amount p = None ->
  account_net a c
  [line (pay_creditor_account_id p) DEBIT (pay_amount p) (pay_currency p);
   line (pay_debtor_account_id p) CREDIT (pay_amount p) (pay_currency p)] =
  - account_net a c (booked_lines db p).
Proof.
  intros Hn. unfold booked_lines. rewrite Hn. unfold account_net, acct_cents, signed_cents. simpl.
  repeat case_decide; lia.
Qed.

Lemma reversal_nets_fx db p d debtor creditor suspense a c :
  pay_creditor_amount p = Some d -> suspense_id db = acc_id suspense ->
  account_currency db (pay_debtor_account_id p) = acc_currency debtor ->
  account_currency db (pay_creditor_account_id p) = acc_currency creditor ->
  account_net a c
  [line (acc_id suspense) DEBIT (pay_amount p) (acc_currency debtor);
   line (pay_debtor_account_id p) CREDIT (pay_amount p) (acc_currency debtor);
   line (pay_creditor_account_id p) DEBIT d (acc_currency creditor);
   line (acc_id suspense) CREDIT d (acc_currency creditor)] =
  - account_net a c (booked_lines db p).
Proof.
  intros Hn Hs Hd Hc. unfold booked_lines. rewrite Hn, Hs, Hd, Hc.
  unfold account_net, acct_cents, signed_cents. simpl. repeat case_decide; lia.
Qed.

#[export] Instance reversal_builder : LineBuilder REVERSED _reversal_lines.
Proof.
  split; [apply no_commit_reversal_lines|]. intros cs pid p s Q Hs%building_start Hok Hal He HQ. unfold _reversal_lines.
  pose proof (po_amount _ _ _ Hok) as Ha.
  destruct (pay_creditor_amount p) as [d|] eqn:Hn.
  2:{ apply run_ret. apply (HQ _ _ _ None None I). eapply tx_row; [done|].
    intros [? _]. split; [done|].
    split; [apply Hok|apply Hok|rewrite Hn; tauto|simpl; lia| |done|].
    { repeat (apply Forall_cons; split; [by left|]). by apply Forall_nil. }
    split; [done|]. intros a c. by apply reversal_nets_direct. }
  destruct (po_fx _ _ _ Hok d Hn) as [Hd _].
  apply run_bind. eapply run_get_account; [| |done|by intros ? ?; apply He|]; [by auto with ledger..|].
  intros s1 debtor Hs1. cbv beta iota.
  apply run_bind. eapply run_get_account; [| |done|by intros ? ?; apply He|]; [by auto with ledger..|].
  intros s2 creditor Hs2. cbv beta iota.
  apply run_bind. eapply run_get_suspense; [|done|by intros ? ?; apply He|]; [auto with ledger|].
  intros s3 suspense Hsus Hs3. apply run_ret. apply (HQ _ _ _ None None I).
  pose proof (ts_inv _ _ _ _ _ Hs3) as HI. eapply tx_row; [apply Hs3|].
  intros [? (((_ & Hk1) & Hk2) & Hk3)]. split; [done|].
  destruct (knows_suspense _ _ HI Hsus Hk3) as [Hid Hex].
  split; eauto using knows_exists; try done.
  - repeat (apply Forall_cons; split; [by left|]). by apply Forall_nil.
  - split; [done|]. intros a c. apply reversal_nets_fx; eauto using knows_currency.
Qed.
End line_builders.

(** * The transitions *)

Lemma tx_owns cs post row hs s db :
  tx_state cs post row hs (with_sql s db (s_log s)) -> owns_keys (s_commits s) db (s_log s).
Proof.
  intros [_ Hcs _ _ _ Hown] e k r Hin. right. simpl in *. rewrite Hcs.
  rewrite Forall_forall in Hown. apply (Hown ((e, k), r)).
  apply list_elem_of_omap. by exists (PutKey e k r).
Qed.

(** What is left when a program ends. *)
Definition keeps_inv {A} (s : Sess) (_ : result Exn A) : Prop := Inv (s_db s).

(** A payment has reached a status by one commit, which recorded it and nothing else, and
    what was returned is the row committed. *)
Record moved_to (cs : list (list Write)) (pid : UUID) (to_status : PaymentStatus) (a : Payment)
    (s : Sess) : Prop := {
     mt_inv : Inv (s_db s);
     mt_row : payments (s_db s) !! pid = Some a;
     mt_status : pay_status a = to_status;
     mt_commit : exists log h, s_commits s = cs ++ [log] /\ log_history log = [h] /\
       psh_payment_id h = pid /\ psh_to_status h = to_status;
   }.

(** The end of an attempt: a conflict or an exception leaves the invariant. *)
Definition attempt_end (cs : list (list Write)) (pid : UUID) (to_status : PaymentStatus) (s : Sess)
    (r : result Exn (option Payment)) : Prop :=
  match r with
  | Ok (Some a) => moved_to cs pid to_status a s
  | Ok None | Err _ => Inv (s_db s)
  end.

(** The end of a transition: it happened, by one commit, or nothing was committed. *)
Definition transition_end (cs : list (list Write)) (pid : UUID) (to_status : PaymentStatus) (s : Sess)
    (r : result Exn Payment) : Prop :=
  match r with
  | Ok a => moved_to cs pid to_status a s
  | Err _ => Inv (s_db s) /\ s_commits s = cs
  end.

Lemma transition_end_inv cs pid to_status s r : transition_end cs pid to_status s r -> keeps_inv s r.
Proof. destruct r; intros Hr; apply Hr. Qed.

Section transitions.
Context `{Platform}.

(** The last statements of every payment transaction. *)
Lemma run_finish cs plan post s pid p fx to_status from_status reason et payload :
  tx_state cs post (with_plan (fun db log => updated_row db log pid p fx to_status) plan) [] s ->
  stable_plan plan -> (forall db, plan db -> posting_ok db p to_status fx post) ->
  allowed (pay_status p) to_status -> pay_id p = pid ->
  runs (record_status_transition pid from_status to_status reason ;;
      enqueue_payment_webhook_event pid et payload ;; commit ;; Ret (Some (replaced p to_status fx))) s
  (fun s' r => attempt_end cs pid to_status (with_sql s' (s_db s') []) r).
Proof.
  intros Hs Hst Hplan Hal Hid. apply run_bind.
  eapply run_record_status_transition; [|done|by intros ? ?|]; [by auto with ledger|].
  intros s1 h Hh1 Hh2 Hs1. cbv beta iota. apply run_bind.
  eapply run_enqueue_payment_webhook_event; [|done|by intros ? ?|]; [by auto with ledger|].
  intros s2 Hs2. cbv beta iota. apply run_bind, run_commit; [|intros _; apply Hs2]. intros db Hdb.
  pose proof (ts_history _ _ _ _ _ Hs2) as Hh. pose proof (ts_commits _ _ _ _ _ Hs2) as Hcs.
  eapply tx_others in Hs2; [|by auto with ledger|apply Hdb].
  assert (Hgood : good db (view db (s_log s2))).
  { destruct Hs2 as [HI _ Hf [Hr Hpl] _ _]. simpl in *. eapply payment_commit; eauto. }
  split; [split_and!; [done|by eapply tx_owns|]|].
  { unfold one_status. rewrite history_view, Hh, length_app. simpl. lia. }
  apply run_ret. split; simpl.
  - apply Hgood.
  - rewrite (payments_updated db (s_log s2) pid p fx to_status) by (done || apply Hs2).
  apply lookup_insert_eq.
  - by destruct fx as [[]|].
  - exists (s_log s2), h. rewrite Hcs. split_and!; try done.
  destruct (s_log s2); [done|]. done.
Qed.

Lemma run_conflict cs pid to_status s : Inv (s_db s) ->
  runs (rollback ;; Ret None) s (fun s' r => attempt_end cs pid to_status (with_sql s' (s_db s') []) r).
Proof. intros HI. by apply run_bind, run_rollback, run_ret. Qed.

(** What an attempt's unit of work leaves. *)
Definition attempted_end (cs : list (list Write)) (pid : UUID) (to_status : PaymentStatus) (s : Sess)
    (r : result Exn (option Payment)) : Prop :=
  match r with Ok (Some a) => moved_to cs pid to_status a s | Ok None | Err _ => Inv (s_db s) end.

(** An attempt's unit of work, and the loop around it. *)
Lemma run_attempt_uow cs pid to_status body s :
  (forall t, runs body (with_open s t) (fun s' r => attempt_end cs pid to_status (with_sql s' (s_db s') []) r)) ->
  runs (with_uow body) s (attempted_end cs pid to_status).
Proof.
  intros Hb. eapply run_mono; [apply (run_with_uow _ _ _ _ (attempt_end cs pid to_status)); apply Hb|].
  by intros ? [[]|].
Qed.

Lemma run_status_attempt pid to_status reason s :
  money_moved to_status = false -> Inv (s_db s) ->
  runs (with_uow (status_attempt pid to_status reason)) s (attempted_end (s_commits s) pid to_status).
Proof.
  intros Hm HI. apply run_attempt_uow. intros t. apply run_bind, run_select; [|done]. intros db Hdb.
  change (view db (s_log (with_open s t))) with db.
  assert (HIdb : Inv db) by apply Hdb.
  destruct (payments db !! pid) as [p|] eqn:Hp; [|done]. cbn [or_raise].
  apply run_bind, run_of_result.
  destruct (assert_transition_allowed (pay_status p) to_status) as [[]|] eqn:Hal; [|done]. cbn [map_err].
  apply run_bind.
  eapply (run_update_payment_status (s_commits s) None (fun _ => posting_ok db p to_status None None) [] _ pid p None).
  - by intros ? ?.
  - eapply tx_row; [by apply (tx_start s t db pid p)|]. by split.
  - by intros ? ?.
  - intros s1 HI1. by apply run_conflict.
  - intros s1 Hs1. eapply (run_finish (s_commits s) _ None _ pid p None); try done.
  by apply (inv_payment _ HIdb).
Qed.

Lemma run_entry_attempt pid to_status build_lines s :
  LineBuilder to_status build_lines -> Inv (s_db s) ->
  runs (with_uow (entry_attempt pid to_status build_lines)) s (attempted_end (s_commits s) pid to_status).
Proof.
  intros Hb HI. apply run_attempt_uow. intros t. apply run_bind, run_select; [|done]. intros db Hdb.
  change (view db (s_log (with_open s t))) with db.
  assert (HIdb : Inv db) by apply Hdb.
  destruct (payments db !! pid) as [p|] eqn:Hp; [|done]. cbn [or_raise].
  apply run_bind, run_of_result.
  destruct (assert_transition_allowed (pay_status p) to_status) as [[]|] eqn:Hal; [|done]. cbn [map_err].
  assert (Hid : pay_id p = pid) by apply (inv_payment _ HIdb _ _ Hp).
  apply run_bind, (run_build_lines (s_commits s) pid).
  { by apply (tx_start s t db pid p). }
  { by apply (inv_payment _ HIdb). }
  { done. }
  { by intros ? ?. }
  intros s1 et lines fx fx' Hfx Hs1. cbv beta iota zeta.
  apply run_bind, run_of_result. cbn [je_lines].
  destruct (validate_journal_entry lines) as [[]|] eqn:Hval; [|apply Hs1]. cbn [map_err].
  destruct (validated_draft _ _ _ _ _ _ (proj2 (ts_row _ _ _ _ _ Hs1)) Hfx Hval) as [-> Hplan].
  assert (Hs2 : tx_state (s_commits s) None (with_plan (fun db log => reading_row db log pid p fx)
    (fun db => plan_ok db p to_status fx lines)) [] s1).
  { eapply tx_row; [apply Hs1|]. by intros [? _]. }
  clear Hs1. rename Hs2 into Hs1.
  assert (Hst : stable (s_commits s) (with_plan (fun db log => reading_row db log pid p fx)
    (fun db => plan_ok db p to_status fx lines)))
  by (apply stable_with_plan; [apply stable_reading|apply stable_plan_ok]).
  apply run_bind. eapply run_get_account_versions; [done|done|by intros ? ?|].
  intros s2 versions Hs2. cbv beta iota.
  apply run_bind. eapply run_insert_journal_entry; [done|done|apply Hplan|by intros ? ?|].
  intros s3 eid e He Hs3. simpl in He. cbv beta iota.
  apply run_bind. eapply run_bump_all; [done|done|by intros ? ?|].
  intros s4 [] Hs4; cbv beta iota; apply run_bind.
  { apply run_ret, run_conflict, Hs4. }
  apply run_bind.
  eapply (run_update_payment_status (s_commits s) _ (fun db => plan_ok db p to_status fx lines) [] _ pid p fx);
  [apply stable_plan_ok|apply Hs4|by intros ? ?| |].
  - intros s5 HI5. by apply run_ret, run_conflict.
  - intros s5 Hs5. apply run_ret. simpl negb. cbv iota.
  eapply (run_finish (s_commits s) _ (Some (eid, e, Build_JournalLineModel eid <$> lines)) _ pid p fx);
    [apply Hs5|apply stable_plan_ok| |done|done].
  intros db' Hpl. apply plan_posting; [done|]. by rewrite He.
Qed.

(** The loops. *)
Lemma run_transition_status_only pid to_status reason max_attempts s :
  money_moved to_status = false -> Inv (s_db s) ->
  runs (_transition_status_only pid to_status reason max_attempts) s
  (transition_end (s_commits s) pid to_status).
Proof.
  intros Hm HI. eapply run_attempts_loop; [apply commit_if_status_attempt| |done|done|done].
  intros s' HI' <-. by apply run_status_attempt.
Qed.

Lemma run_transition_with_ledger_entry pid to_status build_lines max_attempts s :
  LineBuilder to_status build_lines -> Inv (s_db s) ->
  runs (_transition_with_ledger_entry pid to_status build_lines max_attempts) s
  (transition_end (s_commits s) pid to_status).
Proof.
  intros Hb HI. eapply run_attempts_loop;
  [apply commit_if_entry_attempt, builder_commits| |done|done|done].
  intros s' HI' <-. by apply run_entry_attempt.
Qed.

(** * Properties *)

(** C3. Whatever other sessions do meanwhile, and whatever statement or commit the database
    fails, each of the four lifecycle operations either
    returns the payment in its new status, having made exactly one commit, which recorded
    that status for that payment and left the returned row in the database; or it raises and
    has committed nothing, retries included. *)
Theorem transitions_atomic pid max_attempts reason s :
  Inv (s_db s) ->
  runs (authorise_payment pid max_attempts) s (transition_end (s_commits s) pid AUTHORISED) /\
  runs (fail_payment pid reason max_attempts) s (transition_end (s_commits s) pid FAILED) /\
  runs (settle_payment pid max_attempts) s (transition_end (s_commits s) pid SETTLED) /\
  runs (reverse_payment pid max_attempts) s (transition_end (s_commits s) pid REVERSED).
Proof.
  intros HI. split; [|split; [|split]].
  - exact (run_transition_status_only pid AUTHORISED None max_attempts s eq_refl HI).
  - exact (run_transition_status_only pid FAILED reason max_attempts s eq_refl HI).
  - exact (run_transition_with_ledger_entry pid SETTLED _ max_attempts s settlement_builder HI).
  - exact (run_transition_with_ledger_entry pid REVERSED _ max_attempts s reversal_builder HI).
Qed.
End transitions.
