(* ===== verification/InitiationSafety.v ===== *)
(** InitiationSafety: creating payments, claiming and completing idempotency keys
    (app/domain/payments/services.py) keep the ledger's invariant among other sessions. *)
From S2P Require Import Prelude Decimals PyText PyVal Ledger Fx PaymentSM Recon Webhooks Store.
From S2P Require Import Session Repos SupportRepos LedgerService PaymentService Atomicity.
From S2P Require Import Invariant Commits Transactions PaymentRuns PaymentSafety.

#[local] Open Scope Z_scope.

(** * The commit of a new payment *)

(** The row a transaction has inserted but not committed. *)
Definition new_row (db : DB) (log : list Write) (p : Payment) : Prop :=
  payments db !! pay_id p = None /\ log_payments log = [p].

Lemma stable_new_row cs p : stable cs (fun db log => new_row db log p).
Proof.
  split.
  - intros s db _ HI [Hn Hlog] Ho. split; [|done]. rewrite <- Hn.
    apply (payment_row_locked s db p Ho). rewrite Hlog. set_solver.
  - intros db log ws Hws _ [? Hlog]. split; [done|].
    by rewrite log_payments_app, Hws, app_nil_r.
Qed.

(** What the checks before and in the INSERT establish. *)
Record initiated (db : DB) (p : Payment) : Prop := {
  in_amount : pos_column (pay_amount p);
  in_debtor : is_Some (accounts db !! pay_debtor_account_id p);
  in_creditor : is_Some (accounts db !! pay_creditor_account_id p);
  in_distinct : pay_debtor_account_id p <> pay_creditor_account_id p;
  in_currency : pay_currency p = account_currency db (pay_debtor_account_id p);
  in_status : pay_status p = INITIATED;
  in_version : pay_version p = 0;
  in_fx : pay_creditor_amount p = None;
}.

Lemma stable_initiated p : stable_plan (fun db => initiated db p).
Proof.
  intros db db' _ _ Hev []. split; eauto using is_some_account_evolves.
  by rewrite (account_currency_evolves db db').
Qed.

Section creation.
Context (db : DB) (log : list Write) (p : Payment) (h : PaymentStatusHistoryModel).
Hypothesis HI : Inv db.
Hypothesis Hfacts : tx_facts db log None.
Hypothesis Hrow : new_row db log p.
Hypothesis Hp : initiated db p.
Hypothesis Hhist : log_history log = [h].
Hypothesis Hh : psh_payment_id h = pay_id p /\ psh_to_status h = INITIATED.

Let db' := view db log.

Lemma cr_payments : payments db' = <[pay_id p := p]> (payments db).
Proof. unfold db'. rewrite payments_view. by destruct Hrow as [_ ->]. Qed.

Lemma cr_evolves : evolves db db'.
Proof.
  apply evolves_view. destruct Hfacts as [He Hl _ Ha Hk Hs Hr]. split.
  - eapply Forall_impl; [apply Ha|]. intros a (a0 & Ha0 & ?) a1 Ha1. by simplify_eq.
  - by rewrite He.
  - fold db'. rewrite cr_payments. intros i q Hq. exists q. split; [|by left].
  rewrite lookup_insert_ne; [done|]. intros <-. destruct Hrow as [Hn _]. congruence.
  - eapply Forall_impl; [apply Hk|]. tauto.
  - by rewrite Hs.
  - by rewrite Hr.
Qed.

Lemma cr_unique : unique_numbers db'.
Proof. apply bumps_unique; [done|]. by destruct Hfacts. Qed.

(** Nothing was recorded or posted for the new identifier before. *)
Lemma cr_blank :
  history_of db (pay_id p) = [] /\ payment_lines db (pay_id p) = [] /\ payment_entries db (pay_id p) = ∅.
Proof.
  destruct Hrow as [Hn _].
  assert (Hent : forall i e, journal_entries db !! i = Some e -> jem_payment_id e <> Some (pay_id p)).
  { intros i e He Hpay. destruct (inv_entry_payment _ HI _ _ He) as (q & Hq & [? ?]). congruence. }
  unfold history_of, payment_lines, payment_entries. split_and!.
  - rewrite filter_none; [done|]. apply Forall_forall. intros g Hg Heq.
  destruct (inv_history _ HI _ Hg). congruence.
  - rewrite filter_none; [done|]. apply Forall_forall. intros l _ Heq.
  unfold entry_of_payment in Heq. destruct (journal_entries db !! _) as [e|] eqn:He; [|done].
  by apply (Hent _ _ He).
  - apply map_empty. intros i. apply map_lookup_filter_None. right. intros e He. by apply (Hent _ _ He).
Qed.

Lemma cr_history i :
  history_of db' i = history_of db i ++ (if decide (i = pay_id p) then [INITIATED] else []).
Proof.
  unfold db'. rewrite history_of_view, Hhist. destruct Hh as [Hi Hs]. f_equal.
  rewrite filter_cons, filter_nil. repeat case_decide; csimpl; congruence.
Qed.

Lemma cr_payment_ok : payment_ok db' (pay_id p) p.
Proof.
  destruct cr_blank as (Hb1 & Hb2 & Hb3). pose proof cr_evolves as Hev.
  destruct Hfacts as [He Hl _ _ _ _ _]. destruct (no_posting_lines db log (pay_id p) He Hl) as (H1 & H2 & _).
  fold db' in H1, H2. destruct Hp.
  split; rewrite ?H1, ?H2, ?Hb2, ?Hb3, ?in_status0, ?in_fx0; eauto using is_some_account_evolves; try done.
  - by rewrite (account_currency_evolves db db').
  - exists []. rewrite cr_history, Hb1, decide_True by done. by rewrite in_status0.
Qed.

Lemma creation_commit : good db db'.
Proof.
  split; [|apply cr_evolves]. apply (Inv_step db); [done|apply cr_evolves|].
  pose proof Hfacts as [He Hl _ Ha Hk Hs Hr].
  split; eauto using cr_unique.
  - unfold db'. intros i a. rewrite accounts_view. intros [Hin|Hold]%puts_lookup_inv.
  + by apply list_elem_of_fmap in Hin as (b & [= -> ->] & _).
  + by apply (inv_account_id _ HI).
  - intros i. destruct (decide (i = pay_id p)) as [->|Hne].
  + right. exists p. rewrite cr_payments, lookup_insert_eq. split; [done|apply cr_payment_ok].
  + left. destruct (no_posting_lines db log i He Hl) as (H1 & H2 & _). split; try done.
    * rewrite cr_payments. by rewrite lookup_insert_ne.
    * by rewrite cr_history, decide_False, app_nil_r.
  - unfold db' at 1. rewrite history_view, Hhist. intros g [|Hg]%elem_of_app; [by left|right].
  apply list_elem_of_singleton in Hg as ->. destruct Hh as [-> _].
  rewrite cr_payments, lookup_insert_eq. eauto.
  - unfold db' at 1. intros i e. rewrite entries_view, He. by left.
  - unfold db' at 1. rewrite lines_view, Hl, app_nil_r. by left.
  - intros i. left. by destruct (no_posting_lines db log i He Hl) as (_ & _ & ?).
  - unfold db'. intros k r. rewrite keys_view. intros [Hin|]%puts_lookup_inv; [right|by left].
  rewrite Forall_forall in Hk. by apply (Hk _ Hin).
  - unfold db'. intros i d. rewrite deliveries_view. intros [Hin|Hd]%puts_lookup_inv.
  + by apply list_elem_of_fmap in Hin as (b & [= -> ->] & _).
  + by apply (inv_delivery _ HI).
  - unfold db'. intros i d. rewrite subscriptions_view, Hs. apply (inv_subscription _ HI).
Qed.
End creation.

(** * The statements of a creation *)

(** Nothing written to payments or idempotency_keys yet. *)
Definition blank (_ : DB) (log : list Write) : Prop := log_payments log = [].
Definition no_keys (_ : DB) (log : list Write) : Prop := log_keys log = [].

Definition both (r1 r2 : row_pred) : row_pred := fun db log => r1 db log /\ r2 db log.

Lemma stable_both cs r1 r2 : stable cs r1 -> stable cs r2 -> stable cs (both r1 r2).
Proof.
  intros [A1 B1] [A2 B2]. split.
  - intros s db Hcs HI [? ?] Ho. split; [by apply (A1 s)|by apply (A2 s)].
  - intros db log ws Hws Hks [? ?]. split; [by apply B1|by apply B2].
Qed.

Lemma stable_blank cs : stable cs blank.
Proof.
  split; [by intros|]. intros db log ws Hws _ Hlog. unfold blank in *.
  by rewrite log_payments_app, Hws, Hlog.
Qed.

Lemma stable_no_keys cs : stable cs no_keys.
Proof.
  split; [by intros|]. intros db log ws _ Hks Hlog. unfold no_keys, log_keys in *.
  by rewrite omap_app, Hks, Hlog.
Qed.

#[export] Hint Resolve stable_both stable_blank stable_no_keys stable_new_row stable_initiated : ledger.

Section runs.
Context `{Platform} (cs : list (list Write)) (ex : row_pred).
Hypothesis Hex : stable cs ex.
Hypothesis Hex_payment : forall db log p, ex db log -> ex db (log ++ [PutPayment p]).

Lemma view_account_exists post row hs s i :
  tx_state cs post row hs s -> is_Some (accounts (view (s_db s) (s_log s)) !! i) ->
  is_Some (accounts (s_db s) !! i).
Proof.
  intros Hs [a Ha]. eapply view_knows in Hs as [Hk _]; [|apply Ha]. by eapply knows_exists.
Qed.

(** The payment that a request asks for. *)
Record requested (debtor creditor : UUID) (amount : Decimal) (currency : string)
  (e2e : option string) (p : Payment) : Prop := {
   rq_debtor : pay_debtor_account_id p = debtor;
   rq_creditor : pay_creditor_account_id p = creditor;
   rq_amount : pg_numeric_18_2 amount = Some (pay_amount p);
   rq_currency : pay_currency p = currency;
   rq_end_to_end : pay_end_to_end_id p = e2e;
   rq_status : pay_status p = INITIATED;
   rq_version : pay_version p = 0;
   rq_creditor_amount : pay_creditor_amount p = None;
 }.

(** A positive amount is stored as a positive number of cents. *)
Lemma stored_positive d x :
  pg_numeric_18_2 d = Some x -> dec_le0 d = Ok false -> sql_gt0 x = true -> pos_column x.
Proof.
  intros Hx Hd Hgt. apply pg_numeric_stored in Hx as [[Hc Hb]|[_ [b ->]]]; [|done].
  exists (cents_of x). split; [done|]. rewrite Hc in Hgt. unfold of_cents in Hgt. simpl in Hgt.
  apply andb_prop in Hgt as [Hn Hz]. apply negb_true_iff in Hn, Hz.
  apply Z.ltb_ge in Hn. apply N.eqb_neq in Hz. lia.
Qed.

(** The row that the INSERT of a valid payment stores. *)
Lemma run_create_row debtor creditor amount currency e2e plan s Q :
  dec_le0 amount = Ok false -> debtor <> creditor -> stable_plan plan ->
  (forall db, plan db -> account_currency db debtor = currency) ->
  tx_state cs None (with_plan (both blank ex) plan) [] s -> on_error Q ->
  (forall s' p, requested debtor creditor amount currency e2e p ->
   tx_state cs None (with_plan (both (fun db log => new_row db log p) ex)
     (fun db => initiated db p)) [] s' -> Q s' (Ok p)) ->
  runs (repo_create_payment debtor creditor amount currency e2e) s Q.
Proof.
  intros Hpos Hne Hplan Hccy Hs He HQ. apply run_bind, run_uuid4. intros u _. cbv beta iota.
  apply run_bind. eapply run_tx_sql; [|done|intros ? ? ?; by apply He|]; [by auto with ledger|].
  intros s1 [] ws Hs1 _ Hstmt. unfold insert_payment, numeric in Hstmt. stmt_ok Hstmt.
  set (p := Build_Payment _ _ _ _ _ _ _ _ _ _).
  repeat match goal with
  | Hk : no_key _ _ = true |- _ => apply bool_decide_eq_true in Hk
  | Hk : fk _ _ = true |- _ => apply bool_decide_eq_true, (view_account_exists _ _ _ _ _ Hs1) in Hk
  end.
  assert (Hs2 : tx_state cs None (with_plan (both (fun db log => new_row db log p) ex)
   (fun db => initiated db p)) [] (with_sql s1 (s_db s1) (s_log s1 ++ [PutPayment p]))).
  { destruct Hs1 as [HI Hcs Hf [[Hb Hx] Hpl] Hh Hown]. split; simpl; try done.
  - apply tx_facts_quiet; [by repeat constructor|done].
  - split; [split|].
    + split; [|by rewrite log_payments_app, Hb]. unfold blank in Hb.
      match goal with Hk : payments _ !! _ = None |- _ => rewrite payments_view, Hb in Hk; exact Hk end.
    + by apply Hex_payment.
    + split; simpl; try done; [by eapply stored_positive|by rewrite Hccy].
  - by rewrite log_history_app, Hh.
  - by rewrite log_keys_app, app_nil_r. }
  eapply run_tx_select; [|done|intros ? ? ?; by apply He|]; [by auto with ledger|]. intros s3 Hs3 _.
  assert (Hp : payments (view (s_db s3) (s_log s3)) !! u = Some p).
  { destruct Hs3 as [_ _ _ [[[_ Hlog] _] _] _ _]. rewrite payments_view, Hlog. apply lookup_insert_eq. }
  rewrite Hp. by apply HQ; [split|].
Qed.

Lemma run_create_payment_within debtor creditor amount currency e2e s Q :
  dec_le0 amount = Ok false -> debtor <> creditor ->
  tx_state cs None (both blank ex) [] s -> on_error Q ->
  (forall s' p h, requested debtor creditor amount currency e2e p ->
   psh_payment_id h = pay_id p -> psh_to_status h = INITIATED ->
   tx_state cs None (with_plan (both (fun db log => new_row db log p) ex)
     (fun db => initiated db p)) [h] s' -> Q s' (Ok p)) ->
  runs (_create_payment_within debtor creditor amount currency e2e) s Q.
Proof.
  intros Hpos Hne Hs He HQ. apply run_bind, run_bind.
  eapply (run_get_account cs None (both blank ex) [] _ (fun _ => True));
  [by auto with ledger|by auto with ledger|eapply tx_row; [apply Hs|by split]|intros ? ? ?; by apply He|].
  intros s1 a Hs1. cbv beta iota. case_bool_decide as Hccy; [|by apply run_raise, He, Hs1].
  apply run_ret, run_bind.
  eapply run_create_row; [done|done| | |apply Hs1|intros ? ? ?; by apply He|].
  { by auto with ledger. }
  { intros db [_ Hk]. by rewrite (knows_currency _ _ _ Hk). }
  intros s2 p Hreq Hs2. cbv beta iota. apply run_bind.
  eapply run_record_status_transition; [|done|intros ? ? ?; by apply He|]; [by auto with ledger|].
  intros s3 h Hh1 Hh2 Hs3. cbv beta iota. apply run_bind.
  eapply run_enqueue_payment_webhook_event; [|done|intros ? ? ?; by apply He|]; [by auto with ledger|].
  intros s4 Hs4. by eapply run_ret, (HQ _ _ _ Hreq).
Qed.

(** The commit at the end of a creation. *)
Lemma run_commit_creation {A} (a : A) s p h Q :
  psh_payment_id h = pay_id p -> psh_to_status h = INITIATED ->
  tx_state cs None (with_plan (both (fun db log => new_row db log p) ex)
   (fun db => initiated db p)) [h] s -> on_error Q ->
  (forall s' db, moved_to cs (pay_id p) INITIATED p s' -> s_db s' = view db (s_log s) ->
   ex db (s_log s) -> Q s' (Ok a)) ->
  runs (commit ;; Ret a) s Q.
Proof.
  intros Hh1 Hh2 Hs He HQ. apply run_bind, run_commit; [|intros _; apply He, Hs]. intros db Hdb.
  pose proof (ts_history _ _ _ _ _ Hs) as Hh. pose proof (ts_commits _ _ _ _ _ Hs) as Hcs.
  eapply tx_others in Hs; [|by auto with ledger|apply Hdb]. pose proof (tx_owns _ _ _ _ _ _ Hs) as Hown.
  destruct Hs as [HI _ Hf [[Hr Hx] Hin] _ _]. simpl in *.
  assert (Hc : good db (view db (s_log s))) by (by eapply creation_commit).
  split; [split_and!; [done|done|]|apply run_ret, (HQ _ db)]; [|split|done|done]; simpl.
  - unfold one_status. rewrite history_view, Hh, length_app. simpl. lia.
  - apply Hc.
  - destruct Hr as [_ Hlog]. rewrite payments_view, Hlog. apply lookup_insert_eq.
  - by destruct Hin.
  - exists (s_log s), h. rewrite Hcs. split_and!; try done. by destruct (s_log s).
Qed.
End runs.

(** * Commits that touch no payment *)

Record side_facts (db : DB) (log : list Write) : Prop := {
  sf_payments : log_payments log = [];
  sf_entries : log_entries log = [];
  sf_lines : log_lines log = [];
  sf_history : log_history log = [];
  sf_accounts : Forall (fun a => accounts db !! acc_id a = None /\
    map_Forall (fun _ b => acc_account_number b <> acc_account_number a) (accounts db)) (log_accounts log);
  sf_one_account : (length (log_accounts log) <= 1)%nat;
  sf_keys : Forall (fun kv => key_ok kv.2 /\ idempotency_keys db !! kv.1 = None) (log_keys log);
  sf_subscriptions : Forall (fun x => webhook_subscriptions db !! sub_id x = None) (log_subscriptions log);
  sf_runs : Forall (fun x => reconciliation_runs db !! rrm_id x = None) (log_runs log);
}.

Section side.
Context (db : DB) (log : list Write).
Hypothesis HI : Inv db.
Hypothesis Hs : side_facts db log.

Lemma side_evolves : evolves db (view db log).
Proof.
  apply evolves_view. destruct Hs as [Hp He Hl Hh Ha _ Hk Hsub Hr]. split; try done.
  - eapply Forall_impl; [apply Ha|]. simpl. intros a [Hn _] a0. congruence.
  - by rewrite He.
  - intros i p Hi. exists p. rewrite payments_view, Hp. split; [done|by left].
  - eapply Forall_impl; [apply Hk|]. intros kv [_ Hn] r. congruence.
Qed.

Lemma side_accounts i a :
  accounts (view db log) !! i = Some a ->
  accounts db !! i = Some a \/ (log_accounts log = [a] /\ acc_id a = i).
Proof.
  rewrite accounts_view. intros [Hin|]%puts_lookup_inv; [right|by left].
  apply list_elem_of_fmap in Hin as (b & [= -> ->] & Hin). split; [|done].
  pose proof (sf_one_account _ _ Hs). destruct (log_accounts log) as [|x [|]]; simpl in *; [set_solver| |lia].
  apply list_elem_of_singleton in Hin. by subst.
Qed.

Lemma side_unique : unique_numbers (view db log).
Proof.
  intros i j a b Ha Hb Hn. apply side_accounts in Ha, Hb.
  pose proof (sf_accounts _ _ Hs) as Hnew.
  destruct Ha as [Ha|[La <-]], Hb as [Hb|[Lb <-]].
  - by eapply (inv_account_number _ HI).
  - rewrite Lb in Hnew. apply Forall_singleton in Hnew as [_ Hnew]. by destruct (Hnew _ _ Ha).
  - rewrite La in Hnew. apply Forall_singleton in Hnew as [_ Hnew]. by destruct (Hnew _ _ Hb).
  - congruence.
Qed.

Lemma side_commit : good db (view db log).
Proof.
  split; [|apply side_evolves]. apply (Inv_step db); [done|apply side_evolves|].
  destruct Hs as [Hp He Hl Hh _ _ Hk Hsub Hr].
  split.
  - intros i a [Ha|[_ ?]]%side_accounts; [|done]. by apply (inv_account_id _ HI).
  - apply side_unique.
  - intros i. left. destruct (no_posting_lines db log i He Hl) as (H1 & H2 & _). split; try done.
  + by rewrite payments_view, Hp.
  + rewrite history_of_view, Hh. apply app_nil_r.
  - rewrite history_view, Hh, app_nil_r. by left.
  - intros i e. rewrite entries_view, He. by left.
  - rewrite lines_view, Hl, app_nil_r. by left.
  - intros i. left. by destruct (no_posting_lines db log i He Hl) as (_ & _ & ?).
  - intros k r. rewrite keys_view. intros [Hin|]%puts_lookup_inv; [right|by left].
  rewrite Forall_forall in Hk. by apply (Hk _ Hin).
  - intros i d. rewrite deliveries_view. intros [Hin|Hd]%puts_lookup_inv.
  + by apply list_elem_of_fmap in Hin as (b & [= -> ->] & _).
  + by apply (inv_delivery _ HI).
  - intros i d. rewrite subscriptions_view. intros [Hin|Hd]%puts_lookup_inv.
  + by apply list_elem_of_fmap in Hin as (b & [= -> ->] & _).
  + by apply (inv_subscription _ HI).
Qed.
End side.

Lemma side_facts_nil db : side_facts db [].
Proof. split; simpl; first [done|lia|by apply Forall_nil]. Qed.

Lemma side_owns cs db log : side_facts db log -> owns_keys cs db log.
Proof.
  intros Hs e k r Hin. left. pose proof (sf_keys _ _ Hs) as Hk. rewrite Forall_forall in Hk.
  apply (Hk ((e, k), r)). apply list_elem_of_omap. by exists (PutKey e k r).
Qed.

(** The facts of a side transaction survive other sessions' commits. *)
Lemma side_facts_others s db :
  side_facts (s_db s) (s_log s) -> others s db -> side_facts db (s_log s).
Proof.
  intros [Hp He Hl Hh Ha H1 Hk Hsub Hr] (HI & Hev & HL & _). split; try done.
  - rewrite Forall_forall in *. intros a Hin. destruct (Ha a Hin) as [Hn Hnum].
    destruct (locked (PutAccount a) _ _ _ HL (log_accounts_in _ _ Hin)) as [Hlk Hlkn].
    rewrite Hlk. split; [done|]. intros i b Hb Heq.
    destruct (Hlkn i b Hb Heq) as [b0 Hb0]. destruct (ev_account _ _ Hev _ _ Hb0) as (b' & Hb' & [Hsame _]).
    simplify_eq. apply (Hnum i b0 Hb0). unfold same_account in Hsame. intuition congruence.
  - rewrite Forall_forall in *. intros [k r] Hin. destruct (Hk _ Hin) as [? Hold]. split; [done|].
    rewrite <- Hold. destruct k as [ep k].
    apply (locked (PutKey ep k r) _ _ _ HL). by apply (log_keys_in (ep, k)).
  - rewrite Forall_forall in *. intros x Hin. rewrite <- (Hsub x Hin).
    apply (locked (PutSubscription x) _ _ _ HL).
    by apply list_elem_of_omap in Hin as ([] & ? & ?); simplify_eq.
  - rewrite Forall_forall in *. intros x Hin. rewrite <- (Hr x Hin).
    apply (locked (AddRun x) _ _ _ HL).
    by apply list_elem_of_omap in Hin as ([] & ? & ?); simplify_eq.
Qed.

Record side_state (cs : list (list Write)) (s : Sess) : Prop := {
  ss_inv : Inv (s_db s);
  ss_commits : s_commits s = cs;
  ss_facts : side_facts (s_db s) (s_log s);
}.

Lemma side_others cs s db :
  side_state cs s -> others s db -> side_state cs (with_sql s db (s_log s)).
Proof.
  intros [HI Hcs Hf] Ho. pose proof Ho as [HI' _]. split; simpl; [done|done|].
  by eapply side_facts_others.
Qed.

Lemma run_side_select {R} cs (q : DB -> result Exn R) s Q :
  side_state cs s -> Q s (Err DBAPIError) ->
  (forall s', side_state cs s' -> s_log s' = s_log s -> Q s' (q (view (s_db s') (s_log s')))) ->
  runs (select q) s Q.
Proof.
  intros Hs He HQ. apply run_select; [|done]. intros db Hdb.
  apply (HQ (with_sql s db (s_log s))); [by apply side_others|done].
Qed.

Lemma run_side_sql {R} cs (stmt : Stmt R) s Q :
  side_state cs s -> on_error Q ->
  (forall s' r ws, side_state cs s' -> s_log s' = s_log s ->
     stmt (s_now s') (view (s_db s') (s_log s')) = Ok (r, ws) ->
     Q (with_sql s' (s_db s') (s_log s' ++ ws)) (Ok r)) ->
  runs (sql stmt) s Q.
Proof.
  intros Hs He HQ. apply run_sql; [|intros _; apply He, Hs]. intros db Hdb. pose proof (side_others _ _ _ Hs Hdb) as Hs'.
  specialize (HQ (with_sql s db (s_log s))). simpl in HQ.
  destruct (stmt _ _) as [[r ws]|e]; [by apply HQ|by apply He, Hs'].
Qed.

Lemma run_side_commit cs s Q :
  side_state cs s -> Q (with_sql s (s_db s) []) (Err DBAPIError) ->
  (forall s', Inv (s_db s') -> s_log s' = [] ->
     s_commits s' = cs ++ (if s_log s is [] then [] else [s_log s]) ->
     (exists db, others s db /\ s_db s' = view db (s_log s)) -> Q s' (Ok tt)) ->
  runs commit s Q.
Proof.
  intros Hs He HQ. apply run_commit; [|done]. intros db Hdb.
  destruct (side_others _ _ _ Hs Hdb) as [HI _ Hf].
  assert (Hc : good db (view db (s_log s))) by by apply side_commit.
  split; [split_and!; [done|by apply side_owns|]|].
  { unfold one_status. rewrite history_view, (sf_history _ _ Hf : log_history (s_log s) = _), app_nil_r. lia. }
  apply HQ; [apply Hc|done| |by exists db].
  simpl. by rewrite (ss_commits _ _ Hs).
Qed.

Lemma side_start cs s t : Inv (s_db s) -> s_commits s = cs -> side_state cs (with_open s t).
Proof. intros HI Hcs. split; simpl; [done|done|apply side_facts_nil]. Qed.

(** * Idempotent initiation *)

Section idempotent.
Context `{Platform} (endpoint key request_hash : string).

(** The key this program has claimed is still in progress. *)
Definition in_progress (db : DB) : Prop :=
  exists r, idempotency_keys db !! (endpoint, key) = Some r /\ ik_status r = IN_PROGRESS /\
  ik_request_hash r = request_hash.
Definition claim_row : row_pred := fun db log => no_keys db log /\ in_progress db.

(** The key answers a later request with a stored response. *)
Definition replayable (db : DB) (code : option Z) (body : option pydict) : Prop :=
  exists r, idempotency_keys db !! (endpoint, key) = Some r /\ ik_status r = COMPLETED /\
  ik_request_hash r = request_hash /\ ik_response_status_code r = code /\ ik_response_body r = body.

Lemma replayable_evolves db db' code body :
  evolves db db' -> replayable db code body -> replayable db' code body.
Proof.
  intros Hev (r & Hr & Hst & ?). destruct (ev_key _ _ Hev _ _ Hr) as (r' & Hr' & [->|[Hp _]] & _);
  [by exists r'|congruence].
Qed.

(** The key's row as the completing commit leaves it. *)
Definition completed_row (code : Z) (body : pydict) : row_pred := fun _ log =>
  exists r, log_keys log = [((endpoint, key), complete_row r code body)] /\
  ik_request_hash r = request_hash.

Lemma stable_completed cs code body : stable cs (completed_row code body).
Proof.
  split; [by intros|]. intros db log ws _ Hks (r & Hr & ?). exists r. split; [|done].
  unfold log_keys in *. by rewrite omap_app, Hr, Hks.
Qed.

Lemma completed_replayable db log code body :
  completed_row code body db log -> replayable (view db log) (Some code) (Some (_json_serializer body)).
Proof.
  intros (r & Hlog & Hh). eexists. rewrite keys_view, Hlog. split; [apply lookup_insert_eq|done].
Qed.

Lemma claim_kept s db :
  claimed_by (s_commits s) (endpoint, key) -> in_progress (s_db s) -> others s db -> in_progress db.
Proof.
  intros Hcl (r & Hr & Hst) (_ & _ & _ & Hkeep). exists r. split; [|done].
  by rewrite (Hkeep _ Hcl).
Qed.

Lemma stable_claim cs : claimed_by cs (endpoint, key) -> stable cs claim_row.
Proof.
  intros Hcs. split.
  - intros s db Hs HI [Hn Hp] Ho. split; [done|]. eapply claim_kept; [by rewrite Hs|done|done].
  - intros db log ws Hws Hks [Hn Hp]. split; [|done]. by apply (st_log _ _ (stable_no_keys cs)).
Qed.

(** What [begin_attempt] has written and read. *)
Definition begun (s : Sess) (o : IdempotencyOutcome) : Prop :=
  match io_kind o with
  | STARTED => exists r, s_log s = [PutKey endpoint key r] /\ ik_status r = IN_PROGRESS /\
    ik_request_hash r = request_hash
  | REPLAY => s_log s = [] /\
    replayable (s_db s) (io_response_status_code o) (io_response_body o)
  | _ => s_log s = []
  end.

Lemma run_begin_attempt cs s Q :
  side_state cs s -> s_log s = [] -> on_error Q ->
  (forall s' o, side_state cs s' -> begun s' o -> Q s' (Ok o)) ->
  runs (begin_attempt key endpoint request_hash) s Q.
Proof.
  intros Hs Hlog He HQ. apply run_bind, run_uuid4. intros u _. cbv beta iota. apply run_bind.
  eapply run_side_sql; [done|intros ? ? ?; by apply He|]. intros s1 b ws Hs1 Hl1 Hstmt.
  rewrite Hlog in Hl1. unfold claim_key in Hstmt. rewrite Hl1 in *.
  apply require_bind in Hstmt as [_ Hstmt]. apply require_bind in Hstmt as [_ Hstmt].
  apply require_bind in Hstmt as [_ Hstmt].
  destruct (no_key _ _) eqn:Hk; stmt_ok Hstmt.
  - apply bool_decide_eq_true in Hk. apply run_ret, HQ; [|by eexists].
  destruct Hs1 as [HI Hcs _]. split; [done|done|]. simpl in *.
  split; simpl; first [done|lia|by apply Forall_nil|by apply Forall_singleton].
  - apply run_bind. eapply run_side_select; [split; simpl; [apply Hs1|apply Hs1|apply side_facts_nil]|apply He, Hs1|].
  intros s2 Hs2 Hl2. rewrite Hl2. cbn [with_sql s_log app]. change (view (s_db s2) []) with (s_db s2).
  destruct (idempotency_keys _ !! _) as [r|] eqn:Hr; [|by apply He, Hs2].
  cbn [or_raise]. destruct (decide _) as [Hp|Hp]; [by apply run_ret, HQ|].
  case_bool_decide as Hh; simpl negb; cbv iota; apply run_ret, HQ; try done.
  split; [done|]. exists r. split_and!; try done. by destruct (ik_status r).
Qed.

(** The end of the first unit of work. *)
Definition claim_end (cs : list (list Write)) (s : Sess) (o : IdempotencyOutcome) : Prop :=
  match io_kind o with
  | STARTED => exists r, s_commits s = cs ++ [[PutKey endpoint key r]] /\
    ik_status r = IN_PROGRESS /\ in_progress (s_db s)
  | REPLAY => s_commits s = cs /\
    replayable (s_db s) (io_response_status_code o) (io_response_body o)
  | _ => s_commits s = cs
  end.

Lemma run_claim debtor currency s :
  Inv (s_db s) ->
  runs (with_uow
   (_assert_debtor_currency_matches debtor currency ;;
    outcome ← begin_attempt key endpoint request_hash;
    commit ;;
    Ret outcome)) s
  (fun s' r => (Inv (s_db s') /\ match r with Ok o => claim_end (s_commits s) s' o | Err _ => True end) /\
     if is_ok r then exists l, (length l <= 1)%nat /\ s_commits s' = s_commits s ++ l
     else s_commits s' = s_commits s).
Proof.
  intros HI. apply run_commit_if.
  { apply commit_if_uow; [done|]. apply commit_if_bind_before; [|done|intros _].
  { apply no_commit_bind; [apply no_commit_get_account|intros a]. by destruct (bool_decide _). }
  apply commit_if_bind_before; [apply no_commit_begin|done|done]. }
  apply run_with_uow. intros t. apply run_bind, run_bind.
  eapply run_side_select; [by apply side_start|done|]. intros s1 Hs1 Hl1.
  destruct (accounts _ !! debtor) as [a|]; [|split; [apply Hs1|done]]. cbn [or_raise].
  case_bool_decide; [|apply run_raise; split; [apply Hs1|done]]. apply run_ret, run_bind.
  eapply run_begin_attempt; [done|done|by intros ? ? ?|]. intros s2 o Hs2 Hclaim. cbv beta iota.
  apply run_bind. eapply run_side_commit; [done|by split; [apply Hs2|]|]. intros s3 HI3 Hl3 Hc3 (db & Hdb & Hdb3).
  apply run_ret. split; [done|]. unfold claim_end, begun in *. cbn [with_sql s_commits s_db].
  destruct (io_kind o).
  - destruct Hclaim as (r & Hlog & Hr & Hh). rewrite Hlog in Hc3, Hdb3. exists r.
  split_and!; [done|done|]. exists r. rewrite Hdb3, keys_view. split; [apply lookup_insert_eq|done].
  - destruct Hclaim as [Hlog Hrep]. rewrite Hlog in Hc3, Hdb3. rewrite app_nil_r in Hc3.
  split; [done|]. rewrite Hdb3. eapply replayable_evolves; [|done]. apply Hdb.
  - rewrite Hclaim in Hc3. by rewrite app_nil_r in Hc3.
  - rewrite Hclaim in Hc3. by rewrite app_nil_r in Hc3.
Qed.

Lemma run_complete_attempt cs code body p h s Q :
  claimed_by cs (endpoint, key) ->
  tx_state cs None (with_plan (both (fun db log => new_row db log p) claim_row)
   (fun db => initiated db p)) [h] s -> on_error Q ->
  (forall s', tx_state cs None (with_plan (both (fun db log => new_row db log p) (completed_row code body))
   (fun db => initiated db p)) [h] s' -> Q s' (Ok tt)) ->
  runs (complete_attempt key endpoint code body) s Q.
Proof.
  intros Hcs Hs He HQ. eapply run_tx_sql; [|done|done|].
  { apply stable_with_plan; [apply stable_both; [apply stable_new_row|by apply stable_claim]|apply stable_initiated]. }
  intros s1 [] ws [HI Hcs1 [He1 Hl1 Hp1 Ha1 Hk1 Hs1 Hr1] [[Hnew [Hno (r & Hr & Hst & Hh0)]] Hin] Hh Hown] _ Hstmt.
  unfold no_keys in Hno. rewrite keys_view, Hno in Hstmt. simpl in Hstmt. rewrite Hr in Hstmt. simplify_eq.
  apply HQ. split; simpl; try done.
  - split; log_unfold; rewrite ?omap_app; fold (log_entries (s_log s1));
    fold (log_accounts (s_log s1)); fold (log_lines (s_log s1)); fold (log_keys (s_log s1));
    fold (log_subscriptions (s_log s1)); fold (log_runs (s_log s1)); simpl; rewrite ?app_nil_r;
    try done.
  rewrite Hno. apply Forall_singleton. simpl. split; [split; eauto|].
  intros r0 Hr0. simplify_eq. split; [right|done]. done.
  - split; [|done]. split.
  + destruct Hnew as [? Hlog]. split; [done|]. by rewrite log_payments_app, Hlog.
  + exists r. split; [|done]. by rewrite log_keys_app, Hno.
  - rewrite log_history_app, Hh. done.
  - rewrite log_keys_app. apply Forall_app. split; [done|]. by apply Forall_singleton.
Qed.

(** The end of the second unit of work. *)
Definition created_end (cs : list (list Write)) debtor creditor amount currency e2e (s : Sess)
  (body : pydict) : Prop :=
  exists p, requested debtor creditor amount currency e2e p /\
  moved_to cs (pay_id p) INITIATED p s /\ body = _payment_response_dict p /\
  replayable (s_db s) (Some 201) (Some (_json_serializer body)).

Lemma run_create_claimed debtor creditor amount currency e2e s :
  dec_le0 amount = Ok false -> debtor <> creditor -> Inv (s_db s) ->
  claimed_by (s_commits s) (endpoint, key) -> in_progress (s_db s) ->
  runs (with_uow
   (payment ← _create_payment_within debtor creditor amount currency e2e;
    let response_body := _payment_response_dict payment in
    complete_attempt key endpoint 201 response_body ;;
    commit ;;
    Ret response_body)) s
  (fun s' r => (Inv (s_db s') /\
     match r with
     | Ok body => created_end (s_commits s) debtor creditor amount currency e2e s' body
     | Err _ => True
     end) /\
     if is_ok r then exists l, (length l <= 1)%nat /\ s_commits s' = s_commits s ++ l
     else s_commits s' = s_commits s).
Proof.
  intros Hpos Hne HI Hcl Hip. apply run_commit_if.
  { apply commit_if_uow; [done|]. apply commit_if_bind_before; [apply no_commit_create_within|done|intros p].
  cbv zeta. apply commit_if_bind_before; [apply no_commit_sql|done|done]. }
  apply run_with_uow. intros t. apply run_bind.
  eapply (run_create_payment_within (s_commits s) claim_row);
  [by apply stable_claim| |done|done| |by intros ? ? ?|].
  - intros db' log p [Hn ?]. split; [|done]. unfold no_keys, log_keys in *. by rewrite omap_app, Hn.
  - by split; simpl.
  - intros s4 p h Hreq Hh1 Hh2 Hs4. cbv beta iota zeta. apply run_bind.
  eapply run_complete_attempt; [done|done|by intros ? ? ?|].
  intros s5 Hs5. cbv beta iota.
  eapply (run_commit_creation (s_commits s) (completed_row 201 (_payment_response_dict p)));
    [apply stable_completed|done|done|done|by intros ? ? ?|].
  intros s6 db Hmv Hdb6 Hcomp. split; [apply Hmv|]. exists p. split_and!; [done| |done|].
  + by destruct Hmv as [? ? ? ?]; split.
  + cbn [with_sql s_db]. rewrite Hdb6. by apply completed_replayable.
Qed.
End idempotent.

(** * The two ways to initiate a payment *)

Section initiate.
Context `{Platform}.

Lemma validate_new_payment_ok amount debtor creditor u :
  _validate_new_payment amount debtor creditor = Ok u ->
  dec_le0 amount = Ok false /\ debtor <> creditor.
Proof.
  unfold _validate_new_payment. destruct (dec_le0 amount) as [[]|]; simpl; try done.
  case_bool_decide; simpl; done.
Qed.

Lemma creation_start cs s t :
  Inv (s_db s) -> s_commits s = cs ->
  tx_state cs None blank [] (with_open s t).
Proof. intros HI Hcs. by split. Qed.

(** A payment was created by one commit, or nothing was committed. *)
Definition initiation_end (cs : list (list Write)) debtor creditor amount currency e2e (s : Sess)
  (r : result Exn Payment) : Prop :=
  match r with
  | Ok p => requested debtor creditor amount currency e2e p /\ moved_to cs (pay_id p) INITIATED p s
  | Err _ => Inv (s_db s) /\ s_commits s = cs
  end.

Lemma run_initiate_payment debtor creditor amount currency e2e s :
  Inv (s_db s) -> runs (initiate_payment debtor creditor amount currency e2e) s
  (initiation_end (s_commits s) debtor creditor amount currency e2e).
Proof.
  intros HI. apply run_bind, run_of_result.
  destruct (_validate_new_payment _ _ _) as [u|] eqn:Hv; [|done].
  apply validate_new_payment_ok in Hv as [Hpos Hne].
  eapply run_mono; [apply (run_commit_if _ _ is_ok)|].
  { apply commit_if_uow; [done|]. by apply commit_if_bind_before; [apply no_commit_create_within|..]. }
  { apply (run_with_uow _ _ _ _ (fun s' r => match r with
    | Ok p => requested debtor creditor amount currency e2e p /\ moved_to (s_commits s) (pay_id p) INITIATED p s'
    | Err _ => Inv (s_db s') end)). intros t.
  apply run_bind. eapply (run_create_payment_within (s_commits s) (fun _ _ => True));
    [split; by intros|done|done|done|eapply tx_row; [by apply creation_start|by split]|by intros ? ? ?|].
  intros s1 p h Hreq Hh1 Hh2 Hs1. cbv beta iota.
  eapply (run_commit_creation (s_commits s) (fun _ _ => True)); [split; by intros|done|done|done|by intros ? ? ?|].
  intros s2 db [? ? ? ?] _ _. split; [done|by split]. }
  by intros s' [p|e] [Hr Hc].
Qed.

(** How a request with an idempotency key can end. *)
Inductive idempotent_end (cs : list (list Write)) (key request_hash : string)
  debtor creditor amount currency e2e (s : Sess) : result Exn (Z * pydict) -> Prop :=
  | end_nothing e : s_commits s = cs -> idempotent_end cs key request_hash debtor creditor amount currency e2e s (Err e)
  | end_replay code body :
  s_commits s = cs ->
  replayable IDEMPOTENCY_ENDPOINT_INITIATE_PAYMENT key request_hash (s_db s) (Some code) (Some body) ->
  idempotent_end cs key request_hash debtor creditor amount currency e2e s (Ok (code, body))
  | end_orphaned c e :
  s_commits s = cs ++ [[PutKey IDEMPOTENCY_ENDPOINT_INITIATE_PAYMENT key c]] ->
  ik_status c = IN_PROGRESS ->
  idempotent_end cs key request_hash debtor creditor amount currency e2e s (Err e)
  | end_created c body :
  ik_status c = IN_PROGRESS ->
  created_end IDEMPOTENCY_ENDPOINT_INITIATE_PAYMENT key request_hash
    (cs ++ [[PutKey IDEMPOTENCY_ENDPOINT_INITIATE_PAYMENT key c]])
    debtor creditor amount currency e2e s body ->
  idempotent_end cs key request_hash debtor creditor amount currency e2e s (Ok (201, body)).

Lemma run_initiate_payment_idempotent key body debtor creditor amount currency e2e s :
  Inv (s_db s) ->
  runs (initiate_payment_idempotent key body debtor creditor amount currency e2e) s
  (fun s' r => Inv (s_db s') /\
     idempotent_end (s_commits s) key (hash_request_body body) debtor creditor amount currency e2e s' r).
Proof.
  intros HI. apply run_bind, run_of_result.
  destruct (_validate_new_payment _ _ _) as [u|] eqn:Hv; [|by split; [|apply end_nothing]].
  apply validate_new_payment_ok in Hv as [Hpos Hne]. cbv zeta. apply run_bind.
  eapply run_mono; [by apply run_claim|]. intros s1 [o|e] [[HI1 Ho] Hc]; [|by split; [|apply end_nothing]].
  clear Hc. cbv beta iota. unfold claim_end in Ho. destruct (io_kind o).
  - destruct Ho as (c & Hc & Hst & Hip). apply run_bind.
  eapply run_mono; [apply run_create_claimed; try done|].
  { exists c. split; [|done]. rewrite Hc, concat_app. simpl. set_solver. }
  intros s2 [b|e] [[HI2 Hr] Hc2].
  + rewrite Hc in Hr. apply run_ret. split; [done|]. by eapply end_created.
  + split; [done|]. eapply end_orphaned; [|done]. simpl in Hc2. congruence.
  - destruct Ho as [Hc Hrep]. apply run_bind, run_of_result.
  destruct (io_response_status_code o); [|by split; [|apply end_nothing]]. cbn [or_raise].
  apply run_bind, run_of_result. destruct (io_response_body o); [|by split; [|apply end_nothing]].
  apply run_ret. split; [done|by apply end_replay].
  - apply run_raise. split; [done|by apply end_nothing].
  - apply run_raise. split; [done|by apply end_nothing].
Qed.

(** * Properties *)

(** C5. A request with an idempotency key, among arbitrary other sessions, ends in one of
    four ways: it raises having committed nothing; it replays the stored response of a
    completed request with the same body hash, committing nothing; it claims the key and then
    fails, leaving the key in progress for ever; or it claims the key and in a second commit
    creates exactly the requested payment and completes the key with the response it
    returns. *)
Theorem idempotent_initiation_correct key body debtor creditor amount currency e2e s :
  Inv (s_db s) ->
  runs (initiate_payment_idempotent key body debtor creditor amount currency e2e) s
  (fun s' r => Inv (s_db s') /\
     idempotent_end (s_commits s) key (hash_request_body body) debtor creditor amount currency e2e s' r).
Proof. apply run_initiate_payment_idempotent. Qed.

(** C12. An initiation without a key (an ingested pain.001 message), among arbitrary other
    sessions, returns exactly the requested payment, created by one commit, or raises and
    commits nothing. *)
Theorem initiation_atomic debtor creditor amount currency e2e s :
  Inv (s_db s) -> runs (initiate_payment debtor creditor amount currency e2e) s
  (initiation_end (s_commits s) debtor creditor amount currency e2e).
Proof. apply run_initiate_payment. Qed.
End initiate.
