(* ===== verification/Book.v ===== *)
(** Book: the abstract specification of the ledger, and what a safe commit does to it.

    A [Book] is what a user of the service can observe of the money: the status of every
    payment, what every settled payment has moved, and every account's position.  A
    [book_step] initiates one payment, or advances one payment along its lifecycle, moving
    exactly its money when it settles and moving it back when it is reversed. *)
From S2P Require Import Prelude Decimals Ledger PaymentSM Store Session Repos PaymentService.
From S2P Require Import Invariant Commits Transactions.

#[local] Open Scope Z_scope.

(** * The specification *)

Record Book := {
  bk_status : gmap UUID PaymentStatus;
  bk_moved : gmap UUID (list JournalLine);
  bk_position : UUID -> string -> Z;
}.

Definition book_equiv : Equiv Book := fun b1 b2 =>
  bk_status b1 = bk_status b2 /\ bk_moved b1 = bk_moved b2 /\
  forall a c, bk_position b1 a c = bk_position b2 a c.
#[export] Existing Instance book_equiv.

#[export] Instance book_equivalence : Equivalence (equiv (A := Book)).
Proof.
  split.
  - by intros b.
  - intros b1 b2 (? & ? & Hp). split_and!; [done|done|]. intros a c. by rewrite Hp.
  - intros b1 b2 b3 (? & ? & Hp) (? & ? & Hq). split_and!; [congruence..|].
    intros a c. by rewrite Hp.
Qed.

(** What one payment may do to the book. *)
Inductive book_step (b b' : Book) (id : UUID) : Prop :=
| book_initiate :
    bk_status b !! id = None ->
    bk_status b' = <[id := INITIATED]> (bk_status b) ->
    bk_moved b' = bk_moved b ->
    (forall a c, bk_position b' a c = bk_position b a c) ->
    book_step b b' id
| book_advance s s' :
    bk_status b !! id = Some s -> allowed s s' -> money_moved s' = false ->
    bk_status b' = <[id := s']> (bk_status b) ->
    bk_moved b' = bk_moved b ->
    (forall a c, bk_position b' a c = bk_position b a c) ->
    book_step b b' id
| book_settle lines :
    bk_status b !! id = Some AUTHORISED -> bk_moved b !! id = None -> balanced lines ->
    bk_status b' = <[id := SETTLED]> (bk_status b) ->
    bk_moved b' = <[id := lines]> (bk_moved b) ->
    (forall a c, bk_position b' a c = bk_position b a c + account_net a c lines) ->
    book_step b b' id
| book_reverse lines :
    bk_status b !! id = Some SETTLED -> bk_moved b !! id = Some lines ->
    bk_status b' = <[id := REVERSED]> (bk_status b) ->
    bk_moved b' = delete id (bk_moved b) ->
    (forall a c, bk_position b' a c = bk_position b a c - account_net a c lines) ->
    book_step b b' id.

(** * The book of a database *)

Definition settled_lines (db : DB) (p : Payment) : option (list JournalLine) :=
  if decide (pay_status p = SETTLED) then Some (booked_lines db p) else None.

Definition position (db : DB) (a : UUID) (c : string) : Z :=
  account_net a c (jlm_line <$> journal_lines db).

Definition book_of (db : DB) : Book :=
  {| bk_status := pay_status <$> payments db;
     bk_moved := omap (settled_lines db) (payments db);
     bk_position := position db |}.

(** * Sums over payments *)

Definition sum_map {A} (f : UUID -> A -> Z) (m : gmap UUID A) : Z :=
  sumZ ((fun kv => f kv.1 kv.2) <$> map_to_list m).

Lemma sum_map_insert {A} (f : UUID -> A -> Z) m i x :
  m !! i = None -> sum_map f (<[i := x]> m) = f i x + sum_map f m.
Proof.
  intros Hi. unfold sum_map.
  by rewrite (sumZ_perm _ _ (fmap_Permutation _ _ _ (map_to_list_insert m i x Hi))).
Qed.

Lemma sum_map_delete {A} (f : UUID -> A -> Z) m i x :
  m !! i = Some x -> sum_map f m = f i x + sum_map f (delete i m).
Proof.
  intros Hi. rewrite <- (insert_delete_id m i x Hi) at 1.
  by apply sum_map_insert, lookup_delete_eq.
Qed.

Lemma sum_map_ext {A} (f g : UUID -> A -> Z) m :
  (forall i x, m !! i = Some x -> f i x = g i x) -> sum_map f m = sum_map g m.
Proof.
  intros Hfg. unfold sum_map. f_equal. apply list_fmap_ext. intros n [i x] Hn. simpl.
  apply Hfg, elem_of_map_to_list. by eapply list_elem_of_lookup_2.
Qed.

Lemma sum_map_zero {A} (m : gmap UUID A) : sum_map (fun _ _ => 0) m = 0.
Proof.
  unfold sum_map. induction (map_to_list m) as [|kv l IH]; [done|]. csimpl. unfold sumZ in *. simpl. lia.
Qed.

(** Adding at one key. *)
Lemma sum_map_bump {A} (f : UUID -> A -> Z) m i x v :
  m !! i = Some x ->
  sum_map (fun j y => f j y + if decide (j = i) then v else 0) m = v + sum_map f m.
Proof.
  intros Hi. rewrite !(sum_map_delete _ m i x) by done. rewrite decide_True by done.
  rewrite (sum_map_ext (fun j y => f j y + if decide (j = i) then v else 0) f); [lia|].
  intros j y [Hj _]%lookup_delete_Some. rewrite decide_False by done. lia.
Qed.

(** A sum over items, each of which belongs to one key of the map, is the sum over the map of
    the sums over each key's items. *)
Lemma sum_by_key {A B} (f : B -> Z) (P : UUID -> B -> Prop) `{forall i b, Decision (P i b)}
    (m : gmap UUID A) (l : list B) :
  (forall b, b ∈ l -> exists i, is_Some (m !! i) /\ forall j, P j b <-> j = i) ->
  sumZ (f <$> l) = sum_map (fun i _ => sumZ (f <$> filter (P i) l)) m.
Proof.
  induction l as [|b l IH]; intros Hl; [symmetry; apply sum_map_zero|].
  destruct (Hl b) as (i & [x Hi] & Hb); [set_solver|].
  change (sumZ (f <$> b :: l)) with (f b + sumZ (f <$> l)).
  rewrite IH by (intros; apply Hl; set_solver).
  rewrite <- (sum_map_bump _ m i x (f b)) by done. apply sum_map_ext. intros j y _.
  rewrite filter_cons. destruct (decide (j = i)) as [->|Hne].
  - rewrite decide_True by (by apply Hb). 
    change (sumZ (f <$> b :: filter (P i) l)) with (f b + sumZ (f <$> filter (P i) l)). lia.
  - rewrite decide_False by (by intros ?%Hb). lia.
Qed.

(** * The position of an account is what the settled payments moved *)

Definition moved_by (db : DB) (a : UUID) (c : string) (p : Payment) : Z :=
  from_option (account_net a c) 0 (settled_lines db p).

Lemma account_net_lines a c (ls : list JournalLineModel) :
  account_net a c (jlm_line <$> ls) = sumZ ((fun l => acct_cents a c (jlm_line l)) <$> ls).
Proof. unfold account_net. by rewrite <- list_fmap_compose. Qed.

Lemma position_sum db a c :
  Inv db -> position db a c = sum_map (fun _ p => moved_by db a c p) (payments db).
Proof.
  intros HI. unfold position. rewrite account_net_lines.
  rewrite (sum_by_key _ (fun id l => entry_of_payment db id (jlm_journal_entry_id l)) (payments db)).
  - apply sum_map_ext. intros id p Hp. rewrite <- account_net_lines.
    change (account_net a c (payment_lines db id) = moved_by db a c p).
    rewrite (po_posted _ _ _ (inv_payment _ HI _ _ Hp)). unfold moved_by, settled_lines.
    by case_decide.
  - intros l Hl. destruct (inv_line_entry _ HI _ Hl) as [e He].
    destruct (inv_entry_payment _ HI _ _ He) as (id & Hid & Hp). exists id. split; [done|].
    intros j. unfold entry_of_payment. rewrite He. simpl. rewrite Hid. naive_solver.
Qed.

(** Every entry nets to zero in every currency, and so does the whole journal. *)
Lemma journal_balanced db : Inv db -> balanced (jlm_line <$> journal_lines db).
Proof.
  intros HI ccy. unfold net_cents. rewrite <- list_fmap_compose.
  pose (D i (l : JournalLineModel) := decide (jlm_journal_entry_id l = i)).
  rewrite (sum_by_key (H := D) _ (fun i l => jlm_journal_entry_id l = i) (journal_entries db)).
  - rewrite <- (sum_map_zero (journal_entries db)). apply sum_map_ext. intros i _ _.
    rewrite list_fmap_compose. apply (inv_balanced _ HI i).
  - intros l Hl. exists (jlm_journal_entry_id l). split; [by apply (inv_line_entry _ HI)|done].
Qed.

(** ** The lines of a settled payment balance *)

Lemma booked_balanced db id p : payment_ok db id p -> balanced (booked_lines db p).
Proof.
  intros Hok ccy. pose proof (po_currency _ _ _ Hok) as Hc. unfold booked_lines.
  destruct (pay_creditor_amount p) as [d|]; unfold net_cents, ccy_cents, signed_cents; simpl;
    repeat case_decide; simplify_eq; lia.
Qed.

(** * What a safe commit does to the book *)

Section commit.
Context (db db' : DB).
Hypothesis HI : Inv db.
Hypothesis HI' : Inv db'.
Hypothesis Hev : evolves db db'.

Lemma history_nonempty id p : payments db' !! id = Some p -> history_of db' id <> [].
Proof.
  intros Hp. pose proof (inv_payment _ HI' _ _ Hp) as Hok.
  destruct (po_history _ _ _ Hok) as (path & Hh & _). rewrite (po_id _ _ _ Hok) in Hh. by rewrite Hh.
Qed.

Lemma no_history id : payments db !! id = None -> history_of db id = [].
Proof.
  intros Hn. unfold history_of. rewrite filter_none; [done|]. apply Forall_forall.
  intros h Hh <-. destruct (inv_history _ HI _ Hh). congruence.
Qed.

(** A payment whose history is as before is as before. *)
Lemma same_history id : history_of db' id = history_of db id -> payments db' !! id = payments db !! id.
Proof.
  intros Heq. destruct (payments db !! id) as [p|] eqn:Hp.
  - destruct (ev_payment _ _ Hev _ _ Hp) as (q & Hq & Hpq). rewrite Hq. f_equal.
  pose proof (inv_payment _ HI _ _ Hp) as Hok. pose proof (inv_payment _ HI' _ _ Hq) as Hok'.
  destruct (po_history _ _ _ Hok) as (l & Hl & _ & _ & Hv).
  destruct (po_history _ _ _ Hok') as (l' & Hl' & _ & _ & Hv').
  rewrite (po_id _ _ _ Hok) in Hl. rewrite (po_id _ _ _ Hok') in Hl'.
  apply same_version; [done|]. rewrite Heq, Hl in Hl'. injection Hl' as ->. congruence.
  - destruct (payments db' !! id) as [q|] eqn:Hq; [|done].
  destruct (history_nonempty _ _ Hq). by rewrite Heq, no_history.
Qed.

Lemma same_settled_lines id p :
  payments db !! id = Some p -> settled_lines db' p = settled_lines db p.
Proof.
  intros Hp. unfold settled_lines. case_decide; [|done].
  rewrite (payment_ok_booked db db' id p); [done|done|done|exact (inv_account_number _ HI')|by apply (inv_payment _ HI)].
Qed.

Lemma same_moved : omap (settled_lines db') (payments db) = omap (settled_lines db) (payments db).
Proof.
  apply map_eq. intros i. rewrite !lookup_omap. destruct (payments db !! i) as [p|] eqn:Hp; [|done].
  simpl. by eapply same_settled_lines.
Qed.

Lemma book_unchanged : payments db' = payments db -> book_of db' ≡ book_of db.
Proof.
  intros Hp. split_and!; simpl; [by rewrite Hp|rewrite Hp; apply same_moved|].
  intros a c. rewrite !position_sum, Hp by done. apply sum_map_ext. intros i p Hi.
  unfold moved_by. by rewrite (same_settled_lines i p).
Qed.

(** One payment's row changes. *)
Section one_row.
Context (id : UUID) (q : Payment).
Hypothesis Hrow : payments db' = <[id := q]> (payments db).

Lemma row_status : bk_status (book_of db') = <[id := pay_status q]> (bk_status (book_of db)).
Proof. simpl. by rewrite Hrow, fmap_insert. Qed.

Lemma row_moved :
  bk_moved (book_of db') =
  match settled_lines db' q with
  | Some ls => <[id := ls]> (bk_moved (book_of db))
  | None => delete id (bk_moved (book_of db))
  end.
Proof. simpl. rewrite Hrow, omap_insert, same_moved. by destruct (settled_lines db' q). Qed.

Lemma row_position a c :
  position db' a c =
  position db a c + moved_by db' a c q - from_option (moved_by db a c) 0 (payments db !! id).
Proof.
    rewrite !position_sum by done. rewrite (sum_map_delete _ (payments db') id q)
  by (rewrite Hrow; apply lookup_insert_eq).
    rewrite Hrow, delete_insert_eq.
    assert (Hrest : forall m, (forall i p, m !! i = Some p -> payments db !! i = Some p) ->
  sum_map (fun _ p => moved_by db' a c p) m = sum_map (fun _ p => moved_by db a c p) m).
    { intros m Hm. apply sum_map_ext. intros i p Hi. unfold moved_by.
  by rewrite (same_settled_lines i p) by auto. }
    rewrite Hrest by (by intros i p [_ ?]%lookup_delete_Some).
    destruct (payments db !! id) as [p|] eqn:Hp; simpl.
    - rewrite (sum_map_delete _ (payments db) id p) by done. lia.
    - rewrite delete_id by done. lia.
Qed.
End one_row.

Lemma book_new_payment id q :
  payments db !! id = None -> payments db' = <[id := q]> (payments db) ->
  pay_status q = INITIATED -> book_step (book_of db) (book_of db') id.
Proof.
  intros Hn Hrow Hq. apply book_initiate.
  - simpl. by rewrite lookup_fmap, Hn.
  - by rewrite (row_status id q Hrow), Hq.
  - rewrite (row_moved id q Hrow). unfold settled_lines. rewrite Hq.
  apply delete_id. simpl. by rewrite lookup_omap, Hn.
  - intros a c. unfold book_of. cbn [bk_position]. rewrite (row_position id q Hrow), Hn. unfold moved_by, settled_lines.
  rewrite Hq. simpl. lia.
Qed.

Lemma book_move_payment id p q :
  payments db !! id = Some p -> payments db' = <[id := q]> (payments db) ->
  allowed (pay_status p) (pay_status q) -> book_step (book_of db) (book_of db') id.
Proof.
  intros Hp Hrow Hal.
  assert (Hst : bk_status (book_of db) !! id = Some (pay_status p)) by (simpl; by rewrite lookup_fmap, Hp).
  assert (Hmv : bk_moved (book_of db) !! id = settled_lines db p) by (simpl; by rewrite lookup_omap, Hp).
  assert (Hq : payments db' !! id = Some q) by (rewrite Hrow; apply lookup_insert_eq).
  pose proof (row_status id q Hrow) as Hs. pose proof (row_moved id q Hrow) as Hm.
  assert (Hpos : forall a c, bk_position (book_of db') a c =
  bk_position (book_of db) a c + moved_by db' a c q - moved_by db a c p).
  { intros a c. unfold book_of. cbn [bk_position]. by rewrite (row_position id q Hrow), Hp. }
  unfold moved_by, settled_lines in *.
  apply allowed_cases in Hal as [[E1 E2]|[[E1 E2]|[[E1 E2]|[[E1 E2]|[E1 E2]]]]];
  rewrite E1 in *; rewrite E2 in *; rewrite ?decide_True, ?decide_False in Hmv, Hm by done;
  rewrite ?(delete_id (bk_moved (book_of db)) id) in Hm by done.
  - apply (book_advance _ _ _ INITIATED AUTHORISED); [done..|]. intros a c. rewrite Hpos. simpl. lia.
  - apply (book_advance _ _ _ INITIATED FAILED); [done..|]. intros a c. rewrite Hpos. simpl. lia.
  - apply (book_settle _ _ _ (booked_lines db' q)); try done.
  + eapply booked_balanced. by apply (inv_payment _ HI').
  + intros a c. rewrite Hpos. simpl. lia.
  - apply (book_advance _ _ _ AUTHORISED FAILED); [done..|]. intros a c. rewrite Hpos. simpl. lia.
  - apply (book_reverse _ _ _ (booked_lines db p)); try done. intros a c. rewrite Hpos. simpl. lia.
Qed.

Lemma history_grows hs id :
  payment_status_history db' = payment_status_history db ++ hs ->
  history_of db' id = history_of db id ++ (psh_to_status <$> filter (fun h => psh_payment_id h = id) hs).
Proof. intros Hh. unfold history_of. by rewrite Hh, filter_app, fmap_app. Qed.

(** The one recorded status says which payment moved, and where. *)
Lemma book_one_status h :
  payment_status_history db' = payment_status_history db ++ [h] ->
  book_step (book_of db) (book_of db') (psh_payment_id h).
Proof.
  intros Hh. set (id := psh_payment_id h).
  assert (Hother : forall j, j <> id -> payments db' !! j = payments db !! j).
  { intros j Hj. apply same_history. rewrite (history_grows [h]) by done.
  rewrite filter_cons_False by (by intros ?). by rewrite filter_nil, app_nil_r. }
  destruct (inv_history _ HI' h) as [q Hq]; [rewrite Hh; set_solver|].
  assert (Hrow : payments db' = <[id := q]> (payments db)).
  { apply map_eq. intros j. destruct (decide (j = id)) as [->|Hj];
    [by rewrite lookup_insert_eq|rewrite lookup_insert_ne by done; auto]. }
  assert (Hgrow : history_of db' id = history_of db id ++ [psh_to_status h]).
  { rewrite (history_grows [h]) by done. rewrite filter_cons_True by done. by rewrite filter_nil. }
  pose proof (inv_payment _ HI' _ _ Hq) as Hok'.
  destruct (po_history _ _ _ Hok') as (l' & Hl' & Hlc' & Hlast' & _).
  rewrite (po_id _ _ _ Hok') in Hl'. fold id in Hl'. rewrite Hl' in Hgrow.
  destruct (payments db !! id) as [p|] eqn:Hp.
  - pose proof (inv_payment _ HI _ _ Hp) as Hok.
  destruct (po_history _ _ _ Hok) as (l & Hl & Hlc & Hlast & _).
  rewrite (po_id _ _ _ Hok) in Hl. rewrite Hl in Hgrow. injection Hgrow as ->.
  apply (book_move_payment id p q Hp Hrow). eapply lifecycle_last; [exact Hlc'|exact Hlast|].
  change (last ((INITIATED :: l) ++ [psh_to_status h]) = Some (pay_status q)) in Hlast'.
  rewrite last_snoc in Hlast'. congruence.
  - rewrite no_history in Hgrow by done. injection Hgrow as Hto ->.
  apply (book_new_payment id q Hp Hrow). simpl in Hlast'. congruence.
Qed.

Lemma book_commit :
  one_status db db' ->
  book_of db' ≡ book_of db \/ exists id, book_step (book_of db) (book_of db') id.
Proof.
  unfold one_status. destruct (ev_history _ _ Hev) as [hs Hh]. rewrite Hh, length_app.
  intros Hlen. destruct hs as [|h [|? ?]]; [left|right|simpl in Hlen; lia].
  - apply book_unchanged, map_eq. intros i. apply same_history.
  by rewrite (history_grows []), app_nil_r.
  - exists (psh_payment_id h). by apply book_one_status.
Qed.
End commit.
