(* ===== verification/Alone.v ===== *)
(** Alone: operations that run with no other session, to their end.

    [alone] is the meaning of a program whose database nobody else changes; the lemmas
    here compute the statements of a payment transaction in it, with the exact rows they
    write. *)
From S2P Require Import Prelude Decimals PyText PyVal Ledger Fx PaymentSM Recon Webhooks.
From S2P Require Import Store Session Repos SupportRepos LedgerService PaymentService.
From S2P Require Import Atomicity.
From S2P Require Import Invariant Commits Transactions.

#[local] Open Scope Z_scope.

Abbreviation alone := (every_run quiet anything).

Lemma with_sql_id s : with_sql s (s_db s) (s_log s) = s.
Proof. by destruct s. Qed.
Lemma with_sql_twice s db1 db2 l1 l2 : with_sql (with_sql s db1 l1) db2 l2 = with_sql s db2 l2.
Proof. done. Qed.

(** The session after more rows have been written. *)
Definition wrote (s : Sess) (ws : list Write) : Sess := with_sql s (s_db s) (s_log s ++ ws).

Lemma wrote_nil s : wrote s [] = s.
Proof. unfold wrote. rewrite app_nil_r. apply with_sql_id. Qed.
Lemma wrote_app s l1 l2 : wrote (wrote s l1) l2 = wrote s (l1 ++ l2).
Proof. unfold wrote. simpl. by rewrite <- app_assoc. Qed.

Lemma alone_sql {R} (stmt : Stmt R) s Q r ws :
  stmt (s_now s) (view (s_db s) (s_log s)) = Ok (r, ws) -> Q (wrote s ws) (Ok r) ->
  alone (sql stmt) s Q.
Proof. intros Hs HQ. apply run_sql; [|done]. intros db ->. by rewrite Hs. Qed.

Lemma alone_sql_error {R} (stmt : Stmt R) s Q e :
  stmt (s_now s) (view (s_db s) (s_log s)) = Err e -> Q s (Err e) -> alone (sql stmt) s Q.
Proof. intros Hs HQ. apply run_sql; [|done]. intros db ->. rewrite Hs. by rewrite with_sql_id. Qed.

Lemma alone_select {R} (q : DB -> result Exn R) s Q :
  Q s (q (view (s_db s) (s_log s))) -> alone (select q) s Q.
Proof. intros HQ. apply run_select; [|done]. intros db ->. by rewrite with_sql_id. Qed.

Lemma alone_commit s (Q : Sess -> result Exn unit -> Prop) :
  Q (with_commit s (s_db s)) (Ok tt) -> alone commit s Q.
Proof. intros HQ. apply run_commit; [|done]. by intros db ->. Qed.

(** Another binding of [run_bind] with the outcome of the first program known. *)
Lemma alone_bind {A B} (m : Prog A) (f : A -> Prog B) s Q (P : Sess -> A -> Prop) :
  alone m s (fun s' r => match r with Ok a => P s' a | Err _ => False end) ->
  (forall s' a, P s' a -> alone (f a) s' Q) -> alone (m ≫= f) s Q.
Proof.
  intros Hm Hf. apply run_bind. eapply run_mono; [apply Hm|].
  intros s' [a|e] Hr; [by apply Hf|done].
Qed.

(** * A journal that passes the check *)

Lemma pos_column_column d : pos_column d -> column_amount d.
Proof.
  intros (z & -> & Hz). split; [apply is_cents_of_cents|rewrite cents_of_cents; lia].
Qed.

Lemma validate_ok lines :
  lines <> [] -> (length lines <= 4)%nat -> Forall (fun l => pos_column (jl_amount l)) lines ->
  balanced lines -> validate_journal_entry lines = Ok tt.
Proof.
  intros Hne Hlen Hpos Hbal.
  assert (Hcol : Forall column_line lines).
  { eapply Forall_impl; [exact Hpos|]. intros l. apply pos_column_column. }
  pose proof (validate_outcome_holds lines Hcol ltac:(lia)) as Ho.
  destruct (validate_journal_entry lines) as [[]|e]; [done|exfalso].
  destruct e as [|l|net|]; simpl in Ho; try done.
  - destruct Ho as (pre & post & -> & _ & Hle). apply Forall_app in Hpos as [_ Hpos].
    apply Forall_cons in Hpos as [(z & Hz & ?) _]. rewrite Hz, cents_of_cents in Hle. lia.
  - destruct Ho as (Hnet & _ & Hunb). apply Hnet, map_empty. intros ccy.
    destruct (net !! ccy) as [d|] eqn:Hd; [|done]. apply Hunb in Hd as [_ Hd]. by destruct (Hd (Hbal ccy)).
Qed.

(** * The rows the session sees *)

Definition cur (s : Sess) : DB := view (s_db s) (s_log s).

Lemma cur_wrote s ws : cur (wrote s ws) = view (cur s) ws.
Proof. unfold cur, wrote. simpl. apply view_app. Qed.
Lemma cur_commit s : s_db (with_commit s (s_db s)) = cur s.
Proof. done. Qed.

Section statements.
Context `{Platform}.

(** ** insert_journal_entry *)

Definition entry_writes (eid : UUID) (entry : JournalEntry) : list Write :=
  AddEntry eid {| jem_payment_id := je_payment_id entry; jem_entry_type := je_entry_type entry;
                jem_idempotency_key_id := je_idempotency_key_id entry |} ::
  (AddLine <$> (Build_JournalLineModel eid <$> je_lines entry)).

Lemma line_rows_exact eid lines :
  Forall (fun l => pos_column (jl_amount l) /\ varchar 3 (jl_currency l) = true) lines ->
  mapM (line_row eid) lines = Ok (Build_JournalLineModel eid <$> lines).
Proof.
  induction 1 as [|l lines [Hp Hv] _ IH]; [done|].
  assert (Hl : line_row eid l = Ok (Build_JournalLineModel eid l)).
  { unfold line_row, numeric. rewrite pg_numeric_exact by by apply pos_column_column.
  rewrite Hv. simpl. destruct Hp as (z & Hz & Hb).
  assert (Hgt : sql_gt0 (jl_amount l) = true).
  { rewrite Hz. unfold of_cents. simpl. apply andb_true_intro. split.
    - apply negb_true_iff, Z.ltb_ge. lia.
    - apply negb_true_iff, N.eqb_neq. lia. }
  rewrite Hgt. simpl. by destruct l. }
  change ((r ← line_row eid l; rs ← mapM (line_row eid) lines; mret (r :: rs)) =
  Ok (Build_JournalLineModel eid l :: (Build_JournalLineModel eid <$> lines))).
  by rewrite Hl, result_bind_ok, IH, result_bind_ok.
Qed.

Lemma alone_insert_entry entry s Q :
  varchar 30 (je_entry_type entry) = true ->
  fk (payments (cur s)) (je_payment_id entry) = true ->
  je_idempotency_key_id entry = None ->
  Forall (fun l => pos_column (jl_amount l) /\ varchar 3 (jl_currency l) = true) (je_lines entry) ->
  Forall (fun l => is_Some (accounts (cur s) !! jl_account_id l)) (je_lines entry) ->
  (forall eid, journal_entries (cur s) !! eid = None -> Q (wrote s (entry_writes eid entry)) (Ok eid)) ->
  alone (insert_journal_entry entry) s Q.
Proof.
  intros Hty Hpay Hkey Hl Hacc HQ. apply run_bind, run_uuid4. intros eid Hfresh.
  destruct Hfresh as (_ & Hn & _). fold (cur s) in *. apply run_bind.
  set (e := {| jem_payment_id := je_payment_id entry; jem_entry_type := je_entry_type entry;
             jem_idempotency_key_id := je_idempotency_key_id entry |}).
  apply (alone_sql _ _ _ tt [AddEntry eid e]).
  { fold (cur s). unfold insert_entry_row, no_key, e. cbn [jem_entry_type jem_payment_id jem_idempotency_key_id].
  by rewrite Hty, Hn, bool_decide_true, Hpay, Hkey. }
  apply run_bind. eapply alone_sql.
  { fold (cur (wrote s [AddEntry eid e])). rewrite cur_wrote. unfold insert_line_rows.
  rewrite line_rows_exact by done. rewrite result_bind_ok.
  assert (Hentry : fk (journal_entries (view (cur s) [AddEntry eid e])) (Some eid) = true).
  { apply bool_decide_true. rewrite entries_view. simpl. rewrite lookup_insert_eq. eauto. }
  rewrite Hentry. simpl require. rewrite result_bind_ok.
  replace (forallb _ (je_lines entry)) with true; [done|]. symmetry. apply forallb_forall.
  intros l Hin%list_elem_of_In. rewrite Forall_forall in Hacc. apply bool_decide_true.
  change (is_Some (accounts (apply_write (cur s) (AddEntry eid e)) !! jl_account_id l)).
  rewrite accounts_write. by apply Hacc. }
  apply run_ret. rewrite wrote_app. by apply HQ.
Qed.

(** ** Account versions *)

Lemma alone_get_account_versions ids s Q :
  (forall i, i ∈ ids -> is_Some (accounts (cur s) !! i)) ->
  (forall versions,
   (forall i a, i ∈ ids -> accounts (cur s) !! i = Some a -> versions !! i = Some (acc_version a)) ->
   Q s (Ok versions)) ->
  alone (get_account_versions ids) s Q.
Proof.
  intros Hids HQ. apply run_bind, alone_select. fold (cur s). cbv beta iota zeta.
  set (versions := acc_version <$> filter _ (accounts (cur s))).
  assert (Hv : forall i a, i ∈ ids -> accounts (cur s) !! i = Some a -> versions !! i = Some (acc_version a)).
  { intros i a Hi Ha. unfold versions. rewrite lookup_fmap.
  assert (Hf : filter (fun kv => kv.1 ∈ ids) (accounts (cur s)) !! i = Some a)
    by (by apply map_lookup_filter_Some).
  by rewrite Hf. }
  assert (Hm : filter (fun i => versions !! i = None) (set_iter ids) = []).
  { apply filter_none, Forall_forall. intros i Hi Hn. rewrite elem_of_set_iter in Hi.
    destruct (Hids i Hi) as [a Ha]. by rewrite (Hv _ _ Hi Ha) in Hn. }
  rewrite Hm, set_iter_nil. apply run_ret. by apply HQ.
Qed.

Definition bump_writes (accs : list Account) : list Write := (fun a => PutAccount (bump_row a)) <$> accs.

Lemma alone_bump_all ids versions s Q :
  NoDup ids ->
  (forall i, i ∈ ids -> exists a, accounts (cur s) !! i = Some a /\ acc_id a = i /\
   versions !! i = Some (acc_version a) /\ acc_version a < int4_max) ->
  (forall accs, Forall2 (fun i a => accounts (cur s) !! i = Some a) ids accs ->
   Q (wrote s (bump_writes accs)) (Ok false)) ->
  alone (bump_all ids versions) s Q.
Proof.
  intros Hnd. revert s Q. induction Hnd as [|i ids Hi Hnd IH]; intros s Q Hids HQ.
  { apply run_ret. rewrite <- (wrote_nil s). by apply (HQ []). }
  destruct (Hids i) as (a & Ha & Hid & Hv & Hmax); [set_solver|]. cbn [bump_all].
  unfold dict_get. rewrite Hv. apply run_bind, run_ret, run_bind.
  apply (alone_sql _ _ _ true [PutAccount (bump_row a)]).
  { fold (cur s). rewrite Ha, Z.eqb_refl. by destruct (Z.leb_spec (acc_version a + 1) int4_max); [|lia]. }
  assert (Hother : forall j, j <> i ->
  accounts (cur (wrote s [PutAccount (bump_row a)])) !! j = accounts (cur s) !! j).
  { intros j Hj. rewrite cur_wrote.
  change (accounts (apply_write (cur s) (PutAccount (bump_row a))) !! j = accounts (cur s) !! j).
  rewrite accounts_write. apply lookup_insert_ne. simpl. congruence. }
  cbv beta iota. apply IH.
  - intros j Hj. rewrite Hother by (by intros ->). apply Hids. set_solver.
  - intros accs Haccs. rewrite wrote_app. apply (HQ (a :: accs)). constructor; [done|].
  clear -Haccs Hother Hi. induction Haccs as [|j b js bs Hb _ IHb]; constructor.
  + rewrite <- Hother; [done|]. intros ->. apply Hi. set_solver.
  + apply IHb. set_solver.
Qed.

(** ** The payment row and its history *)

Lemma alone_update_payment_status pid p to_status s Q :
  payments (cur s) !! pid = Some p -> pay_version p < int4_max ->
  Q (wrote s [PutPayment (set_status p to_status)]) (Ok true) ->
  alone (update_payment_status pid (pay_version p) to_status) s Q.
Proof.
  intros Hp Hv HQ. eapply alone_sql; [|exact HQ]. fold (cur s). rewrite Hp, Z.eqb_refl.
  by destruct (Z.leb_spec (pay_version p + 1) int4_max); [|lia].
Qed.

Lemma alone_record_status_transition pid from_status to_status reason s Q :
  from_option text true reason = true -> is_Some (payments (cur s) !! pid) ->
  Q (wrote s [AddHistory {| psh_payment_id := pid; psh_from_status := from_status;
                          psh_to_status := to_status; psh_transitioned_at := s_now s;
                          psh_reason := reason |}]) (Ok tt) ->
  alone (record_status_transition pid from_status to_status reason) s Q.
Proof.
  intros Hr Hp HQ. eapply alone_sql; [|exact HQ]. fold (cur s). unfold fk. cbn [from_option].
  by rewrite Hr, bool_decide_true.
Qed.

(** ** The outbox *)

Definition wants (event_type : string) (sub : WebhookSubscription) : bool :=
  bool_decide (sub_event_types sub = []) || bool_decide (event_type ∈ sub_event_types sub).

(** The delivery that must be enqueued for a subscription. *)
Definition enqueued (pid : UUID) (event_type : string) (payload : pydict) (now : Z)
  (sub : WebhookSubscription) (d : WebhookDeliveryModel) : Prop :=
  exists id, d = {| wdm_delivery :=
    {| dl_id := id; dl_subscription_id := sub_id sub; dl_payment_id := Some pid;
       dl_event_type := event_type; dl_payload := _json_serializer payload; dl_status := PENDING;
       dl_attempt_count := 0; dl_next_attempt_at := now; dl_last_error := None |};
    wdm_created_at := now |}.

Lemma alone_enqueue_delivery sub pid et payload s Q :
  varchar 50 et = true -> is_Some (webhook_subscriptions (cur s) !! sub_id sub) ->
  is_Some (payments (cur s) !! pid) ->
  (forall d i, enqueued pid et payload (s_now s) sub d -> Q (wrote s [PutDelivery d]) (Ok i)) ->
  alone (enqueue_delivery (sub_id sub) (Some pid) et payload) s Q.
Proof.
  intros Het Hsub Hp HQ. apply run_bind, run_uuid4. intros id Hfresh.
  destruct Hfresh as (_ & _ & _ & _ & Hn & _). fold (cur s) in Hn. cbv beta iota. apply run_bind. eapply alone_sql.
  { fold (cur s). unfold insert_delivery, no_key, fk. cbn [from_option].
  by rewrite Het, Hn, !bool_decide_true. }
  apply run_ret, HQ. by exists id.
Qed.

Lemma alone_enqueue_each subs pid et payload s Q :
  varchar 50 et = true -> (forall sub, sub ∈ subs -> is_Some (webhook_subscriptions (cur s) !! sub_id sub)) ->
  is_Some (payments (cur s) !! pid) ->
  (forall ds, Forall2 (enqueued pid et payload (s_now s)) (filter (fun sub => wants et sub = true) subs) ds ->
   Q (wrote s (PutDelivery <$> ds)) (Ok tt)) ->
  alone (for_ subs (fun subscription =>
   if negb (bool_decide (sub_event_types subscription = [])) &&
      negb (bool_decide (et ∈ sub_event_types subscription))
   then Ret tt
   else enqueue_delivery (sub_id subscription) (Some pid) et payload ;; Ret tt)) s Q.
Proof.
  intros Het. revert s Q. induction subs as [|sub subs IH]; intros s Q Hsubs Hp HQ.
  { apply run_ret. rewrite <- (wrote_nil s). by apply (HQ []). }
  cbn [for_]. apply run_bind.
  assert (Hw : (negb (bool_decide (sub_event_types sub = [])) &&
  negb (bool_decide (et ∈ sub_event_types sub)))%bool = negb (wants et sub))
  by (unfold wants; by destruct (bool_decide _), (bool_decide _)).
  rewrite Hw. destruct (wants et sub) eqn:Hwants; simpl negb; cbv iota.
  - apply run_bind. apply alone_enqueue_delivery; [done|apply Hsubs; set_solver|done|].
  intros d i Hd. apply run_ret. apply IH.
  + intros x Hx. rewrite cur_wrote.
    change (is_Some (webhook_subscriptions (apply_write (cur s) (PutDelivery d)) !! sub_id x)).
    rewrite subscriptions_write. apply Hsubs. set_solver.
  + rewrite cur_wrote. change (is_Some (payments (apply_write (cur s) (PutDelivery d)) !! pid)).
    by rewrite payments_write.
  + intros ds Hds. rewrite wrote_app. apply (HQ (d :: ds)). rewrite filter_cons_True by done. by constructor.
  - apply run_ret, IH; [intros; apply Hsubs; set_solver|done|]. intros ds Hds.
  apply HQ. rewrite filter_cons_False by congruence. done.
Qed.

(** Every active subscription that wants the event gets one delivery. *)
Lemma alone_enqueue_event pid et payload s Q :
  varchar 50 et = true -> is_Some (payments (cur s) !! pid) ->
  (forall i x, webhook_subscriptions (cur s) !! i = Some x -> sub_id x = i) ->
  (forall ds, Forall2 (enqueued pid et payload (s_now s))
     (filter (fun sub => wants et sub = true) (active_subscriptions (cur s))) ds ->
   Q (wrote s (PutDelivery <$> ds)) (Ok tt)) ->
  alone (enqueue_payment_webhook_event pid et payload) s Q.
Proof.
  intros Het Hp Hsub HQ. apply run_bind, alone_select. fold (cur s). cbv beta iota.
  apply alone_enqueue_each; [done| |done|done]. intros x Hx. unfold active_subscriptions in Hx.
  rewrite pg_scan_perm in Hx. apply list_elem_of_filter in Hx as [_ Hx].
  apply list_elem_of_fmap in Hx as ([i y] & -> & Hi%elem_of_map_to_list). simpl.
  rewrite (Hsub i y Hi). eauto.
Qed.
End statements.
