(* ===== verification/Ports.v ===== *)
(** Ports: the persistence ports of the domain (app/domain/*/repository.py,
    app/domain/unit_of_work.py, app/domain/ledger/unit_of_work.py) and their adapters.

    Each Protocol is a class of operations; what its docstrings promise is a second class, of
    laws, that the SQLAlchemy adapters of app/infra/db are shown to keep.  The loop of
    [post_journal_entry] over the narrow ledger port is verified against the laws alone. *)
From S2P Require Import Prelude Decimals PyText PyVal Ledger Fx PaymentSM Recon Webhooks.
From S2P Require Import Store Session Repos SupportRepos LedgerService PaymentService.
From S2P Require Import Invariant Commits Transactions Alone.

#[local] Open Scope Z_scope.

(** * The ports *)

Class FxRateRepository := {
  fx_get_latest_rate : string -> string -> Prog FxRate;
}.

Class IdempotencyRepository := {
  key_begin_attempt : string -> string -> string -> Prog IdempotencyOutcome;
  key_complete_attempt : string -> string -> Z -> pydict -> Prog unit;
}.

Class LedgerRepository := {
  ledger_create_account : string -> string -> string -> string -> Prog Account;
  ledger_get_account : UUID -> Prog Account;
  ledger_get_account_by_number : string -> Prog Account;
  ledger_get_account_versions : list UUID -> Prog (gmap UUID Z);
  ledger_get_balance : UUID -> string -> Prog Decimal;
  ledger_insert_journal_entry : JournalEntry -> Prog UUID;
  ledger_bump_account_version : UUID -> Z -> Prog bool;
}.

Class PaymentRepository := {
  payments_create_payment : UUID -> UUID -> Decimal -> string -> option string -> Prog Payment;
  payments_get_payment : UUID -> Prog Payment;
  payments_update_payment_status : UUID -> Z -> PaymentStatus -> Prog bool;
  payments_record_status_transition :
    UUID -> option PaymentStatus -> PaymentStatus -> option string -> Prog unit;
  payments_set_fx_details : UUID -> UUID -> Decimal -> Prog unit;
}.

Class WebhookRepository := {
  webhooks_create_subscription : string -> string -> list string -> Prog WebhookSubscription;
  webhooks_list_active_subscriptions : Prog (list WebhookSubscription);
  webhooks_enqueue_delivery : UUID -> option UUID -> string -> pydict -> Prog UUID;
  webhooks_list_due_deliveries : Z -> Z -> Prog (list WebhookDelivery);
  webhooks_mark_delivered : UUID -> Prog unit;
  webhooks_mark_retry : UUID -> Z -> Z -> string -> Prog unit;
  webhooks_mark_dead_letter : UUID -> Z -> string -> Prog unit;
  webhooks_list_dead_letters : Prog (list WebhookDelivery);
}.

(** A run, as the port shows it. *)
Record ReconciliationRun := {
  run_id_ : UUID;
  run_batch_id : UUID;
  run_matched_count : Z;
  run_break_count : Z;
  run_status : string;
}.
Definition seen_as_run (row : ReconciliationRunModel) : ReconciliationRun :=
  {| run_id_ := rrm_id row; run_batch_id := rrm_batch_id row; run_matched_count := rrm_matched_count row;
     run_break_count := rrm_break_count row; run_status := rrm_status row |}.

Class ReconciliationRepository := {
  recon_list_settled_payments : Z -> Z -> Prog (list LedgerSettledPayment);
  recon_load_settlement_records : UUID -> list SettlementRecord -> Prog unit;
  recon_record_run : UUID -> ReconciliationResult -> Prog UUID;
  recon_get_run : UUID -> Prog ReconciliationRun;
  recon_list_breaks_for_run : UUID -> Prog (list ReconciliationBreak);
}.

Class UnitOfWork := {
  uow_ledger :: LedgerRepository;
  uow_payments :: PaymentRepository;
  uow_idempotency :: IdempotencyRepository;
  uow_webhooks :: WebhookRepository;
  uow_reconciliation :: ReconciliationRepository;
  uow_fx :: FxRateRepository;
  uow_aenter : Prog unit;
  uow_aexit : bool -> Prog unit;
  uow_commit : Prog unit;
  uow_rollback : Prog unit;
}.

(** The narrower port of the ledger's own service. *)
Class LedgerUnitOfWork := {
  luow_ledger :: LedgerRepository;
  luow_aenter : Prog unit;
  luow_aexit : bool -> Prog unit;
  luow_commit : Prog unit;
  luow_rollback : Prog unit;
}.

(** "Structurally satisfies LedgerUnitOfWork (it only needs .ledger)." *)
Definition narrow (u : UnitOfWork) : LedgerUnitOfWork := {|
    luow_ledger := uow_ledger; luow_aenter := uow_aenter; luow_aexit := uow_aexit;
    luow_commit := uow_commit; luow_rollback := uow_rollback;
  |}.

(** [async with uow_factory() as uow: body] *)
Definition in_luow {A} (u : LedgerUnitOfWork) (body : Prog A) : Prog A :=
  luow_aenter ;;
  r ← attempt body;
  luow_aexit (negb (is_ok r)) ;;
  of_result r.

(** * What they promise *)

Definition versions_of (db : DB) : gmap UUID Z := acc_version <$> accounts db.
Definition accounts_keyed (db : DB) : Prop := forall i a, accounts db !! i = Some a -> acc_id a = i.

(** "Optimistic-lock increment. Returns False if `expected_version` is stale." *)
Class OptimisticLedger (repo : LedgerRepository) : Prop := {
  law_bump : forall id expected s, accounts_keyed (cur s) ->
    alone (ledger_bump_account_version id expected) s (fun s' r =>
      accounts_keyed (cur s') /\
      match r with
      | Ok true => versions_of (cur s) !! id = Some expected /\
          versions_of (cur s') = <[id := expected + 1]> (versions_of (cur s))
      | Ok false => versions_of (cur s) !! id <> Some expected /\ cur s' = cur s
      | Err _ => cur s' = cur s
      end);
  law_versions : forall ids s,
    alone (ledger_get_account_versions ids) s (fun s' r => s' = s /\
      match r with
      | Ok versions => forall i, i ∈ ids -> is_Some (versions !! i) /\ versions !! i = versions_of (cur s) !! i
      | Err _ => True
      end);
}.

Class OptimisticPayments (repo : PaymentRepository) : Prop := {
  law_status : forall id expected status s p, payments (cur s) !! id = Some p -> pay_id p = id ->
    alone (payments_update_payment_status id expected status) s (fun s' r =>
      match r with
      | Ok true => pay_version p = expected /\ exists q, payments (cur s') !! id = Some q /\
          pay_version q = expected + 1 /\ pay_status q = status
      | Ok false => pay_version p <> expected /\ cur s' = cur s
      | Err _ => cur s' = cur s
      end);
}.

(** "Atomically claims (endpoint, key) for this attempt.  Returns STARTED if this caller now
    owns the attempt, or ... why it should not." *)
Definition claim_outcome (db db' : DB) (key endpoint request_hash : string)
    (o : IdempotencyOutcome) : Prop :=
  let row db := idempotency_keys db !! (endpoint, key) in
  match io_kind o with
  | STARTED => row db = None /\ exists r, row db' = Some r /\ ik_status r = IN_PROGRESS /\
      ik_request_hash r = request_hash
  | IN_PROGRESS_CONFLICT => db' = db /\ exists r, row db = Some r /\ ik_status r = IN_PROGRESS
  | HASH_MISMATCH => db' = db /\ exists r, row db = Some r /\ ik_status r = COMPLETED /\
      ik_request_hash r <> request_hash
  | REPLAY => db' = db /\ exists r, row db = Some r /\ ik_status r = COMPLETED /\
      ik_request_hash r = request_hash /\ io_response_status_code o = ik_response_status_code r /\
      io_response_body o = ik_response_body r
  end.

Class IdempotencyGuard (repo : IdempotencyRepository) : Prop := {
  law_begin : forall key endpoint request_hash s,
    alone (key_begin_attempt key endpoint request_hash) s (fun s' r =>
      match r with
      | Ok o => claim_outcome (cur s) (cur s') key endpoint request_hash o
      | Err _ => cur s' = cur s
      end);
}.

(** "One Postgres transaction": the block starts with nothing written, and what it has not
    committed when it is left is gone. *)
Class Transactional (u : LedgerUnitOfWork) : Prop := {
  law_block : forall rely guar A (body : Prog A) s Q,
    (forall t, every_run rely guar body (with_open s t) (fun s' r => Q (with_sql s' (s_db s') []) r)) ->
    every_run rely guar (in_luow u body) s Q;
  law_rollback : forall rely guar s Q,
    Q (with_sql s (s_db s) []) (Ok tt) -> every_run rely guar luow_rollback s Q;
}.

(** * The adapters *)

Section adapters.
Context `{Platform}.

#[export] Instance SqlAlchemyFxRateRepository : FxRateRepository := {|
  fx_get_latest_rate := get_latest_rate |}.
#[export] Instance SqlAlchemyIdempotencyRepository : IdempotencyRepository := {|
  key_begin_attempt := begin_attempt; key_complete_attempt := complete_attempt |}.
#[export] Instance SqlAlchemyLedgerRepository : LedgerRepository := {|
  ledger_create_account := create_account; ledger_get_account := get_account;
  ledger_get_account_by_number := get_account_by_number;
  ledger_get_account_versions := get_account_versions; ledger_get_balance := get_balance;
  ledger_insert_journal_entry := insert_journal_entry;
  ledger_bump_account_version := bump_account_version |}.
#[export] Instance SqlAlchemyPaymentRepository : PaymentRepository := {|
  payments_create_payment := repo_create_payment; payments_get_payment := get_payment;
  payments_update_payment_status := update_payment_status;
  payments_record_status_transition := record_status_transition;
  payments_set_fx_details := set_fx_details |}.
#[export] Instance SqlAlchemyWebhookRepository : WebhookRepository := {|
  webhooks_create_subscription := create_subscription;
  webhooks_list_active_subscriptions := list_active_subscriptions;
  webhooks_enqueue_delivery := enqueue_delivery;
  webhooks_list_due_deliveries := list_due_deliveries;
  webhooks_mark_delivered := mark_delivered; webhooks_mark_retry := mark_retry;
  webhooks_mark_dead_letter := mark_dead_letter;
  webhooks_list_dead_letters := list_dead_letters |}.
#[export] Instance SqlAlchemyReconciliationRepository : ReconciliationRepository := {|
  recon_list_settled_payments := list_settled_payments;
  recon_load_settlement_records := load_settlement_records; recon_record_run := record_run;
  recon_get_run run_id := run ← get_run run_id; Ret (seen_as_run run); recon_list_breaks_for_run := list_breaks_for_run |}.
#[export] Instance SqlAlchemyUnitOfWork : UnitOfWork := {|
  uow_aenter := __aenter__; uow_aexit := __aexit__; uow_commit := commit; uow_rollback := rollback |}.

(** ** The laws *)

Lemma versions_of_bump db i a :
  accounts_keyed db -> accounts db !! i = Some a ->
  accounts_keyed (view db [PutAccount (bump_row a)]) /\
  versions_of (view db [PutAccount (bump_row a)]) = <[i := acc_version a + 1]> (versions_of db).
Proof.
  intros Hk Ha. unfold accounts_keyed, versions_of. rewrite accounts_view. log_unfold. csimpl.
  unfold puts. cbn [foldl fst snd]. rewrite (Hk _ _ Ha). split.
  - intros j b. destruct (decide (i = j)) as [<-|Hne].
    + rewrite lookup_insert_eq. intros [= <-]. exact (Hk _ _ Ha).
    + rewrite lookup_insert_ne by done. apply Hk.
  - by rewrite fmap_insert.
Qed.

#[export] Instance sqlalchemy_ledger_laws : OptimisticLedger SqlAlchemyLedgerRepository.
Proof.
  split.
  - intros id expected s Hk. apply run_sql; [|done]. intros db ->. fold (cur s).
    destruct (accounts (cur s) !! id) as [a|] eqn:Ha.
    2:{ rewrite app_nil_r, with_sql_id. split_and!; [done| |done].
        unfold versions_of. by rewrite lookup_fmap, Ha. }
    destruct (Z.eqb_spec (acc_version a) expected) as [<-|Hne].
    + destruct (_ <=? int4_max); [|by rewrite with_sql_id].
      cbn [require]. rewrite result_bind_ok. cbv beta iota.
      fold (wrote s [PutAccount (bump_row a)]). rewrite cur_wrote.
      destruct (versions_of_bump _ _ _ Hk Ha) as [Hk' Hv]. split_and!; [done| |done].
      unfold versions_of. by rewrite lookup_fmap, Ha.
    + rewrite app_nil_r, with_sql_id. split_and!; [done| |done].
      unfold versions_of. rewrite lookup_fmap, Ha. naive_solver.
  - intros ids s. apply run_bind, alone_select. fold (cur s). cbv beta iota zeta.
    destruct (set_iter _) as [|i l] eqn:Hmissing; [|by apply run_raise].
    apply run_ret. split; [done|]. intros i Hi. unfold versions_of. rewrite !lookup_fmap.
    destruct (decide (accounts (cur s) !! i = None)) as [Hn|Hs].
    + exfalso. assert (Hin : i ∈ set_iter (filter (fun i => (acc_version <$> filter (fun kv => kv.1 ∈ ids) (accounts (cur s))) !! i = None) (set_iter ids))).
      { apply elem_of_set_iter, list_elem_of_filter. split; [|by apply elem_of_set_iter].
        rewrite lookup_fmap. by rewrite map_lookup_filter_None_2 by (left; exact Hn). }
      rewrite Hmissing in Hin. by apply elem_of_nil in Hin.
    + destruct (accounts (cur s) !! i) as [a|] eqn:Ha; [|done].
      assert (Hf : filter (fun kv => kv.1 ∈ ids) (accounts (cur s)) !! i = Some a)
        by by apply map_lookup_filter_Some.
      rewrite Hf. split; [by eexists|done].
Qed.

#[export] Instance sqlalchemy_payment_laws : OptimisticPayments SqlAlchemyPaymentRepository.
Proof.
  split. intros id expected status s p Hp Hid. apply run_sql; [|done]. intros db ->. fold (cur s).
  rewrite Hp. destruct (Z.eqb_spec (pay_version p) expected) as [<-|Hne].
  - destruct (_ <=? int4_max); [|by rewrite with_sql_id].
    cbn [require]. rewrite result_bind_ok. cbv beta iota.
    fold (wrote s [PutPayment (set_status p status)]). rewrite cur_wrote, payments_view. log_unfold. csimpl. unfold puts. cbn [foldl fst snd].
    split; [done|]. exists (set_status p status). rewrite Hid, lookup_insert_eq. done.
  - by rewrite app_nil_r, with_sql_id.
Qed.

#[export] Instance sqlalchemy_key_laws : IdempotencyGuard SqlAlchemyIdempotencyRepository.
Proof.
  split. intros key endpoint request_hash s. apply run_bind, run_uuid4. intros u _. cbv beta iota.
  apply run_bind, run_sql; [|done]. intros db ->. fold (cur s).
  destruct (claim_key u key endpoint request_hash (s_now s) (cur s)) as [[b ws]|e] eqn:Hc;
    [|by rewrite with_sql_id].
  change (with_sql s (s_db s) (s_log s ++ ws)) with (wrote s ws).
  unfold claim_key in Hc. destruct (no_key _ _) eqn:Hn; stmt_ok Hc; cbv beta iota.
  - apply run_ret. unfold claim_outcome. cbn [io_kind]. rewrite cur_wrote, keys_view. log_unfold. csimpl.
    unfold puts. cbn [foldl fst snd]. split; [by apply bool_decide_eq_true in Hn|].
    eexists. rewrite lookup_insert_eq. done.
  - rewrite wrote_nil. apply run_bind, alone_select. fold (cur s).
    destruct (idempotency_keys (cur s) !! (endpoint, key)) as [r|] eqn:Hr; [|done].
    cbn [or_raise]. destruct (decide (ik_status r = IN_PROGRESS)) as [Hi|Hi].
    { apply run_ret. split; [done|]. by exists r. }
    assert (Hdone : ik_status r = COMPLETED) by by destruct (ik_status r).
    case_bool_decide as Hh; apply run_ret; (split; [done|]); by exists r.
Qed.

#[export] Instance sqlalchemy_transactional : Transactional (narrow SqlAlchemyUnitOfWork).
Proof.
  split; [|done]. intros rely guar A body s Q. apply run_with_uow.
Qed.
End adapters.

(** * A client of the ports: the ledger's posting service *)

Section client.
Context `{Platform} (u : LedgerUnitOfWork).

Fixpoint port_bump_all (account_ids : list UUID) (versions : gmap UUID Z) : Prog bool :=
  match account_ids with
  | [] => Ret false
  | id :: rest =>
      v ← dict_get versions id;
      bumped ← ledger_bump_account_version id v;
      if (bumped : bool) then port_bump_all rest versions else Ret true
  end.

Fixpoint port_attempts {A} (n : nat) (attempt max_attempts : Z) (body : Prog (option A))
    (exhausted : Exn) : Prog A :=
  match n with
  | O => Raise exhausted
  | S n' =>
      r ← in_luow u body;
      match r with
      | Some a => Ret a
      | None =>
          (if attempt <? max_attempts - 1 then sleep attempt else Ret tt) ;;
          port_attempts n' (attempt + 1) max_attempts body exhausted
      end
  end.

Definition port_post_journal_entry (entry : JournalEntry) (max_attempts : Z) : Prog UUID :=
  of_result (map_err ELedger (validate_journal_entry (je_lines entry))) ;;
  let account_ids := set_iter (account_ids entry) in
  port_attempts (Z.to_nat max_attempts) 0 max_attempts
    (versions ← ledger_get_account_versions account_ids;
     entry_id ← ledger_insert_journal_entry entry;
     conflict ← port_bump_all account_ids versions;
     if (conflict : bool) then luow_rollback ;; Ret None
     else luow_commit ;; Ret (Some entry_id))
    (ConcurrentModificationError (list_to_set (Ledger.account_ids entry)) max_attempts).

Lemma raised_versions_below (f : UUID -> Z) ids db i v :
  i ∉ ids -> foldr (fun i m => <[i := f i]> m) (<[i := v]> (versions_of db)) ids =
  <[i := v]> (foldr (fun i m => <[i := f i]> m) (versions_of db) ids).
Proof.
  induction ids as [|j ids IH]; intros Hi; [done|]. cbn [foldr]. rewrite IH by set_solver.
  apply insert_insert_ne. set_solver.
Qed.

(** Run alone on a lawful ledger, the loop over the accounts raises the version of each of
    them by one and touches no other, or stops at an account whose version is not the one it
    was given. *)
Lemma port_bump_all_correct `{!OptimisticLedger luow_ledger} ids versions s :
  NoDup ids -> accounts_keyed (cur s) ->
  alone (port_bump_all ids versions) s (fun s' r =>
    (r = Ok false -> versions_of (cur s') =
       foldr (fun i m => <[i := default 0 (versions !! i) + 1]> m) (versions_of (cur s)) ids) /\
    (r = Ok true -> exists i v, i ∈ ids /\ versions !! i = Some v /\ versions_of (cur s) !! i <> Some v)).
Proof.
  intros Hnd. revert s. induction Hnd as [|i ids Hi Hnd IH]; intros s Hk; [by apply run_ret|].
  cbn [port_bump_all]. apply run_bind, run_of_result. unfold dict_get.
  destruct (versions !! i) as [v|] eqn:Hv; [|done]. cbn [or_raise].
  apply run_bind. eapply run_mono; [by apply law_bump|].
  intros s1 [[]|e] [Hk1 H1]; [| |done].
  - destruct H1 as [Hcur H1]. eapply run_mono; [by apply IH|]. intros s2 r [Hf Ht]. split.
    + intros Hr. rewrite (Hf Hr), H1. cbn [foldr]. rewrite Hv. by apply raised_versions_below.
    + intros Hr. destruct (Ht Hr) as (j & w & Hj & Hw & Hne). exists j, w.
      split_and!; [set_solver|done|]. rewrite H1 in Hne. rewrite lookup_insert_ne in Hne by set_solver. done.
  - destruct H1 as [Hne Hcur]. apply run_ret. split; [done|]. intros _. exists i, v. split_and!; [set_solver|done|done].
Qed.
End client.

(** With the adapters it is the service as LedgerService models it. *)
Lemma port_post_journal_entry_adapters `{Platform} entry max_attempts :
  port_post_journal_entry (narrow SqlAlchemyUnitOfWork) entry max_attempts =
  post_journal_entry entry max_attempts.
Proof. reflexivity. Qed.
