(* ===== verification/AloneTransitions.v ===== *)
(** AloneTransitions: the payment transitions run alone succeed, and what they commit.

    The lemmas follow one attempt of [_transition_with_ledger_entry] and of
    [_transition_status_only] through all their statements. *)
From S2P Require Import Prelude Decimals PyText PyVal Ledger Fx PaymentSM Recon Webhooks.
From S2P Require Import Store Session Repos SupportRepos LedgerService PaymentService.
From S2P Require Import Atomicity.
From S2P Require Import Invariant Commits Transactions PaymentRuns Alone.

#[local] Open Scope Z_scope.

Section transitions.
Context `{Platform}.

(** * The log of a transition *)

Definition history_row (pid : UUID) (p : Payment) (to_status : PaymentStatus) (reason : option string)
  (now : Z) : PaymentStatusHistoryModel :=
  {| psh_payment_id := pid; psh_from_status := Some (pay_status p); psh_to_status := to_status;
   psh_transitioned_at := now; psh_reason := reason |}.

(** The deliveries of the event of a transition: one for every active subscription that
    wants it. *)
Definition outbox (db : DB) (pid : UUID) (q : Payment) (now : Z) (ds : list WebhookDeliveryModel) : Prop :=
  Forall2 (enqueued pid (event_type_of (pay_status q)) (_payment_response_dict q) now)
  (filter (fun sub => wants (event_type_of (pay_status q)) sub = true) (active_subscriptions db)) ds.

(** A transition that moves no money has made one commit: the new row of the payment, the
    history row and the deliveries. *)
Definition status_posted (s : Sess) (pid : UUID) (p q : Payment) (reason : option string) (s' : Sess) : Prop :=
  exists now ds log,
  outbox (s_db s) pid q now ds /\
  log = PutPayment q :: AddHistory (history_row pid p (pay_status q) reason now) :: (PutDelivery <$> ds) /\
  s_commits s' = s_commits s ++ [log] /\ s_db s' = view (s_db s) log /\ s_log s' = [].

(** A transition that moves money has made one commit: in addition, one journal entry with
    its lines, and one more version of every account in them. *)
Definition entry_posted (s : Sess) (pid : UUID) (p q : Payment) (fx : FieldOverrides)
  (entry_type : string) (lines : list JournalLine) (s' : Sess) : Prop :=
  exists now eid accs ds log,
  journal_entries (s_db s) !! eid = None /\
  Forall2 (fun i a => accounts (s_db s) !! i = Some a)
    (set_iter (jl_account_id <$> lines)) accs /\
  outbox (s_db s) pid q now ds /\
  log = (PutPayment <$> fx_writes p fx) ++
        entry_writes eid {| je_entry_type := entry_type; je_lines := lines;
                            je_payment_id := Some pid; je_idempotency_key_id := None |} ++
        bump_writes accs ++
        PutPayment q :: AddHistory (history_row pid p (pay_status q) None now) :: (PutDelivery <$> ds) /\
  s_commits s' = s_commits s ++ [log] /\ s_db s' = view (s_db s) log /\ s_log s' = [].

(** * Attempts *)

Lemma alone_for_attempts {A} max_attempts (body : Prog (option A)) exhausted s Q :
  1 <= max_attempts ->
  alone (with_uow body) s (fun s' r =>
   match r with Ok (Some a) => Q s' (Ok a) | Ok None => False | Err e => Q s' (Err e) end) ->
  alone (for_attempts max_attempts body exhausted) s Q.
Proof.
  intros Hmax Hb. unfold for_attempts. destruct (Z.to_nat max_attempts) as [|n] eqn:Hn; [lia|].
  cbn [attempts_loop]. apply run_bind. eapply run_mono; [exact Hb|].
  intros s' [[a|]|e] Hr; [by apply run_ret|done|done].
Qed.

(** The event types of the program fit their column. *)
Lemma event_type_fits st : varchar 50 (event_type_of st) = true.
Proof. by destruct st; vm_compute. Qed.

Lemma active_subscriptions_same db db' :
  webhook_subscriptions db' = webhook_subscriptions db -> active_subscriptions db' = active_subscriptions db.
Proof. unfold active_subscriptions. by intros ->. Qed.

(** The last statements, from a session whose payment row is already updated. *)
Lemma alone_finish pid p q to_status reason s Q :
  from_option text true reason = true -> is_Some (payments (cur s) !! pid) ->
  (forall i x, webhook_subscriptions (cur s) !! i = Some x -> sub_id x = i) ->
  pay_status q = to_status -> s_log s <> [] ->
  (forall ds s', outbox (cur s) pid q (s_now s) ds ->
   let ws := AddHistory (history_row pid p to_status reason (s_now s)) :: (PutDelivery <$> ds) in
   s_commits s' = s_commits s ++ [s_log s ++ ws] -> s_db s' = view (s_db s) (s_log s ++ ws) ->
   s_log s' = [] -> Q s' (Ok (Some q))) ->
  alone (record_status_transition pid (Some (pay_status p)) to_status reason ;;
       enqueue_payment_webhook_event pid (event_type_of to_status) (_payment_response_dict q) ;;
       commit ;; Ret (Some q)) s Q.
Proof.
  intros Hreason Hp Hsub Hq Hlog HQ. apply run_bind.
  apply alone_record_status_transition; [done|done|]. cbv beta iota.
  fold (history_row pid p to_status reason (s_now s)). set (h := history_row _ _ _ _ _).
  assert (Hcur : cur (wrote s [AddHistory h]) = apply_write (cur s) (AddHistory h)) by (by rewrite cur_wrote).
  apply run_bind, alone_enqueue_event; [apply event_type_fits|rewrite Hcur, payments_write; done| |].
  { intros i x. rewrite Hcur, subscriptions_write. apply Hsub. }
  intros ds Hds. cbv beta iota. apply run_bind, alone_commit, run_ret. rewrite wrote_app.
  apply (HQ ds).
  - unfold outbox. rewrite Hq, (active_subscriptions_same (cur (wrote s [AddHistory h])) (cur s)) by
    (rewrite Hcur; apply eq_sym, eq_sym; by rewrite subscriptions_write). exact Hds.
  - simpl. by destruct (s_log s).
  - done.
  - done.
Qed.

(** The committed rows a transition starts from. *)
Record ready (db : DB) (pid : UUID) (p : Payment) (to_status : PaymentStatus) : Prop := {
  rd_payment : payments db !! pid = Some p;
  rd_id : pay_id p = pid;
  rd_allowed : allowed (pay_status p) to_status;
  rd_version : pay_version p < int4_max;
  rd_subscriptions : forall i x, webhook_subscriptions db !! i = Some x -> sub_id x = i;
}.

(** The version counts the transitions, of which there are at most three. *)
Lemma ready_intro db pid p to_status :
  Inv db -> payments db !! pid = Some p -> allowed (pay_status p) to_status -> ready db pid p to_status.
Proof.
  intros HI Hp Hal. pose proof (inv_payment _ HI _ _ Hp) as Hok. split; try done.
  - by apply (po_id _ _ _ Hok).
  - destruct (po_history _ _ _ Hok) as (l & _ & Hl & _ & ->). apply lifecycle_length in Hl.
  unfold int4_max. simpl in Hl. lia.
  - apply (inv_subscription _ HI).
Qed.

Lemma alone_status_attempt pid p to_status reason s Q :
  ready (s_db s) pid p to_status -> from_option text true reason = true ->
  (forall s', status_posted s pid p (replaced p to_status None) reason s' ->
   Q s' (Ok (Some (replaced p to_status None)))) ->
  alone (with_uow (status_attempt pid to_status reason)) s Q.
Proof.
  intros [Hp Hid Hal Hv Hsub] Hreason HQ. apply run_with_uow. intros t.
  apply run_bind, alone_select. change (view (s_db (with_open s t)) (s_log (with_open s t))) with (s_db s).
  rewrite Hp. cbn [or_raise]. apply run_bind. unfold lift_transition.
  rewrite (Hal : assert_transition_allowed _ _ = Ok tt). apply run_ret, run_bind.
  apply alone_update_payment_status; [done|done|]. simpl negb. cbv iota.
  set (q := set_status p to_status). set (s1 := wrote (with_open s t) [PutPayment q]).
  assert (Hc : cur s1 = apply_write (s_db s) (PutPayment q)) by done.
  apply (alone_finish pid p q to_status reason s1).
  - done.
  - rewrite Hc, payments_write. simpl. rewrite Hid, lookup_insert_eq. eauto.
  - rewrite Hc, subscriptions_write. exact Hsub.
  - done.
  - done.
  - intros ds s' Hout ws Hcommits Hdb Hlog. apply HQ. exists t, ds, (s_log s1 ++
    AddHistory (history_row pid p to_status reason t) :: (PutDelivery <$> ds)).
  split_and!; try done.
  unfold outbox in *. rewrite (active_subscriptions_same (s_db s) (cur s1)) in Hout
    by (rewrite Hc; apply subscriptions_write). exact Hout.
Qed.

(** Liveness of the transitions that move no money: run alone, authorising an initiated
    payment, and failing an initiated or authorised one with a reason a TEXT column can
    hold, succeed at the first attempt with exactly one commit. *)
Lemma alone_authorise_and_fail pid p reason max_attempts s :
  Inv (s_db s) -> payments (s_db s) !! pid = Some p -> from_option text true reason = true ->
  1 <= max_attempts ->
  (pay_status p = INITIATED ->
   alone (authorise_payment pid max_attempts) s (fun s' r =>
     r = Ok (replaced p AUTHORISED None) /\
     status_posted s pid p (replaced p AUTHORISED None) None s')) /\
  (pay_status p ∈ [INITIATED; AUTHORISED] ->
   alone (fail_payment pid reason max_attempts) s (fun s' r =>
     r = Ok (replaced p FAILED None) /\
     status_posted s pid p (replaced p FAILED None) reason s')).
Proof.
  intros HI Hp Hreason Hmax.
  split; intros Hst; (apply alone_for_attempts; [done|]); (eapply alone_status_attempt;
  [apply ready_intro; [done|done|]|done|by intros s' Hs']).
  - by rewrite Hst.
  - by repeat (apply elem_of_cons in Hst as [->|Hst]); [..|apply elem_of_nil in Hst].
Qed.

(** ** Transitions with a journal entry *)

(** What the line builder must do alone: lines that pass every check, on existing accounts. *)
Record draft (db : DB) (p : Payment) (entry_type : string) (lines : list JournalLine)
  : Prop := {
   df_valid : validate_journal_entry lines = Ok tt;
   df_type : varchar 30 entry_type = true;
   df_lines : Forall (fun l => pos_column (jl_amount l) /\ varchar 3 (jl_currency l) = true) lines;
   df_accounts : Forall (fun l => exists a, accounts db !! jl_account_id l = Some a /\
    acc_id a = jl_account_id l /\ acc_version a < int4_max) lines;
 }.

Lemma draft_account db p et lines i :
  draft db p et lines -> i ∈ (list_to_set (jl_account_id <$> lines) : gset UUID) ->
  exists a, accounts db !! i = Some a /\ acc_id a = i /\ acc_version a < int4_max.
Proof.
  intros Hd Hi. apply elem_of_list_to_set, list_elem_of_fmap in Hi as (l & -> & Hl).
  pose proof (df_accounts _ _ _ _ Hd) as Ha. rewrite Forall_forall in Ha. by apply Ha.
Qed.

(** The tables a journal entry does not write. *)
Lemma entry_writes_tables db eid entry :
  accounts (view db (entry_writes eid entry)) = accounts db /\
  payments (view db (entry_writes eid entry)) = payments db /\
  webhook_subscriptions (view db (entry_writes eid entry)) = webhook_subscriptions db.
Proof.
  unfold entry_writes. rewrite accounts_view, payments_view, subscriptions_view.
  log_unfold. csimpl. by rewrite !omap_fmap_none by done.
Qed.

Lemma bump_writes_tables db accs :
  payments (view db (bump_writes accs)) = payments db /\
  webhook_subscriptions (view db (bump_writes accs)) = webhook_subscriptions db.
Proof.
  unfold bump_writes. rewrite payments_view, subscriptions_view. log_unfold.
  by rewrite !omap_fmap_none by done.
Qed.

(** The payment's row once the builder has recorded its FX details. *)
Definition with_fx (p : Payment) (fx : FieldOverrides) : Payment :=
  match fx with Some (rate_id, amount) => set_fx p (Some rate_id) (Some amount) | None => p end.

Lemma fx_writes_tables db pid p fx :
  pay_id p = pid -> payments db !! pid = Some p ->
  accounts (view db (PutPayment <$> fx_writes p fx)) = accounts db /\
  journal_entries (view db (PutPayment <$> fx_writes p fx)) = journal_entries db /\
  payments (view db (PutPayment <$> fx_writes p fx)) !! pid = Some (with_fx p fx) /\
  webhook_subscriptions (view db (PutPayment <$> fx_writes p fx)) = webhook_subscriptions db.
Proof.
  intros Hid Hp. destruct fx as [[r d]|]; [|done]. simpl.
  rewrite accounts_write, entries_write, payments_write, subscriptions_write. simpl.
  rewrite Hid, lookup_insert_eq. done.
Qed.

(** An entry that can be written: its columns hold it, and its accounts are there with room
    for one more version. *)
Record writable_entry (db : DB) (entry : JournalEntry) : Prop := {
  we_type : varchar 30 (je_entry_type entry) = true;
  we_payment : fk (payments db) (je_payment_id entry) = true;
  we_key : je_idempotency_key_id entry = None;
  we_lines : Forall (fun l => pos_column (jl_amount l) /\ varchar 3 (jl_currency l) = true) (je_lines entry);
  we_accounts : Forall (fun l => exists a, accounts db !! jl_account_id l = Some a /\
    acc_id a = jl_account_id l /\ acc_version a < int4_max) (je_lines entry);
}.

Lemma writable_account db entry i :
  writable_entry db entry -> i ∈ set_iter (account_ids entry) ->
  exists a, accounts db !! i = Some a /\ acc_id a = i /\ acc_version a < int4_max.
Proof.
  intros Hw Hi. rewrite elem_of_set_iter in Hi.
  apply list_elem_of_fmap in Hi as (l & -> & Hl).
  pose proof (we_accounts _ _ Hw) as Ha. rewrite Forall_forall in Ha. by apply Ha.
Qed.

(** The statements every posting consists of: the versions read, the entry and its lines, and
    the bumped versions; alone there is never a conflict. *)
Lemma alone_write_entry {A} entry (k : UUID -> bool -> Prog A) s Q :
  writable_entry (cur s) entry ->
  (forall eid accs, journal_entries (cur s) !! eid = None ->
     Forall2 (fun i a => accounts (cur s) !! i = Some a) (set_iter (account_ids entry)) accs ->
     alone (k eid false) (wrote s (entry_writes eid entry ++ bump_writes accs)) Q) ->
  alone (versions ← get_account_versions (set_iter (account_ids entry));
         eid ← insert_journal_entry entry;
         conflict ← bump_all (set_iter (account_ids entry)) versions;
         k eid conflict) s Q.
Proof.
  intros Hw HQ. apply run_bind, alone_get_account_versions.
  { intros i Hi. destruct (writable_account _ _ _ Hw Hi) as (a & Ha & _). by exists a. }
  intros versions Hver. apply run_bind, alone_insert_entry; try apply Hw.
  { eapply Forall_impl; [apply (we_accounts _ _ Hw)|]. intros l (a & Ha & _). by exists a. }
  intros eid Heid. cbv beta iota. set (s1 := wrote s (entry_writes eid entry)).
  assert (Hacc : accounts (cur s1) = accounts (cur s)).
  { unfold s1. rewrite cur_wrote. by apply entry_writes_tables. }
  apply run_bind, alone_bump_all.
  - apply set_iter_NoDup.
  - intros i Hi. destruct (writable_account _ _ _ Hw Hi) as (a & Ha & Hid & Hv). exists a.
    rewrite Hacc. split_and!; [done|done|by apply Hver|done].
  - intros accs Haccs. rewrite Hacc in Haccs. unfold s1. rewrite wrote_app. by apply HQ.
Qed.

Lemma alone_entry_attempt pid p to_status build_lines et lines fx s Q :
  ready (s_db s) pid p to_status -> draft (s_db s) p et lines ->
  (forall t Q', Q' (wrote (with_open s t) (PutPayment <$> fx_writes p fx)) (Ok (et, lines, fx)) ->
   alone (build_lines p) (with_open s t) Q') ->
  (forall s', entry_posted s pid p (replaced p to_status fx) fx et lines s' ->
   Q s' (Ok (Some (replaced p to_status fx)))) ->
  alone (with_uow (entry_attempt pid to_status build_lines)) s Q.
Proof.
  intros [Hp Hid Hal Hv Hsub] Hdraft Hbuild HQ. apply run_with_uow. intros t.
  apply run_bind, alone_select. change (view (s_db (with_open s t)) (s_log (with_open s t))) with (s_db s).
  rewrite Hp. cbn [or_raise]. apply run_bind. unfold lift_transition.
  rewrite (Hal : assert_transition_allowed _ _ = Ok tt). apply run_ret, run_bind, Hbuild.
  cbv beta iota zeta. cbn [je_lines]. rewrite (df_valid _ _ _ _ Hdraft). apply run_bind, run_ret.
  set (W0 := PutPayment <$> fx_writes p fx). set (s1 := wrote (with_open s t) W0).
  destruct (fx_writes_tables (s_db s) pid p fx Hid Hp) as (Ha1 & He1 & Hp1 & Hs1).
  fold W0 in Ha1, He1, Hp1, Hs1. change (view (s_db s) W0) with (cur s1) in Ha1, He1, Hp1, Hs1.
  rewrite Hid. set (entry := {| je_entry_type := et |}).
  apply (alone_write_entry entry (fun _ (conflict : bool) => _ : Prog (option Payment))).
  { split; cbn [entry je_entry_type je_payment_id je_idempotency_key_id je_lines]; try apply Hdraft; [|done|].
    - apply bool_decide_true. eauto.
    - rewrite Ha1. apply Hdraft. }
  intros eid accs Heid Haccs. rewrite He1 in Heid. rewrite Ha1 in Haccs.
  set (W1 := entry_writes eid entry). set (W2 := bump_writes accs). set (s3 := wrote s1 (W1 ++ W2)).
  assert (Hp3 : payments (cur s3) = payments (cur s1) /\
    webhook_subscriptions (cur s3) = webhook_subscriptions (cur s1)).
  { unfold s3. rewrite cur_wrote, view_app. unfold W2, W1.
    destruct (bump_writes_tables (view (cur s1) (entry_writes eid entry)) accs) as [-> ->].
    by destruct (entry_writes_tables (cur s1) eid entry) as (_ & -> & ->). }
  destruct Hp3 as [Hp3 Hs3].
  cbv beta iota. apply run_bind, run_bind.
  replace (pay_version p) with (pay_version (with_fx p fx)) by by destruct fx as [[]|].
  apply alone_update_payment_status; [by rewrite Hp3|by destruct fx as [[]|]|].
  unfold with_fx at 1. rewrite (set_status_replaced p to_status fx). apply run_ret. simpl negb. cbv iota.
  set (q := replaced p to_status fx). set (s4 := wrote s3 [PutPayment q]).
  assert (Hq : pay_id q = pid /\ pay_status q = to_status) by (unfold q; by destruct fx as [[]|]).
  destruct Hq as [Hqid Hqst].
  assert (Hc : cur s4 = apply_write (cur s3) (PutPayment q)) by (unfold s4; by rewrite cur_wrote).
  assert (Hsubs : webhook_subscriptions (cur s4) = webhook_subscriptions (s_db s)).
  { rewrite Hc, subscriptions_write. congruence. }
  apply (alone_finish pid p q to_status None s4); [done| |by rewrite Hsubs|done| |].
  { rewrite Hc, payments_write, Hqid, lookup_insert_eq. eauto. }
  { change (s_log s3 ++ [PutPayment q] <> []). by intros [_ ?]%app_nil. }
  intros ds s' Hout ws Hcommits Hdb Hlog. apply HQ. exists t, eid, accs, ds, (s_log s4 ++ ws).
  split_and!; try done.
  - unfold outbox in *. by rewrite (active_subscriptions_same (s_db s) (cur s4)) in Hout.
  - fold q. rewrite Hqst. change (s_log s4) with (((([] ++ W0) ++ (W1 ++ W2)) ++ [PutPayment q])).
  rewrite <- !app_assoc. done.
Qed.
End transitions.
