(* ===== verification/Settlement.v ===== *)
(** Settlement: settling, reversing and the transitions without money, run alone, succeed
    whenever they should, and commit exactly the rows they should. *)
From S2P Require Import Prelude Decimals PyText PyVal Ledger Fx PaymentSM Recon Webhooks.
From S2P Require Import Store Session Repos SupportRepos LedgerService PaymentService.
From S2P Require Import Atomicity.
From S2P Require Import Invariant Commits Transactions PaymentRuns Alone AloneTransitions.

#[local] Open Scope Z_scope.

(** * Accounts that can be posted to *)

Record postable (db : DB) (id : UUID) (a : Account) : Prop := {
  pb_account : accounts db !! id = Some a;
  pb_id : acc_id a = id;
  pb_currency : varchar 3 (acc_currency a) = true;
  pb_version : acc_version a < int4_max;
}.

(** The only rate of a currency pair with the latest booking time. *)
Record latest_rate (db : DB) (base quote : string) (rate : FxRate) : Prop := {
  lr_in : rate ∈ fx_rates db;
  lr_base : fx_base_currency rate = base;
  lr_quote : fx_quote_currency rate = quote;
  lr_latest : forall r, r ∈ fx_rates db -> fx_base_currency r = base -> fx_quote_currency r = quote ->
    r = rate \/ fx_booked_at r < fx_booked_at rate;
}.

(** The lines the two kinds of settlement and reversal post. *)
Definition direct_lines (p : Payment) : list JournalLine :=
  [line (pay_debtor_account_id p) DEBIT (pay_amount p) (pay_currency p);
   line (pay_creditor_account_id p) CREDIT (pay_amount p) (pay_currency p)].
Definition fx_lines (p : Payment) (suspense : UUID) (dc cc : string) (d : Decimal) : list JournalLine :=
  [line (pay_debtor_account_id p) DEBIT (pay_amount p) dc;
   line suspense CREDIT (pay_amount p) dc;
   line suspense DEBIT d cc;
   line (pay_creditor_account_id p) CREDIT d cc].
Definition direct_reversal (p : Payment) : list JournalLine :=
  [line (pay_creditor_account_id p) DEBIT (pay_amount p) (pay_currency p);
   line (pay_debtor_account_id p) CREDIT (pay_amount p) (pay_currency p)].
Definition fx_reversal (p : Payment) (suspense : UUID) (dc cc : string) (d : Decimal) : list JournalLine :=
  [line suspense DEBIT (pay_amount p) dc;
   line (pay_debtor_account_id p) CREDIT (pay_amount p) dc;
   line (pay_creditor_account_id p) DEBIT d cc;
   line suspense CREDIT d cc].

Ltac lines_balance :=
  let ccy := fresh "ccy" in
  intros ccy; unfold direct_lines, fx_lines, direct_reversal, fx_reversal, net_cents, ccy_cents,
    signed_cents; simpl; repeat case_decide; simplify_eq; lia.

Ltac lines_each tac :=
  repeat (apply Forall_cons; split; [tac|]); apply Forall_nil; exact I.

Section builders.
Context `{Platform}.

Lemma postable_line db id a l :
  postable db id a -> jl_account_id l = id ->
  exists a, accounts db !! jl_account_id l = Some a /\ acc_id a = jl_account_id l /\ acc_version a < int4_max.
Proof. intros [] ->. by exists a. Qed.

(** ** Reads *)

Lemma alone_get_account id a s Q :
  accounts (cur s) !! id = Some a -> Q s (Ok a) -> alone (get_account id) s Q.
Proof. intros Ha HQ. apply alone_select. fold (cur s). by rewrite Ha. Qed.

(** What the query by number returns, when the number is unique. *)
Lemma found_by_number db number id a :
  (forall i j x y, accounts db !! i = Some x -> accounts db !! j = Some y ->
     acc_account_number x = acc_account_number y -> i = j) ->
  accounts db !! id = Some a -> acc_account_number a = number ->
  match filter (fun kv => acc_account_number kv.2 = number) (map_to_list (accounts db)) with
  | kv :: _ => Ok kv.2
  | [] => Err (AccountNotFoundError (inr number))
  end = Ok a.
Proof.
  intros Huniq Ha Hnum. set (rows := filter _ (map_to_list _)).
  assert (Hrows : forall kv, kv ∈ rows <-> acc_account_number kv.2 = number /\
    accounts db !! kv.1 = Some kv.2).
  { intros [i x]. unfold rows. rewrite list_elem_of_filter. by rewrite elem_of_map_to_list. }
  clearbody rows. destruct rows as [|[i x] l].
  - destruct (proj1 (elem_of_nil (id, a))). by apply Hrows.
  - destruct (proj1 (Hrows (i, x))) as [Hn Hin]; [apply elem_of_cons; by left|].
    cbn [fst snd] in *. assert (i = id) as -> by (apply (Huniq i id x a); [done|done|by rewrite Hn, Hnum]).
    rewrite Ha in Hin. by injection Hin as <-.
Qed.

Lemma alone_get_by_number number id a s Q :
  (forall i j x y, accounts (cur s) !! i = Some x -> accounts (cur s) !! j = Some y ->
     acc_account_number x = acc_account_number y -> i = j) ->
  accounts (cur s) !! id = Some a -> acc_account_number a = number -> Q s (Ok a) ->
  alone (get_account_by_number number) s Q.
Proof.
  intros Huniq Ha Hnum HQ. apply alone_select. fold (cur s).
  by rewrite (found_by_number (cur s) number id a).
Qed.

Lemma alone_get_by_number_none number s Q :
  (forall i x, accounts (cur s) !! i = Some x -> acc_account_number x <> number) ->
  Q s (Err (AccountNotFoundError (inr number))) -> alone (get_account_by_number number) s Q.
Proof.
  intros Hnone HQ. apply alone_select. fold (cur s). set (rows := filter _ (map_to_list _)).
  assert (Hrows : forall kv, kv ∉ rows).
  { intros [i x]. unfold rows. rewrite list_elem_of_filter. cbn [fst snd].
    intros [Hn Hin%elem_of_map_to_list]. by destruct (Hnone i x Hin). }
  clearbody rows. destruct rows as [|kv l]; [done|]. destruct (Hrows kv). apply elem_of_cons. by left.
Qed.

Lemma alone_get_suspense id a s Q :
  (forall i j x y, accounts (cur s) !! i = Some x -> accounts (cur s) !! j = Some y ->
     acc_account_number x = acc_account_number y -> i = j) ->
  accounts (cur s) !! id = Some a -> is_suspense a -> Q s (Ok a) ->
  alone (get_account_by_number FX_SUSPENSE_ACCOUNT_NUMBER) s Q.
Proof. apply alone_get_by_number. Qed.

Lemma alone_get_latest_rate base quote rate s Q :
  latest_rate (cur s) base quote rate -> Q s (Ok rate) -> alone (get_latest_rate base quote) s Q.
Proof.
  intros [Hin Hb Hq Hlast] HQ. apply alone_select. fold (cur s).
  set (l := pg_scan (filter _ (fx_rates (cur s)))).
  assert (Hl : forall r, r ∈ l <-> (fx_base_currency r = base /\ fx_quote_currency r = quote) /\ r ∈ fx_rates (cur s)).
  { intros r. unfold l. rewrite pg_scan_perm. by rewrite list_elem_of_filter. }
  assert (Htot : Total booked_later) by (intros x y; unfold booked_later; lia).
  match goal with |- context [merge_sort _ l] => set (rs := merge_sort _ l) end.
  assert (Hperm : rs ≡ₚ l) by apply merge_sort_Permutation.
  assert (Hsort : Sorted booked_later rs) by (apply Sorted_merge_sort, _).
  clearbody rs. destruct rs as [|r rs].
  - assert (Hr : rate ∈ l) by (by apply Hl). rewrite <- Hperm in Hr. set_solver.
  - assert (Hr : r ∈ l) by (rewrite <- Hperm; set_solver). apply Hl in Hr as ([Hrb Hrq] & Hri).
  destruct (Hlast r Hri Hrb Hrq) as [->|Hlt]; [done|exfalso].
  assert (Hrate : rate ∈ r :: rs) by (rewrite Hperm; by apply Hl).
  apply elem_of_cons in Hrate as [->|Hrate]; [lia|].
  apply Sorted_StronglySorted in Hsort; [|intros x y z; unfold booked_later; lia].
  apply StronglySorted_inv in Hsort as [_ Hall]. rewrite Forall_forall in Hall.
  specialize (Hall rate Hrate). unfold booked_later in Hall. lia.
Qed.

(** ** What the builders plan *)

(** The entry a settlement posts, and the FX details it records. *)
Inductive settlement_plan (db : DB) (p : Payment) : string -> list JournalLine -> FieldOverrides -> Prop :=
  | plan_direct d c :
  postable db (pay_debtor_account_id p) d -> postable db (pay_creditor_account_id p) c ->
  acc_currency d = acc_currency c ->
  settlement_plan db p "transfer" (direct_lines p) None
  | plan_fx d c suspense sa rate a r :
  postable db (pay_debtor_account_id p) d -> postable db (pay_creditor_account_id p) c ->
  acc_currency d <> acc_currency c -> postable db suspense sa -> is_suspense sa ->
  latest_rate db (acc_currency d) (acc_currency c) rate ->
  pay_amount p = of_cents a -> fx_rate rate = of_rate r -> 0 < r -> a * r < 10 ^ 28 ->
  0 < half_up_1e8 (a * r) < 10 ^ 18 ->
  settlement_plan db p "fx_conversion"
    (fx_lines p suspense (acc_currency d) (acc_currency c) (of_cents (half_up_1e8 (a * r))))
    (Some (fx_id rate, of_cents (half_up_1e8 (a * r)))).

(** The entry a reversal posts. *)
Inductive reversal_plan (db : DB) (p : Payment) : string -> list JournalLine -> Prop :=
  | plan_reversal d c :
  postable db (pay_debtor_account_id p) d -> postable db (pay_creditor_account_id p) c ->
  pay_creditor_amount p = None ->
  reversal_plan db p "reversal" (direct_reversal p)
  | plan_fx_reversal d c suspense sa amount :
  postable db (pay_debtor_account_id p) d -> postable db (pay_creditor_account_id p) c ->
  postable db suspense sa -> is_suspense sa -> pay_creditor_amount p = Some amount ->
  reversal_plan db p "fx_conversion_reversal"
    (fx_reversal p suspense (acc_currency d) (acc_currency c) amount).

Lemma draft_intro db p et lines :
  lines <> [] -> (length lines <= 4)%nat -> balanced lines -> varchar 30 et = true ->
  Forall (fun l => pos_column (jl_amount l) /\ varchar 3 (jl_currency l) = true /\
   exists a, postable db (jl_account_id l) a) lines ->
  draft db p et lines.
Proof.
  intros Hne Hlen Hbal Het Hl. split.
  - apply validate_ok; try done. eapply Forall_impl; [exact Hl|]. naive_solver.
  - done.
  - eapply Forall_impl; [exact Hl|]. naive_solver.
  - eapply Forall_impl; [exact Hl|]. intros l (_ & _ & a & [Ha Hid _ Hv]). by exists a.
Qed.

(** The lines of a payment whose invariant holds can be posted. *)
Ltac draft_lines :=
  apply draft_intro; [done|simpl; lia|lines_balance|done|];
  repeat (apply Forall_cons; split; [split_and!; cbn; first [done|eauto using pb_currency]|]); constructor.

Lemma payment_currency_varchar db pid p d :
  payment_ok db pid p -> postable db (pay_debtor_account_id p) d -> varchar 3 (pay_currency p) = true.
Proof.
  intros Hok [Hd _ Hc _]. rewrite (po_currency _ _ _ Hok). unfold account_currency. by rewrite Hd.
Qed.

Lemma settlement_draft db pid p et lines fx :
  payment_ok db pid p -> settlement_plan db p et lines fx -> draft db p et lines.
Proof.
  intros Hok Hplan. pose proof (po_amount _ _ _ Hok) as Hpos.
  destruct Hplan as [d c Hd Hc Hcur|d c su sa rate a r Hd Hc Hcur Hsu His Hrate Ha Hr Hpr Hb Hz].
  - pose proof (payment_currency_varchar _ _ _ _ Hok Hd) as Hv. draft_lines.
  - assert (Hconv : pos_column (of_cents (half_up_1e8 (a * r)))) by (by eexists).
  draft_lines.
Qed.

Lemma reversal_draft db pid p et lines :
  payment_ok db pid p -> reversal_plan db p et lines -> draft db p et lines.
Proof.
  intros Hok Hplan. pose proof (po_amount _ _ _ Hok) as Hpos.
  destruct Hplan as [d c Hd Hc Hnone|d c su sa amount Hd Hc Hsu His Ham].
  - pose proof (payment_currency_varchar _ _ _ _ Hok Hd) as Hv. draft_lines.
  - destruct (po_fx _ _ _ Hok _ Ham) as [Hconv _]. draft_lines.
Qed.

(** ** The builders *)

Lemma alone_settlement_lines pid p et lines fx s t Q :
  Inv (s_db s) -> payments (s_db s) !! pid = Some p -> settlement_plan (s_db s) p et lines fx ->
  Q (wrote (with_open s t) (PutPayment <$> fx_writes p fx)) (Ok (et, lines, fx)) ->
  alone (_settlement_lines p) (with_open s t) Q.
Proof.
  intros HI Hp Hplan HQ.
  destruct Hplan as [d c [Hd _ _ _] [Hc _ _ _] Hcur|d c su sa rate a r [Hd _ _ _] [Hc _ _ _] Hcur [Hsu Hsid _ _] His Hrate Ha Hr Hpr Hb Hz];
  apply run_bind, (alone_get_account _ d); [done| |done|]; cbv beta iota;
  apply run_bind, (alone_get_account _ c); [done| |done|]; cbv beta iota.
  - rewrite bool_decide_true by done. apply run_ret. by rewrite <- (wrote_nil (with_open s t)).
  - rewrite bool_decide_false by done. apply run_bind, (alone_get_latest_rate _ _ rate); [done|].
  cbv beta iota. destruct (po_amount _ _ _ (inv_payment _ HI _ _ Hp)) as (a' & Ha' & Hpos).
  assert (a' = a) as -> by (rewrite Ha in Ha'; apply of_cents_inj in Ha'; done).
  rewrite Hr in *. rewrite Ha at 1. rewrite convert_amount_columns by lia.
  apply run_bind, run_ret, run_bind, (alone_get_suspense su sa); [|done|done|].
  { intros i j x y. apply (inv_account_number _ HI). }
  cbv beta iota. set (z := half_up_1e8 _) in *.
  assert (Hid : pay_id p = pid) by (by apply (po_id _ _ _ (inv_payment _ HI _ _ Hp))).
  apply run_bind. eapply alone_sql.
  { fold (cur (with_open s t)). change (cur (with_open s t)) with (s_db s). rewrite Hid, Hp.
    unfold numeric. rewrite pg_numeric_exact by (apply pos_column_column; by exists z).
    cbn [or_raise]. rewrite result_bind_ok.
    assert (Hex : existsb (fun q => (fx_id q =? fx_id rate)%N) (fx_rates (s_db s)) = true).
    { apply existsb_exists. exists rate. split; [|apply N.eqb_refl].
      apply list_elem_of_In. apply Hrate. }
    rewrite Hex. done. }
  apply run_ret. by rewrite Hsid.
Qed.

Lemma alone_reversal_lines pid p et lines s t Q :
  Inv (s_db s) -> payments (s_db s) !! pid = Some p -> reversal_plan (s_db s) p et lines ->
  Q (wrote (with_open s t) []) (Ok (et, lines, None)) ->
  alone (_reversal_lines p) (with_open s t) Q.
Proof.
  intros HI Hp Hplan HQ. rewrite (wrote_nil (with_open s t)) in HQ. unfold _reversal_lines.
  destruct Hplan as [d c _ _ Hnone|d c su sa amount [Hd _ _ _] [Hc _ _ _] [Hsu Hsid _ _] His Ham].
  - rewrite Hnone. by apply run_ret.
  - rewrite Ham. apply run_bind, (alone_get_account _ d); [done|]. cbv beta iota.
  apply run_bind, (alone_get_account _ c); [done|]. cbv beta iota.
  apply run_bind, (alone_get_suspense su sa); [|done|done|].
  { intros i j x y. apply (inv_account_number _ HI). }
  apply run_ret. by rewrite Hsid.
Qed.

(** * Properties *)

(** C6. Liveness of settlement: run alone on any state that satisfies the invariant, settling
    an authorised payment whose accounts can be posted to (and, across currencies, with a
    booked rate that is usable and a suspense account) succeeds at the first attempt: it
    returns the settled payment, and its single commit holds exactly the planned entry with
    its lines, the version of every account involved, the payment and its FX details, the
    history row and one delivery for each subscription that wants the event. *)
Theorem settle_succeeds pid p et lines fx max_attempts s :
  Inv (s_db s) -> payments (s_db s) !! pid = Some p -> pay_status p = AUTHORISED ->
  settlement_plan (s_db s) p et lines fx -> 1 <= max_attempts ->
  alone (settle_payment pid max_attempts) s (fun s' r =>
   r = Ok (replaced p SETTLED fx) /\
   entry_posted s pid p (replaced p SETTLED fx) fx et lines s').
Proof.
  intros HI Hp Hst Hplan Hmax. apply alone_for_attempts; [done|].
  eapply (alone_entry_attempt pid p SETTLED _ et lines fx).
  - apply ready_intro; [done|done|by rewrite Hst].
  - eapply settlement_draft; [by apply (inv_payment _ HI)|done].
  - intros t Q'. by apply (alone_settlement_lines pid).
  - by intros s' Hs'.
Qed.

(** Liveness of reversal: run alone, reversing a settled payment whose accounts can be
    posted to succeeds at the first attempt, with the mirrored lines in its single commit. *)
Lemma alone_reverse pid p et lines max_attempts s :
  Inv (s_db s) -> payments (s_db s) !! pid = Some p -> pay_status p = SETTLED ->
  reversal_plan (s_db s) p et lines -> 1 <= max_attempts ->
  alone (reverse_payment pid max_attempts) s (fun s' r =>
   r = Ok (replaced p REVERSED None) /\
   entry_posted s pid p (replaced p REVERSED None) None et lines s').
Proof.
  intros HI Hp Hst Hplan Hmax. apply alone_for_attempts; [done|].
  eapply (alone_entry_attempt pid p REVERSED _ et lines None).
  - apply ready_intro; [done|done|by rewrite Hst].
  - eapply reversal_draft; [by apply (inv_payment _ HI)|done].
  - intros t Q'. by apply (alone_reversal_lines pid).
  - by intros s' Hs'.
Qed.

(** C7. Liveness of the other transitions: run alone, authorising an initiated payment,
    failing an initiated or authorised one with a reason a TEXT column can hold, and
    reversing a settled one whose accounts can be posted to succeed at the first attempt, with
    exactly one commit: the new status with its history row and deliveries, and for a reversal
    also the mirrored lines. *)
Theorem transitions_succeed pid p reason max_attempts s :
  Inv (s_db s) -> payments (s_db s) !! pid = Some p -> 1 <= max_attempts ->
  (pay_status p = INITIATED ->
   alone (authorise_payment pid max_attempts) s (fun s' r =>
     r = Ok (replaced p AUTHORISED None) /\
     status_posted s pid p (replaced p AUTHORISED None) None s')) /\
  (pay_status p ∈ [INITIATED; AUTHORISED] -> from_option text true reason = true ->
   alone (fail_payment pid reason max_attempts) s (fun s' r =>
     r = Ok (replaced p FAILED None) /\
     status_posted s pid p (replaced p FAILED None) reason s')) /\
  (forall et lines, pay_status p = SETTLED -> reversal_plan (s_db s) p et lines ->
   alone (reverse_payment pid max_attempts) s (fun s' r =>
     r = Ok (replaced p REVERSED None) /\
     entry_posted s pid p (replaced p REVERSED None) None et lines s')).
Proof.
  intros HI Hp Hmax. split; [|split].
  - by apply (alone_authorise_and_fail pid p None).
  - intros Hst Hreason. by apply (alone_authorise_and_fail pid p reason).
  - intros et lines Hst Hplan. by apply alone_reverse.
Qed.

End builders.
