(* ===== verification/Posting.v ===== *)
(** Posting: posting a journal entry without a payment, alone and to its end
    (post_journal_entry of app/domain/ledger/services.py). *)
From S2P Require Import Prelude Decimals PyText PyVal Ledger Fx PaymentSM Recon Webhooks.
From S2P Require Import Store Session Repos SupportRepos LedgerService PaymentService.
From S2P Require Import Atomicity.
From S2P Require Import Invariant Commits Transactions PaymentRuns Alone AloneTransitions.
From S2P Require Import Settlement.

#[local] Open Scope Z_scope.

Section posting.
Context `{Platform}.

(** An entry that the checks and the columns accept as it is. *)
Record sound_entry (db : DB) (entry : JournalEntry) : Prop := {
  se_lines : je_lines entry <> [];
  se_length : (length (je_lines entry) <= 4)%nat;
  se_balanced : balanced (je_lines entry);
  se_type : varchar 30 (je_entry_type entry) = true;
  se_payment : fk (payments db) (je_payment_id entry) = true;
  se_key : je_idempotency_key_id entry = None;
  se_amounts : Forall (fun l => pos_column (jl_amount l)) (je_lines entry);
  se_accounts : Forall (fun l => exists a, postable db (jl_account_id l) a /\ acc_currency a = jl_currency l)
    (je_lines entry);
}.

(** One commit: the entry, its lines, and one more version of every account in them. *)
Definition posted (s : Sess) (entry : JournalEntry) (s' : Sess) (eid : UUID) : Prop :=
  exists accs,
    journal_entries (s_db s) !! eid = None /\
    Forall2 (fun i a => accounts (s_db s) !! i = Some a) (set_iter (account_ids entry)) accs /\
    s_commits s' = s_commits s ++ [entry_writes eid entry ++ bump_writes accs] /\
    s_db s' = view (s_db s) (entry_writes eid entry ++ bump_writes accs) /\
    s_log s' = [] /\ s_sleeps s' = s_sleeps s.

Lemma sound_line db entry l :
  sound_entry db entry -> l ∈ je_lines entry ->
  exists a, postable db (jl_account_id l) a /\ pos_column (jl_amount l) /\ varchar 3 (jl_currency l) = true.
Proof.
  intros [_ _ _ _ _ _ Hpos Hacc] Hl. rewrite Forall_forall in Hpos, Hacc.
  destruct (Hacc l Hl) as (a & Ha & <-). exists a. split_and!; [done|by apply Hpos|apply Ha].
Qed.

(** C23. Liveness of posting: run alone, a balanced entry of column amounts between accounts
    of the lines' currencies is posted at the first attempt: the returned identifier is that
    of a new entry, the single commit holds exactly the entry, its lines and the bumped
    account versions, and the loop never pauses. *)
Theorem post_journal_entry_succeeds entry max_attempts s :
  sound_entry (s_db s) entry -> 1 <= max_attempts ->
  alone (post_journal_entry entry max_attempts) s (fun s' r =>
    exists eid, r = Ok eid /\ posted s entry s' eid).
Proof.
  intros He Hmax. pose proof (se_lines _ _ He). unfold post_journal_entry.
  rewrite validate_ok by apply He. apply run_bind, run_ret. cbv zeta.
  apply alone_for_attempts; [done|]. apply run_with_uow. intros t.
  change (s_db s) with (cur (with_open s t)) in He.
  apply (alone_write_entry entry (fun eid (conflict : bool) => _ : Prog (option UUID))).
  { split; try apply He; apply Forall_forall; intros l Hl.
    - by destruct (sound_line _ _ _ He Hl) as (a & _ & Hl').
    - destruct (sound_line _ _ _ He Hl) as (a & [Ha Hid _ Hv] & _). by exists a. }
  intros eid accs Heid Haccs. cbv iota. apply run_bind, alone_commit, run_ret.
  exists eid. split; [done|]. exists accs. by split_and!.
Qed.
End posting.
