(* ===== verification/Backoff.v ===== *)
(** Backoff: app/domain/webhooks/retry_policy.py and app/domain/concurrency.py.

    Python floats are IEEE 754 binary64 numbers, here the standard library's
    [spec_float] at precision 53 and exponent bound 1024; [timedelta] keeps whole
    microseconds. *)
From Stdlib Require Import SpecFloat.
From S2P Require Import Prelude Decimals Ledger Store.

#[local] Open Scope Z_scope.

Abbreviation float := spec_float.

Definition fmul (x y : float) : float := SFmul 53 1024 x y.
Definition fltb (x y : float) : bool := SFltb x y.

(** [float(n)]: too large an integer raises. *)
Definition float_of_int (n : Z) : result Exn float :=
  match binary_normalize 53 1024 n 0 false with
  | S754_infinity _ => Err OverflowError
  | f => Ok f
  end.

(** [min(a, b)] *)
Definition fmin (a b : float) : float := if fltb b a then b else a.

(** ** retry_policy.py *)

Definition DEFAULT_BASE_SECONDS : float := S754_finite false 4503599627370496 (-51).  (* 2.0 *)
Definition DEFAULT_MAX_SECONDS : float := S754_finite false 7916483719987200 (-43).   (* 900.0 *)

Definition backoff_seconds (attempt : Z) (base_seconds max_seconds : float) : result Exn float :=
  power ← float_of_int (2 ^ attempt);
  Ok (fmin max_seconds (fmul base_seconds power)).

(** ** concurrency.py *)

Definition _BASE_BACKOFF_SECONDS : float := S754_finite false 0x147ae147ae147b (-59).  (* 0.01 *)
Definition _MAX_BACKOFF_SECONDS : float := S754_finite false 0x1999999999999a (-55).   (* 0.2 *)

Definition retry_ceiling (attempt : Z) : result Exn float :=
  power ← float_of_int (2 ^ attempt);
  Ok (fmin _MAX_BACKOFF_SECONDS (fmul _BASE_BACKOFF_SECONDS power)).

(** [random.uniform(0, ceiling)] is [0 + (ceiling - 0) * random()], [u] being [random()]. *)
Definition retry_backoff_seconds (attempt : Z) (u : float) : result Exn float :=
  ceiling ← retry_ceiling attempt;
  Ok (SFadd 53 1024 (S754_zero false) (fmul (SFsub 53 1024 ceiling (S754_zero false)) u)).

(** ** timedelta(seconds=f), in microseconds *)

(** Division rounded to the nearest integer, ties to even. *)
Definition round_half_even (n d : Z) : Z :=
  let q := n / d in
  let r := n mod d in
  if (2 * r <? d) || ((2 * r =? d) && Z.even q) then q else q + 1.

(** Integral seconds count exactly; the fraction is scaled as a float and then rounded. *)
Definition timedelta_us (f : float) : result Exn Z :=
  match f with
  | S754_zero _ => Ok 0
  | S754_finite s m e =>
      let k := 2 ^ Z.max 0 (- e) in
      let n := Zpos m * 2 ^ Z.max 0 e in
      let frac := match binary_normalize 53 1024 (n mod k) (Z.min 0 e) false with
                  | S754_finite _ m' e' =>
                      match fmul (S754_finite false m' e') (S754_finite false 8589934592000000 (-33)) with
                      | S754_finite _ m'' e'' => round_half_even (Zpos m'' * 2 ^ Z.max 0 e'') (2 ^ Z.max 0 (- e''))
                      | _ => 0
                      end
                  | _ => 0
                  end in
      let us := (n / k) * 10 ^ 6 + frac in
      if 999999999 * 86400 * 10 ^ 6 <? us then Err OverflowError else Ok (if s then - us else us)
  | _ => Err OverflowError
  end.

(** The delay before the next try, in microseconds, with the default policy. *)
Definition backoff_us (attempt : Z) : result Exn Z :=
  f ← backoff_seconds attempt DEFAULT_BASE_SECONDS DEFAULT_MAX_SECONDS;
  timedelta_us f.

(** The schedule it should follow: doubling from two seconds up to a quarter of an hour. *)
Definition schedule_us (attempt : Z) : Z := Z.min 900 (2 ^ (attempt + 1)) * 10 ^ 6.

Definition on_schedule (a : Z) : bool :=
  match backoff_us a with Ok z => z =? schedule_us a | Err _ => false end.

Lemma backoff_schedule_below : forallb on_schedule (seqZ 0 1024) = true.
Proof. by vm_compute. Qed.

Lemma backoff_us_schedule a : 0 <= a < 1024 -> backoff_us a = Ok (schedule_us a).
Proof.
  intros Ha. pose proof backoff_schedule_below as Hall. rewrite forallb_forall in Hall.
  assert (Hin : In a (seqZ 0 1024)) by (apply list_elem_of_In, elem_of_seqZ; lia).
  specialize (Hall a Hin). unfold on_schedule in Hall.
  destruct (backoff_us a) as [z|]; [|done]. apply Z.eqb_eq in Hall. by subst.
Qed.

(** ** Optimistic-lock retries *)

(** The ceilings of the sleeps of one loop of [DEFAULT_MAX_ATTEMPTS], as exact binary64
    multiples of the base: 0.01, 0.02, 0.04, 0.08 seconds, and 0.2 from attempt 5 on. *)
Definition ceiling_ok (a : Z) : bool :=
  match retry_ceiling a with
  | Ok f => if a <? 5 then match f with
                           | S754_finite false m e => (Zpos m =? 0x147ae147ae147b) && (e =? -59 + a)
                           | _ => false
                           end
            else match f with
                 | S754_finite false m e => (Zpos m =? 0x1999999999999a) && (e =? -55)
                 | _ => false
                 end
  | Err _ => false
  end.
Lemma retry_ceilings : forallb ceiling_ok (seqZ 0 1024) = true.
Proof. by vm_compute. Qed.

(** From attempt 1024 on, the power of two is no float. *)
Lemma backoff_overflow : backoff_us 1024 = Err OverflowError.
Proof. by vm_compute. Qed.
