(* ===== verification/Dispatch.v ===== *)
(** Dispatch: app/domain/webhooks/dispatch.py and the polling job of
    app/workers/scheduler.py. *)
From S2P Require Import Prelude Decimals PyText PyVal Ledger Fx PaymentSM Recon Webhooks Store.
From S2P Require Import Session Repos SupportRepos Backoff.

#[local] Open Scope Z_scope.

Definition DEFAULT_MAX_DELIVERY_ATTEMPTS : Z := 8.

Section dispatch.
Context `{Platform}.

(** The payload is read from its JSONB column as a dict whose order the server chooses. *)
Definition _encode_payload (delivery : WebhookDelivery) : list N :=
  utf8 (json_dumps_sorted (pg_scan (map_to_list (dl_payload delivery)))).

Definition sign_payload (secret : string) (body : list N) : string :=
  hmac_sha256_hex (utf8 secret) body.

Definition delivery_request (delivery : WebhookDelivery) (subscription : WebhookSubscription)
  : Request :=
  let body := _encode_payload delivery in
  {| rq_url := sub_url subscription;
   rq_headers := [("Content-Type", "application/json");
                  ("X-Webhook-Event", dl_event_type delivery);
                  ("X-Webhook-Signature", sign_payload (sub_secret subscription) body)];
   rq_body := body |}.

(** What the answer means: [None] for a success, else the error text. *)
Definition delivery_error (answer : result string Z) : option string :=
  match answer with
  | Ok status_code =>
    if (200 <=? status_code) && (status_code <? 300) then None
    else Some ("HTTP " +:+ str_Z status_code)
  | Err raised => Some raised
  end.

Definition dispatch_one_delivery (delivery : WebhookDelivery) (subscription : WebhookSubscription)
  (max_attempts : Z) : Prog unit :=
  let attempt := dl_attempt_count delivery + 1 in
  answer ← send (delivery_request delivery subscription);
  with_uow
    (match delivery_error answer with
     | None => mark_delivered (dl_id delivery)
     | Some error =>
         if max_attempts <=? attempt then mark_dead_letter (dl_id delivery) attempt error
         else
           t ← now;
           delay ← of_result (backoff_us (attempt - 1));
           mark_retry (dl_id delivery) attempt (t + delay) error
     end ;;
     commit).

Fixpoint dispatch_each (due : list WebhookDelivery)
  (subscriptions_by_id : gmap UUID WebhookSubscription) (max_attempts : Z) : Prog unit :=
  match due with
  | [] => Ret tt
  | delivery :: rest =>
    match subscriptions_by_id !! dl_subscription_id delivery with
    | None => Ret tt
    | Some subscription => dispatch_one_delivery delivery subscription max_attempts
    end ;;
    dispatch_each rest subscriptions_by_id max_attempts
  end.

Definition dispatch_due_deliveries (limit max_attempts : Z) : Prog Z :=
  t ← now;
  found ← with_uow
    (due ← list_due_deliveries t limit;
     subscriptions ← list_active_subscriptions;
     Ret (due, list_to_map ((fun s => (sub_id s, s)) <$> reverse subscriptions)));
  let '(due, subscriptions_by_id) := found in
  dispatch_each due subscriptions_by_id max_attempts ;;
  Ret (Z.of_nat (length due)).

(** [_dispatch_webhooks_job]: any exception ends the cycle and is only logged. *)
Definition _dispatch_webhooks_job (max_attempts : Z) : Prog unit :=
  r ← attempt (dispatch_due_deliveries 50 max_attempts);
  Ret tt.
End dispatch.
