(* ===== verification/Effects.v ===== *)
(** Effects: which effects a program can have, read off its shape.

    [limited may_sleep may_send m]: [m] sleeps, and sends requests, only if it may.  The
    pauses a program made and the requests it sent are recorded in its session, so that
    what follows from this holds of every interleaving. *)
From S2P Require Import Prelude Store Session.

#[local] Open Scope Z_scope.

Fixpoint limited {A} (may_sleep may_send : bool) (m : Prog A) : Prop :=
  match m with
  | Ret _ | Raise _ => True
  | Sql _ k => forall r, limited may_sleep may_send (k r)
  | NewUuid k => forall u, limited may_sleep may_send (k u)
  | Now k => forall t, limited may_sleep may_send (k t)
  | OpenTx k | Rollback k | CloseTx k => limited may_sleep may_send k
  | Commit k => forall r, limited may_sleep may_send (k r)
  | Send _ k => may_send = true /\ forall r, limited may_sleep may_send (k r)
  | Sleep _ k => may_sleep = true /\ limited may_sleep may_send k
  end.

Abbreviation wakeful := (limited false true).
Abbreviation silent := (limited true false).

(** * Combinators *)

Section combinators.
Context (may_sleep may_send : bool).

Lemma limited_bind {A B} (m : Prog A) (f : A -> Prog B) :
  limited may_sleep may_send m -> (forall a, limited may_sleep may_send (f a)) -> limited may_sleep may_send (m ≫= f).
Proof. intros Hm Hf. unfold mbind, prog_mbind. induction m; simpl in *; intuition auto. Qed.
Lemma limited_attempt {A} (m : Prog A) : limited may_sleep may_send m -> limited may_sleep may_send (attempt m).
Proof. intros Hm. induction m; simpl in *; intuition auto. Qed.
Lemma limited_sql {R} (stmt : Stmt R) : limited may_sleep may_send (sql stmt).
Proof. intros r. by destruct r. Qed.
Lemma limited_select {R} (q : DB -> result Exn R) : limited may_sleep may_send (select q).
Proof. apply limited_sql. Qed.
Lemma limited_of_result {A} (r : result Exn A) : limited may_sleep may_send (of_result r).
Proof. by destruct r. Qed.
Lemma limited_ret {A} (a : A) : limited may_sleep may_send (Ret a).
Proof. done. Qed.
Lemma limited_raise {A} e : limited may_sleep may_send (@Raise A e).
Proof. done. Qed.
Lemma limited_uuid4 : limited may_sleep may_send uuid4.
Proof. done. Qed.
Lemma limited_now : limited may_sleep may_send now.
Proof. done. Qed.
Lemma limited_commit : limited may_sleep may_send commit.
Proof. by intros []. Qed.
Lemma limited_rollback : limited may_sleep may_send rollback.
Proof. done. Qed.
Lemma limited_for {A} (l : list A) body : (forall x, limited may_sleep may_send (body x)) -> limited may_sleep may_send (for_ l body).
Proof. intros Hb. induction l as [|x l IH]; [done|]. by apply limited_bind. Qed.
Lemma limited_uow {A} (body : Prog A) : limited may_sleep may_send body -> limited may_sleep may_send (with_uow body).
Proof.
  intros Hb. apply limited_bind; [done|intros _].
  apply limited_bind; [by apply limited_attempt|]. by intros [].
Qed.
End combinators.

Create HintDb effects.
#[export] Hint Resolve limited_sql limited_select limited_of_result limited_ret limited_raise
  limited_uuid4 limited_commit limited_rollback limited_uow limited_now : effects.

(** Follows a program written with binds, conditionals and the operations in the database. *)
Ltac by_effects :=
  repeat first
    [ solve [auto with effects]
     | apply limited_bind; [solve [auto with effects]|intros ?]
     | apply limited_bind; [|intros ?]
     | case_match ].

(** * Meaning *)

#[local] Transparent every_run.
Lemma run_limited {A} may_sleep may_send rely (m : Prog A) s :
  limited may_sleep may_send m ->
  every_run rely anything m s (fun s' _ =>
    (may_sleep = false -> s_sleeps s' = s_sleeps s) /\ (may_send = false -> s_sent s' = s_sent s)).
Proof.
  revert s. induction m as [| |R stmt k IH|? IH|? IH|? IH|? IH|? IH|? IH|a ? IH|rq ? IH];
    intros s Hm; cbn [every_run limited] in *; try done.
  - split; [|intros _; by apply IH].
    intros db _. destruct (stmt _ _) as [[]|]; (eapply run_mono; [by apply IH|done]).
  - intros u _. by apply IH.
  - intros t. by apply IH.
  - intros t. eapply run_mono; [by apply IH|done].
  - split; [|intros _; eapply run_mono; [by apply IH|done]].
    intros db _. split; [done|]. eapply run_mono; [by apply IH|done].
  - eapply run_mono; [by apply IH|done].
  - eapply run_mono; [by apply IH|done].
  - destruct Hm as [-> Hm]. eapply run_mono; [by apply IH|]. intros s' r [_ Hs]. by split.
  - destruct Hm as [-> Hm]. intros r. eapply run_mono; [by apply IH|]. intros s' r' [Hs _]. by split.
Qed.
#[local] Opaque every_run.

Lemma run_wakeful {A} rely (m : Prog A) s :
  wakeful m -> every_run rely anything m s (fun s' _ => s_sleeps s' = s_sleeps s).
Proof. intros Hm. eapply run_mono; [by apply run_limited|]. intros s' r [Hs _]. by apply Hs. Qed.
Lemma run_silent {A} rely (m : Prog A) s :
  silent m -> every_run rely anything m s (fun s' _ => s_sent s' = s_sent s).
Proof. intros Hm. eapply run_mono; [by apply run_limited|]. intros s' r [_ Hs]. by apply Hs. Qed.
