(* ===== verification/Retries.v ===== *)
(** Retries: the optimistic-lock retry loops end, and how long they pause. *)
From S2P Require Import Prelude Decimals PyText PyVal Ledger Fx PaymentSM Recon Webhooks Store.
From S2P Require Import Session Repos SupportRepos LedgerService PaymentService Backoff.
From S2P Require Import Effects.

#[local] Open Scope Z_scope.

(** The pauses of a loop of at most [max_attempts] attempts: one after each conflict but
    the last, numbered from 0. *)
Definition pauses (max_attempts : Z) (s s' : Sess) : Prop :=
  exists k, 0 <= k <= Z.max 0 (max_attempts - 1) /\ s_sleeps s' = s_sleeps s ++ seqZ 0 k.

Lemma run_attempts {A} rely n attempt max_attempts (body : Prog (option A)) exhausted s0 s :
  wakeful body -> 0 <= attempt -> max_attempts = attempt + Z.of_nat n ->
  s_sleeps s = s_sleeps s0 ++ seqZ 0 (Z.min attempt (Z.max 0 (max_attempts - 1))) ->
  every_run rely anything (attempts_loop n attempt max_attempts body exhausted) s
    (fun s' _ => pauses max_attempts s0 s').
Proof.
  intros Hb. revert attempt s. induction n as [|n IH]; intros i s Hi Hmax Hs; cbn [attempts_loop].
  { apply run_raise. eexists. split; [|exact Hs]. lia. }
  assert (Hnow : pauses max_attempts s0 s) by (eexists; split; [|exact Hs]; lia).
  apply run_bind. eapply run_mono; [by apply run_wakeful, limited_uow|].
  intros s1 [[a|]|e] H1; cbn beta iota; unfold pauses in *; rewrite <- ?H1 in Hnow.
  - by apply run_ret.
  - apply run_bind. destruct (Z.ltb_spec i (max_attempts - 1)) as [Hlt|Hge].
    + apply run_sleep. apply IH; [lia|lia|]. cbn [with_sleep s_sleeps]. rewrite H1, Hs.
      rewrite !Z.min_l by lia. rewrite <- app_assoc. f_equal.
      by rewrite (seqZ_app 0 i 1) by lia.
    + apply run_ret. apply IH; [lia|lia|]. rewrite H1, Hs. do 2 f_equal. lia.
  - done.
Qed.

Lemma run_for_attempts {A} rely max_attempts (body : Prog (option A)) exhausted s :
  wakeful body -> every_run rely anything (for_attempts max_attempts body exhausted) s
    (fun s' _ => pauses max_attempts s s').
Proof.
  intros Hb. unfold for_attempts. destruct (Z.le_gt_cases 0 max_attempts) as [Hm|Hm].
  - apply run_attempts; [done|lia|lia|]. rewrite Z.min_l by lia. by rewrite app_nil_r.
  - replace (Z.to_nat max_attempts) with 0%nat by lia. apply run_raise.
    exists 0. split; [lia|by rewrite app_nil_r].
Qed.

(** * The services *)

Section services.
Context `{Platform}.

Lemma wakeful_enqueue_event pid et payload : wakeful (enqueue_payment_webhook_event pid et payload).
Proof.
  apply limited_bind; [apply limited_select|intros subs]. apply limited_for. intros sub.
  destruct (negb _ && negb _); [done|].
  apply limited_bind; [|done]. apply limited_bind; [done|intros u]. by_effects.
Qed.
Lemma wakeful_versions ids : wakeful (get_account_versions ids).
Proof. apply limited_bind; [apply limited_select|intros v]. cbv zeta. by case_match. Qed.
Lemma wakeful_insert_entry entry : wakeful (insert_journal_entry entry).
Proof. unfold insert_journal_entry. by_effects. Qed.
Lemma wakeful_bump ids versions : wakeful (bump_all ids versions).
Proof.
  induction ids as [|i ids IH]; [done|]. cbn [bump_all]. unfold dict_get, bump_account_version.
  by_effects.
Qed.
Lemma wakeful_get_account id : wakeful (get_account id).
Proof. apply limited_select. Qed.
Lemma wakeful_transition pid a b reason : wakeful (record_status_transition pid a b reason).
Proof. apply limited_sql. Qed.
Lemma wakeful_update pid v st : wakeful (update_payment_status pid v st).
Proof. apply limited_sql. Qed.
Lemma wakeful_lift r : wakeful (lift_transition r).
Proof. apply limited_of_result. Qed.
Lemma wakeful_get_payment pid : wakeful (get_payment pid).
Proof. apply limited_select. Qed.
Lemma wakeful_rate b q : wakeful (get_latest_rate b q).
Proof. apply limited_select. Qed.
Lemma wakeful_by_number n : wakeful (get_account_by_number n).
Proof. apply limited_select. Qed.
Lemma wakeful_fx_details p r d : wakeful (set_fx_details p r d).
Proof. apply limited_sql. Qed.

Hint Resolve wakeful_enqueue_event wakeful_versions wakeful_insert_entry wakeful_bump
  wakeful_get_account wakeful_transition wakeful_update wakeful_lift wakeful_get_payment
  wakeful_rate wakeful_by_number wakeful_fx_details : effects.

Lemma wakeful_status_attempt pid to_status reason : wakeful (status_attempt pid to_status reason).
Proof. unfold status_attempt. by_effects. Qed.

Lemma wakeful_entry_attempt pid to_status build_lines :
  (forall p, wakeful (build_lines p)) -> wakeful (entry_attempt pid to_status build_lines).
Proof. intros Hb. unfold entry_attempt. by_effects. Qed.

Lemma wakeful_settlement_lines p : wakeful (_settlement_lines p).
Proof. unfold _settlement_lines. by_effects. Qed.
Lemma wakeful_reversal_lines p : wakeful (_reversal_lines p).
Proof. unfold _reversal_lines. by_effects. Qed.

Lemma wakeful_post entry :
  wakeful (versions ← get_account_versions (set_iter (account_ids entry));
           entry_id ← insert_journal_entry entry;
           conflict ← bump_all (set_iter (account_ids entry)) versions;
           if (conflict : bool) then rollback ;; Ret None else commit ;; Ret (Some entry_id)).
Proof. by_effects. Qed.

(** * Property *)

(** Up to attempt 1023 the ceiling of a pause is a float. *)
Lemma ceiling_exists a : 0 <= a < 1024 -> exists f, retry_ceiling a = Ok f.
Proof.
  intros Ha. pose proof retry_ceilings as Hall. rewrite forallb_forall in Hall.
  specialize (Hall a). unfold ceiling_ok in Hall. destruct (retry_ceiling a) as [f|e]; [by exists f|].
  assert (Hin : In a (seqZ 0 1024)) by (apply list_elem_of_In, elem_of_seqZ; lia).
  by specialize (Hall Hin).
Qed.

(** The pauses of a session were those of at most [max_attempts] attempts, and the length of
    each was defined. *)
Definition paced (max_attempts : Z) (s s' : Sess) : Prop :=
  exists k, 0 <= k <= Z.max 0 (max_attempts - 1) /\ s_sleeps s' = s_sleeps s ++ seqZ 0 k /\
    Forall (fun a => exists f, retry_ceiling a = Ok f) (seqZ 0 k).

Lemma paced_pauses max_attempts s s' : max_attempts <= 1024 -> pauses max_attempts s s' -> paced max_attempts s s'.
Proof.
  intros Hm (k & Hk & Hs). exists k. split_and!; [lia|lia|done|].
  apply Forall_forall. intros a Ha%elem_of_seqZ. apply ceiling_exists. lia.
Qed.

(** C22. Every retried operation ends, whatever other sessions do at every statement: it
    pauses after attempts 0, 1, ..., k-1 for some [k] below the number of attempts it was
    given and never more, and the back-off of each of these pauses is defined (no
    OverflowError from the power of two). *)
Theorem retries_bounded rely pid reason entry max_attempts s :
  max_attempts <= 1024 ->
  let ends {A} (m : Prog A) := every_run rely anything m s (fun s' _ => paced max_attempts s s') in
  ends (settle_payment pid max_attempts) /\ ends (reverse_payment pid max_attempts) /\
  ends (authorise_payment pid max_attempts) /\ ends (fail_payment pid reason max_attempts) /\
  ends (post_journal_entry entry max_attempts).
Proof.
  intros Hm ends. assert (Hloop : forall A (body : Prog (option A)) exhausted, wakeful body ->
    ends A (for_attempts max_attempts body exhausted)).
  { intros A body exhausted Hb. eapply run_mono; [by apply run_for_attempts|].
    intros s' r. by apply paced_pauses. }
  split; [apply Hloop, wakeful_entry_attempt, wakeful_settlement_lines|].
  split; [apply Hloop, wakeful_entry_attempt, wakeful_reversal_lines|].
  split; [apply Hloop, wakeful_status_attempt|]. split; [apply Hloop, wakeful_status_attempt|].
  apply run_bind, run_of_result. destruct (map_err _ _); [apply (Hloop UUID), wakeful_post|].
  exists 0. split_and!; [lia|lia|by rewrite app_nil_r|apply Forall_nil; exact I].
Qed.

End services.
