(* ===== verification/Progress.v ===== *)
(** Progress: the retry loops of app/domain/payments/services.py are lock-free.

    An attempt ends in a conflict only because another session has meanwhile committed a
    new version of a row it read: the version checks of [bump_account_version] and
    [update_payment_status] never fail by themselves. *)
From S2P Require Import Prelude Decimals PyText PyVal Ledger Fx PaymentSM Recon Webhooks Store.
From S2P Require Import Session Repos SupportRepos LedgerService PaymentService Atomicity.
From S2P Require Import Invariant Commits Transactions PaymentRuns PaymentSafety Backoff Effects.
From S2P Require Import Retries.

#[local] Open Scope Z_scope.

(** A row both sides know has a higher version now. *)
Definition overtaken (db db' : DB) : Prop :=
  (exists i a a', accounts db !! i = Some a /\ accounts db' !! i = Some a' /\ acc_version a < acc_version a') \/
  (exists i p p', payments db !! i = Some p /\ payments db' !! i = Some p' /\ pay_version p < pay_version p').

(** [n] times, one after the other, on the way from one database to the other. *)
Inductive overtaken_times : nat -> DB -> DB -> Prop :=
| never_overtaken db db' : evolves db db' -> overtaken_times 0 db db'
| overtaken_again n db db1 db2 db' :
    evolves db db1 -> overtaken db1 db2 -> evolves db1 db2 -> overtaken_times n db2 db' ->
    overtaken_times (S n) db db'.

Lemma overtaken_times_later n db db' db'' :
  overtaken_times n db db' -> evolves db' db'' -> overtaken_times n db db''.
Proof.
  induction 1 as [|n db db1 db2 db' H1 H2 H3 _ IH]; intros Hev.
  - apply never_overtaken. by eapply evolves_trans.
  - eapply overtaken_again; [exact H1|exact H2|exact H3|by apply IH].
Qed.

(** * Runs *)

#[local] Transparent every_run.
(** What holds of all runs for two reasons. *)
Lemma run_both {A} rely guar (m : Prog A) s Q1 Q2 :
  every_run rely guar m s Q1 -> every_run rely guar m s Q2 ->
  every_run rely guar m s (fun s' r => Q1 s' r /\ Q2 s' r).
Proof.
  revert s. induction m as [| |R stmt k IH| | | | | | | |]; intros s; cbn [every_run]; eauto.
  - intros [H1 F1] [H2 F2]. split; [|eauto]. intros db Hdb. specialize (H1 db Hdb).
    specialize (H2 db Hdb). destruct (stmt _ _) as [[]|]; eauto.
  - intros [H1 F1] [H2 F2]. split; [|eauto]. intros db Hdb.
    destruct (H1 db Hdb), (H2 db Hdb). eauto.
Qed.

(** A session that has committed [cs], since the database was [db0]. *)
Record going (db0 : DB) (cs : list (list Write)) (s : Sess) : Prop := {
  go_inv : Inv (s_db s);
  go_evolves : evolves db0 (s_db s);
  go_commits : s_commits s = cs;
}.

Lemma going_others db0 cs s db log :
  going db0 cs s -> others s db -> going db0 cs (with_sql s db log).
Proof.
  intros [HI Hev Hcs] (HI' & Hev' & _). split; [done|by eapply evolves_trans|done].
Qed.

Lemma run_going {A} db0 cs (m : Prog A) s :
  no_commit m -> going db0 cs s -> every_run others anything m s (fun s' _ => going db0 cs s').
Proof.
  revert s. induction m as [| |R stmt k IH|k IH|k IH|k IH|k IH|k IH|k IH|a k IH|rq k IH]; intros s;
    cbn [every_run no_commit]; try done; try solve [intros Hm []; intros; by apply IH].
  - intros Hm Hs. split; [|eauto]. intros db Hdb.
    destruct (stmt _ _) as [[r ws]|e]; (apply IH; [done|by eapply going_others]).
Qed.
#[local] Opaque every_run.

(** * Versions between the read and the write *)

(** A write of a transaction that has raised only the versions of the accounts [ids]. *)
Definition keeps_versions (ids : list UUID) (db : DB) (w : Write) : Prop :=
  match w with
  | PutAccount a => acc_id a ∈ ids
  | PutPayment p => exists p0, payments db !! pay_id p = Some p0 /\ pay_version p = pay_version p0
  | _ => True
  end.

Record since (db0 : DB) (cs : list (list Write)) (ids : list UUID) (s : Sess) : Prop := {
  si_going : going db0 cs s;
  si_log : Forall (keeps_versions ids (s_db s)) (s_log s);
}.

Definition keyed (db : DB) : Prop := forall i p, payments db !! i = Some p -> pay_id p = i.

(** A program that raises no version, and ends neither the transaction nor the attempt. *)
Fixpoint plain {A} (m : Prog A) : Prop :=
  match m with
  | Ret _ | Raise _ => True
  | Sql stmt k =>
      (forall now db r ws, keyed db -> stmt now db = Ok (r, ws) -> Forall (keeps_versions [] db) ws) /\
      forall r, plain (k r)
  | NewUuid k => forall u, plain (k u)
  | Now k => forall t, plain (k t)
  | _ => False
  end.

Lemma plain_bind {A B} (m : Prog A) (f : A -> Prog B) :
  plain m -> (forall a, plain (f a)) -> plain (m ≫= f).
Proof. intros Hm Hf. unfold mbind, prog_mbind. induction m; simpl in *; intuition auto. Qed.
Lemma plain_of_result {A} (r : result Exn A) : plain (of_result r).
Proof. by destruct r. Qed.
Lemma plain_ret {A} (a : A) : plain (Ret a).
Proof. done. Qed.
Lemma plain_sql {R} (stmt : Stmt R) :
  (forall now db r ws, keyed db -> stmt now db = Ok (r, ws) -> Forall (keeps_versions [] db) ws) ->
  plain (sql stmt).
Proof. intros Hs. split; [done|]. intros r. apply plain_of_result. Qed.
Lemma plain_select {R} (q : DB -> result Exn R) : plain (select q).
Proof.
  apply plain_sql. intros t db r ws _. destruct (q db); simpl; [|done]. intros [= _ <-]. by apply Forall_nil.
Qed.
Lemma plain_uuid4 : plain uuid4.
Proof. done. Qed.

Create HintDb plain.
#[export] Hint Resolve plain_of_result plain_ret plain_select plain_uuid4 : plain.
Ltac by_plain :=
  repeat first [ solve [auto with plain] | apply plain_bind; [|intros ?] | case_match ].

(** ** The rows a transaction sees *)

Section since.
Context (db0 : DB) (cs : list (list Write)).

Lemma since_others ids s db :
  since db0 cs ids s -> others s db -> since db0 cs ids (with_sql s db (s_log s)).
Proof.
  intros [Hg Hlog] Ho. split; [by eapply going_others|]. simpl.
  destruct Ho as (_ & _ & Hlocks & _). unfold respects_locks in Hlocks.
  rewrite Forall_forall in *. intros w Hw. specialize (Hlog w Hw). specialize (Hlocks w Hw).
  destruct w; try done. simpl in *. by rewrite Hlocks.
Qed.

Lemma since_payment ids s i q :
  since db0 cs ids s -> payments (view (s_db s) (s_log s)) !! i = Some q ->
  pay_id q = i /\ exists q0, payments (s_db s) !! i = Some q0 /\ pay_version q = pay_version q0.
Proof.
  intros [[HI _ _] Hlog]. rewrite payments_view. intros [Hin|Hq]%puts_lookup_inv.
  - apply list_elem_of_fmap in Hin as (p & [= -> ->] & Hp). split; [done|].
    apply list_elem_of_omap in Hp as (w & Hw & Hp). rewrite Forall_forall in Hlog.
    specialize (Hlog w Hw). by destruct w; simplify_eq.
  - split; [|by eauto]. apply (po_id _ _ _ (inv_payment _ HI _ _ Hq)).
Qed.

Lemma since_account ids s i :
  since db0 cs ids s -> i ∉ ids -> accounts (view (s_db s) (s_log s)) !! i = accounts (s_db s) !! i.
Proof.
  intros [_ Hlog] Hi. rewrite accounts_view. apply puts_lookup_none.
  rewrite <- list_fmap_compose. intros (a & -> & Ha)%list_elem_of_fmap.
  apply list_elem_of_omap in Ha as (w & Hw & Ha). rewrite Forall_forall in Hlog.
  specialize (Hlog w Hw). by destruct w; simplify_eq.
Qed.

Lemma since_append ids s ws :
  since db0 cs ids s -> Forall (keeps_versions ids (s_db s)) ws ->
  since db0 cs ids (with_sql s (s_db s) (s_log s ++ ws)).
Proof.
  intros [[HI Hev Hcs] Hlog] Hws. split; [by split|]. by apply Forall_app.
Qed.

Lemma since_plain ids s ws :
  since db0 cs ids s -> Forall (keeps_versions [] (view (s_db s) (s_log s))) ws ->
  since db0 cs ids (with_sql s (s_db s) (s_log s ++ ws)).
Proof.
  intros Hs Hws. apply since_append; [done|]. eapply Forall_impl; [exact Hws|].
  intros [] Hw; try done; simpl in *; [set_solver|].
  destruct Hw as (p0 & Hp0 & Hv). destruct (since_payment _ _ _ _ Hs Hp0) as (_ & q0 & Hq0 & Hv').
  exists q0. split; [done|]. by rewrite Hv.
Qed.

Lemma since_now ids s : since db0 cs ids s -> since (s_db s) cs ids s.
Proof. intros [[HI Hev Hcs] Hlog]. split; [|done]. split; [done|apply evolves_refl|done]. Qed.

#[local] Transparent every_run.
Lemma run_plain {A} ids (m : Prog A) s :
  plain m -> since db0 cs ids s -> every_run others anything m s (fun s' _ => since db0 cs ids s').
Proof.
  revert s. induction m as [| |R stmt k IH|k IH|k IH|k IH|k IH|k IH|k IH|a k IH|rq k IH]; intros s;
    cbn [every_run plain]; try done; try solve [intros; by apply IH].
  intros [Hws Hk] Hs. split; [|intros _; by apply IH].
  intros db Hdb. pose proof (since_others _ _ _ Hs Hdb) as Hs'.
  destruct (stmt _ _) as [[r ws]|e] eqn:Hstmt; (apply IH; [done|]); [|done].
  apply (since_plain _ _ ws Hs'). eapply Hws; [|exact Hstmt].
  intros i q Hq. by apply (since_payment _ _ _ _ Hs').
Qed.
#[local] Opaque every_run.
End since.

(** * The statements *)

Section statements.
Context `{Platform}.

Lemma plain_set_fx pid rate_id d : plain (set_fx_details pid rate_id d).
Proof.
  apply plain_sql. intros t db r ws Hk Hstmt. destruct (payments db !! pid) as [p|] eqn:Hp; stmt_ok Hstmt.
  - apply Forall_singleton. exists p. by rewrite <- (Hk _ _ Hp) in Hp.
  - by apply Forall_nil.
Qed.
Lemma plain_insert_entry entry : plain (insert_journal_entry entry).
Proof.
  unfold insert_journal_entry. apply plain_bind; [done|intros u].
  apply plain_bind; [|intros _; apply plain_bind; [|done]];
    apply plain_sql; intros t db r ws _ Hstmt.
  - unfold insert_entry_row in Hstmt. stmt_ok Hstmt. by apply Forall_singleton.
  - unfold insert_line_rows in Hstmt. stmt_ok Hstmt. by apply Forall_fmap, Forall_true.
Qed.
Hint Resolve plain_set_fx plain_insert_entry : plain.

Lemma plain_settlement_lines p : plain (_settlement_lines p).
Proof. unfold _settlement_lines, get_account, get_latest_rate, get_account_by_number. by_plain. Qed.
Lemma plain_reversal_lines p : plain (_reversal_lines p).
Proof. unfold _reversal_lines, get_account, get_account_by_number. by_plain. Qed.

(** [versions] holds what the accounts' versions were in [db]. *)
Definition read_in (db : DB) (versions : gmap UUID Z) : Prop :=
  forall i v, versions !! i = Some v -> exists a, accounts db !! i = Some a /\ acc_version a = v.

Lemma run_versions db0 cs ids s :
  since db0 cs [] s ->
  every_run others anything (get_account_versions ids) s (fun s' r =>
    since db0 cs [] s' /\ forall v, r = Ok v -> since (s_db s') cs [] s' /\ read_in (s_db s') v).
Proof.
  intros Hs. apply run_bind, run_select; [|done]. intros db Hdb.
  pose proof (since_others _ _ _ _ _ Hs Hdb) as Hs'. cbv beta iota zeta.
  destruct (set_iter _); [|by apply run_raise]. apply run_ret. split; [done|]. intros v [= <-].
  split; [by apply (since_now _ _ _ _ Hs')|]. intros i v. rewrite lookup_fmap_Some. intros (a & <- & Ha).
  apply map_lookup_filter_Some in Ha as [Ha _]. exists a. split; [|done].
  rewrite <- (since_account db0 cs [] (with_sql s db (s_log s)) i); [exact Ha|exact Hs'|set_solver].
Qed.

(** A lower version was read: somebody raised it. *)
Lemma account_overtaken db db' i a v :
  evolves db db' -> (exists a0, accounts db !! i = Some a0 /\ acc_version a0 = v) ->
  accounts db' !! i = Some a -> acc_version a <> v -> overtaken db db'.
Proof.
  intros Hev (a0 & Ha0 & <-) Ha Hne. left. destruct (ev_account _ _ Hev _ _ Ha0) as (a' & Ha' & [_ Hle]).
  simplify_eq. exists i, a0, a. split_and!; [done|done|lia].
Qed.

Lemma run_bump_overtaken db0 cs ids versions bumped s :
  NoDup ids -> (forall i, i ∈ ids -> i ∉ bumped) -> read_in db0 versions ->
  since db0 cs bumped s ->
  every_run others anything (bump_all ids versions) s (fun s' r =>
    since db0 cs (bumped ++ ids) s' /\ (r = Ok true -> overtaken db0 (s_db s'))).
Proof.
  intros Hnd. revert bumped s. induction Hnd as [|i ids Hi Hnd IH]; intros bumped s Hfresh Hread Hs.
  { apply run_ret. by rewrite app_nil_r. }
  assert (Hmore : forall s, since db0 cs bumped s -> since db0 cs (bumped ++ i :: ids) s).
  { intros s0 [Hg Hlog]. split; [done|]. eapply Forall_impl; [exact Hlog|]. intros []; set_solver. }
  cbn [bump_all]. apply run_bind, run_of_result. unfold dict_get.
  destruct (versions !! i) as [v|] eqn:Hv; cbn [or_raise]; [|by split; [apply Hmore|]].
  apply run_bind, run_sql; [|intros _; by split; [apply Hmore|]].
  intros db Hdb. pose proof (since_others _ _ _ _ _ Hs Hdb) as Hs'. clear Hs.
  assert (Hrow := since_account _ _ _ _ i Hs' (Hfresh i (list_elem_of_here _ _))).
  cbn [with_sql s_db s_log] in Hrow. rewrite Hrow. clear Hrow.
  destruct (Hread _ _ Hv) as (a0 & Ha0 & Hav).
  destruct (accounts db !! i) as [a|] eqn:Ha.
  2:{ destruct (ev_account _ _ (go_evolves _ _ _ (si_going _ _ _ _ Hs')) _ _ Ha0) as (? & Hc & _). simpl in Hc. congruence. }
  destruct (Z.eqb_spec (acc_version a) v) as [Heq|Hne].
  - destruct (require _ _ ≫= _) as [[r ws]|e] eqn:Hstmt; [|by split; [apply Hmore|]]. stmt_ok Hstmt.
    cbv beta iota. eapply run_mono; [apply (IH (bumped ++ [i]))|].
    + set_solver.
    + done.
    + apply (since_append _ _ _ (with_sql s db (s_log s))).
      * destruct Hs' as [Hg Hlog]. split; [done|]. eapply Forall_impl; [exact Hlog|]. intros []; set_solver.
      * apply Forall_singleton. simpl. destruct Hs' as [[HI _ _] _].
        rewrite (inv_account_id _ HI _ _ Ha). set_solver.
    + intros s' r. by rewrite <- app_assoc.
  - cbv beta iota. apply run_ret. rewrite app_nil_r. split; [by apply Hmore|]. intros _.
    eapply account_overtaken; [apply (si_going _ _ _ _ Hs')|by exists a0|exact Ha|done].
Qed.

(** The payment read at the start, or a later version of it. *)
Lemma run_update_overtaken db0 cs ids pid p to_status s :
  payments db0 !! pid = Some p -> since db0 cs ids s ->
  every_run others anything (update_payment_status pid (pay_version p) to_status) s (fun s' r =>
    going db0 cs s' /\ (r = Ok false -> overtaken db0 (s_db s'))).
Proof.
  intros Hp Hs. apply run_sql; [|intros _; by split; [apply Hs|]].
  intros db Hdb. pose proof (since_others _ _ _ _ _ Hs Hdb) as Hs'. clear Hs.
  pose proof (si_going _ _ _ _ Hs') as Hg.
  assert (Hover : forall q, payments (view db (s_log s)) !! pid = Some q -> pay_version q <> pay_version p ->
    overtaken db0 db).
  { intros q Hq Hne. right. destruct (since_payment _ _ _ _ _ _ Hs' Hq) as (_ & q0 & Hq0 & Hv). simpl in Hq0.
    destruct (ev_payment _ _ (go_evolves _ _ _ Hg) _ _ Hp) as (q1 & Hq1 & Hev). simpl in Hq1.
    assert (q1 = q0) as -> by congruence. exists pid, p, q0. split_and!; [done|done|]. destruct Hev as [->|[_ Hlt]]; [congruence|done]. }
  destruct (payments (view db (s_log s)) !! pid) as [q|] eqn:Hq.
  2:{ destruct (ev_payment _ _ (go_evolves _ _ _ Hg) _ _ Hp) as (q1 & Hq1 & _). simpl in Hq1.
      rewrite payments_view in Hq. exfalso. apply eq_None_not_Some in Hq. apply Hq, puts_is_some. left. by exists q1. }
  destruct (Z.eqb_spec (pay_version q) (pay_version p)) as [_|Hne].
  - destruct (require _ _ ≫= _) as [[r ws]|e] eqn:Hstmt; [|by split].
    stmt_ok Hstmt. split; [by destruct Hg|done].
  - split; [by destruct Hg|]. intros _. by apply (Hover q).
Qed.

(** * Attempts *)

(** Since the first database, another session raised the version of a row of it or of a
    later one. *)
Definition beaten (db db' : DB) : Prop :=
  exists d, evolves db d /\ overtaken d db' /\ evolves d db'.

(** How an attempt that began on [db0] leaves the session: it returned a payment, and its
    only commit is on top of what others had made of [db0]; or it committed nothing, and if
    it is to be retried it was beaten. *)
Definition attempt_left {A} (db0 : DB) (cs : list (list Write)) (s : Sess)
    (r : result Exn (option A)) : Prop :=
  match r with
  | Ok (Some _) =>
      exists d log, evolves db0 d /\ s_db s = view d log /\ concat (s_commits s) = concat cs ++ log
  | Ok None => going db0 cs s /\ beaten db0 (s_db s)
  | Err _ => going db0 cs s
  end.

Lemma going_before db0 db cs s : evolves db0 db -> going db cs s -> going db0 cs s.
Proof. intros Hev [HI Hev' Hcs]. split; [done|by eapply evolves_trans|done]. Qed.

Lemma run_last_statements {A} db0 cs pid a b reason et payload (x : A) s :
  going db0 cs s ->
  every_run others anything (record_status_transition pid a b reason ;;
    enqueue_payment_webhook_event pid et payload ;; commit ;; Ret (Some x)) s (attempt_left db0 cs).
Proof.
  intros Hs. apply run_bind. eapply run_mono; [apply run_going; [apply no_commit_sql|exact Hs]|].
  intros s1 [[]|e] Hs1; [|exact Hs1]. apply run_bind.
  eapply run_mono; [apply run_going; [apply no_commit_enqueue_event|exact Hs1]|].
  intros s2 [[]|e] Hs2; [|exact Hs2]. apply run_bind, run_commit.
  - intros db Hdb. split; [done|]. apply run_ret. destruct Hs2 as [HI Hev <-].
    exists db, (s_log s2). split_and!; [by eapply evolves_trans; [|apply Hdb]|done|].
    cbn [with_commit s_commits]. rewrite concat_app. by destruct (s_log s2); simpl; rewrite ?app_nil_r.
  - intros _. by destruct Hs2.
Qed.

Lemma run_give_way {A} db0 db cs s :
  evolves db0 db -> going db cs s -> overtaken db (s_db s) ->
  every_run others anything (rollback ;; Ret (@None A)) s (attempt_left db0 cs).
Proof.
  intros Hev Hs Hover. apply run_bind, run_rollback, run_ret. split.
  - eapply going_before; [exact Hev|]. by destruct Hs.
  - exists db. split_and!; [done|done|apply Hs].
Qed.

(** The first statement of an attempt. *)
Lemma run_read_payment {A} cs pid (f : Payment -> Prog (option A)) s :
  going (s_db s) cs s -> s_log s = [] ->
  (forall db s' p, evolves (s_db s) db -> s_db s' = db -> payments db !! pid = Some p ->
     since db cs [] s' -> every_run others anything (f p) s' (attempt_left (s_db s) cs)) ->
  every_run others anything (get_payment pid ≫= f) s (attempt_left (s_db s) cs).
Proof.
  intros Hs Hlog Hf. apply run_bind, run_select; [|intros _; exact Hs].
  intros db Hdb. pose proof (going_others _ _ _ _ (s_log s) Hs Hdb) as Hs'. rewrite Hlog in *.
  change (view db []) with db. destruct (payments db !! pid) as [p|] eqn:Hp; [|exact Hs'].
  apply (Hf db); [apply Hdb|done|done|]. destruct Hs' as [HI Hev Hcs]. split; [|by apply Forall_nil].
  split; [done|apply evolves_refl|done].
Qed.

Lemma run_status_left cs pid to_status reason s :
  going (s_db s) cs s -> s_log s = [] ->
  every_run others anything (status_attempt pid to_status reason) s (attempt_left (s_db s) cs).
Proof.
  intros Hs Hlog. apply run_read_payment; [done|done|]. intros db s1 p Hev Hs1 Hp Hsince.
  apply run_bind, run_of_result. destruct (map_err _ _) as [[]|e];
    [|by eapply going_before; [|apply Hsince]].
  apply run_bind. eapply run_mono; [eapply run_update_overtaken; [exact Hp|exact Hsince]|].
  intros s2 [[]|e] [Hg Hover]; cbn [negb]; [| |by eapply going_before].
  - apply run_last_statements. by eapply going_before.
  - eapply run_give_way; [exact Hev|exact Hg|by apply Hover].
Qed.

Lemma run_entry_left cs pid to_status build_lines s :
  (forall p, plain (build_lines p)) -> going (s_db s) cs s -> s_log s = [] ->
  every_run others anything (entry_attempt pid to_status build_lines) s (attempt_left (s_db s) cs).
Proof.
  intros Hb Hs Hlog. apply run_read_payment; [done|done|]. intros db s1 p Hev Hs1 Hp Hsince.
  apply run_bind, run_of_result. destruct (map_err _ _) as [[]|e];
    [|by eapply going_before; [|apply Hsince]].
  apply run_bind. eapply run_mono; [apply run_plain; [apply Hb|exact Hsince]|].
  intros s2 [[[et lines] fx]|e] Hs2; [|by eapply going_before; [|apply Hs2]]. cbv beta iota zeta.
  apply run_bind, run_of_result. destruct (map_err _ _) as [[]|e];
    [|by eapply going_before; [|apply Hs2]].
  apply run_bind. eapply run_mono; [by apply run_versions|].
  intros s3 [versions|e] [Hs3 Hv]; [|by eapply going_before; [|apply Hs3]].
  destruct (Hv _ eq_refl) as [Hnow Hread]. clear Hv.
  pose proof (go_evolves _ _ _ (si_going _ _ _ _ Hs3)) as Hev3.
  apply run_bind. eapply run_mono; [apply run_plain; [apply plain_insert_entry|exact Hnow]|].
  intros s4 [eid|e] Hs4; [|eapply going_before; [exact Hev|eapply going_before; [exact Hev3|apply Hs4]]].
  apply run_bind. eapply run_mono; [eapply run_bump_overtaken; [| |exact Hread|exact Hs4]|].
  { apply set_iter_NoDup. }
  { set_solver. }
  intros s5 [conflict|e] [Hs5 Hover]; [|eapply going_before; [exact Hev|eapply going_before; [exact Hev3|apply Hs5]]].
  pose proof (going_before _ _ _ _ Hev3 (si_going _ _ _ _ Hs5)) as Hg5.
  apply run_bind. destruct conflict.
  { apply run_ret. eapply run_give_way; [|apply Hs5|by apply Hover]. by eapply evolves_trans. }
  apply run_bind. eapply run_mono; [eapply run_update_overtaken; [exact Hp|]|].
  { split; [exact Hg5|apply Hs5]. }
  intros s6 [[]|e] [Hg6 Hover6]; [| |by eapply going_before]; apply run_ret; cbn [negb].
  - apply run_last_statements. by eapply going_before.
  - eapply run_give_way; [exact Hev|exact Hg6|by apply Hover6].
Qed.
End statements.

(** * Who gives up *)

(** Only the loop raises the error of a lost race: no statement, and nothing an attempt
    calls, does. *)
Definition gives_up (e : Exn) : bool :=
  match e with ConcurrentPaymentModificationError _ _ => true | _ => false end.

Definition calm {A} (r : result Exn A) : Prop := match r with Ok _ => True | Err e => gives_up e = false end.

Fixpoint patient {A} (m : Prog A) : Prop :=
  match m with
  | Ret _ => True
  | Raise e => gives_up e = false
  | Sql stmt k => (forall now db, calm (stmt now db)) /\ forall r, calm r -> patient (k r)
  | NewUuid k => forall u, patient (k u)
  | Now k => forall t, patient (k t)
  | OpenTx k | Rollback k | CloseTx k | Sleep _ k => patient k
  | Commit k => forall r, calm r -> patient (k r)
  | Send _ k => forall r, patient (k r)
  end.

#[local] Transparent every_run.
Lemma run_patient {A} rely (m : Prog A) s :
  patient m -> every_run rely anything m s (fun _ r => calm r).
Proof.
  revert s. induction m as [| |R stmt k IH|k IH|k IH|k IH|k IH|k IH|k IH|a k IH|rq k IH]; intros s;
    cbn [every_run patient]; try done; try solve [intros; by apply IH].
  - intros [Hst Hk]. split; [|intros _; by apply IH, Hk].
    intros db _. specialize (Hst (s_now s) (view db (s_log s))).
    destruct (stmt _ _) as [[r ws]|e]; by apply IH, Hk.
  - intros Hk. split; [intros db _; split; [done|]|intros _]; by apply IH, Hk.
Qed.
#[local] Opaque every_run.

Lemma calm_bind {A B} (r : result Exn A) (f : A -> result Exn B) :
  calm r -> (forall a, calm (f a)) -> calm (r ≫= f).
Proof. intros Hr Hf. destruct r; [apply Hf|done]. Qed.
Lemma calm_require b e : gives_up e = false -> calm (require b e).
Proof. by destruct b. Qed.
Lemma calm_or_raise {A} (o : option A) e : gives_up e = false -> calm (or_raise o e).
Proof. by destruct o. Qed.
Lemma calm_mapM {A B} (f : A -> result Exn B) l : (forall x, calm (f x)) -> calm (mapM f l).
Proof.
  intros Hf. induction l as [|x l IH]; [done|]. cbn [mapM]. apply calm_bind; [apply Hf|intros y].
  by apply calm_bind.
Qed.
Lemma calm_map_err {E A} (f : E -> Exn) (r : result E A) : (forall e, gives_up (f e) = false) -> calm (map_err f r).
Proof. intros Hf. destruct r; [done|apply Hf]. Qed.
Lemma calm_ok {A} (a : A) : calm (Ok a).
Proof. done. Qed.
Lemma calm_numeric `{Platform} column d : calm (numeric column d).
Proof. unfold numeric. by apply calm_or_raise. Qed.

Lemma patient_bind {A B} (m : Prog A) (f : A -> Prog B) :
  patient m -> (forall a, patient (f a)) -> patient (m ≫= f).
Proof.
  intros Hm Hf. unfold mbind, prog_mbind. induction m; simpl in *; intuition auto.
Qed.
Lemma patient_of_result {A} (r : result Exn A) : calm r -> patient (of_result r).
Proof. by destruct r. Qed.
Lemma patient_ret {A} (a : A) : patient (Ret a).
Proof. done. Qed.
Lemma patient_sql {R} (stmt : Stmt R) : (forall now db, calm (stmt now db)) -> patient (sql stmt).
Proof. intros Hs. split; [done|]. intros r. apply patient_of_result. Qed.
Lemma patient_select {R} (q : DB -> result Exn R) : (forall db, calm (q db)) -> patient (select q).
Proof. intros Hq. apply patient_sql. intros _ db. by apply calm_bind. Qed.
Lemma patient_for {A} (l : list A) body : (forall x, patient (body x)) -> patient (for_ l body).
Proof. intros Hb. induction l as [|x l IH]; [done|]. by apply patient_bind. Qed.
Lemma patient_uuid4 : patient uuid4.
Proof. done. Qed.
Lemma patient_rollback : patient rollback.
Proof. done. Qed.
Lemma patient_commit : patient commit.
Proof. intros r. apply patient_of_result. Qed.

Create HintDb patient.
#[export] Hint Resolve calm_ok calm_numeric patient_ret patient_commit patient_uuid4 patient_rollback : patient.
Ltac by_patient :=
  repeat first
    [ progress intros
    | solve [auto with patient]
    | apply patient_bind | apply patient_sql | apply patient_select | apply patient_of_result
    | apply patient_for
    | apply calm_bind | apply calm_require | apply calm_or_raise | apply calm_mapM | apply calm_map_err
    | progress cbv zeta
    | case_match; try done ].

Section patience.
Context `{Platform}.

Lemma patient_get_account id : patient (get_account id).
Proof. unfold get_account. by_patient. Qed.
Lemma patient_enqueue pid et payload : patient (enqueue_payment_webhook_event pid et payload).
Proof. unfold enqueue_payment_webhook_event, list_active_subscriptions, enqueue_delivery, insert_delivery. by_patient. Qed.
Lemma patient_transition pid a b reason : patient (record_status_transition pid a b reason).
Proof. unfold record_status_transition. by_patient. Qed.
Lemma patient_update pid v st : patient (update_payment_status pid v st).
Proof. unfold update_payment_status. by_patient. Qed.
Lemma patient_read pid : patient (get_payment pid).
Proof. unfold get_payment. by_patient. Qed.
Lemma patient_lift r : patient (lift_transition r).
Proof. unfold lift_transition. by_patient. Qed.
Lemma patient_versions ids : patient (get_account_versions ids).
Proof. unfold get_account_versions. by_patient. Qed.
Lemma patient_entry entry : patient (insert_journal_entry entry).
Proof. unfold insert_journal_entry, insert_entry_row, insert_line_rows, line_row. by_patient. Qed.
Lemma patient_bump ids versions : patient (bump_all ids versions).
Proof.
  induction ids as [|i ids IH]; [done|]. cbn [bump_all]. unfold dict_get, bump_account_version. by_patient.
Qed.
Lemma patient_rate b q : patient (get_latest_rate b q).
Proof. unfold get_latest_rate. by_patient. Qed.
Lemma patient_by_number n : patient (get_account_by_number n).
Proof. unfold get_account_by_number. by_patient. Qed.
Lemma patient_set_fx pid r d : patient (set_fx_details pid r d).
Proof. unfold set_fx_details. by_patient. Qed.
Hint Resolve patient_get_account patient_enqueue patient_transition patient_update patient_read
  patient_lift patient_versions patient_entry patient_bump patient_rate patient_by_number
  patient_set_fx : patient.

Lemma patient_settlement_lines p : patient (_settlement_lines p).
Proof. unfold _settlement_lines. by_patient. Qed.
Lemma patient_reversal_lines p : patient (_reversal_lines p).
Proof. unfold _reversal_lines. by_patient. Qed.

Lemma patient_status_attempt pid to_status reason : patient (status_attempt pid to_status reason).
Proof. unfold status_attempt. by_patient. Qed.
Lemma patient_entry_attempt pid to_status build_lines :
  (forall p, patient (build_lines p)) -> patient (entry_attempt pid to_status build_lines).
Proof. intros Hb. unfold entry_attempt. by_patient. Qed.
End patience.

(** * The loop *)

Lemma beaten_again n db db1 db2 :
  overtaken_times n db db1 -> beaten db1 db2 -> overtaken_times (S n) db db2.
Proof.
  intros Hn (d & Hev & Hover & Hev2). induction Hn as [db db1 Hev1|n db db3 db4 db1 H1 H2 H3 _ IH].
  - eapply overtaken_again; [by eapply evolves_trans|exact Hover|exact Hev2|].
    apply never_overtaken, evolves_refl.
  - eapply overtaken_again; [exact H1|exact H2|exact H3|by apply IH].
Qed.

(** A retried operation that makes at most [max_attempts] attempts and then raises [lost]:
    [k] attempts were beaten, one after the other, and only these are paused after; what
    the session committed, if anything, is [log], on top of all that beat it; and it gave up
    only when every attempt was beaten. *)
Definition lock_free {A} (lost : Exn) (max_attempts : Z) (s s' : Sess) (r : result Exn A) : Prop :=
  exists k d log,
    overtaken_times k (s_db s) d /\ s_db s' = view d log /\
    concat (s_commits s') = concat (s_commits s) ++ log /\
    s_sleeps s' = s_sleeps s ++ seqZ 0 (Z.min (Z.of_nat k) (Z.max 0 (max_attempts - 1))) /\
    Z.of_nat k <= Z.max 0 max_attempts /\
    (r = Err lost -> Z.of_nat k = Z.max 0 max_attempts).

Lemma attempt_left_closed {A} db0 cs s (r : result Exn (option A)) :
  attempt_left db0 cs s r -> attempt_left db0 cs (with_sql s (s_db s) []) r.
Proof. destruct r as [[a|]|e]; [done|intros [[] ?]; by split|by intros []]. Qed.

Lemma run_beaten_attempts {A} n i max_attempts (body : Prog (option A)) lost s0 s :
  wakeful body -> patient body -> gives_up lost = true ->
  (forall cs s, going (s_db s) cs s -> s_log s = [] ->
     every_run others anything body s (attempt_left (s_db s) cs)) ->
  max_attempts = Z.of_nat i + Z.of_nat n ->
  overtaken_times i (s_db s0) (s_db s) -> going (s_db s) (s_commits s0) s ->
  s_sleeps s = s_sleeps s0 ++ seqZ 0 (Z.min (Z.of_nat i) (Z.max 0 (max_attempts - 1))) ->
  every_run others anything (attempts_loop n (Z.of_nat i) max_attempts body lost) s
    (lock_free lost max_attempts s0).
Proof.
  intros Hw Hp Hlost Hbody. revert i s. induction n as [|n IH]; intros i s Hmax Htimes Hs Hsl; cbn [attempts_loop].
  { apply run_raise. exists i, (s_db s), []. rewrite app_nil_r, (go_commits _ _ _ Hs). split_and!; try done; lia. }
  apply run_bind. eapply run_mono; [apply run_both; [apply run_both|]|].
  { by apply run_wakeful, limited_uow. }
  { apply (run_with_uow _ _ _ _ (fun _ r => calm r)). intros t. by apply run_patient. }
  { apply (run_with_uow _ _ _ _ (attempt_left (s_db s) (s_commits s0))). intros t.
    eapply run_mono; [apply (Hbody (s_commits s0) (with_open s t)); [by destruct Hs|done]|].
    intros s' r. apply attempt_left_closed. }
  intros s' r [[Hsl' Hcalm] Hleft].
  assert (Hnow : s_sleeps s' = s_sleeps s0 ++ seqZ 0 (Z.min (Z.of_nat i) (Z.max 0 (max_attempts - 1))))
    by (by rewrite Hsl').
  destruct r as [[a|]|e]; cbn [attempt_left] in Hleft.
  - destruct Hleft as (d & log & Hev & Hdb & Hcs). apply run_ret. exists i, d, log.
    split_and!; try done; [by eapply overtaken_times_later|lia].
  - destruct Hleft as [Hg Hb]. pose proof (beaten_again _ _ _ _ Htimes Hb) as Htimes'.
    assert (Hg' : going (s_db s') (s_commits s0) s') by (destruct Hg; by split; [|apply evolves_refl|]).
    apply run_bind. replace (Z.of_nat i + 1) with (Z.of_nat (S i)) by lia.
    destruct (Z.ltb_spec (Z.of_nat i) (max_attempts - 1)) as [Hlt|Hge].
    + apply run_sleep. apply IH; [lia|done|by destruct Hg'|]. cbn [with_sleep s_sleeps].
      rewrite Hnow. rewrite !Z.min_l by lia. rewrite <- app_assoc. f_equal.
      rewrite Nat2Z.inj_succ, <- Z.add_1_r. by rewrite (seqZ_app 0 (Z.of_nat i) 1) by lia.
    + apply run_ret. apply IH; [lia|done|done|]. rewrite Hnow. do 2 f_equal. lia.
  - exists i, (s_db s'), []. rewrite app_nil_r, (go_commits _ _ _ Hleft).
    split_and!; try done; [by eapply overtaken_times_later; [|apply Hleft]|lia|].
    intros [= ->]. cbn [calm] in Hcalm. congruence.
Qed.

Lemma run_lock_free {A} max_attempts (body : Prog (option A)) lost s :
  wakeful body -> patient body -> gives_up lost = true ->
  (forall cs s, going (s_db s) cs s -> s_log s = [] ->
     every_run others anything body s (attempt_left (s_db s) cs)) ->
  Inv (s_db s) ->
  every_run others anything (for_attempts max_attempts body lost) s (lock_free lost max_attempts s).
Proof.
  intros Hw Hp Hlost Hb HI. unfold for_attempts. destruct (Z.le_gt_cases 0 max_attempts) as [Hm|Hm].
  - apply (run_beaten_attempts _ 0); try done; [lia|apply never_overtaken, evolves_refl| |].
    + split; [done|apply evolves_refl|done].
    + rewrite Z.min_l by lia. by rewrite app_nil_r.
  - replace (Z.to_nat max_attempts) with 0%nat by lia. apply run_raise. exists 0%nat, (s_db s), [].
    rewrite Z.min_l by lia. rewrite !app_nil_r.
    split_and!; try done; [apply never_overtaken, evolves_refl|lia..].
Qed.

(** * Property *)

Section transitions.
Context `{Platform}.

(** C4. The lifecycle operations are lock-free.  Whatever other sessions do, and even if the
    database fails any statement or commit, a settlement, reversal, authorisation or failure
    repeats an attempt, and pauses before it does, only because another session has meanwhile
    committed a higher version of a payment or account: after [k] conflicts, rows were
    overtaken [k] times, one after the other, before whatever this session committed.  It
    gives up with ConcurrentPaymentModificationError only if that happened to every one of
    its attempts. *)
Theorem transitions_lock_free pid (reason : option string) (max_attempts : Z) (s : Sess) :
  Inv (s_db s) ->
  let lost := ConcurrentPaymentModificationError pid max_attempts in
  let progresses (m : Prog Payment) : Prop := every_run others anything m s (lock_free lost max_attempts s) in
  progresses (settle_payment pid max_attempts) /\ progresses (reverse_payment pid max_attempts) /\
  progresses (authorise_payment pid max_attempts) /\ progresses (fail_payment pid reason max_attempts).
Proof.
  intros HI lost progresses.
  split; [|split; [|split]]; (apply run_lock_free; [| |done| |done]).
  - apply wakeful_entry_attempt, wakeful_settlement_lines.
  - apply patient_entry_attempt, patient_settlement_lines.
  - intros cs s'. apply run_entry_left, plain_settlement_lines.
  - apply wakeful_entry_attempt, wakeful_reversal_lines.
  - apply patient_entry_attempt, patient_reversal_lines.
  - intros cs s'. apply run_entry_left, plain_reversal_lines.
  - apply wakeful_status_attempt.
  - apply patient_status_attempt.
  - intros cs s'. apply run_status_left.
  - apply wakeful_status_attempt.
  - apply patient_status_attempt.
  - intros cs s'. apply run_status_left.
Qed.
End transitions.
