(* ===== verification/Delivery.v ===== *)
(** Delivery: what one delivery attempt and one dispatch cycle do, run alone
    (app/domain/webhooks/dispatch.py). *)
From S2P Require Import Prelude Decimals PyText PyVal JsonFacts Ledger Fx PaymentSM Recon Webhooks.
From S2P Require Import Store Session Repos SupportRepos LedgerService PaymentService Backoff.
From S2P Require Import Effects Dispatch Atomicity Invariant Commits Transactions Alone.

#[local] Open Scope Z_scope.

Section delivery.
Context `{Platform}.

(** * One attempt *)

(** A row of the table; the error text it already has came out of a TEXT column. *)
Definition due_row (db : DB) (d : WebhookDelivery) (created : Z) : Prop :=
  webhook_deliveries db !! dl_id d = Some {| wdm_delivery := d; wdm_created_at := created |} /\
  from_option text true (dl_last_error d) = true.

(** The row after an attempt. *)
Definition rewritten (s : Sess) (d : WebhookDelivery) (created : Z) (s' : Sess) : Prop :=
  let row := {| wdm_delivery := d; wdm_created_at := created |} in
  s_commits s' = s_commits s ++ [[PutDelivery row]] /\
  s_db s' = apply_write (s_db s) (PutDelivery row) /\ s_log s' = [].

(** The attempts a delivery can still make. *)
Definition remaining (max_attempts : Z) (d : WebhookDelivery) : Z :=
  if decide (dl_status d = PENDING) then max_attempts - dl_attempt_count d else 0.

(** The request a delivery promises its subscriber: the canonical JSON of its payload, posted
    to the subscription's URL with the type of the event and the hex HMAC-SHA256 of exactly
    that body under the subscription's secret. *)
Definition signed_request (d : WebhookDelivery) (sub : WebhookSubscription) (rq : Request) : Prop :=
  exists json, canonical (dl_payload d) json /\
    rq_url rq = sub_url sub /\ rq_body rq = utf8 json /\
    rq_headers rq = [("Content-Type", "application/json"); ("X-Webhook-Event", dl_event_type d);
      ("X-Webhook-Signature", hmac_sha256_hex (utf8 (sub_secret sub)) (utf8 json))]%string.

(** The answers that count as a delivery: a status of the two hundreds. *)
Definition accepted (answer : result string Z) : Prop :=
  exists status, answer = Ok status /\ 200 <= status <= 299.

(** The other answers, and the text they leave behind. *)
Definition failed (answer : result string Z) (error : string) : Prop :=
  match answer with
  | Ok status => ~ 200 <= status <= 299 /\ error = "HTTP " +:+ str_Z status
  | Err raised => error = raised
  end.

(** A delivery with other values in the four columns an attempt may change. *)
Definition outcome_row (d : WebhookDelivery) (status : DeliveryStatus) (attempt_count next_attempt_at : Z)
    (last_error : option string) : WebhookDelivery :=
  {| dl_id := dl_id d; dl_subscription_id := dl_subscription_id d; dl_payment_id := dl_payment_id d;
     dl_event_type := dl_event_type d; dl_payload := dl_payload d; dl_status := status;
     dl_attempt_count := attempt_count; dl_next_attempt_at := next_attempt_at; dl_last_error := last_error |}.

(** What an attempt does for the answer the subscriber gave. *)
Inductive attempted (max_attempts : Z) (d : WebhookDelivery) (created : Z) (s s' : Sess)
    (answer : result string Z) : result Exn unit -> Prop :=
| delivery_accepted :
    accepted answer ->
    rewritten s (outcome_row d DELIVERED (dl_attempt_count d) (dl_next_attempt_at d) (dl_last_error d))
      created s' ->
    attempted max_attempts d created s s' answer (Ok tt)
| delivery_retried error t :
    failed answer error -> text error = true -> dl_attempt_count d + 1 < max_attempts ->
    rewritten s (outcome_row d PENDING (dl_attempt_count d + 1) (t + schedule_us (dl_attempt_count d))
      (Some error)) created s' ->
    attempted max_attempts d created s s' answer (Ok tt)
| delivery_given_up error :
    failed answer error -> text error = true -> max_attempts <= dl_attempt_count d + 1 ->
    rewritten s (outcome_row d DEAD_LETTER (dl_attempt_count d + 1) (dl_next_attempt_at d) (Some error))
      created s' ->
    attempted max_attempts d created s s' answer (Ok tt)
| delivery_unrecorded error :
    failed answer error -> text error = false -> s_db s' = s_db s -> s_commits s' = s_commits s ->
    attempted max_attempts d created s s' answer (Err (DataError "last_error")).

Lemma request_signed d sub : signed_request d sub (delivery_request d sub).
Proof.
  exists (json_dumps_sorted (pg_scan (map_to_list (dl_payload d)))). split; [|done].
  assert (Hnd : NoDup (pg_scan (map_to_list (dl_payload d))).*1).
  { rewrite pg_scan_perm. apply NoDup_fst_map_to_list. }
  assert (Hobj : object (pg_scan (map_to_list (dl_payload d))) = dl_payload d).
  { unfold object. rewrite <- (list_to_map_to_list (dl_payload d)) at 2.
    apply list_to_map_proper; [done|apply pg_scan_perm]. }
  rewrite <- Hobj at 1. by apply json_dumps_canonical.
Qed.

Lemma answer_cases answer :
  match delivery_error answer with None => accepted answer | Some error => failed answer error end.
Proof.
  destruct answer as [status|raised]; [|done]. unfold delivery_error.
  destruct (Z.leb_spec 200 status), (Z.ltb_spec status 300); cbn; [exists status; split; [done|lia]|..];
    split; (lia || done).
Qed.

Lemma merge_same loaded target :
  dl_id target = dl_id loaded -> dl_subscription_id target = dl_subscription_id loaded ->
  dl_payment_id target = dl_payment_id loaded -> dl_event_type target = dl_event_type loaded ->
  dl_payload target = dl_payload loaded -> merge_delivery loaded target loaded = target.
Proof.
  destruct loaded, target. simpl. intros -> -> -> -> ->. unfold merge_delivery, changed. simpl.
  f_equal; by case_decide.
Qed.

Lemma alone_load d created s Q :
  due_row (cur s) d created -> Q s (Ok d) -> alone (load_delivery (dl_id d)) s Q.
Proof.
  intros Hd HQ. apply alone_select. fold (cur s). destruct Hd as [Hd _]. by rewrite Hd.
Qed.

(** A changed row is sent in one statement. *)
Lemma alone_flush d created status count at_ error s Q :
  let target := set_delivery d status count at_ error in
  due_row (cur s) d created -> target <> d -> count <= int4_max ->
  (from_option text true error = true ->
     Q (wrote s [PutDelivery {| wdm_delivery := target; wdm_created_at := created |}]) (Ok tt)) ->
  (from_option text true error = false -> Q s (Err (DataError "last_error"))) ->
  alone (flush_delivery d target) s Q.
Proof.
  intros target Hd Hne Hcount Hok Herr. unfold flush_delivery. rewrite decide_False by done.
  destruct Hd as [Hd _]. destruct (from_option text true error) eqn:Ht.
  - eapply alone_sql; [|by apply Hok]. fold (cur s). rewrite Hd. cbn [wdm_delivery wdm_created_at].
    change (dl_last_error target) with error. rewrite Ht.
    change (dl_attempt_count target) with count.
    destruct (Z.leb_spec count int4_max); [|lia]. cbn [require]. rewrite !result_bind_ok.
    by rewrite merge_same.
  - eapply alone_sql_error; [|by apply Herr]. fold (cur s). rewrite Hd.
    change (dl_last_error target) with error. by rewrite Ht.
Qed.

(** The statement's row, committed: one attempt less. *)
Lemma attempt_written max_attempts d created s rq answer t status count at_ error :
  let d' := outcome_row d status count at_ error in
  let s2 := wrote (with_open (with_sent s rq answer) t)
              [PutDelivery {| wdm_delivery := d'; wdm_created_at := created |}] in
  let s3 := with_sql (with_commit s2 (s_db s2)) (s_db (with_commit s2 (s_db s2))) [] in
  from_option text true error = true -> remaining max_attempts d' < remaining max_attempts d ->
  rewritten s d' created s3 /\
  (exists d', due_row (s_db s3) d' created /\ dl_id d' = dl_id d /\
     remaining max_attempts d' < remaining max_attempts d).
Proof.
  intros d' s2 s3 Herr Hrem.
  assert (Hw : rewritten s d' created s3) by done. split; [done|].
  exists d'. split; [|done]. destruct Hw as (_ & -> & _). split; [|done].
  rewrite deliveries_write. apply lookup_insert_eq.
Qed.

Lemma alone_attempt d created sub max_attempts s :
  due_row (s_db s) d created -> dl_status d = PENDING -> 0 <= dl_attempt_count d < 1024 ->
  dl_attempt_count d < max_attempts ->
  alone (dispatch_one_delivery d sub max_attempts) s (fun s' r =>
    exists rq answer, s_sent s' = s_sent s ++ [(rq, answer)] /\ rq = delivery_request d sub /\
      attempted max_attempts d created s s' answer r /\
      (r = Ok tt -> exists d', due_row (s_db s') d' created /\ dl_id d' = dl_id d /\
         remaining max_attempts d' < remaining max_attempts d)).
Proof.
  intros Hd Hst Hn Hmax. unfold dispatch_one_delivery. apply run_bind, run_send. intros answer.
  apply run_with_uow. intros t. set (s1 := with_sent s (delivery_request d sub) answer).
  assert (Hrow : due_row (cur (with_open s1 t)) d created) by exact Hd.
  assert (Hrem : remaining max_attempts d = max_attempts - dl_attempt_count d).
  { unfold remaining. by rewrite decide_True. }
  pose proof (answer_cases answer) as Hans. destruct (delivery_error answer) as [error|].
  - assert (Hcount : dl_attempt_count d + 1 <= int4_max) by (unfold int4_max; lia).
    apply run_bind. destruct (Z.leb_spec max_attempts (dl_attempt_count d + 1)) as [Hlast|Hmore].
    + apply run_bind, (alone_load d created); [done|]. eapply alone_flush; [done| |done| |].
      * by destruct d; simpl in *; subst.
      * intros Htext. cbv beta iota. apply alone_commit. exists (delivery_request d sub), answer.
        split; [done|]. split; [done|].
        destruct (attempt_written max_attempts d created s (delivery_request d sub) answer t DEAD_LETTER
          (dl_attempt_count d + 1) (dl_next_attempt_at d) (Some error)) as [Hw Hless];
          [done|rewrite Hrem; unfold remaining; simpl; lia|].
        split; [by eapply delivery_given_up|done].
      * intros Htext. exists (delivery_request d sub), answer. split_and!; [done|done| |done].
        by eapply delivery_unrecorded.
    + apply run_bind, run_now. intros t'. cbv beta iota.
      replace (dl_attempt_count d + 1 - 1) with (dl_attempt_count d) by lia.
      rewrite backoff_us_schedule by lia. apply run_bind, run_ret.
      apply run_bind, (alone_load d created); [done|]. rewrite Hst. eapply alone_flush; [done| |done| |].
      * intros Heq. apply (f_equal dl_attempt_count) in Heq. simpl in Heq. lia.
      * intros Htext. cbv beta iota. apply alone_commit. exists (delivery_request d sub), answer.
        split; [done|]. split; [done|].
        destruct (attempt_written max_attempts d created s (delivery_request d sub) answer t PENDING
          (dl_attempt_count d + 1) (t' + schedule_us (dl_attempt_count d)) (Some error)) as [Hw Hless];
          [done|rewrite Hrem; unfold remaining; simpl; lia|].
        split; [by eapply delivery_retried|done].
      * intros Htext. exists (delivery_request d sub), answer. split_and!; [done|done| |done].
        by eapply delivery_unrecorded.
  - apply run_bind, run_bind, (alone_load d created); [done|].
    eapply alone_flush; [done|by destruct d; simpl in *; subst|unfold int4_max; lia| |].
    + intros Htext. cbv beta iota. apply alone_commit. exists (delivery_request d sub), answer.
      split; [done|]. split; [done|].
      destruct (attempt_written max_attempts d created s (delivery_request d sub) answer t DELIVERED
        (dl_attempt_count d) (dl_next_attempt_at d) (dl_last_error d)) as [Hw Hless];
        [done|rewrite Hrem; unfold remaining; simpl; lia|].
      split; [by eapply delivery_accepted|done].
    + destruct Hd as [_ Hd]. congruence.
Qed.

(** C13. One delivery attempt, run alone on a pending delivery that has attempts left: exactly
    one request is sent, the canonical JSON of the payload signed with the subscription's
    secret.  A status from 200 to 299 makes the delivery delivered and counts nothing; any
    other answer counts one more attempt and keeps its text, and the delivery is due again
    after the delay of the schedule, or dead-lettered when the attempts are used up; and where
    that text holds a NUL character, which no TEXT column takes, the row stays as it was and
    the attempt raises a DataError.  An attempt that does not raise leaves strictly fewer to
    make. *)
Theorem dispatch_one_delivery_correct d created sub max_attempts s :
  due_row (s_db s) d created -> dl_status d = PENDING -> 0 <= dl_attempt_count d < 1024 ->
  dl_attempt_count d < max_attempts ->
  alone (dispatch_one_delivery d sub max_attempts) s (fun s' r =>
    exists rq answer, s_sent s' = s_sent s ++ [(rq, answer)] /\ signed_request d sub rq /\
      attempted max_attempts d created s s' answer r /\
      (r = Ok tt -> exists d', due_row (s_db s') d' created /\ dl_id d' = dl_id d /\
         remaining max_attempts d' < remaining max_attempts d)).
Proof.
  intros Hd Hst Hn Hmax. eapply run_mono; [by apply (alone_attempt d created sub max_attempts s)|].
  intros s' r (rq & answer & Hsent & -> & Hend & Hless). exists (delivery_request d sub), answer.
  by split_and!; [|apply request_signed| |].
Qed.

(** * One cycle *)

(** The active subscription a delivery is for. *)
Definition subscriber (db : DB) (d : WebhookDelivery) : option WebhookSubscription :=
  sub ← webhook_subscriptions db !! dl_subscription_id d;
  if sub_active sub then Some sub else None.

Definition due_requests (db : DB) (due : list WebhookDelivery) : list Request :=
  omap (fun d => delivery_request d <$> subscriber db d) due.

(** The deliveries due at a time: pending, the longest due first, at most [limit]. *)
Definition due_at (db : DB) (t limit : Z) (due : list WebhookDelivery) : Prop :=
  exists l, due = take (Z.to_nat limit) l /\ Sorted due_sooner l /\
    l ≡ₚ filter (fun d => dl_status d = PENDING /\ dl_next_attempt_at d <= t)
           (wdm_delivery <$> (map_to_list (webhook_deliveries db)).*2).

(** Reading the clock and the database leaves the rest as it was. *)
Definition same_but_now (s s1 : Sess) : Prop :=
  s_db s1 = s_db s /\ s_sent s1 = s_sent s /\ s_commits s1 = s_commits s.

Lemma silent_mark_delivered id : silent (mark_delivered id).
Proof. unfold mark_delivered, load_delivery, flush_delivery. by_effects. Qed.
Lemma silent_mark_retry id n t e : silent (mark_retry id n t e).
Proof. unfold mark_retry, load_delivery, flush_delivery. by_effects. Qed.
Lemma silent_mark_dead_letter id n e : silent (mark_dead_letter id n e).
Proof. unfold mark_dead_letter, load_delivery, flush_delivery. by_effects. Qed.
Hint Resolve silent_mark_delivered silent_mark_retry silent_mark_dead_letter : effects.

Lemma run_dispatch_sends rely d sub max_attempts s :
  every_run rely anything (dispatch_one_delivery d sub max_attempts) s (fun s' _ =>
    exists answer, s_sent s' = s_sent s ++ [(delivery_request d sub, answer)]).
Proof.
  apply run_bind, run_send. intros answer. eapply run_mono; [apply run_silent|].
  - apply limited_uow. by_effects.
  - intros s' r ->. by exists answer.
Qed.

(** The requests sent are a prefix of [reqs], all of it if nothing was raised. *)
Definition sent_in_order (reqs : list Request) (s s' : Sess) (ok : bool) : Prop :=
  exists answers, (length answers <= length reqs)%nat /\
    (ok = true -> length answers = length reqs) /\
    s_sent s' = s_sent s ++ zip reqs answers.

Lemma run_dispatch_each rely due subs max_attempts s :
  every_run rely anything (dispatch_each due subs max_attempts) s (fun s' r =>
    sent_in_order (omap (fun d => delivery_request d <$> subs !! dl_subscription_id d) due) s s' (is_ok r)).
Proof.
  revert s. induction due as [|d due IH]; intros s.
  { apply run_ret. exists []. simpl. split_and!; [lia|done|by rewrite app_nil_r]. }
  cbn [dispatch_each]. apply run_bind.
  set (f := fun d => delivery_request d <$> subs !! dl_subscription_id d) in *.
  change (omap f (d :: due)) with (match f d with Some x => x :: omap f due | None => omap f due end).
  assert (Hf : f d = delivery_request d <$> subs !! dl_subscription_id d) by done.
  destruct (subs !! dl_subscription_id d) as [sub|]; cbn in Hf; rewrite Hf; [|by apply run_ret, IH].
  eapply run_mono; [apply run_dispatch_sends|]. intros s1 [[]|e] [answer Hs1]; cbv beta iota.
  - eapply run_mono; [apply IH|]. intros s2 r (answers & Hle & Hall & Hs2).
    exists (answer :: answers). simpl. split_and!; [lia|intros Hr; f_equal; by apply Hall|].
    by rewrite Hs2, Hs1, <- app_assoc.
  - exists [answer]. split; [cbn [length]; lia|]. split; [done|]. rewrite Hs1.
    by destruct (omap f due).
Qed.

Lemma active_lookup db i :
  (forall i x, webhook_subscriptions db !! i = Some x -> sub_id x = i) ->
  (list_to_map ((fun s => (sub_id s, s)) <$> reverse (active_subscriptions db)) : gmap UUID _) !! i =
  (sub ← webhook_subscriptions db !! i; if sub_active sub then Some sub else None).
Proof.
  intros Hid.
  assert (Hin : forall sub, sub ∈ reverse (active_subscriptions db) <->
    sub_active sub = true /\ webhook_subscriptions db !! sub_id sub = Some sub).
  { intros sub. rewrite elem_of_reverse. unfold active_subscriptions. rewrite pg_scan_perm.
    rewrite list_elem_of_filter, list_elem_of_fmap. split.
    - intros (Ha & [j y] & -> & Hj%elem_of_map_to_list). simpl. by rewrite (Hid _ _ Hj).
    - intros (Ha & Hs). split; [done|]. exists (sub_id sub, sub). split; [done|by apply elem_of_map_to_list]. }
  destruct ((list_to_map _ : gmap UUID _) !! i) as [sub|] eqn:Hl.
  - apply elem_of_list_to_map_2, list_elem_of_fmap in Hl as (sub' & [= -> ->] & Hs).
    apply Hin in Hs as [Ha Hs]. by rewrite Hs; simpl; rewrite Ha.
  - apply not_elem_of_list_to_map_2 in Hl. destruct (webhook_subscriptions db !! i) as [sub|] eqn:Hs; [|done].
    simpl. destruct (sub_active sub) eqn:Ha; [|done]. destruct Hl. rewrite <- (Hid _ _ Hs).
    apply list_elem_of_fmap. exists (sub_id sub, sub). split; [done|]. apply list_elem_of_fmap.
    exists sub. split; [done|]. apply Hin. by rewrite (Hid _ _ Hs).
Qed.

Lemma requests_by_id db due :
  (forall i x, webhook_subscriptions db !! i = Some x -> sub_id x = i) ->
  omap (fun d => delivery_request d <$>
    (list_to_map ((fun s => (sub_id s, s)) <$> reverse (active_subscriptions db)) : gmap UUID _)
      !! dl_subscription_id d) due = due_requests db due.
Proof.
  intros Hid. unfold due_requests, subscriber. induction due as [|d due IH]; [done|].
  cbn [omap list_omap]. rewrite (active_lookup db) by done. by rewrite IH.
Qed.

(** A cycle reads the due deliveries and the active subscriptions, then tries each. *)
Lemma alone_cycle limit max_attempts s (Q : Sess -> result Exn Z -> Prop) :
  0 <= limit ->
  (forall t due s1, due_at (s_db s) t limit due -> Z.of_nat (length due) <= limit -> same_but_now s s1 ->
     alone (dispatch_each due (list_to_map ((fun x => (sub_id x, x)) <$> reverse (active_subscriptions (s_db s))))
       max_attempts) s1 (fun s' r => Q s' ((fun _ => Z.of_nat (length due)) <$> r))) ->
  alone (dispatch_due_deliveries limit max_attempts) s Q.
Proof.
  intros Hlim HQ. apply run_bind, run_now. intros t. apply run_bind, run_with_uow. intros t'.
  apply run_bind, alone_select. fold (cur (with_open s t')). change (cur (with_open s t')) with (s_db s).
  destruct (Z.leb_spec 0 limit); [|lia]. cbn [require]. rewrite result_bind_ok. cbv beta iota.
  match goal with |- context [take (Z.to_nat limit) ?x] => set (l := x) end.
  apply run_bind, alone_select. fold (cur (with_open s t')). change (cur (with_open s t')) with (s_db s).
  apply run_ret. cbv beta iota. apply run_bind. eapply run_mono; [apply (HQ t)|].
  - exists l. assert (Total due_sooner) by (intros x y; unfold due_sooner; lia).
    split_and!; [done|apply Sorted_merge_sort, _|]. unfold l. by rewrite merge_sort_Permutation, pg_scan_perm.
  - rewrite length_take. lia.
  - done.
  - intros s1 [[]|e] H1; [by apply run_ret|done].
Qed.

End delivery.
