(* ===== verification/Starvation.v ===== *)
(** Starvation: deliveries whose subscription is no longer active hold the queue
    (app/domain/webhooks/dispatch.py).

    A cycle takes the deliveries that are due the longest and skips those without an active
    subscription, leaving them pending and due: enough of them fill every cycle. *)
From S2P Require Import Prelude Decimals PyText PyVal Ledger Fx PaymentSM Recon Webhooks.
From S2P Require Import Store Session Repos SupportRepos LedgerService PaymentService Backoff.
From S2P Require Import Effects Dispatch Atomicity Invariant Commits Transactions Alone Delivery.

#[local] Open Scope Z_scope.

Section starvation.
Context `{Platform}.

Definition pending_rows (db : DB) : list WebhookDelivery :=
  filter (fun d => dl_status d = PENDING) (wdm_delivery <$> (map_to_list (webhook_deliveries db)).*2).

(** [stuck]: as many pending deliveries as a cycle takes, none with an active subscription,
    and every other pending delivery falls due after them. *)
Record starved (db : DB) (limit : Z) (stuck : list WebhookDelivery) : Prop := {
  sv_length : Z.of_nat (length stuck) = limit;
  sv_distinct : NoDup stuck;
  sv_pending : Forall (fun d => d ∈ pending_rows db) stuck;
  sv_orphan : Forall (fun d => subscriber db d = None) stuck;
  sv_later : Forall (fun x => x ∈ stuck \/
    Forall (fun d => dl_next_attempt_at d < dl_next_attempt_at x) stuck) (pending_rows db);
}.

(** In a sorted list, what falls due strictly before [x] comes before it. *)
Lemma sorted_before l1 x l2 d :
  Sorted due_sooner (l1 ++ x :: l2) -> d ∈ l1 ++ x :: l2 ->
  dl_next_attempt_at d < dl_next_attempt_at x -> d ∈ l1.
Proof.
  intros Hs Hd Hlt. apply elem_of_app in Hd as [Hd|Hd]; [done|].
  assert (Htr : Transitive due_sooner) by (intros a b c; unfold due_sooner; lia).
  apply Sorted_StronglySorted in Hs; [|exact Htr].
  assert (Htail : StronglySorted due_sooner (x :: l2)).
  { clear -Hs. induction l1 as [|y l1 IH]; [exact Hs|]. apply IH. by inversion Hs. }
  apply elem_of_cons in Hd as [->|Hd]; [lia|].
  inversion Htail as [|? ? _ Hall]; subst. rewrite Forall_forall in Hall.
  specialize (Hall d Hd). unfold due_sooner in Hall. lia.
Qed.

Lemma due_stuck db limit stuck t due :
  starved db limit stuck -> due_at db t limit due -> forall x, x ∈ due -> x ∈ stuck.
Proof.
  intros [Hlen Hnd Hpend _ Hlater] (l & -> & Hsort & Hperm) x Hx.
  assert (Hin : forall d, d ∈ l <-> d ∈ pending_rows db /\ dl_next_attempt_at d <= t).
  { intros d. unfold pending_rows. rewrite Hperm, !list_elem_of_filter. tauto. }
  apply list_elem_of_lookup in Hx as [k Hk]. apply lookup_take_Some in Hk as [Hk Hlt].
  assert (Hxl : x ∈ l) by (apply list_elem_of_lookup; by eexists).
  apply Hin in Hxl as [Hxp Hxt]. rewrite Forall_forall in Hlater.
  destruct (Hlater x Hxp) as [Hs|Hafter]; [done|exfalso].
  apply list_elem_of_split_length in Hk as (l1 & l2 & -> & ->).
  assert (Hsub : stuck ⊆+ l1).
  { apply NoDup_submseteq; [done|]. intros d Hd. rewrite Forall_forall in Hafter, Hpend.
    specialize (Hafter d Hd). apply (sorted_before l1 x l2); [done| |done].
    apply Hin. split; [by apply Hpend|]. lia. }
  apply submseteq_length in Hsub. lia.
Qed.

(** Deliveries nobody subscribes to are passed over. *)
Lemma run_pass_over rely guar (subs : gmap UUID WebhookSubscription) due max_attempts s Q :
  Forall (fun d => subs !! dl_subscription_id d = None) due -> Q s (Ok tt) ->
  every_run rely guar (dispatch_each due subs max_attempts) s Q.
Proof.
  intros Hall HQ. induction Hall as [|d due Hd _ IH]; [by apply run_ret|].
  cbn [dispatch_each]. rewrite Hd. by apply run_bind, run_ret.
Qed.

Lemma starved_cycle limit max_attempts stuck s :
  (forall i x, webhook_subscriptions (s_db s) !! i = Some x -> sub_id x = i) -> 0 <= limit ->
  starved (s_db s) limit stuck ->
  alone (dispatch_due_deliveries limit max_attempts) s (fun s' _ => same_but_now s s').
Proof.
  intros Hid Hlim Hst. apply alone_cycle; [done|]. intros t due s1 Hdue _ Hs1.
  apply run_pass_over; [|done]. apply Forall_forall. intros d Hd. rewrite active_lookup by done.
  pose proof (sv_orphan _ _ _ Hst) as Horph. rewrite Forall_forall in Horph.
  exact (Horph d (due_stuck _ _ _ _ _ Hst Hdue d Hd)).
Qed.

(** C16. Starvation.  When as many pending deliveries as a cycle takes have no active
    subscription and fall due before every other one, then any number of cycles of the
    worker sends nothing and changes nothing: no delivery of an active subscription is ever
    attempted, however long it has been due. *)
Theorem inactive_deliveries_starve max_attempts stuck cycles s :
  (forall i x, webhook_subscriptions (s_db s) !! i = Some x -> sub_id x = i) ->
  starved (s_db s) 50 stuck ->
  alone (for_ (replicate cycles tt) (fun _ => _dispatch_webhooks_job max_attempts)) s
    (fun s' r => r = Ok tt /\ same_but_now s s').
Proof.
  revert s. induction cycles as [|n IH]; intros s Hid Hst; [by apply run_ret|].
  cbn [replicate for_]. apply run_bind, run_bind, run_attempt.
  eapply run_mono; [by apply (starved_cycle 50 max_attempts stuck)|].
  intros s1 r (Hdb & Hsent & Hcs). apply run_ret. cbv beta iota.
  eapply run_mono; [apply IH; by rewrite Hdb|].
  intros s2 r2 (-> & Hdb2 & Hsent2 & Hcs2). split; [done|]. unfold same_but_now. by rewrite Hdb2, Hsent2, Hcs2.
Qed.
End starvation.
