(* ===== verification/Outbox.v ===== *)
(** Outbox: any number of dispatch cycles sends each delivery a bounded number of times
    (app/domain/webhooks/dispatch.py, app/workers/scheduler.py). *)
From S2P Require Import Prelude Decimals PyText PyVal JsonFacts Ledger Fx PaymentSM Recon Webhooks.
From S2P Require Import Store Columns Session Repos SupportRepos LedgerService PaymentService Backoff.
From S2P Require Import Effects Dispatch Atomicity Invariant Commits Transactions Book Alone Delivery Starvation.

#[local] Open Scope Z_scope.

Section outbox.
Context `{Platform}.

(** * What is counted *)

(** The attempts a delivery can still make: none unless it is pending. *)
Definition left_for (max_attempts : Z) (db : DB) (i : UUID) : Z :=
  match webhook_deliveries db !! i with Some x => remaining max_attempts (wdm_delivery x) | None => 0 end.

(** Each row is under its identifier, its error text came out of the column, and while it is
    pending it has attempts left: what the rows are when they are enqueued, and stay. *)
Definition row_ok (max_attempts : Z) (i : UUID) (x : WebhookDeliveryModel) : Prop :=
  dl_id (wdm_delivery x) = i /\ from_option text true (dl_last_error (wdm_delivery x)) = true /\
  (dl_status (wdm_delivery x) = PENDING -> 0 <= dl_attempt_count (wdm_delivery x) < max_attempts).

Definition outbox_ok (max_attempts : Z) (db : DB) : Prop :=
  map_Forall (row_ok max_attempts) (webhook_deliveries db).

(** The delivery a request was sent for, the request, and what came back. *)
Definition Sending : Type := UUID * (Request * result string Z).

(** The delivery is pending and the request its own, to its active subscription. *)
Definition sent_for (db : DB) (x : Sending) : Prop :=
  exists row sub, webhook_deliveries db !! x.1 = Some row /\ dl_status (wdm_delivery row) = PENDING /\
    webhook_subscriptions db !! dl_subscription_id (wdm_delivery row) = Some sub /\
    sub_active sub = true /\ signed_request (wdm_delivery row) sub x.2.1.

(** Every status can be recorded; of the exceptions, those whose text holds no NUL. *)
Definition recordable (answer : result string Z) : bool :=
  match answer with Ok _ => true | Err raised => text raised end.

(** How often the delivery was sent with an outcome that can be recorded. *)
Definition tries (i : UUID) (sends : list Sending) : Z :=
  Z.of_nat (length (filter (fun x => x.1 = i /\ recordable x.2.2 = true) sends)).

(** No subscription has changed, no delivery what it sends and to whom, and none has become
    pending. *)
Definition same_outbox (db db' : DB) : Prop :=
  webhook_subscriptions db' = webhook_subscriptions db /\
  forall i x', webhook_deliveries db' !! i = Some x' -> exists x, webhook_deliveries db !! i = Some x /\
    dl_subscription_id (wdm_delivery x) = dl_subscription_id (wdm_delivery x') /\
    dl_event_type (wdm_delivery x) = dl_event_type (wdm_delivery x') /\
    dl_payload (wdm_delivery x) = dl_payload (wdm_delivery x') /\
    (dl_status (wdm_delivery x') = PENDING -> dl_status (wdm_delivery x) = PENDING).

(** From [s] to [s'] these were sent, and each delivery has paid for its own out of the
    attempts it had left. *)
Definition paid (max_attempts : Z) (s : Sess) (sends : list Sending) (s' : Sess) : Prop :=
  s_sent s' = s_sent s ++ sends.*2 /\ same_outbox (s_db s) (s_db s') /\
  Forall (sent_for (s_db s)) sends /\
  forall i, tries i sends + left_for max_attempts (s_db s') i <= left_for max_attempts (s_db s) i.

(** The pending deliveries a cycle has yet to try. *)
Definition waiting (db : DB) (d : WebhookDelivery) : Prop :=
  (exists created, due_row db d created) /\ dl_status d = PENDING.

Lemma same_outbox_refl db : same_outbox db db.
Proof. split; [done|]. intros i x Hx. by exists x. Qed.

Lemma same_outbox_trans db1 db2 db3 : same_outbox db1 db2 -> same_outbox db2 db3 -> same_outbox db1 db3.
Proof.
  intros [H1 H12] [H2 H23]. split; [by rewrite H2|]. intros i x (y & Hy & Hs & He & Hp & Hst)%H23.
  destruct (H12 _ _ Hy) as (z & Hz & ? & ? & ? & ?). exists z. split_and!; [done|congruence..|auto].
Qed.

Lemma sent_for_before db db' x : same_outbox db db' -> sent_for db' x -> sent_for db x.
Proof.
  intros [Hsubs Hrows] (row & sub & Hrow & Hst & Hsub & Ha & json & Hj & Hu & Hb & Hh).
  destruct (Hrows _ _ Hrow) as (row0 & Hrow0 & Hs & He & Hp & Hst0). exists row0, sub.
  rewrite Hs, <- Hsubs. split_and!; [done|auto|done|done|]. exists json. by rewrite Hp, He.
Qed.

Lemma tries_nil i : tries i [] = 0.
Proof. done. Qed.
Lemma tries_app i l1 l2 : tries i (l1 ++ l2) = tries i l1 + tries i l2.
Proof. unfold tries. by rewrite filter_app, length_app, Nat2Z.inj_add. Qed.

Lemma paid_nothing max_attempts s s' :
  s_sent s' = s_sent s -> s_db s' = s_db s -> paid max_attempts s [] s'.
Proof.
  intros Hs Hd. unfold paid. rewrite Hs, Hd, app_nil_r.
  split_and!; [done|apply same_outbox_refl|constructor|]. intros i. rewrite tries_nil. lia.
Qed.

Lemma paid_trans max_attempts s1 l1 s2 l2 s3 :
  paid max_attempts s1 l1 s2 -> paid max_attempts s2 l2 s3 -> paid max_attempts s1 (l1 ++ l2) s3.
Proof.
  intros (Hs1 & Hd1 & Hf1 & Hp1) (Hs2 & Hd2 & Hf2 & Hp2). split_and!.
  - by rewrite Hs2, Hs1, fmap_app, app_assoc.
  - by eapply same_outbox_trans.
  - apply Forall_app. split; [done|]. eapply Forall_impl; [exact Hf2|]. intros x. by apply sent_for_before.
  - intros i. rewrite tries_app. specialize (Hp1 i). specialize (Hp2 i). lia.
Qed.

Lemma left_nonneg max_attempts db i : outbox_ok max_attempts db -> 0 <= left_for max_attempts db i.
Proof.
  intros Hok. unfold left_for. destruct (webhook_deliveries db !! i) as [x|] eqn:Hx; [|done].
  destruct (Hok i x Hx) as (_ & _ & Hp). unfold remaining. case_decide as Hst; [specialize (Hp Hst)|]; lia.
Qed.

Lemma left_at_most max_attempts db i :
  0 <= max_attempts -> outbox_ok max_attempts db -> left_for max_attempts db i <= max_attempts.
Proof.
  intros Hmax Hok. unfold left_for. destruct (webhook_deliveries db !! i) as [x|] eqn:Hx; [|done].
  destruct (Hok i x Hx) as (_ & _ & Hp). unfold remaining. case_decide as Hst; [specialize (Hp Hst)|]; lia.
Qed.

Lemma failed_recordable answer error : failed answer error -> text error = recordable answer.
Proof.
  destruct answer as [status|raised]; simpl; [|by intros ->]. intros [_ ->].
  by rewrite text_app, text_str_Z.
Qed.

(** * Attempts and cycles *)

(** A row rewritten with fewer attempts left. *)
Lemma rewritten_pays max_attempts d created d' s s' sending :
  outbox_ok max_attempts (s_db s) -> due_row (s_db s) d created -> dl_id d' = dl_id d ->
  dl_subscription_id d' = dl_subscription_id d -> dl_event_type d' = dl_event_type d ->
  dl_payload d' = dl_payload d -> dl_status d = PENDING ->
  row_ok max_attempts (dl_id d) {| wdm_delivery := d'; wdm_created_at := created |} ->
  remaining max_attempts d' < remaining max_attempts d ->
  rewritten s d' created s' -> sent_for (s_db s) (dl_id d, sending) -> s_sent s' = s_sent s ++ [sending] ->
  outbox_ok max_attempts (s_db s') /\ paid max_attempts s [(dl_id d, sending)] s' /\
  forall d2, dl_id d2 <> dl_id d -> waiting (s_db s) d2 -> waiting (s_db s') d2.
Proof.
  intros Hok [Hd _] Hid Hsub Hev Hpay Hst Hrow Hlt (_ & Hdb & _) Hfor Hsent.
  assert (Hrows : webhook_deliveries (s_db s') =
    <[dl_id d := {| wdm_delivery := d'; wdm_created_at := created |}]> (webhook_deliveries (s_db s))).
  { by rewrite Hdb, deliveries_write, <- Hid. }
  assert (Hsubs : webhook_subscriptions (s_db s') = webhook_subscriptions (s_db s)) by
    by rewrite Hdb, subscriptions_write.
  split; [|split; [split_and!|]].
  - unfold outbox_ok. rewrite Hrows. by apply map_Forall_insert_2.
  - by rewrite Hsent.
  - split; [done|]. intros i x'. rewrite Hrows.
    intros [[<- <-]|[_ Hx]]%lookup_insert_Some; [by eexists; split; [exact Hd|]|by exists x'].
  - by constructor.
  - intros i. unfold tries, left_for. rewrite Hrows, filter_cons. cbn [fst snd].
    destruct (decide (dl_id d = i)) as [<-|Hne].
    + rewrite lookup_insert_eq, Hd. cbn [wdm_delivery]. case_decide; simpl; lia.
    + rewrite lookup_insert_ne by done. rewrite decide_False by naive_solver. simpl. lia.
  - intros d2 Hne [(created2 & Hr2 & Ht2) Hst2]. split; [|done]. exists created2. split; [|done].
    by rewrite Hrows, lookup_insert_ne.
Qed.

(** One attempt pays for its send; the other rows stay what they are. *)
Lemma attempt_pays max_attempts d created sub s s' rq answer r :
  outbox_ok max_attempts (s_db s) -> due_row (s_db s) d created -> dl_status d = PENDING ->
  webhook_subscriptions (s_db s) !! dl_subscription_id d = Some sub -> sub_active sub = true ->
  s_sent s' = s_sent s ++ [(rq, answer)] -> signed_request d sub rq ->
  attempted max_attempts d created s s' answer r ->
  outbox_ok max_attempts (s_db s') /\ paid max_attempts s [(dl_id d, (rq, answer))] s' /\
  forall d2, dl_id d2 <> dl_id d -> waiting (s_db s) d2 -> waiting (s_db s') d2.
Proof.
  intros Hok Hd Hst Hsub Hact Hsent Hrq Hend. pose proof (Hok _ _ (proj1 Hd)) as (_ & Ht & Hn).
  cbn [wdm_delivery] in Ht, Hn. specialize (Hn Hst).
  assert (Hrem : remaining max_attempts d = max_attempts - dl_attempt_count d) by
    (unfold remaining; by rewrite decide_True).
  assert (Hfor : sent_for (s_db s) (dl_id d, (rq, answer))) by (by eexists _, sub; split; [apply Hd|]).
  destruct Hend as [Hacc Hrow|error t Hf Htext Hmore Hrow|error Hf Htext Hlast Hrow|error Hf Htext Hdb _].
  - refine (rewritten_pays _ d created _ s s' _ Hok Hd _ _ _ _ Hst _ _ Hrow Hfor Hsent); [done..|by split_and!|].
    rewrite Hrem. unfold remaining. simpl. lia.
  - refine (rewritten_pays _ d created _ s s' _ Hok Hd _ _ _ _ Hst _ _ Hrow Hfor Hsent); [done..| |].
    + split_and!; [done|done|]. simpl. lia.
    + rewrite Hrem. unfold remaining. simpl. lia.
  - refine (rewritten_pays _ d created _ s s' _ Hok Hd _ _ _ _ Hst _ _ Hrow Hfor Hsent); [done..|by split_and!|].
    rewrite Hrem. unfold remaining. simpl. lia.
  - rewrite Hdb. split_and!; [done| |done]. unfold paid. rewrite Hdb, Hsent.
    split_and!; [done|apply same_outbox_refl|by constructor|].
    intros i. unfold tries. rewrite filter_cons, decide_False.
    + simpl. lia.
    + cbn [fst snd]. rewrite <- (failed_recordable _ _ Hf), Htext. by intros [_ ?].
Qed.

Lemma each_pays max_attempts subs due s :
  max_attempts <= 1024 -> outbox_ok max_attempts (s_db s) -> NoDup (dl_id <$> due) ->
  (forall i sub, subs !! i = Some sub ->
     webhook_subscriptions (s_db s) !! i = Some sub /\ sub_active sub = true) ->
  Forall (waiting (s_db s)) due ->
  alone (dispatch_each due subs max_attempts) s (fun s' _ =>
    outbox_ok max_attempts (s_db s') /\ exists sends, paid max_attempts s sends s').
Proof.
  intros Hmax. revert s. induction due as [|d due IH]; intros s Hok Hnd Hsubs Hdue.
  { apply run_ret. split; [done|]. exists []. by apply paid_nothing. }
  cbn [fmap list_fmap] in Hnd. apply NoDup_cons in Hnd as [Hfresh Hnd].
  apply Forall_cons in Hdue as [[[created Hd] Hst] Hdue]. cbn [dispatch_each]. apply run_bind.
  destruct (subs !! dl_subscription_id d) as [sub|] eqn:Hsub; [|by apply run_ret, IH].
  apply Hsubs in Hsub as [Hsub Hact].
  pose proof (Hok _ _ (proj1 Hd)) as (_ & _ & Hn). specialize (Hn Hst). cbn [wdm_delivery] in Hn.
  eapply run_mono; [apply (alone_attempt d created); [done|done|lia|lia]|].
  intros s1 r (rq & answer & Hsent & -> & Hend & _).
  assert (Hsame : webhook_subscriptions (s_db s1) = webhook_subscriptions (s_db s)).
  { destruct Hend as [_ Hrow|error t _ _ _ Hrow|error _ _ _ Hrow|error _ _ -> _]; [| | |done];
      destruct Hrow as (_ & -> & _); by rewrite subscriptions_write. }
  destruct (attempt_pays max_attempts d created sub s s1 (delivery_request d sub) answer r) as (Hok1 & Hpaid1 & Hrest);
    [done..|apply request_signed|done|].
  destruct r as [[]|e]; [|by split; [|eexists]]. cbv beta iota. eapply run_mono; [apply IH; [done|done| |]|].
  - by rewrite Hsame.
  - rewrite Forall_forall in Hdue |- *. intros d2 Hd2. apply Hrest; [|by apply Hdue].
    intros Heq. apply Hfresh. rewrite <- Heq. by apply list_elem_of_fmap_2.
  - intros s2 r (Hok2 & sends & Hpaid2). split; [done|]. eexists. by eapply paid_trans.
Qed.

(** The due deliveries are distinct pending rows. *)
Lemma due_waiting max_attempts db t limit due :
  outbox_ok max_attempts db -> due_at db t limit due ->
  NoDup (dl_id <$> due) /\ Forall (waiting db) due.
Proof.
  intros Hok (l & -> & _ & Hperm).
  assert (Hin : forall i x, (i, x) ∈ map_to_list (webhook_deliveries db) -> dl_id (wdm_delivery x) = i).
  { intros i x Hx%elem_of_map_to_list. apply (Hok i x Hx). }
  split.
  - assert (Hnd : NoDup (dl_id <$> l)).
    { rewrite Hperm. eapply sublist_NoDup; [|apply fmap_sublist, sublist_filter].
      rewrite <- !list_fmap_compose.
      assert (Hfst : ((dl_id ∘ wdm_delivery) ∘ snd <$> map_to_list (webhook_deliveries db)) =
        (map_to_list (webhook_deliveries db)).*1).
      { apply list_fmap_ext. intros n [i x] Hn. apply (Hin i x). by eapply list_elem_of_lookup_2. }
      unfold compose in *. rewrite Hfst. apply NoDup_fst_map_to_list. }
    rewrite <- (take_drop (Z.to_nat limit) l), fmap_app in Hnd. by apply NoDup_app in Hnd as (? & _ & _).
  - apply Forall_take. rewrite Hperm. apply Forall_forall. intros d [[Hst _] Hd]%list_elem_of_filter.
    apply list_elem_of_fmap in Hd as ([d' created] & -> & Hd). simpl in *.
    apply list_elem_of_fmap in Hd as ([i x] & Heq & Hix). simpl in Heq. subst x.
    pose proof (Hin _ _ Hix) as Hid. apply elem_of_map_to_list in Hix. simpl in Hid. subst i.
    split; [|done]. exists created. split; [done|]. apply (Hok _ _ Hix).
Qed.

Lemma cycle_pays limit max_attempts s :
  0 <= limit -> max_attempts <= 1024 ->
  (forall i x, webhook_subscriptions (s_db s) !! i = Some x -> sub_id x = i) ->
  outbox_ok max_attempts (s_db s) ->
  alone (dispatch_due_deliveries limit max_attempts) s (fun s' _ =>
    outbox_ok max_attempts (s_db s') /\ exists sends, paid max_attempts s sends s').
Proof.
  intros Hlim Hmax Hid Hok. apply alone_cycle; [done|]. intros t due s1 Hdue _ (Hdb & Hsent & _).
  destruct (due_waiting _ _ _ _ _ Hok Hdue) as [Hnd Hwait].
  eapply run_mono; [apply each_pays; [done|by rewrite Hdb|done| |by rewrite Hdb]|].
  - intros i sub. rewrite Hdb, active_lookup by done.
    destruct (webhook_subscriptions (s_db s) !! i) as [x|]; [|done]. simpl.
    destruct (sub_active x) eqn:Ha; [|done]. by intros [= <-].
  - intros s2 r (Hok2 & sends & Hpaid). split; [done|]. exists sends.
    unfold paid in *. by rewrite Hdb, Hsent in Hpaid.
Qed.

Lemma cycles_pay max_attempts cycles s :
  max_attempts <= 1024 ->
  (forall i x, webhook_subscriptions (s_db s) !! i = Some x -> sub_id x = i) ->
  outbox_ok max_attempts (s_db s) ->
  alone (for_ (replicate cycles tt) (fun _ => _dispatch_webhooks_job max_attempts)) s (fun s' r =>
    r = Ok tt /\ outbox_ok max_attempts (s_db s') /\ exists sends, paid max_attempts s sends s').
Proof.
  intros Hmax. revert s. induction cycles as [|n IH]; intros s Hid Hok.
  { apply run_ret. split_and!; [done|done|]. exists []. by apply paid_nothing. }
  cbn [replicate for_]. apply run_bind, run_bind, run_attempt.
  eapply run_mono; [by apply (cycle_pays 50)|]. intros s1 r (Hok1 & sends1 & Hpaid1). apply run_ret. cbv beta iota.
  eapply run_mono; [apply IH; [|done]|].
  - destruct Hpaid1 as (_ & [Hsubs _] & _). by rewrite Hsubs.
  - intros s2 r2 (-> & Hok2 & sends2 & Hpaid2). split_and!; [done|done|]. eexists. by eapply paid_trans.
Qed.

(** C17. The outbox, any number of worker cycles run alone, whatever the subscribers answer
    and whenever the cycles run.  Every request sent is that of one of the deliveries to its
    active subscription, and each delivery pays for its own out of the attempts it has left,
    which no cycle refills or overdraws: a delivery that is not pending is not sent at all,
    and a pending one at most [max_attempts] times less the attempts already counted.  Not
    counted are the sends that fail with an exception whose text holds a NUL character, which
    the row cannot record. *)
Theorem outbox_is_bounded max_attempts cycles s :
  0 <= max_attempts <= 1024 ->
  (forall i x, webhook_subscriptions (s_db s) !! i = Some x -> sub_id x = i) ->
  outbox_ok max_attempts (s_db s) ->
  alone (for_ (replicate cycles tt) (fun _ => _dispatch_webhooks_job max_attempts)) s (fun s' r =>
    r = Ok tt /\ outbox_ok max_attempts (s_db s') /\
    exists sends, s_sent s' = s_sent s ++ sends.*2 /\ Forall (sent_for (s_db s)) sends /\
      forall i, tries i sends <= left_for max_attempts (s_db s) i - left_for max_attempts (s_db s') i /\
        tries i sends <= left_for max_attempts (s_db s) i <= max_attempts).
Proof.
  intros Hmax Hid Hok.
  eapply run_mono; [apply (cycles_pay max_attempts cycles s); [lia|done|done]|].
  intros s' r (-> & Hok' & sends & Hsent & _ & Hfor & Hpaid). split_and!; [done|done|].
  exists sends. split_and!; [done|done|]. intros i. specialize (Hpaid i).
  pose proof (left_nonneg max_attempts (s_db s') i Hok').
  pose proof (left_at_most max_attempts (s_db s) i ltac:(lia) Hok). lia.
Qed.
End outbox.
