(* ===== verification/Orphans.v ===== *)
(** Orphans: an idempotency key claimed by a request that then fails
    (initiate_payment_idempotent of app/domain/payments/services.py). *)
From S2P Require Import Prelude Decimals PyText PyVal Ledger Fx PaymentSM Recon Webhooks.
From S2P Require Import Store Session Repos SupportRepos LedgerService PaymentService.
From S2P Require Import Atomicity.
From S2P Require Import Invariant Commits Transactions Alone.

#[local] Open Scope Z_scope.

Section orphans.
Context `{Platform}.

(** A request whose fields pass every check that needs no database. *)
Record acceptable (debtor creditor : UUID) (amount : Decimal) (currency : string)
    (end_to_end_id : option string) : Prop := {
     ac_amount : pos_column amount;
     ac_distinct : debtor <> creditor;
     ac_currency : varchar 3 currency = true;
     ac_e2e : varchar_opt 35 end_to_end_id = true;
   }.

Definition endpoint : string := IDEMPOTENCY_ENDPOINT_INITIATE_PAYMENT.

(** A key that is claimed and not completed. *)
Definition in_progress (db : DB) (key : string) : Prop :=
  exists r, idempotency_keys db !! (endpoint, key) = Some r /\ ik_status r = IN_PROGRESS.

Lemma acceptable_valid d c amount ccy e2e :
  acceptable d c amount ccy e2e -> _validate_new_payment amount d c = Ok tt.
Proof.
  intros [(z & -> & Hz) Hd _ _]. unfold _validate_new_payment.
  rewrite dec_le0_cents. destruct (Z.leb_spec z 0); [lia|]. cbn [map_err raise_if].
  rewrite !result_bind_ok.
  by rewrite bool_decide_false by done.
Qed.

Lemma pos_column_gt0 d : pos_column d -> sql_gt0 d = true.
Proof.
  intros (z & -> & Hz). unfold of_cents. simpl. apply andb_true_intro.
  destruct (Z.ltb_spec z 0); [lia|]. split; [done|]. apply negb_true_iff, N.eqb_neq. lia.
Qed.

Lemma alone_assert_currency d a ccy s Q :
  accounts (cur s) !! d = Some a -> acc_currency a = ccy -> Q s (Ok tt) ->
  alone (_assert_debtor_currency_matches d ccy) s Q.
Proof.
  intros Ha Hc HQ. apply run_bind, alone_select. fold (cur s). rewrite Ha. cbn [or_raise].
  rewrite bool_decide_true by done. by apply run_ret.
Qed.

(** The key of a request, after it has been claimed. *)
Definition claimed_row (id : UUID) (request_hash : string) : IdempotencyKeyModel :=
  {| ik_id := id; ik_request_hash := request_hash; ik_status := IN_PROGRESS;
     ik_response_status_code := None; ik_response_body := None |}.

Lemma alone_claim key hash s Q :
  varchar 255 key = true -> idempotency_keys (cur s) !! (endpoint, key) = None ->
  (forall id, Q (wrote s [PutKey endpoint key (claimed_row id hash)])
     (Ok {| io_kind := STARTED; io_response_status_code := None; io_response_body := None |})) ->
  varchar 64 hash = true ->
  alone (begin_attempt key endpoint hash) s Q.
Proof.
  intros Hkey Hnone HQ Hhash. apply run_bind, run_uuid4. intros id Hfresh.
  destruct Hfresh as (_ & _ & _ & _ & _ & _ & Hid). fold (cur s) in Hid.
  apply run_bind. apply (alone_sql _ _ _ true [PutKey endpoint key (claimed_row id hash)]).
  - fold (cur s). unfold claim_key, no_key. rewrite Hkey, Hhash, Hnone. cbn [require].
    rewrite !result_bind_ok. change (varchar 100 endpoint) with true. cbn [require].
    rewrite !result_bind_ok, bool_decide_true by done. by rewrite bool_decide_true.
  - cbv iota. apply run_ret, HQ.
Qed.

(** A positive amount below half a cent, which the column rounds to 0.00. *)
Definition below_half_a_cent (amount : Decimal) : Prop :=
  exists c e, amount = Fin false c e /\ (0 < c)%N /\ 200 * Z.of_N c < 10 ^ (- e).

(** A request that passes every check of the code, and whose payment row PostgreSQL refuses:
    the creditor does not exist, or nothing is left of the amount. *)
Inductive doomed (db : DB) (d c : UUID) (amount : Decimal) (ccy : string) (e2e : option string)
    : string -> Prop :=
| doomed_creditor :
    acceptable d c amount ccy e2e -> accounts db !! c = None ->
    doomed db d c amount ccy e2e "payments_creditor_account_id_fkey"
| doomed_amount :
    below_half_a_cent amount -> d <> c -> varchar 3 ccy = true -> varchar_opt 35 e2e = true ->
    doomed db d c amount ccy e2e "ck_payments_amount_positive".

Lemma doomed_valid db d c amount ccy e2e constraint :
  doomed db d c amount ccy e2e constraint -> _validate_new_payment amount d c = Ok tt.
Proof.
  intros [Hacc _|(coeff & e & -> & Hpos & _) Hd _ _]; [by eapply acceptable_valid|].
  unfold _validate_new_payment, dec_le0. destruct (N.eqb_spec coeff 0); [lia|].
  cbn [map_err orb]. by rewrite result_bind_ok, bool_decide_false.
Qed.

Lemma alone_doomed_insert d a c amount ccy e2e constraint s (Q : Sess -> result Exn Payment -> Prop) :
  doomed (cur s) d c amount ccy e2e constraint -> accounts (cur s) !! d = Some a ->
  Q s (Err (IntegrityError constraint)) -> alone (repo_create_payment d c amount ccy e2e) s Q.
Proof.
  intros Hdoom Ha HQ. apply run_bind, run_uuid4. intros id Hfresh.
  destruct Hfresh as (_ & _ & Hid & _). fold (cur s) in Hid. apply run_bind.
  eapply alone_sql_error; [|exact HQ]. fold (cur s). unfold insert_payment, payment_row, numeric, no_key, fk.
  cbn [pay_amount pay_currency pay_end_to_end_id pay_id pay_debtor_account_id pay_creditor_account_id from_option].
  destruct Hdoom as [[Hamount _ Hccy He2e] Hc|(coeff & e & -> & _ & Htiny) _ Hccy He2e].
  - rewrite pg_numeric_exact by by apply pos_column_column. cbn [or_raise]. rewrite result_bind_ok.
    rewrite Hccy, He2e, pos_column_gt0 by done. cbn [require]. rewrite !result_bind_ok.
    rewrite Ha, Hc, (bool_decide_true _ Hid), (bool_decide_true (is_Some (Some a))) by eauto.
    cbn [require]. rewrite !result_bind_ok. by rewrite (bool_decide_false (is_Some None)) by (by intros []).
  - rewrite pg_numeric_underflow by done. cbn [or_raise]. rewrite result_bind_ok, Hccy, He2e.
    cbn [require]. by rewrite !result_bind_ok.
Qed.

(** The claim is committed, then the insertion fails. *)
Lemma alone_doomed_request key body d a c amount ccy e2e constraint s :
  doomed (s_db s) d c amount ccy e2e constraint -> varchar 255 key = true ->
  (forall b, varchar 64 (sha256_hex b) = true) ->
  accounts (s_db s) !! d = Some a -> acc_currency a = ccy ->
  idempotency_keys (s_db s) !! (endpoint, key) = None ->
  alone (initiate_payment_idempotent key body d c amount ccy e2e) s (fun s' r =>
    r = Err (IntegrityError constraint) /\
    in_progress (s_db s') key /\ payments (s_db s') = payments (s_db s)).
Proof.
  intros Hdoom Hkey Hsha Ha Hccy Hnone.
  unfold initiate_payment_idempotent. rewrite (doomed_valid _ _ _ _ _ _ _ Hdoom).
  apply run_bind, run_ret. cbv zeta. fold endpoint. apply run_bind, run_with_uow. intros t.
  apply run_bind, (alone_assert_currency d a); [done|done|]. cbv beta iota.
  apply run_bind, alone_claim; [done|done| |apply Hsha]. intros id. cbv beta iota.
  apply run_bind, alone_commit, run_ret. cbv beta iota. cbn [io_kind].
  set (w := PutKey endpoint key _). set (s1 := with_sql _ _ []).
  assert (Hs1 : s_db s1 = apply_write (s_db s) w) by done.
  apply run_bind, run_with_uow. intros t2. set (s2 := with_open s1 t2).
  assert (Hacc1 : accounts (cur s2) = accounts (s_db s)).
  { change (cur s2) with (s_db s1). by rewrite Hs1, accounts_write. }
  apply run_bind, run_bind, (alone_assert_currency d a); [by rewrite Hacc1|done|]. cbv beta iota.
  apply run_bind, (alone_doomed_insert d a c _ _ _ constraint); [|by rewrite Hacc1|].
  { destruct Hdoom as [? Hc|]; [apply doomed_creditor; [done|by rewrite Hacc1]|by apply doomed_amount]. }
  split; [done|]. cbn [with_sql s_db]. change (s_db s2) with (s_db s1). rewrite Hs1. split.
  - eexists. split; [rewrite keys_write; apply lookup_insert_eq|done].
  - by rewrite payments_write.
Qed.

(** A key in progress refuses whatever is valid. *)
Lemma alone_key_in_progress key body d a c amount ccy e2e s :
  in_progress (s_db s) key -> varchar 255 key = true ->
  (forall b, varchar 64 (sha256_hex b) = true) ->
  accounts (s_db s) !! d = Some a -> acc_currency a = ccy -> _validate_new_payment amount d c = Ok tt ->
  alone (initiate_payment_idempotent key body d c amount ccy e2e) s (fun s' r =>
    r = Err (IdempotencyInProgressError key endpoint) /\ s_db s' = s_db s /\
    s_commits s' = s_commits s).
Proof.
  intros (row & Hrow & Hst) Hkey Hsha Ha Hccy Hvalid.
  unfold initiate_payment_idempotent. rewrite Hvalid.
  apply run_bind, run_ret. cbv zeta. fold endpoint. apply run_bind, run_with_uow. intros t.
  apply run_bind, (alone_assert_currency d a); [done|done|]. cbv beta iota.
  apply run_bind, run_bind, run_uuid4. intros id _. apply run_bind.
  apply (alone_sql _ _ _ false []).
  { fold (cur (with_open s t)). change (cur (with_open s t)) with (s_db s).
    unfold claim_key, no_key. unfold hash_request_body. rewrite Hkey, Hsha. change (varchar 100 endpoint) with true.
    cbn [require]. rewrite !result_bind_ok. by rewrite bool_decide_false by (rewrite Hrow; done). }
  cbv iota. apply run_bind, alone_select. fold (cur (wrote (with_open s t) [])).
  rewrite cur_wrote. change (view (cur (with_open s t)) []) with (s_db s). rewrite Hrow.
  cbn [or_raise]. rewrite decide_True by done. apply run_ret. cbv beta iota.
  apply run_bind, alone_commit, run_ret. cbv beta iota. cbn [io_kind]. apply run_raise.
  split; [done|]. split; [done|]. simpl. by rewrite app_nil_r.
Qed.
End orphans.
