(* ===== verification/Initiating.v ===== *)
(** Initiating: requests that create a payment, alone and to their end, and their replays
    (initiate_payment and initiate_payment_idempotent of app/domain/payments/services.py). *)
From S2P Require Import Prelude Decimals PyText PyVal JsonFacts Ledger Fx PaymentSM Recon Webhooks.
From S2P Require Import Store Session Repos SupportRepos LedgerService PaymentService Atomicity.
From S2P Require Import Invariant Commits Transactions Alone AloneTransitions Orphans.

#[local] Open Scope Z_scope.

Section initiating.
Context `{Platform}.

(** A request that can be carried out: its fields are acceptable, both accounts exist, and
    the debtor's is of the payment's currency. *)
Record payable (db : DB) (debtor creditor : UUID) (amount : Decimal) (currency : string)
    (end_to_end_id : option string) : Prop := {
     py_acceptable : acceptable debtor creditor amount currency end_to_end_id;
     py_debtor : exists a, accounts db !! debtor = Some a /\ acc_currency a = currency;
     py_creditor : is_Some (accounts db !! creditor);
     py_subscriptions : forall i x, webhook_subscriptions db !! i = Some x -> sub_id x = i;
   }.

(** The rows of a new payment: the payment, its first history row, and one delivery for
    every active subscription that wants the event. *)
Definition new_payment_writes (db : DB) (p : Payment) (now : Z) (log : list Write) : Prop :=
  exists ds,
    Forall2 (enqueued (pay_id p) "payment.initiated" (_payment_response_dict p) now)
      (filter (fun sub => wants "payment.initiated" sub = true) (active_subscriptions db)) ds /\
    log = PutPayment p ::
          AddHistory {| psh_payment_id := pay_id p; psh_from_status := None; psh_to_status := INITIATED;
                        psh_transitioned_at := now; psh_reason := None |} :: (PutDelivery <$> ds).

(** What the columns of a payment row make of a request: the amount that is stored, or the
    error of the INSERT. *)
Definition columns (amount : Decimal) (ccy : string) (e2e : option string) : result Exn Decimal :=
  match pg_numeric_18_2 amount with
  | None => Err (DataError "amount")
  | Some stored =>
      if negb (varchar 3 ccy) then Err (DataError "currency")
      else if negb (varchar_opt 35 e2e) then Err (DataError "end_to_end_id")
      else if sql_gt0 stored then Ok stored
      else Err (IntegrityError "ck_payments_amount_positive")
  end.

Lemma acceptable_columns d c amount ccy e2e : acceptable d c amount ccy e2e -> columns amount ccy e2e = Ok amount.
Proof.
  intros [Hamount _ Hccy He2e]. unfold columns. rewrite pg_numeric_exact by by apply pos_column_column.
  by rewrite Hccy, He2e, pos_column_gt0.
Qed.

Lemma alone_repo_create d c amount ccy e2e s Q :
  is_Some (accounts (cur s) !! d) -> is_Some (accounts (cur s) !! c) ->
  (forall e, columns amount ccy e2e = Err e -> Q s (Err e)) ->
  (forall id x, columns amount ccy e2e = Ok x -> payments (cur s) !! id = None ->
     Q (wrote s [PutPayment (payment_row id d c x ccy e2e)]) (Ok (payment_row id d c x ccy e2e))) ->
  alone (repo_create_payment d c amount ccy e2e) s Q.
Proof.
  intros Hd Hc He HQ. apply run_bind, run_uuid4. intros id Hfresh.
  destruct Hfresh as (_ & _ & Hid & _). fold (cur s) in Hid. apply run_bind.
  assert (Hins : insert_payment (payment_row id d c amount ccy e2e) (s_now s) (cur s) =
    (x ← columns amount ccy e2e; Ok (tt, [PutPayment (payment_row id d c x ccy e2e)]))).
  { unfold insert_payment, columns, payment_row, numeric, no_key, fk.
    cbn [pay_amount pay_currency pay_end_to_end_id pay_id pay_debtor_account_id pay_creditor_account_id
      pay_status pay_version pay_fx_rate_id pay_creditor_amount from_option].
    destruct (pg_numeric_18_2 amount) as [x|]; [|done]. cbn [or_raise]. rewrite result_bind_ok.
    destruct (varchar 3 ccy); [|done]. cbn [require negb]. rewrite result_bind_ok.
    destruct (varchar_opt 35 e2e); [|done]. cbn [require negb]. rewrite result_bind_ok.
    destruct (sql_gt0 x); [|done]. cbn [require]. rewrite !result_bind_ok.
    by rewrite (bool_decide_true _ Hid), (bool_decide_true _ Hd), (bool_decide_true _ Hc). }
  destruct (columns amount ccy e2e) as [x|e] eqn:Hcol.
  - set (row := payment_row id d c x ccy e2e). rewrite result_bind_ok in Hins.
    apply (alone_sql _ _ _ tt [PutPayment row]); [exact Hins|].
    cbv beta iota. apply alone_select. fold (cur (wrote s [PutPayment row])). rewrite cur_wrote.
    change (view (cur s) [PutPayment row]) with (apply_write (cur s) (PutPayment row)).
    rewrite payments_write. change (pay_id row) with id. rewrite lookup_insert_eq. by apply HQ.
  - eapply alone_sql_error; [exact Hins|]. by apply He.
Qed.

(** A request between two accounts that exist, in the debtor's currency. *)
Record resolved (db : DB) (debtor creditor : UUID) (currency : string) : Prop := {
     rs_debtor : exists a, accounts db !! debtor = Some a /\ acc_currency a = currency;
     rs_creditor : is_Some (accounts db !! creditor);
     rs_subscriptions : forall i x, webhook_subscriptions db !! i = Some x -> sub_id x = i;
   }.

Lemma payable_resolved db d c amount ccy e2e : payable db d c amount ccy e2e -> resolved db d c ccy.
Proof. by intros [_ ? ? ?]. Qed.
Lemma payable_columns db d c amount ccy e2e :
  payable db d c amount ccy e2e -> columns amount ccy e2e = Ok amount.
Proof. intros [Hacc _ _ _]. by eapply acceptable_columns. Qed.

Lemma alone_create_resolved d c amount ccy e2e s Q :
  resolved (cur s) d c ccy ->
  (forall e, columns amount ccy e2e = Err e -> Q s (Err e)) ->
  (forall id x ws, columns amount ccy e2e = Ok x -> payments (cur s) !! id = None ->
     new_payment_writes (cur s) (payment_row id d c x ccy e2e) (s_now s) ws ->
     Q (wrote s ws) (Ok (payment_row id d c x ccy e2e))) ->
  alone (_create_payment_within d c amount ccy e2e) s Q.
Proof.
  intros [(a & Ha & Hccy) Hc Hsub] He HQ. apply run_bind, (alone_assert_currency d a); [done|done|].
  cbv beta iota. apply run_bind, alone_repo_create; [by eexists|done|done|]. intros id x Hcol Hid.
  set (p := payment_row id d c x ccy e2e). cbv beta iota. set (s1 := wrote s [PutPayment p]).
  assert (Hc1 : cur s1 = apply_write (cur s) (PutPayment p)) by (unfold s1; by rewrite cur_wrote).
  apply run_bind, alone_record_status_transition; [done| |].
  { rewrite Hc1, payments_write. exists p. apply lookup_insert_eq. }
  cbv beta iota. set (h := {| psh_payment_id := pay_id p |}). set (s2 := wrote s1 [AddHistory h]).
  assert (Hc2 : cur s2 = apply_write (cur s1) (AddHistory h)) by (unfold s2; by rewrite cur_wrote).
  assert (Hsubs : webhook_subscriptions (cur s2) = webhook_subscriptions (cur s)).
  { by rewrite Hc2, subscriptions_write, Hc1, subscriptions_write. }
  apply run_bind, alone_enqueue_event; [done| |by rewrite Hsubs|].
  { rewrite Hc2, payments_write, Hc1, payments_write. exists p. apply lookup_insert_eq. }
  intros ds Hds. cbv beta iota. apply run_ret. unfold s2, s1. rewrite !wrote_app.
  apply (HQ id x); [done|done|]. exists ds. split; [|done].
  by rewrite (active_subscriptions_same (cur s) (cur s2)) in Hds.
Qed.

Lemma alone_create_within d c amount ccy e2e s Q :
  payable (cur s) d c amount ccy e2e ->
  (forall id ws, payments (cur s) !! id = None ->
     new_payment_writes (cur s) (payment_row id d c amount ccy e2e) (s_now s) ws ->
     Q (wrote s ws) (Ok (payment_row id d c amount ccy e2e))) ->
  alone (_create_payment_within d c amount ccy e2e) s Q.
Proof.
  intros Hpay HQ. pose proof (payable_columns _ _ _ _ _ _ Hpay) as Hcol.
  apply alone_create_resolved; [by eapply payable_resolved|congruence|].
  intros id x ws Hx. assert (x = amount) as -> by congruence. auto.
Qed.

(** * Without a key *)

(** One commit of exactly the rows of a new payment. *)
Definition created_once (s : Sess) (p : Payment) (s' : Sess) : Prop :=
  payments (s_db s) !! pay_id p = None /\
  exists now log, new_payment_writes (s_db s) p now log /\
    s_commits s' = s_commits s ++ [log] /\ s_db s' = view (s_db s) log.

(** Nothing committed, nothing changed. *)
Definition untouched (s s' : Sess) : Prop := s_db s' = s_db s /\ s_commits s' = s_commits s.

Lemma alone_initiate_resolved d c amount ccy e2e s Q :
  _validate_new_payment amount d c = Ok tt -> resolved (s_db s) d c ccy ->
  (forall e s', columns amount ccy e2e = Err e -> untouched s s' -> Q s' (Err e)) ->
  (forall id x s', columns amount ccy e2e = Ok x -> created_once s (payment_row id d c x ccy e2e) s' ->
     Q s' (Ok (payment_row id d c x ccy e2e))) ->
  alone (initiate_payment d c amount ccy e2e) s Q.
Proof.
  intros Hvalid Hres He HQ. unfold initiate_payment. rewrite Hvalid.
  apply run_bind, run_ret, run_with_uow. intros t. apply run_bind.
  apply alone_create_resolved; [exact Hres| |].
  - intros e Hcol. cbv beta iota. by apply He.
  - intros id x ws Hcol Hid Hws. cbv beta iota.
    apply run_bind, alone_commit, run_ret. apply (HQ id x); [done|]. split; [exact Hid|].
    exists t, ws. split; [exact Hws|]. destruct Hws as (ds & _ & ->). by split.
Qed.

Lemma alone_initiate d c amount ccy e2e s Q :
  payable (s_db s) d c amount ccy e2e ->
  (forall id s', created_once s (payment_row id d c amount ccy e2e) s' ->
     Q s' (Ok (payment_row id d c amount ccy e2e))) ->
  alone (initiate_payment d c amount ccy e2e) s Q.
Proof.
  intros Hpay HQ. pose proof (payable_columns _ _ _ _ _ _ Hpay) as Hcol.
  apply alone_initiate_resolved.
  - by apply (acceptable_valid _ _ _ _ _ (py_acceptable _ _ _ _ _ _ Hpay)).
  - by eapply payable_resolved.
  - congruence.
  - intros id x s' Hx. assert (x = amount) as -> by congruence. auto.
Qed.

(** * With a key *)

Lemma alone_complete key code body r s Q :
  idempotency_keys (cur s) !! (endpoint, key) = Some r ->
  Q (wrote s [PutKey endpoint key (complete_row r code body)]) (Ok tt) ->
  alone (complete_attempt key endpoint code body) s Q.
Proof. intros Hr HQ. eapply alone_sql; [|exact HQ]. fold (cur s). by rewrite Hr. Qed.

(** The key's row once the request that claimed it has succeeded. *)
Definition completed_key (hash : string) (p : Payment) (r : IdempotencyKeyModel) : Prop :=
  ik_request_hash r = hash /\ ik_status r = COMPLETED /\ ik_response_status_code r = Some 201 /\
  ik_response_body r = Some (_json_serializer (_payment_response_dict p)).

Lemma keys_new_payment db p now log :
  new_payment_writes db p now log ->
  forall db', idempotency_keys (view db' log) = idempotency_keys db' /\
    accounts (view db' log) = accounts db'.
Proof.
  intros (ds & _ & ->) db'. rewrite !view_cons.
  assert (Hds : forall d2, idempotency_keys (view d2 (PutDelivery <$> ds)) = idempotency_keys d2 /\
    accounts (view d2 (PutDelivery <$> ds)) = accounts d2).
  { clear. induction ds as [|x ds IH]; intros d2; [done|]. rewrite fmap_cons, view_cons.
    destruct (IH (apply_write d2 (PutDelivery x))) as [-> ->]. by rewrite keys_write, accounts_write. }
  destruct (Hds (apply_write (apply_write db' (PutPayment p)) (AddHistory
    {| psh_payment_id := pay_id p; psh_from_status := None; psh_to_status := INITIATED;
       psh_transitioned_at := now; psh_reason := None |}))) as [-> ->].
  by rewrite !keys_write, !accounts_write.
Qed.

(** ** The request that claims the key *)

(** What it leaves: a new payment, and its key completed with the response. *)
Definition created_under_key (key hash : string) (d c : UUID) (amount : Decimal) (ccy : string)
    (e2e : option string) (s s' : Sess) (r : result Exn (Z * pydict)) : Prop :=
  exists id row, let p := payment_row id d c amount ccy e2e in
    r = Ok (201, _payment_response_dict p) /\ payments (s_db s) !! id = None /\
    payments (s_db s') = <[id := p]> (payments (s_db s)) /\
    idempotency_keys (s_db s') !! (endpoint, key) = Some row /\ completed_key hash p row.

Lemma payments_new_payment db p now log db' :
  new_payment_writes db p now log -> payments (view db' log) = <[pay_id p := p]> (payments db').
Proof.
  intros (ds & _ & ->). rewrite view_cons, view_cons.
  assert (Hds : forall d2, payments (view d2 (PutDelivery <$> ds)) = payments d2).
  { clear. induction ds as [|x ds IH]; intros d2; [done|]. rewrite fmap_cons, view_cons, IH.
    by rewrite payments_write. }
  by rewrite Hds, !payments_write.
Qed.

Lemma alone_first_request key body d c amount ccy e2e s :
  payable (s_db s) d c amount ccy e2e -> varchar 255 key = true ->
  varchar 64 (hash_request_body body) = true ->
  idempotency_keys (s_db s) !! (endpoint, key) = None ->
  alone (initiate_payment_idempotent key body d c amount ccy e2e) s
    (created_under_key key (hash_request_body body) d c amount ccy e2e s).
Proof.
  intros Hpay Hkey Hsha Hnone. pose proof (py_acceptable _ _ _ _ _ _ Hpay) as Hacc.
  unfold initiate_payment_idempotent. rewrite (acceptable_valid _ _ _ _ _ Hacc).
  apply run_bind, run_ret. cbv zeta. fold endpoint. apply run_bind, run_with_uow. intros t.
  destruct (py_debtor _ _ _ _ _ _ Hpay) as (a & Ha & Hccy).
  apply run_bind, (alone_assert_currency d a); [done|done|]. cbv beta iota.
  apply run_bind, alone_claim; [done|done| |done]. intros kid. cbv beta iota.
  apply run_bind, alone_commit, run_ret. cbv beta iota. cbn [io_kind].
  set (k := claimed_row kid _). set (w := PutKey endpoint key k). set (s1 := with_sql _ _ []).
  assert (Hs1 : s_db s1 = apply_write (s_db s) w) by done.
  apply run_bind, run_with_uow. intros t2. set (s2 := with_open s1 t2).
  assert (Hcur : cur s2 = apply_write (s_db s) w) by done.
  apply run_bind, alone_create_within.
  { destruct Hpay as [? ? ? ?]. rewrite Hcur. split; rewrite ?accounts_write, ?subscriptions_write; done. }
  intros id ws Hid Hws. cbv beta iota zeta. rewrite Hcur in Hws.
  destruct (keys_new_payment _ _ _ _ Hws (cur s2)) as [Hk _].
  assert (Hrow : idempotency_keys (cur (wrote s2 ws)) !! (endpoint, key) = Some k).
  { rewrite cur_wrote, Hk, Hcur, keys_write. apply lookup_insert_eq. }
  apply run_bind, (alone_complete key 201 _ k); [done|]. cbv beta iota.
  apply run_bind, alone_commit, run_ret. cbv beta iota. apply run_ret.
  exists id, (complete_row k 201 (_payment_response_dict (payment_row id d c amount ccy e2e))).
  assert (Hid' : payments (s_db s) !! id = None) by (by rewrite Hcur, payments_write in Hid).
  set (p := payment_row id d c amount ccy e2e) in *. cbv zeta. split; [done|]. split; [exact Hid'|].
  rewrite wrote_app. set (fin := PutKey endpoint key _).
  cbn [with_sql s_db]. change (s_db (with_commit (wrote s2 (ws ++ [fin])) (s_db (wrote s2 (ws ++ [fin])))))
    with (view (cur s2) (ws ++ [fin])).
  rewrite view_snoc, payments_write, keys_write. split; [|split; [apply lookup_insert_eq|done]].
  rewrite (payments_new_payment _ _ _ _ (cur s2) Hws), Hcur. by rewrite payments_write.
Qed.

(** ** Requests after it *)

Lemma alone_replayed_request key body d c amount ccy e2e s p row hash :
  _validate_new_payment amount d c = Ok tt -> varchar 255 key = true ->
  varchar 64 (hash_request_body body) = true ->
  idempotency_keys (s_db s) !! (endpoint, key) = Some row -> completed_key hash p row ->
  (exists a, accounts (s_db s) !! d = Some a /\ acc_currency a = ccy) ->
  alone (initiate_payment_idempotent key body d c amount ccy e2e) s (fun s' r =>
    s_db s' = s_db s /\ s_commits s' = s_commits s /\
    r = if decide (hash_request_body body = hash)
        then Ok (201, _json_serializer (_payment_response_dict p))
        else Err (IdempotencyKeyReusedError key endpoint)).
Proof.
  intros Hvalid Hkey Hsha Hrow (Hhash & Hst & Hcode & Hbody) (a & Ha & Hccy).
  unfold initiate_payment_idempotent. rewrite Hvalid.
  apply run_bind, run_ret. cbv zeta. fold endpoint. apply run_bind, run_with_uow. intros t.
  apply run_bind, (alone_assert_currency d a); [done|done|]. cbv beta iota.
  apply run_bind, run_bind, run_uuid4. intros id _. apply run_bind.
  apply (alone_sql _ _ _ false []).
  { fold (cur (with_open s t)). change (cur (with_open s t)) with (s_db s).
    unfold claim_key, no_key. rewrite Hkey, Hsha.
    change (varchar 100 endpoint) with true. cbn [require]. rewrite !result_bind_ok.
    by rewrite bool_decide_false by (rewrite Hrow; done). }
  cbv iota. apply run_bind, alone_select. fold (cur (wrote (with_open s t) [])).
  rewrite cur_wrote. change (view (cur (with_open s t)) []) with (s_db s). rewrite Hrow.
  cbn [or_raise]. rewrite decide_False by (by rewrite Hst). rewrite Hhash, Hcode, Hbody.
  destruct (decide (hash_request_body body = hash)) as [Heq|Hne].
  - rewrite bool_decide_true by done. cbn [negb]. apply run_ret. cbv beta iota.
    apply run_bind, alone_commit, run_ret. cbv beta iota. cbn [io_kind io_response_status_code io_response_body].
    apply run_bind, run_ret, run_bind, run_ret, run_ret. split; [done|]. split; [|done].
    simpl. by rewrite app_nil_r.
  - rewrite bool_decide_false by (by intros Heq; destruct Hne). cbn [negb]. apply run_ret. cbv beta iota.
    apply run_bind, alone_commit, run_ret. cbv beta iota. cbn [io_kind]. apply run_raise.
    split; [done|]. split; [|done]. simpl. by rewrite app_nil_r.
Qed.

(** ** The request hash *)

(** The hash tells the canonical texts of the two objects apart. *)
Definition no_collision (d1 d2 : pydict) : Prop :=
  forall t1 t2, canonical d1 t1 -> canonical d2 t2 ->
    sha256_hex (N_of_ascii <$> list_ascii_of_string t1) =
    sha256_hex (N_of_ascii <$> list_ascii_of_string t2) -> t1 = t2.

Lemma hash_request_body_same body1 body2 :
  NoDup body1.*1 -> NoDup body2.*1 -> same_json (object body1) (object body2) ->
  hash_request_body body1 = hash_request_body body2.
Proof.
  intros H1 H2 Hsame. unfold hash_request_body. do 3 f_equal. by apply json_dumps_sorted_injective.
Qed.

Lemma hash_request_body_differs body1 body2 :
  NoDup body1.*1 -> NoDup body2.*1 -> no_collision (object body1) (object body2) ->
  hash_request_body body1 = hash_request_body body2 -> same_json (object body1) (object body2).
Proof.
  intros H1 H2 Hcol Heq. apply json_dumps_sorted_injective; [done..|].
  apply Hcol; [by apply json_dumps_canonical..|done].
Qed.

Lemma no_collision_intro body1 body2 :
  NoDup body1.*1 -> NoDup body2.*1 -> hash_request_body body1 <> hash_request_body body2 ->
  no_collision (object body1) (object body2).
Proof.
  intros H1 H2 Hne t1 t2 Ht1 Ht2 Heq. destruct Hne. unfold hash_request_body.
  assert (Hcanon : forall body t, NoDup body.*1 -> canonical (object body) t -> t = json_dumps_sorted body).
  { intros body t Hnd Ht. by apply (canonical_injective (object body) (object body)); [|apply json_dumps_canonical|]. }
  by rewrite <- (Hcanon body1 t1), <- (Hcanon body2 t2).
Qed.

(** C29. The request hash is that of the content.  Two bodies that hold the same keys with
    values JSON renders the same have the same hash, in whatever order their keys were
    inserted; and two bodies with the same hash hold the same keys with such values, as long
    as SHA-256 does not collide on their canonical texts. *)
Theorem request_hash_identifies_body body1 body2 :
  NoDup body1.*1 -> NoDup body2.*1 ->
  (same_json (object body1) (object body2) -> hash_request_body body1 = hash_request_body body2) /\
  (no_collision (object body1) (object body2) ->
   hash_request_body body1 = hash_request_body body2 -> same_json (object body1) (object body2)).
Proof.
  intros H1 H2. split; [by apply hash_request_body_same|by apply hash_request_body_differs].
Qed.

(** C27. Exactly-once creation, end to end.  Run alone, a payable request with a new key
    returns 201 with the fields of one new payment, the only one added, and leaves its key
    completed.  And in every later state in which that key's row is still as it was left,
    every valid request that presents the key creates nothing and commits nothing: one whose
    body holds the same, in any order, gets 201 with the JSON form of the first response; one
    whose body holds anything else, another amount for instance, is refused as a reuse of the
    key, unless SHA-256 collides on the canonical texts of the two bodies. *)
Theorem idempotent_request_replays key body d c amount ccy e2e s :
  payable (s_db s) d c amount ccy e2e -> varchar 255 key = true ->
  (forall b, varchar 64 (sha256_hex b) = true) -> NoDup body.*1 ->
  idempotency_keys (s_db s) !! (endpoint, key) = None ->
  alone (initiate_payment_idempotent key body d c amount ccy e2e) s
    (created_under_key key (hash_request_body body) d c amount ccy e2e s) /\
  forall s2 p row body2 d2 c2 amount2 ccy2 e2e2,
    idempotency_keys (s_db s2) !! (endpoint, key) = Some row ->
    completed_key (hash_request_body body) p row -> NoDup body2.*1 ->
    _validate_new_payment amount2 d2 c2 = Ok tt ->
    (exists a, accounts (s_db s2) !! d2 = Some a /\ acc_currency a = ccy2) ->
    alone (initiate_payment_idempotent key body2 d2 c2 amount2 ccy2 e2e2) s2 (fun s' r =>
      s_db s' = s_db s2 /\ s_commits s' = s_commits s2 /\
      (same_json (object body) (object body2) -> r = Ok (201, _json_serializer (_payment_response_dict p))) /\
      (~ same_json (object body) (object body2) -> no_collision (object body) (object body2) ->
       r = Err (IdempotencyKeyReusedError key endpoint))).
Proof.
  intros Hpay Hkey Hsha Hnd Hnone. split; [apply alone_first_request; auto; apply Hsha|].
  intros s2 p row body2 d2 c2 amount2 ccy2 e2e2 Hrow Hdone Hnd2 Hvalid Ha.
  eapply run_mono; [eapply alone_replayed_request; [done|done|apply Hsha|done|done|done]|].
  intros s' r (Hdb & Hcommits & ->). split_and!; [done|done| |].
  - intros Hsame. by rewrite decide_True by (by apply hash_request_body_same).
  - intros Hne Hcol. rewrite decide_False; [done|]. intros Heq. by apply Hne, hash_request_body_differs.
Qed.
End initiating.
