(* ===== verification/ReconService.v ===== *)
(** ReconService: app/domain/reconciliation/services.py, and the settlement file as the exceptions
    its loader raises. *)
From S2P Require Import Prelude Decimals PyText PyVal Ledger Fx PaymentSM Recon Csv Webhooks Store.
From S2P Require Import Session Repos SupportRepos.

#[local] Open Scope Z_scope.

(** What a failure of the loader is: a SettlementCsvError, or an exception that is none. *)
Definition csv_exn (failure : CsvFailure) : Exn :=
  match failure with
  | MissingColumns | BadRow _ | NoDataRows => SettlementCsvError failure
  | RowKeyError => KeyError
  | RowAttributeError => AttributeError
  | ReaderError => CsvError
  end.

Section service.
Context `{Platform}.

Definition run_reconciliation (batch_id : UUID) (settlement_records : list SettlementRecord)
  (window_start window_end : Z) : Prog (UUID * ReconciliationResult) :=
  with_uow
    (load_settlement_records batch_id settlement_records ;;
     ledger_payments ← list_settled_payments window_start window_end;
     result ← of_result (map_err EMatch (match_refs ledger_payments settlement_records));
     run_id ← record_run batch_id result;
     commit ;;
     Ret (run_id, result)).
End service.
