(* ===== verification/Reconciling.v ===== *)
(** Reconciling: a reconciliation run, alone and to its end
    (run_reconciliation of app/domain/reconciliation/services.py). *)
From S2P Require Import Prelude Decimals PyText PyVal Ledger Fx PaymentSM Recon Webhooks.
From S2P Require Import Store Columns Session Repos SupportRepos LedgerService PaymentService.
From S2P Require Import ReconService.
From S2P Require Import Atomicity Invariant Commits Transactions Alone.

#[local] Open Scope Z_scope.

Section reconciling.
Context `{Platform}.

(** The rows of a run: the file's records, the run and its breaks. *)
Definition run_writes (rows : list SettlementFileRecordModel) (batch_id run_id : UUID)
    (result : ReconciliationResult) (breaks : list ReconciliationBreakModel) : list Write :=
  (AddFileRecord <$> rows) ++
  AddRun {| rrm_id := run_id; rrm_batch_id := batch_id; rrm_matched_count := rr_matched_count result;
            rrm_break_count := break_count result; rrm_status := "completed" |} ::
  (AddBreak <$> breaks).

(** ** What a run should find *)

(** What a payment is known by to the counterparty: its end-to-end reference, or its own
    identifier where it has none. *)
Definition reference_of (p : Payment) : string :=
  match pay_end_to_end_id p with
  | Some ref => if decide (ref = ""%string) then uuid_str (pay_id p) else ref
  | None => uuid_str (pay_id p)
  end.

(** The payments that settled from [window_start] on and before [window_end], each once. *)
Definition settled_between (db : DB) (window_start window_end : Z) (found : list LedgerSettledPayment) : Prop :=
  NoDup (lsp_payment_id <$> found) /\
  forall x, x ∈ found <->
    exists p h, payments db !! lsp_payment_id x = Some p /\
      h ∈ payment_status_history db /\ psh_payment_id h = lsp_payment_id x /\
      psh_to_status h = SETTLED /\ window_start <= psh_transitioned_at h < window_end /\
      lsp_external_ref x = reference_of p /\ lsp_amount x = pay_amount p /\ lsp_currency x = pay_currency p.

(** A line of the file that the columns take as it is. *)
Record loadable (r : SettlementRecord) : Prop := {
  ld_ref : varchar 100 (sr_external_ref r) = true;
  ld_amount : column_amount (sr_amount r);
  ld_currency : varchar 3 (sr_currency r) = true;
  ld_line : text (sr_raw_line r) = true;
}.

(** Every line is such, the rows of the payments hold what their columns take, and the counts
    of the run fit theirs. *)
Record reconcilable (db : DB) (records : list SettlementRecord) : Prop := {
  rc_records : Forall loadable records;
  rc_payments : map_Forall (fun _ p => varchar_opt 35 (pay_end_to_end_id p) = true /\
    varchar 3 (pay_currency p) = true) (payments db);
  rc_counts : Z.of_nat (length (payment_status_history db)) + Z.of_nat (length records) <= int4_max;
}.

(** A run that was carried out: a correct report on the payments settled in the window and
    the lines of the file, stored with the whole file in one commit. *)
Definition recorded (batch_id : UUID) (records : list SettlementRecord) (window_start window_end : Z)
    (s s' : Sess) (r : result Exn (UUID * ReconciliationResult)) : Prop :=
  exists run_id result found, r = Ok (run_id, result) /\
    settled_between (s_db s) window_start window_end found /\ correct_report found records result /\
    reconciliation_runs (s_db s) !! run_id = None /\
    let writes := run_writes ((fun x => {| sfr_batch_id := batch_id; sfr_record := x |}) <$> records)
      batch_id run_id result ((fun b => {| rbm_run_id := run_id; rbm_break := b |}) <$> rr_breaks result) in
    s_commits s' = s_commits s ++ [writes] /\ s_db s' = view (s_db s) writes.

(** What any run returns and leaves behind.  On success: the report of the matcher on the
    payments settled in the window and the file's records, and one commit with the file, the
    run under its two counts, and every break of the report, as the columns store them.  On
    an exception: nothing. *)
Definition reconciled (batch_id : UUID) (records : list SettlementRecord)
    (window_start window_end : Z) (s s' : Sess) (r : result Exn (UUID * ReconciliationResult)) : Prop :=
  match r with
  | Ok (run_id, result) =>
      exists found rows breaks,
        settled_between (s_db s) window_start window_end found /\
        match_refs found records = Ok result /\
        mapM (file_record_row batch_id) records = Ok rows /\
        mapM (break_row run_id) (rr_breaks result) = Ok breaks /\
        reconciliation_runs (s_db s) !! run_id = None /\
        s_commits s' = s_commits s ++ [run_writes rows batch_id run_id result breaks] /\
        s_db s' = view (s_db s) (run_writes rows batch_id run_id result breaks)
  | Err _ => s_commits s' = s_commits s /\ s_db s' = s_db s
  end.

(** ** The query *)

Lemma settled_row_some db ws we h x :
  settled_row db ws we h = Some x <->
  psh_to_status h = SETTLED /\ ws <= psh_transitioned_at h < we /\
  exists p, payments db !! psh_payment_id h = Some p /\
    x = {| lsp_payment_id := pay_id p; lsp_external_ref := reference_of p; lsp_amount := pay_amount p;
           lsp_currency := pay_currency p |}.
Proof.
  assert (Href : forall p, match pay_end_to_end_id p with
    | None | Some EmptyString => uuid_str (pay_id p) | Some ref => ref end = reference_of p).
  { intros p. unfold reference_of. destruct (pay_end_to_end_id p) as [[|c ref]|]; [done| |done].
    by rewrite decide_False. }
  unfold settled_row. split.
  - case_decide as Hd; [|done]. destruct Hd as [Hst Hw].
    destruct (payments db !! psh_payment_id h) as [p|] eqn:Hp; [|done]. simpl. rewrite Href.
    intros [= <-]. split_and!; [done|lia|lia|]. by exists p.
  - intros (Hst & Hw & p & Hp & ->). rewrite decide_True by done. rewrite Hp. simpl. by rewrite Href.
Qed.

(** A payment settles at most once. *)
Lemma settled_rows_once db ws we l :
  (forall i p, payments db !! i = Some p -> pay_id p = i) ->
  (forall i, NoDup (psh_to_status <$> filter (fun h => psh_payment_id h = i) l)) ->
  NoDup (lsp_payment_id <$> omap (settled_row db ws we) l).
Proof.
  intros Hid. induction l as [|h l IH]; intros Hnd; [constructor|]. cbn [omap list_omap].
  assert (Hl : forall i, NoDup (psh_to_status <$> filter (fun h => psh_payment_id h = i) l)).
  { intros i. specialize (Hnd i). rewrite filter_cons in Hnd. case_decide; [|done].
    rewrite fmap_cons in Hnd. by apply NoDup_cons in Hnd as [_ ?]. }
  specialize (IH Hl). destruct (settled_row db ws we h) as [x|] eqn:Hx; [|done].
  rewrite fmap_cons. apply NoDup_cons. split; [|done].
  apply settled_row_some in Hx as (Hst & _ & p & Hp & ->). cbn [lsp_payment_id]. rewrite (Hid _ _ Hp).
  intros (y & Hy & (h' & Hh' & Hin)%list_elem_of_omap)%list_elem_of_fmap. rename Hh' into Hin', Hin into Hh'.
  apply settled_row_some in Hh' as (Hst' & _ & p' & Hp' & ->). cbn [lsp_payment_id] in Hy.
  rewrite (Hid _ _ Hp') in Hy. specialize (Hnd (psh_payment_id h)).
  rewrite filter_cons, decide_True, fmap_cons in Hnd by done. apply NoDup_cons in Hnd as [Hnd _].
  apply Hnd. rewrite Hst, <- Hst'. apply list_elem_of_fmap_2, list_elem_of_filter. by split.
Qed.

Lemma omap_length {A B} (f : A -> option B) l : (length (omap f l) <= length l)%nat.
Proof. induction l as [|x l IH]; [done|]. cbn. destruct (f x); simpl; lia. Qed.

Lemma settled_rows_between db ws we l :
  Inv db -> l ≡ₚ omap (settled_row db ws we) (payment_status_history db) -> settled_between db ws we l.
Proof.
  intros HI Hl. assert (Hid : forall i p, payments db !! i = Some p -> pay_id p = i).
  { intros i p Hp. apply (po_id _ _ _ (inv_payment _ HI _ _ Hp)). }
  split.
  - rewrite Hl. apply settled_rows_once; [done|]. intros i.
    destruct (payments db !! i) as [p|] eqn:Hp.
    + destruct (po_history _ _ _ (inv_payment _ HI _ _ Hp)) as (path & Hpath & Hlife & _).
      rewrite (Hid _ _ Hp) in Hpath. unfold history_of in Hpath. rewrite Hpath. by apply lifecycle_nodup.
    + rewrite filter_none; [constructor|]. apply Forall_forall. intros h Hh <-.
      destruct (inv_history _ HI _ Hh) as [p Hp']. by rewrite Hp in Hp'.
  - intros x. rewrite Hl, list_elem_of_omap. split.
    + intros (h & Hh & (Hst & Hw & p & Hp & ->)%settled_row_some). exists p, h. cbn.
      by rewrite (Hid _ _ Hp).
    + intros (p & h & Hp & Hh & Hpid & Hst & Hw & Hr & Ha & Hc). exists h. split; [done|].
      apply settled_row_some. split_and!; [done|lia|lia|]. exists p. rewrite Hpid. split; [done|].
      rewrite (Hid _ _ Hp). destruct x; simpl in *; by subst.
Qed.

(** ** The columns *)

Lemma mapM_exact {A B} (f : A -> result Exn B) (g : A -> B) l :
  Forall (fun x => f x = Ok (g x)) l -> mapM f l = Ok (g <$> l).
Proof. induction 1 as [|x l Hx _ IH]; [done|]. simpl. by rewrite Hx, result_bind_ok, IH, result_bind_ok. Qed.

Lemma file_rows_exact batch_id records :
  Forall loadable records ->
  mapM (file_record_row batch_id) records =
    Ok ((fun x => {| sfr_batch_id := batch_id; sfr_record := x |}) <$> records).
Proof.
  intros Hall. apply mapM_exact. eapply Forall_impl; [exact Hall|]. intros r [Href Ham Hccy Hline].
  unfold file_record_row, numeric. rewrite Href, pg_numeric_exact, Hccy, Hline by done. by destruct r.
Qed.

(** A break whose amounts and texts its columns take as they are. *)
Definition storable (b : ReconciliationBreak) : Prop :=
  varchar 100 (rb_external_ref b) = true /\ text (rb_details b) = true /\
  from_option column_amount True (rb_ledger_amount b) /\
  from_option column_amount True (rb_settlement_amount b).

Lemma numeric_opt_exact c o : from_option column_amount True o -> numeric_opt c o = Ok o.
Proof.
  destruct o as [d|]; [|done]. simpl. intros Hd. unfold numeric. by rewrite pg_numeric_exact.
Qed.

Lemma break_rows_exact run_id breaks :
  Forall storable breaks ->
  mapM (break_row run_id) breaks = Ok ((fun b => {| rbm_run_id := run_id; rbm_break := b |}) <$> breaks).
Proof.
  intros Hall. apply mapM_exact. eapply Forall_impl; [exact Hall|]. intros b (Href & Hdet & Hl & Hst).
  unfold break_row. rewrite Href, !numeric_opt_exact, Hdet by done. by destruct b.
Qed.

Lemma latest_elem {A} (ref : A -> string) xs k x : latest ref xs k = Some x -> x ∈ xs /\ ref x = k.
Proof. intros Hx%last_Some_elem_of. apply list_elem_of_filter in Hx. tauto. Qed.

(** The payments found and the breaks they give rise to fit their columns. *)
Lemma found_fits db ws we found records x :
  Inv db -> reconcilable db records -> settled_between db ws we found -> x ∈ found ->
  varchar 100 (lsp_external_ref x) = true /\ column_amount (lsp_amount x) /\
  text (lsp_currency x) = true /\ is_Some (payments db !! lsp_payment_id x).
Proof.
  intros HI Hrc [_ Hf] (p & h & Hp & _ & _ & _ & _ & Hr & Ha & Hc)%Hf.
  destruct (rc_payments _ _ Hrc _ _ Hp) as [He2e Hccy].
  rewrite Hr, Ha, Hc. split_and!; [| |by eapply varchar_text|by eexists].
  - unfold reference_of. destruct (pay_end_to_end_id p) as [ref|]; [|by apply varchar_uuid].
    case_decide; [by apply varchar_uuid|]. by eapply (varchar_mono 35); [|exact He2e].
  - apply pos_column_column, (po_amount _ _ _ (inv_payment _ HI _ _ Hp)).
Qed.

Lemma column_fin d : column_amount d -> exists s c e, d = Fin s c e.
Proof. intros [-> _]. unfold of_cents. eauto. Qed.

Lemma breaks_fit db ws we found records result :
  Inv db -> reconcilable db records -> settled_between db ws we found ->
  correct_report found records result ->
  Forall (fun b => storable b /\ fk (payments db) (rb_payment_id b) = true) (rr_breaks result).
Proof.
  intros HI Hrc Hf Hrep. apply Forall_forall. intros b Hb%(report_sound _ _ _ Hrep).
  revert Hb. generalize (rb_external_ref b) as ref. intros ref. unfold deserved.
  destruct (latest lsp_external_ref found ref) as [p|] eqn:Hp, (latest sr_external_ref records ref) as [r|] eqn:Hr;
    try apply latest_elem in Hp as [Hp <-]; try apply latest_elem in Hr as [Hr Hre];
    try (destruct (found_fits _ _ _ _ _ _ HI Hrc Hf Hp) as (Href & Ha & Hc & Hpay));
    try (destruct (proj1 (Forall_forall _ _) (rc_records _ _ Hrc) _ Hr) as [Hr1 Hr2 Hr3 _]).
  - case_decide; [done|]. intros [= <-].
    destruct (column_fin _ Ha) as (s1 & c1 & e1 & E1), (column_fin _ Hr2) as (s2 & c2 & e2 & E2).
    split; [|by apply bool_decide_eq_true]. split_and!; [done| |done|done]. cbn [rb_details].
    rewrite !text_app, E1, E2, !text_dec_str, Hc. by rewrite (varchar_text _ _ Hr3).
  - intros [= <-]. split; [|by apply bool_decide_eq_true]. split_and!; [done| |done|done]. cbn [rb_details].
    by rewrite !text_app, text_uuid.
  - intros [= <-]. split; [|done]. split_and!; [by rewrite <- Hre| |done|done]. cbn [rb_details].
    by rewrite !text_app, text_repr.
  - done.
Qed.

(** ** The run *)

(** Writes that leave the tables a run reads as they are. *)
Lemma file_writes_tables db rows :
  payments (view db (AddFileRecord <$> rows)) = payments db /\
  payment_status_history (view db (AddFileRecord <$> rows)) = payment_status_history db /\
  reconciliation_runs (view db (AddFileRecord <$> rows)) = reconciliation_runs db.
Proof.
  revert db. induction rows as [|r rows IH]; intros db; [done|]. rewrite fmap_cons, view_cons.
  destruct (IH (apply_write db (AddFileRecord r))) as (-> & -> & ->). by destruct db.
Qed.

Lemma settled_row_same db db' ws we h :
  payments db' = payments db -> settled_row db' ws we h = settled_row db ws we h.
Proof. unfold settled_row. by intros ->. Qed.

Lemma settled_rows_same db db' ws we :
  payments db' = payments db -> payment_status_history db' = payment_status_history db ->
  omap (settled_row db' ws we) (payment_status_history db') =
  omap (settled_row db ws we) (payment_status_history db).
Proof.
  intros Hp ->. induction (payment_status_history db) as [|h l IH]; [done|].
  cbn [omap list_omap]. by rewrite (settled_row_same db db'), IH.
Qed.

Lemma references_size found records :
  (size (references found records) <= length found + length records)%nat.
Proof.
  unfold references. rewrite <- (length_fmap lsp_external_ref found), <- (length_fmap sr_external_ref records).
  rewrite <- length_app. generalize ((lsp_external_ref <$> found) ++ (sr_external_ref <$> records)) as l.
  induction l as [|x l IH]; [done|]. cbn [list_to_set length]. rewrite size_union_alt, size_singleton.
  assert (Hsub : (size ((list_to_set l : gset string) ∖ {[x]}) <= size (list_to_set l : gset string))%nat).
  { apply subseteq_size. set_solver. }
  lia.
Qed.

Lemma quiet_sides db ws we found records :
  Inv db -> reconcilable db records -> settled_between db ws we found ->
  Forall (fun p => Recon.quiet (lsp_amount p)) found /\ Forall (fun x => Recon.quiet (sr_amount x)) records.
Proof.
  intros HI Hrc Hf. assert (Hq : forall d, column_amount d -> Recon.quiet d).
  { intros d Hd. destruct (column_fin _ Hd) as (? & ? & ? & ->). done. }
  split.
  - apply Forall_forall. intros x Hx. apply Hq. by eapply found_fits.
  - eapply Forall_impl; [apply (rc_records _ _ Hrc)|]. intros x Hx. apply Hq, Hx.
Qed.

(** The matcher's report on storable lines, and that it fits. *)
Lemma report_fits db ws we found records :
  Inv db -> reconcilable db records -> settled_between db ws we found ->
  (length found <= length (payment_status_history db))%nat ->
  exists result, match_refs found records = Ok result /\ correct_report found records result /\
    rr_matched_count result <= int4_max /\ break_count result <= int4_max.
Proof.
  intros HI Hrc Hf Hlen. destruct (quiet_sides _ _ _ _ _ HI Hrc Hf) as [Hq1 Hq2].
  destruct (match_refs_correct found records Hq1 Hq2) as (result & Hm & Hrep & Hcount).
  exists result. split_and!; [done|done|..]; pose proof (references_size found records);
    pose proof (rc_counts _ _ Hrc); rewrite (report_matched _ _ _ Hrep) in *; unfold break_count in *; lia.
Qed.

(** A row the database refuses, or takes. *)
Lemma insert_run_fits row t db :
  rrm_matched_count row <= int4_max -> rrm_break_count row <= int4_max ->
  reconciliation_runs db !! rrm_id row = None -> insert_run row t db = Ok (tt, [AddRun row]).
Proof.
  intros Hm Hb Hfresh. unfold insert_run, no_key.
  rewrite (proj2 (Z.leb_le _ _) Hm), (proj2 (Z.leb_le _ _) Hb), bool_decide_true by done. done.
Qed.

Lemma run_written db r : reconciliation_runs (view db [AddRun r]) !! rrm_id r = Some r.
Proof. destruct db. apply lookup_insert_eq. Qed.

Lemma insert_breaks_fit run_id breaks t db :
  Forall (fun b => storable b /\ fk (payments db) (rb_payment_id b) = true) breaks ->
  is_Some (reconciliation_runs db !! run_id) ->
  exists ws, insert_breaks run_id breaks t db = Ok (tt, ws).
Proof.
  intros Hall Hrun. unfold insert_breaks. rewrite break_rows_exact.
  2:{ eapply Forall_impl; [exact Hall|]. by intros b [Hb _]. }
  rewrite result_bind_ok. simpl fk. rewrite bool_decide_true by done.
  assert (Hfk : forallb (fun b => fk (payments db) (rb_payment_id b)) breaks = true).
  { apply forallb_forall. intros b Hb%list_elem_of_In. by eapply Forall_forall in Hall as [_ ?]. }
  rewrite Hfk. by eexists.
Qed.

Definition run_row (batch_id run_id : UUID) (result : ReconciliationResult) : ReconciliationRunModel :=
  {| rrm_id := run_id; rrm_batch_id := batch_id; rrm_matched_count := rr_matched_count result;
     rrm_break_count := break_count result; rrm_status := "completed" |}.

(** The columns take the run and its breaks. *)
Definition fits (db : DB) (result : ReconciliationResult) : Prop :=
  rr_matched_count result <= int4_max /\ break_count result <= int4_max /\
  Forall (fun b => storable b /\ fk (payments db) (rb_payment_id b) = true) (rr_breaks result).

Lemma alone_record_run batch_id result s Q :
  (forall run_id breaks, reconciliation_runs (cur s) !! run_id = None ->
     mapM (break_row run_id) (rr_breaks result) = Ok breaks ->
     Q (wrote (wrote s [AddRun (run_row batch_id run_id result)]) (AddBreak <$> breaks)) (Ok run_id)) ->
  (forall s1 e, s_commits s1 = s_commits s -> s_db s1 = s_db s -> (fits (cur s) result -> False) ->
     Q s1 (Err e)) ->
  alone (record_run batch_id result) s Q.
Proof.
  intros HQ Hfail. apply run_bind, run_uuid4. intros run_id Hfresh. fold (cur s) in Hfresh.
  assert (Hrun_id : reconciliation_runs (cur s) !! run_id = None) by apply Hfresh.
  fold (run_row batch_id run_id result). set (row := run_row batch_id run_id result).
  apply run_bind. destruct (insert_run row (s_now s) (cur s)) as [[[] ws]|e] eqn:Hrun.
  2:{ eapply alone_sql_error; [exact Hrun|]. apply Hfail; [done..|]. intros (Hm & Hb & _).
      by rewrite insert_run_fits in Hrun. }
  eapply alone_sql; [exact Hrun|]. cbv beta iota. unfold insert_run in Hrun. stmt_ok Hrun.
  set (s2 := wrote s [AddRun row]). apply run_bind.
  assert (Hp2 : payments (cur s2) = payments (cur s)) by
    (unfold s2; by rewrite cur_wrote, view_cons, view_nil, payments_write).
  destruct (insert_breaks run_id (rr_breaks result) (s_now s2) (cur s2)) as [[[] ws]|e] eqn:Hb.
  2:{ eapply alone_sql_error; [exact Hb|]. apply Hfail; [done..|]. intros (_ & _ & Hbs).
      destruct (insert_breaks_fit run_id (rr_breaks result) (s_now s2) (cur s2)) as [ws Hws].
      - by rewrite Hp2.
      - unfold s2. rewrite cur_wrote. by rewrite (run_written _ row).
      - by rewrite Hws in Hb. }
  eapply alone_sql; [exact Hb|]. cbv beta iota.
  unfold insert_breaks in Hb. stmt_ok Hb. apply run_ret. by apply HQ.
Qed.

Lemma alone_run batch_id records window_start window_end s :
  Inv (s_db s) ->
  alone (run_reconciliation batch_id records window_start window_end) s (fun s' r =>
    reconciled batch_id records window_start window_end s s' r /\
    (reconcilable (s_db s) records -> is_ok r = true)).
Proof.
  intros HI. apply run_with_uow. intros t. set (s0 := with_open s t).
  assert (Hfail : forall s1 e, s_commits s1 = s_commits s -> s_db s1 = s_db s ->
    (reconcilable (s_db s) records -> False) ->
    reconciled batch_id records window_start window_end s (with_sql s1 (s_db s1) []) (Err e) /\
    (reconcilable (s_db s) records -> is_ok (@Err Exn (UUID * ReconciliationResult) e) = true)).
  { intros s1 e Hc Hd Hno. split; [by split|]. intros Hrc. by destruct (Hno Hrc). }
  apply run_bind. destruct (mapM (file_record_row batch_id) records) as [rows|e] eqn:Hrows.
  2:{ eapply alone_sql_error; [by rewrite Hrows|]. apply Hfail; [done..|]. intros Hrc.
      by rewrite (file_rows_exact batch_id) in Hrows by apply Hrc. }
  apply (alone_sql _ _ _ tt (AddFileRecord <$> rows)); [by rewrite Hrows|]. cbv beta iota.
  set (s1 := wrote s0 (AddFileRecord <$> rows)).
  destruct (file_writes_tables (s_db s) rows) as (Hp & Hh & Hr).
  change (view (s_db s) (AddFileRecord <$> rows)) with (cur s1) in Hp, Hh, Hr.
  apply run_bind, alone_select. fold (cur s1). cbv beta iota.
  rewrite (settled_rows_same (s_db s) (cur s1)) by done. set (ps := pg_scan _).
  assert (Hps : ps ≡ₚ omap (settled_row (s_db s) window_start window_end) (payment_status_history (s_db s))) by
    apply pg_scan_perm.
  assert (Hfound : settled_between (s_db s) window_start window_end ps) by by apply settled_rows_between.
  assert (Hreport : reconcilable (s_db s) records -> exists result, match_refs ps records = Ok result /\
    fits (cur s1) result).
  { intros Hrc. destruct (report_fits _ _ _ _ _ HI Hrc Hfound) as (result & Hm & Hrep & ? & ?);
      [rewrite Hps; apply omap_length|].
    exists result. split; [done|]. split_and!; [done|done|]. rewrite Hp. by eapply breaks_fit. }
  apply run_bind, run_of_result. destruct (match_refs ps records) as [result|e] eqn:Hmatch; cbn [map_err].
  2:{ apply Hfail; [done..|]. by intros (result & ? & _)%Hreport. }
  apply run_bind, alone_record_run.
  - intros run_id breaks Hrun_id Hb. cbv beta iota. apply run_bind, alone_commit, run_ret. split; [|done].
    exists ps, rows, breaks. split_and!; [done|done|done|done|by rewrite <- Hr|..].
    all: cbn [with_sql s_commits s_db]; unfold with_commit, run_writes; cbn [s_commits s_db].
    all: assert (Hlog : s_log (wrote (wrote s1 [AddRun (run_row batch_id run_id result)]) (AddBreak <$> breaks)) =
      (AddFileRecord <$> rows) ++ AddRun (run_row batch_id run_id result) :: (AddBreak <$> breaks)) by
      (unfold s1, s0, wrote; simpl; by rewrite <- app_assoc).
    all: rewrite Hlog; by destruct rows.
  - intros s2 e Hc Hd Hno. apply Hfail; [done..|]. intros (result' & Heq & Hfits)%Hreport.
    injection Heq as <-. by apply Hno.
Qed.

(** C18. A reconciliation run is atomic and exact.  Run alone on a state that satisfies the
    invariant it either raises and leaves the database untouched, or returns the matcher's
    report on the payments that settled in the window, each once, against the uploaded
    records, in a single commit that stores the whole file, the run with the counts of that
    report, and each of its breaks.  And it does the latter, with a correct report and
    every value stored as it is, whenever the columns take the file's values as they are, the
    payments' rows hold what their columns take, and the counts fit an INTEGER. *)
Theorem run_reconciliation_correct batch_id records window_start window_end s :
  Inv (s_db s) ->
  alone (run_reconciliation batch_id records window_start window_end) s (fun s' r =>
    reconciled batch_id records window_start window_end s s' r /\
    (reconcilable (s_db s) records -> recorded batch_id records window_start window_end s s' r)).
Proof.
  intros HI. eapply run_mono; [by apply alone_run|]. intros s' r [Hr Hok]. split; [done|]. intros Hrc.
  specialize (Hok Hrc). destruct r as [[run_id result]|]; [|done].
  destruct Hr as (found & rows & breaks & Hfound & Hmatch & Hrows & Hbreaks & Hrun & Hcommit & Hdb).
  assert (Hrep : correct_report found records result).
  { destruct (quiet_sides _ _ _ _ _ HI Hrc Hfound) as [Hq1 Hq2].
    destruct (match_refs_correct found records Hq1 Hq2) as (result' & Hm & Hrep & _).
    rewrite Hmatch in Hm. by injection Hm as <-. }
  rewrite file_rows_exact in Hrows by apply Hrc. injection Hrows as <-.
  rewrite break_rows_exact in Hbreaks.
  2:{ eapply Forall_impl; [by eapply breaks_fit|]. by intros b [Hb _]. }
  injection Hbreaks as <-. by exists run_id, result, found.
Qed.
End reconciling.
