(* ===== verification/Messages.v ===== *)
(** Messages: the texts of the exceptions the source defines, which the endpoints hand to
    their clients as the detail of an error response.

    A text is the list of its code points: one message holds a dash that is no Latin-1
    character. *)
From stdpp Require Import sorting.
From S2P Require Import Prelude Decimals PyText PyVal Ledger PaymentSM Csv Sgqr Store.

#[local] Open Scope Z_scope.

(** A text, or [None] where a library chooses it. *)
Definition Detail := option (list N).
Definition points (s : string) : list N := N_of_ascii <$> list_ascii_of_string s.
Definition says (s : string) : Detail := Some (points s).

(** * Rendering *)

(** [repr] of a list of strings. *)
Definition repr_list (l : list string) : string := "[" +:+ String.concat ", " (py_repr <$> l) +:+ "]".

Definition identifier_str (identifier : UUID + string) : string :=
  match identifier with inl id => uuid_str id | inr number => number end.

(** * The messages, an exception class at a time *)

(** ** domain/ledger *)

Definition ledger_message (e : LedgerError) : Detail :=
  match e with
  | EmptyJournalEntryError => says "journal entry must have at least one line"
  | InvalidLineAmountError line =>
      says ("journal line amount must be positive, got " +:+ dec_str (jl_amount line) +:+ " for "
            +:+ uuid_str (jl_account_id line))
  | UnbalancedEntryError _ | LedgerDecimalSignal _ => None   (* the order of a dict is not modelled *)
  end.

Definition account_ids_str (account_ids : gset UUID) : string :=
  repr_list (merge_sort String.le (uuid_str <$> elements account_ids)).

Definition concurrent_modification_message (account_ids : gset UUID) (attempts : Z) : Detail :=
  says ("could not post journal entry after " +:+ str_Z attempts +:+ " attempts due to concurrent "
        +:+ "updates on accounts: " +:+ account_ids_str account_ids).

Definition account_not_found_message (identifier : UUID + string) : Detail :=
  says ("account not found: " +:+ identifier_str identifier).

(** ** domain/fx, domain/reconciliation *)

Definition fx_rate_not_found_message (base_currency quote_currency : string) : Detail :=
  says ("no FX rate available for " +:+ base_currency +:+ " -> " +:+ quote_currency).

Definition run_not_found_message (run_id : UUID) : Detail :=
  says ("reconciliation run not found: " +:+ uuid_str run_id).

(** ** domain/payments *)

Definition payment_not_found_message (payment_id : UUID) : Detail :=
  says ("payment not found: " +:+ uuid_str payment_id).

Definition transition_message (e : TransitionError) : Detail :=
  match e with
  | InvalidPaymentTransitionError from_status to_status =>
      says ("illegal payment transition: " +:+ status_value from_status +:+ " -> "
            +:+ status_value to_status)
  end.

Definition invalid_amount_message (amount : Decimal) : Detail :=
  says ("payment amount must be positive, got " +:+ dec_str amount).

Definition same_account_message (account_id : UUID) : Detail :=
  says ("debtor and creditor account must differ, got " +:+ uuid_str account_id +:+ " for both").

(** U+2014, a dash. *)
Definition dash : list N := [8212%N].

Definition currency_mismatch_message (account_currency payment_currency : string) : Detail :=
  Some (points ("payment currency " +:+ payment_currency +:+ " does not match the debtor account's currency "
                +:+ account_currency +:+ " ") ++ dash ++
        points (" a payment is always denominated in the debtor's own currency; the creditor may be "
                +:+ "paid in a different one via FX")).

Definition concurrent_payment_message (payment_id : UUID) (attempts : Z) : Detail :=
  says ("could not update payment " +:+ uuid_str payment_id +:+ " after " +:+ str_Z attempts
        +:+ " attempts due to concurrent modification").

(** ** domain/idempotency *)

Definition in_progress_message (key endpoint : string) : Detail :=
  says ("a request with idempotency key " +:+ py_repr key +:+ " for " +:+ endpoint
        +:+ " is already in progress").

Definition key_reused_message (key endpoint : string) : Detail :=
  says ("idempotency key " +:+ py_repr key +:+ " for " +:+ endpoint
        +:+ " was already used with a different request body").

(** ** infra *)

(** Why a bad row is bad is told by [decimal] or [datetime]. *)
Definition csv_message (failure : CsvFailure) : Detail :=
  match failure with
  | MissingColumns =>
      says ("CSV must have columns: " +:+ repr_list (merge_sort String.le REQUIRED_COLUMNS))
  | NoDataRows => says "settlement file contains no data rows"
  | BadRow _ | RowKeyError | RowAttributeError | ReaderError => None
  end.

Definition qr_message (e : QrError) : Detail :=
  match e with
  | SgqrError_tlv_too_long tag value =>
      says ("TLV value for tag " +:+ tag +:+ " exceeds 99 characters: " +:+ py_repr value)
  | SgqrError_unsupported_currency currency => says ("unsupported currency for SGQR: " +:+ currency)
  | SgqrError_amount_not_positive amount => says ("amount must be positive, got " +:+ dec_str amount)
  | QrUnicodeEncodeError | QrDecimalSignal _ => None
  end.

Definition pacs008_message (status : PaymentStatus) : Detail :=
  says ("pacs.008 can only be emitted for a settled payment, got status=" +:+ status_value status).

(** [str(exc)] *)
Definition exn_str (e : Exn) : Detail :=
  match e with
  | ELedger e => ledger_message e
  | ETransition e => transition_message e
  | AccountNotFoundError identifier => account_not_found_message identifier
  | PaymentNotFoundError payment_id => payment_not_found_message payment_id
  | FxRateNotFoundError base_currency quote_currency => fx_rate_not_found_message base_currency quote_currency
  | ReconciliationRunNotFoundError run_id => run_not_found_message run_id
  | InvalidPaymentAmountError amount => invalid_amount_message amount
  | SamePaymentAccountError account_id => same_account_message account_id
  | PaymentCurrencyMismatchError account_currency payment_currency =>
      currency_mismatch_message account_currency payment_currency
  | ConcurrentModificationError account_ids attempts => concurrent_modification_message account_ids attempts
  | ConcurrentPaymentModificationError payment_id attempts => concurrent_payment_message payment_id attempts
  | IdempotencyInProgressError key endpoint => in_progress_message key endpoint
  | IdempotencyKeyReusedError key endpoint => key_reused_message key endpoint
  | SettlementCsvError failure => csv_message failure
  | Pacs008EmissionError status => pacs008_message status
  | EMatch _ | EDecimal _ | IntegrityError _ | DataError _ | NoResultFound | KeyError
  | InvalidRequestError | StaleDataError | AssertionError | OverflowError | AttributeError
  | ValueError | DBAPIError | TimeoutError | CsvError => None
  end.

Example columns_message : csv_message MissingColumns =
  says "CSV must have columns: ['amount', 'currency', 'external_ref', 'settled_at']".
Proof. vm_compute. reflexivity. Qed.
Example transition_text : transition_message (InvalidPaymentTransitionError SETTLED AUTHORISED) =
  says "illegal payment transition: settled -> authorised".
Proof. reflexivity. Qed.
