(* ===== verification/Responses.v ===== *)
(** Responses: the response models of app/api/schemas/ and how the handlers fill them from
    the domain's entities (by [asdict] or field by field).  An enum member becomes its
    value. *)
From S2P Require Import Prelude Decimals PyText PyVal Ledger PaymentSM Recon Webhooks.

(** * accounts.py *)

Record AccountResponse := {
  acr_id : UUID;
  acr_account_number : string;
  acr_owner_name : string;
  acr_account_type : string;
  acr_currency : string;
  acr_status : string;
  acr_version : Z;
}.

Record AccountBalanceResponse := {
  abr_account_id : UUID;
  abr_currency : string;
  abr_balance : Decimal;
}.

Definition account_response (a : Account) : AccountResponse :=
  {| acr_id := acc_id a; acr_account_number := acc_account_number a;
     acr_owner_name := acc_owner_name a; acr_account_type := acc_account_type a;
     acr_currency := acc_currency a; acr_status := acc_status a; acr_version := acc_version a |}.

(** * payments.py *)

Record PaymentResponse := {
  pyr_id : UUID;
  pyr_debtor_account_id : UUID;
  pyr_creditor_account_id : UUID;
  pyr_amount : Decimal;
  pyr_currency : string;
  pyr_status : string;
  pyr_version : Z;
  pyr_end_to_end_id : option string;
  pyr_fx_rate_id : option UUID;
  pyr_creditor_amount : option Decimal;
}.

Definition payment_response (p : Payment) : PaymentResponse :=
  {| pyr_id := pay_id p; pyr_debtor_account_id := pay_debtor_account_id p;
     pyr_creditor_account_id := pay_creditor_account_id p; pyr_amount := pay_amount p;
     pyr_currency := pay_currency p; pyr_status := status_value (pay_status p);
     pyr_version := pay_version p; pyr_end_to_end_id := pay_end_to_end_id p;
     pyr_fx_rate_id := pay_fx_rate_id p; pyr_creditor_amount := pay_creditor_amount p |}.

(** * webhooks.py *)

(** The secret is not part of the response. *)
Record WebhookSubscriptionResponse := {
  wsr_id : UUID;
  wsr_url : string;
  wsr_event_types : list string;
  wsr_active : bool;
}.

Record WebhookDeadLetterResponse := {
  wdr_id : UUID;
  wdr_subscription_id : UUID;
  wdr_payment_id : option UUID;
  wdr_event_type : string;
  wdr_payload : pydict;
  wdr_attempt_count : Z;
  wdr_last_error : option string;
  wdr_next_attempt_at : Z;
}.

Definition subscription_response (s : WebhookSubscription) : WebhookSubscriptionResponse :=
  {| wsr_id := sub_id s; wsr_url := sub_url s; wsr_event_types := sub_event_types s;
     wsr_active := sub_active s |}.

Definition dead_letter_response (d : WebhookDelivery) : WebhookDeadLetterResponse :=
  {| wdr_id := dl_id d; wdr_subscription_id := dl_subscription_id d;
     wdr_payment_id := dl_payment_id d; wdr_event_type := dl_event_type d;
     wdr_payload := dl_payload d; wdr_attempt_count := dl_attempt_count d;
     wdr_last_error := dl_last_error d; wdr_next_attempt_at := dl_next_attempt_at d |}.

(** * reconciliation.py *)

Record ReconciliationBreakResponse := {
  rbr_break_type : string;
  rbr_external_ref : string;
  rbr_payment_id : option UUID;
  rbr_ledger_amount : option Decimal;
  rbr_settlement_amount : option Decimal;
  rbr_details : string;
}.

Record ReconciliationRunResponse := {
  rrr_id : UUID;
  rrr_batch_id : UUID;
  rrr_matched_count : Z;
  rrr_break_count : Z;
  rrr_status : string;
  rrr_breaks : list ReconciliationBreakResponse;
}.

Definition break_response (b : ReconciliationBreak) : ReconciliationBreakResponse :=
  {| rbr_break_type := break_type_value (rb_break_type b); rbr_external_ref := rb_external_ref b;
     rbr_payment_id := rb_payment_id b; rbr_ledger_amount := rb_ledger_amount b;
     rbr_settlement_amount := rb_settlement_amount b; rbr_details := rb_details b |}.
