(* ===== verification/Api.v ===== *)
(** Api: the HTTP handlers of app/api/v1/ and the request and response models of
    app/api/schemas/.

    A handler answers with a response or raises an [HTTPException]; an exception it does
    not translate stays a raised exception (a 500 response). *)
From S2P Require Import Prelude Decimals PyText PyVal Ledger Fx PaymentSM Recon Sgqr Webhooks.
From S2P Require Import Store Session Repos SupportRepos LedgerService PaymentService Dispatch.
From S2P Require Import Csv ReconService Messages Responses.

#[local] Open Scope Z_scope.

Inductive Http (A : Type) :=
| Response (status_code : Z) (body : A)
| HTTPException (status_code : Z) (detail : Detail).
Arguments Response {A} _ _.
Arguments HTTPException {A} _ _.

(** [try: m except ... as exc: raise HTTPException(status, detail)] *)
Definition translating {A B} (answer_of : Exn -> option (Z * Detail)) (m : Prog A) (ok : A -> Prog (Http B))
    : Prog (Http B) :=
  r ← attempt m;
  match r with
  | Ok a => ok a
  | Err e =>
      match answer_of e with
      | Some (status, detail) => Ret (HTTPException status detail)
      | None => Raise e
      end
  end.

Definition http_map {A B} (f : A -> B) (answer : Http A) : Http B :=
  match answer with
  | Response code body => Response code (f body)
  | HTTPException code detail => HTTPException code detail
  end.

(** The session dependency of app/api/deps.py: closed when the request ends. *)
Definition get_db_session {A} (body : Prog A) : Prog A :=
  OpenTx (r ← attempt body; CloseTx (of_result r)).

(** The same of app/infra/db/session.py. *)
Definition session_scope {A} (body : Prog A) : Prog A :=
  OpenTx (r ← attempt body; CloseTx (of_result r)).

(** [Field(min_length=a, max_length=b)] and [Decimal = Field(gt=0)] (NaN and the infinities
    are no valid Decimal fields). *)
Definition len_between (a b : Z) (s : string) : bool := (a <=? len s) && (len s <=? b).
Definition gt0 (d : Decimal) : bool :=
  match d with Fin s c _ => negb s && negb (c =? 0)%N | _ => false end.

(** A body that fails validation is answered with 422 before the handler runs; the detail is
    the validator's. *)
Definition validated {A} (valid : bool) (handler : Prog (Http A)) : Prog (Http A) :=
  if valid then handler else Ret (HTTPException 422 None).

Definition is_integrity (e : Exn) : bool := match e with IntegrityError _ => true | _ => false end.
Definition is_account_not_found (e : Exn) : bool :=
  match e with AccountNotFoundError _ => true | _ => false end.

(** [except AccountNotFoundError: raise HTTPException(404, "account not found")] *)
Definition account_not_found_answer (e : Exn) : option (Z * Detail) :=
  if is_account_not_found e then Some (404, says "account not found") else None.
Definition payment_not_found_answer (e : Exn) : option (Z * Detail) :=
  match e with PaymentNotFoundError _ => Some (404, says "payment not found") | _ => None end.

Section api.
Context `{Platform}.

(** * accounts.py *)

Record CreateAccountRequest := {
  car_account_number : string;
  car_owner_name : string;
  car_account_type : string;
  car_currency : string;
}.
Definition valid_create_account (body : CreateAccountRequest) : bool :=
  len_between 1 34 (car_account_number body) && len_between 1 255 (car_owner_name body) &&
  len_between 1 20 (car_account_type body) && len_between 3 3 (car_currency body).

Definition post_account (body : CreateAccountRequest) : Prog (Http AccountResponse) :=
  validated (valid_create_account body) (get_db_session
   (r ← attempt
      (account ← create_account (car_account_number body) (car_owner_name body)
                   (car_account_type body) (upper (car_currency body));
       commit ;;
       Ret account);
    match r with
    | Ok account => Ret (Response 201 (account_response account))
    | Err e =>
        if is_integrity e then rollback ;; Ret (HTTPException 409 (says "account_number already exists"))
        else Raise e
    end)).

Definition http_get_account (account_id : UUID) : Prog (Http AccountResponse) :=
  get_db_session
    (translating account_not_found_answer
       (get_account account_id) (fun account => Ret (Response 200 (account_response account)))).

Definition get_account_balance (account_id : UUID) (currency : string)
  : Prog (Http AccountBalanceResponse) :=
  get_db_session
    (translating account_not_found_answer (get_account account_id)
       (fun _ =>
          balance ← get_balance account_id (upper currency);
          Ret (Response 200 {| abr_account_id := account_id; abr_currency := upper currency;
                               abr_balance := balance |}))).

(** * payments.py *)

Record InitiatePaymentRequest := {
  ipr_debtor_account_id : UUID;
  ipr_creditor_account_id : UUID;
  ipr_amount : Decimal;
  ipr_currency : string;
  ipr_end_to_end_id : option string;
}.
Definition valid_initiate_payment (body : InitiatePaymentRequest) : bool :=
  gt0 (ipr_amount body) && len_between 3 3 (ipr_currency body) &&
  from_option (len_between 0 35) true (ipr_end_to_end_id body).

(** [body.model_dump(mode="json")] *)
Definition model_dump (body : InitiatePaymentRequest) : pyitems :=
  [("debtor_account_id", VStr (uuid_str (ipr_debtor_account_id body)));
   ("creditor_account_id", VStr (uuid_str (ipr_creditor_account_id body)));
   ("amount", VStr (dec_str (ipr_amount body)));
   ("currency", VStr (ipr_currency body));
   ("end_to_end_id", vopt VStr (ipr_end_to_end_id body))].

Definition create_payment_answer (e : Exn) : option (Z * Detail) :=
  match e with
  | InvalidPaymentAmountError _ | SamePaymentAccountError _ | PaymentCurrencyMismatchError _ _ =>
      Some (422, exn_str e)
  | IdempotencyKeyReusedError _ _ => Some (422, exn_str e)
  | IdempotencyInProgressError _ _ => Some (409, exn_str e)
  | AccountNotFoundError identifier =>
      Some (404, says ("debtor account not found: " +:+ identifier_str identifier))
  | IntegrityError _ => Some (404, says "debtor or creditor account does not exist")
  | _ => None
  end.

(** Always answered with 201, also on a replay. *)
Definition create_payment (body : InitiatePaymentRequest) (idempotency_key : string)
  : Prog (Http pydict) :=
  validated (valid_initiate_payment body)
  (translating create_payment_answer
     (r ← initiate_payment_idempotent idempotency_key (model_dump body)
            (ipr_debtor_account_id body) (ipr_creditor_account_id body) (ipr_amount body)
            (upper (ipr_currency body)) (ipr_end_to_end_id body);
      Ret r.2)
     (fun response_body => Ret (Response 201 response_body))).

Definition http_get_payment (payment_id : UUID) : Prog (Http PaymentResponse) :=
  get_db_session
    (translating payment_not_found_answer
       (get_payment payment_id) (fun payment => Ret (Response 200 (payment_response payment)))).

Definition transition_answer (e : Exn) : option (Z * Detail) :=
  match e with
  | PaymentNotFoundError _ => Some (404, says "payment not found")
  | ETransition (InvalidPaymentTransitionError _ _) => Some (409, exn_str e)
  | FxRateNotFoundError _ _ => Some (409, exn_str e)
  | ConcurrentPaymentModificationError _ _ => Some (409, exn_str e)
  | _ => None
  end.

(** What [_run_transition] returns, or raises as an [HTTPException]. *)
Definition _run_transition (coro : Prog Payment) : Prog (Http Payment) :=
  translating transition_answer coro (fun payment => Ret (Response 200 payment)).

(** [payment = await _run_transition(...); return PaymentResponse(...)] *)
Definition answering (coro : Prog Payment) : Prog (Http PaymentResponse) :=
  answer ← _run_transition coro;
  Ret (http_map payment_response answer).

Record FailPaymentRequest := { fpr_reason : option string }.

Definition authorise (payment_id : UUID) : Prog (Http PaymentResponse) :=
  answering (authorise_payment payment_id DEFAULT_MAX_ATTEMPTS).
Definition settle (payment_id : UUID) : Prog (Http PaymentResponse) :=
  answering (settle_payment payment_id DEFAULT_MAX_ATTEMPTS).
Definition reverse (payment_id : UUID) : Prog (Http PaymentResponse) :=
  answering (reverse_payment payment_id DEFAULT_MAX_ATTEMPTS).
Definition fail (payment_id : UUID) (body : FailPaymentRequest) : Prog (Http PaymentResponse) :=
  answering (fail_payment payment_id (fpr_reason body) DEFAULT_MAX_ATTEMPTS).

(** * webhooks.py *)

Record CreateWebhookSubscriptionRequest := {
  cwr_url : string;
  cwr_secret : string;
  cwr_event_types : list string;
}.
Definition valid_create_subscription (body : CreateWebhookSubscriptionRequest) : bool :=
  len_between 1 2048 (cwr_url body) && len_between 8 255 (cwr_secret body).

Definition post_subscription (body : CreateWebhookSubscriptionRequest)
  : Prog (Http WebhookSubscriptionResponse) :=
  validated (valid_create_subscription body) (get_db_session
   (subscription ← create_subscription (cwr_url body) (cwr_secret body) (cwr_event_types body);
    commit ;;
    Ret (Response 201 (subscription_response subscription)))).

Definition http_list_dead_letters : Prog (Http (list WebhookDeadLetterResponse)) :=
  get_db_session
    (deliveries ← list_dead_letters;
     Ret (Response 200 (map dead_letter_response deliveries))).

(** * qr.py *)

Record GenerateQrRequest := {
  gqr_account_id : UUID;
  gqr_amount : option Decimal;
  gqr_merchant_city : string;
}.
Definition valid_generate_qr (body : GenerateQrRequest) : bool :=
  from_option gt0 true (gqr_amount body) && len_between 0 15 (gqr_merchant_city body).

(** [SgqrError]s become 422; anything else [build_sgqr] raises is left as it is. *)
Definition generate_qr (qrcode_make : string -> list N) (raised : QrError -> Exn)
  (body : GenerateQrRequest) : Prog (Http SgqrPayload) :=
  validated (valid_generate_qr body) (get_db_session
   (translating account_not_found_answer (get_account (gqr_account_id body))
      (fun account =>
         match build_sgqr qrcode_make (acc_account_number account) (acc_owner_name account)
                 (gqr_merchant_city body) (acc_currency account) (gqr_amount body) with
         | Ok payload => Ret (Response 200 payload)
         | Err e => if is_SgqrError e then Ret (HTTPException 422 (qr_message e)) else Raise (raised e)
         end))).

(** * reconciliation.py *)

(** [window_end - timedelta(hours=window_hours)], in microseconds; a date before the year
    1 or after 9999 cannot be represented. *)
Definition window_start_of (window_end window_hours : Z) : result Exn Z :=
  let t := window_end - window_hours * 3600 * 10 ^ 6 in
  require ((-62135596800000000 <=? t) && (t <=? 253402300799999999)) OverflowError ;;
  Ok t.

(** [body]: the decoded request body, or [None] for a UnicodeDecodeError. *)
Definition run_reconciliation_endpoint (body : option string) (window_hours : Z)
    : Prog (Http ReconciliationRunResponse) :=
  content ← of_result (or_raise body ValueError);
  translating (fun e => match e with SettlementCsvError _ => Some (400, exn_str e) | _ => None end)
    (of_result (map_err csv_exn (parse_settlement_csv content)))
    (fun records =>
       window_end ← now;
       window_start ← of_result (window_start_of window_end window_hours);
       batch_id ← uuid4;
       found ← run_reconciliation batch_id records window_start window_end;
       let '(run_id, result) := found in
       Ret (Response 201 {| rrr_id := run_id; rrr_batch_id := batch_id;
                            rrr_matched_count := rr_matched_count result;
                            rrr_break_count := break_count result; rrr_status := "completed";
                            rrr_breaks := break_response <$> rr_breaks result |})).

(** What the reconciliation job prints. *)
Definition job_report (run_id : UUID) (result : ReconciliationResult) (window_hours : Z) : list string :=
  ("Reconciliation run " +:+ uuid_str run_id +:+ ": " +:+ str_Z (rr_matched_count result)
   +:+ " matched, " +:+ str_Z (break_count result) +:+ " break(s) (window: last "
   +:+ str_Z window_hours +:+ "h)") ::
  ((fun b => "  [" +:+ break_type_value (rb_break_type b) +:+ "] " +:+ rb_external_ref b +:+ ": "
             +:+ rb_details b) <$> rr_breaks result).

(** [_run] of app/workers/reconciliation_job.py: what the job prints, and its exit code.
    [text]: the file's text, or [None] if it is not UTF-8. *)
Definition _run (text : option string) (window_hours : Z) : Prog (list string * Z) :=
  content ← of_result (or_raise text ValueError);
  records ← of_result (map_err csv_exn (parse_settlement_csv content));
  window_end ← now;
  window_start ← of_result (window_start_of window_end window_hours);
  batch_id ← uuid4;
  found ← run_reconciliation batch_id records window_start window_end;
  let '(run_id, result) := found in
  Ret (job_report run_id result window_hours, if bool_decide (rr_breaks result = []) then 0 else 1).

Definition get_reconciliation_run (run_id : UUID) : Prog (Http ReconciliationRunResponse) :=
  get_db_session
    (translating
       (fun e => match e with
                 | ReconciliationRunNotFoundError _ => Some (404, says "reconciliation run not found")
                 | _ => None
                 end)
       (get_run run_id)
       (fun run =>
          breaks ← list_breaks_for_run run_id;
          Ret (Response 200 {| rrr_id := rrm_id run; rrr_batch_id := rrm_batch_id run;
                               rrr_matched_count := rrm_matched_count run;
                               rrr_break_count := rrm_break_count run;
                               rrr_status := rrm_status run;
                               rrr_breaks := break_response <$> breaks |}))).
(** * health.py *)

Definition health : Prog (Http pydict) := Ret (Response 200 {[ "status" := VStr "ok" ]}).

(** A connection of the engine, like a session, begins a transaction with its first
    statement, and closing it rolls back. *)
Definition health_db : Prog (Http pydict) :=
  get_db_session
    (select (fun _ => Ok tt) ;;
     Ret (Response 200 (list_to_map [("status", VStr "ok"); ("database", VStr "reachable")]))).
End api.
