(* ===== verification/Refusals.v ===== *)
(** Refusals: what the payment endpoints answer when a transition is refused
    (app/api/v1/payments.py), run alone. *)
From S2P Require Import Prelude Decimals PyText PyVal Ledger Fx PaymentSM Recon Sgqr Webhooks.
From S2P Require Import Store Session Repos SupportRepos LedgerService PaymentService Dispatch.
From S2P Require Import ReconService Messages Responses Api Atomicity Invariant Commits Transactions Alone.

#[local] Open Scope Z_scope.

Section refusals.
Context `{Platform}.

(** The request is answered with this status and text and nothing is committed. *)
Definition refused {A} (code : Z) (detail : Detail) (s s' : Sess) (r : result Exn (Http A)) : Prop :=
  r = Ok (HTTPException code detail) /\ s_db s' = s_db s /\ s_commits s' = s_commits s.

(** A retry loop whose first attempt raises ends with that exception. *)
Lemma alone_for_attempts_raise {A} max_attempts (body : Prog (option A)) exhausted e s Q :
  1 <= max_attempts ->
  (forall t, alone body (with_open s t) (fun s' r =>
    r = Err e /\ s_db s' = s_db s /\ s_commits s' = s_commits s)) ->
  (forall s', s_db s' = s_db s -> s_commits s' = s_commits s -> Q s' (Err e)) ->
  alone (for_attempts max_attempts body exhausted) s Q.
Proof.
  intros Hmax Hb HQ. unfold for_attempts. destruct (Z.to_nat max_attempts) as [|n] eqn:Hn; [lia|].
  cbn [attempts_loop]. apply run_bind, run_with_uow. intros t. eapply run_mono; [apply Hb|].
  intros s' r (-> & Hd & Hc). by apply HQ.
Qed.

Lemma alone_answering coro s code detail e :
  transition_answer e = Some (code, detail) ->
  alone coro s (fun s' r => r = Err e /\ s_db s' = s_db s /\ s_commits s' = s_commits s) ->
  alone (answering coro) s (refused code detail s).
Proof.
  intros He Hc. apply run_bind, run_bind, run_attempt. eapply run_mono; [exact Hc|].
  intros s' r (-> & Hd & Hcs). rewrite He. by apply run_ret, run_ret.
Qed.

(** The first two statements of an attempt. *)
Lemma alone_unknown_payment {A} pid (f : Payment -> Prog A) s :
  payments (cur s) !! pid = None ->
  alone (get_payment pid ≫= f) s (fun s' r =>
    r = Err (PaymentNotFoundError pid) /\ s_db s' = s_db s /\ s_commits s' = s_commits s).
Proof. intros Hp. apply run_bind, alone_select. fold (cur s). by rewrite Hp. Qed.

Lemma alone_forbidden {A} pid p to_status e (f : Payment -> Prog A) s :
  payments (cur s) !! pid = Some p -> assert_transition_allowed (pay_status p) to_status = Err e ->
  alone (payment ← get_payment pid;
         lift_transition (assert_transition_allowed (pay_status payment) to_status) ;; f payment) s
    (fun s' r => r = Err (ETransition e) /\ s_db s' = s_db s /\ s_commits s' = s_commits s).
Proof.
  intros Hp He. apply run_bind, alone_select. fold (cur s). rewrite Hp. cbn [or_raise].
  apply run_bind. unfold lift_transition. rewrite He. by apply run_raise.
Qed.

(** The four endpoints and the statuses they move a payment to. *)
Definition transition_request (pid : UUID) (reason : option string) (to_status : PaymentStatus)
    : option (Prog (Http PaymentResponse)) :=
  match to_status with
  | INITIATED => None
  | AUTHORISED => Some (authorise pid)
  | SETTLED => Some (settle pid)
  | REVERSED => Some (reverse pid)
  | FAILED => Some (fail pid {| fpr_reason := reason |})
  end.

Lemma transition_request_raises pid reason to_status m s e code detail :
  transition_request pid reason to_status = Some m -> transition_answer e = Some (code, detail) ->
  (forall A (f : Payment -> Prog A) t,
     alone (payment ← get_payment pid;
            lift_transition (assert_transition_allowed (pay_status payment) to_status) ;; f payment)
       (with_open s t) (fun s' r => r = Err e /\ s_db s' = s_db s /\ s_commits s' = s_commits s)) ->
  alone m s (refused code detail s).
Proof.
  intros Hin He Hrun. destruct to_status; [discriminate Hin|..]; injection Hin as <-;
    (eapply alone_answering; [exact He|]);
    (apply (alone_for_attempts_raise _ _ _ e); [done| |done]); intros t; apply Hrun.
Qed.

(** C20. A refused transition is answered with the right status and text and leaves no trace:
    each of the four transition endpoints answers 404 for a payment that does not exist and
    409, naming both statuses, for one whose status does not allow the transition, commits
    nothing and does not retry. *)
Theorem transition_requests_refused pid reason to_status m s :
  transition_request pid reason to_status = Some m ->
  (payments (s_db s) !! pid = None -> alone m s (refused 404 (says "payment not found") s)) /\
  (forall p, payments (s_db s) !! pid = Some p -> ~ allowed (pay_status p) to_status ->
     alone m s (refused 409
       (says ("illegal payment transition: " +:+ status_value (pay_status p) +:+ " -> "
              +:+ status_value to_status)) s)).
Proof.
  intros Hin. split.
  - intros Hp. apply (transition_request_raises pid reason to_status m s (PaymentNotFoundError pid) 404 _ Hin); [done|]. intros A f t.
    exact (alone_unknown_payment pid _ (with_open s t) Hp).
  - intros p Hp Hn. unfold allowed in Hn.
    destruct (assert_transition_allowed (pay_status p) to_status) as [[]|e] eqn:He; [by destruct Hn|].
    apply (transition_request_raises pid reason to_status m s (ETransition e) 409 _ Hin).
    { unfold assert_transition_allowed in He. by case_decide; simplify_eq. }
    intros A f t.
    exact (alone_forbidden pid p to_status e f (with_open s t) Hp He).
Qed.
End refusals.
