(* ===== verification/KeyedRequests.v ===== *)
(** KeyedRequests: POST /payments with a key that no response will ever be stored under
    (create_payment of app/api/v1/payments.py), run alone. *)
From S2P Require Import Prelude Decimals PyText PyVal Ledger Fx PaymentSM Recon Sgqr Webhooks.
From S2P Require Import Store Session Repos SupportRepos LedgerService PaymentService Dispatch.
From S2P Require Import ReconService Messages Responses Api Atomicity Invariant Commits Transactions.
From S2P Require Import Alone Orphans Refusals.

#[local] Open Scope Z_scope.

Section requests.
Context `{Platform}.

(** A body that passes the validation of the endpoint and of the service, for an existing
    debtor account of the payment's currency. *)
Definition presentable (db : DB) (body : InitiatePaymentRequest) : Prop :=
  valid_initiate_payment body = true /\
  _validate_new_payment (ipr_amount body) (ipr_debtor_account_id body) (ipr_creditor_account_id body)
    = Ok tt /\
  exists a, accounts db !! ipr_debtor_account_id body = Some a /\
    acc_currency a = upper (ipr_currency body).

Lemma alone_create_payment key body code detail e s (Q : Sess -> Prop) :
  valid_initiate_payment body = true -> create_payment_answer e = Some (code, detail) ->
  alone (initiate_payment_idempotent key (model_dump body) (ipr_debtor_account_id body)
           (ipr_creditor_account_id body) (ipr_amount body) (upper (ipr_currency body))
           (ipr_end_to_end_id body)) s (fun s' r => r = Err e /\ Q s') ->
  alone (create_payment body key) s (fun s' r => r = Ok (HTTPException code detail) /\ Q s').
Proof.
  intros Hvalid He Hrun. unfold create_payment, validated. rewrite Hvalid.
  apply run_bind, run_attempt, run_bind. eapply run_mono; [exact Hrun|].
  intros s' r [-> HQ]. cbv beta iota. rewrite He. by apply run_ret.
Qed.

(** C19. A key can be orphaned without any crash.  Run alone, a request with a new key that
    passes every check of the code but whose row the database refuses (the creditor account
    does not exist, or the amount is positive but below half a cent and is rounded to 0.00)
    commits its claim, and is answered 404 'debtor or creditor account does not exist', even
    when both exist.  From then on every presentable request with the key is answered 409
    'already in progress' and changes nothing, whatever its body. *)
Theorem failed_request_orphans_its_key key body constraint s :
  presentable (s_db s) body ->
  doomed (s_db s) (ipr_debtor_account_id body) (ipr_creditor_account_id body) (ipr_amount body)
    (upper (ipr_currency body)) (ipr_end_to_end_id body) constraint ->
  varchar 255 key = true -> (forall b, varchar 64 (sha256_hex b) = true) ->
  idempotency_keys (s_db s) !! (endpoint, key) = None ->
  alone (create_payment body key) s (fun s' r =>
    r = Ok (HTTPException 404 (says "debtor or creditor account does not exist")) /\
    in_progress (s_db s') key /\ payments (s_db s') = payments (s_db s)) /\
  forall s2 body2, in_progress (s_db s2) key -> presentable (s_db s2) body2 ->
    alone (create_payment body2 key) s2 (refused 409
      (says ("a request with idempotency key " +:+ py_repr key +:+
             " for POST /payments is already in progress")) s2).
Proof.
  intros (Hvalid & _ & a & Ha & Hccy) Hdoom Hkey Hsha Hnone. split.
  - apply (alone_create_payment key body 404 _ (IntegrityError constraint)); [done|done|]. by eapply alone_doomed_request.
  - intros s2 body2 Hprog (Hvalid2 & Hok2 & a2 & Ha2 & Hccy2).
    apply (alone_create_payment key body2 409 _ (IdempotencyInProgressError key endpoint)); [done|done|]. by eapply alone_key_in_progress.
Qed.
End requests.
