(* ===== verification/Xml.v ===== *)
(** Xml: the element trees that app/infra/iso20022/ reads and builds.

    Parsing bytes to a tree and serializing a tree to bytes are lxml's and stay parameters
    of the definitions that use them; a tree, and the two path operators the code searches
    it with, are data here. *)
From S2P Require Import Prelude PyText.

(** A node: the tag in Clark notation ([None] for a comment or a processing instruction,
    which lxml keeps among the children), the attributes, the text before the first child,
    and the children. *)
#[warnings="-register-all"]
Inductive Element := Elem (tag : option string) (attrib : list (string * string))
  (text : option string) (children : list Element).

Definition el_tag (e : Element) : option string := let '(Elem t _ _ _) := e in t.
Definition el_attrib (e : Element) : list (string * string) := let '(Elem _ a _ _) := e in a.
Definition el_text (e : Element) : option string := let '(Elem _ _ t _) := e in t.
Definition el_children (e : Element) : list Element := let '(Elem _ _ _ c) := e in c.

(** [el.iterdescendants()]: in document order, without the element itself. *)
Fixpoint descendants (e : Element) : list Element :=
  let '(Elem _ _ _ cs) := e in
  (fix go l := match l with [] => [] | c :: l' => (c :: descendants c) ++ go l' end) cs.

Definition has_tag (t : string) (e : Element) : bool := bool_decide (el_tag e = Some t).

(** The steps of a path after [".//"]: the first descends anywhere, the others one level. *)
Definition step (es : list Element) (t : string) : list Element :=
  es ≫= (fun e => List.filter (has_tag t) (el_children e)).
Definition walk (es : list Element) (path : list string) : list Element := foldl step es path.
Definition findall (root : Element) (path : list string) : list Element :=
  match path with
  | [] => []
  | t :: rest => walk (List.filter (has_tag t) (descendants root)) rest
  end.
(** [root.find(".//" + "/".join(path))]: the first match in document order. *)
Definition find (root : Element) (path : list string) : option Element := head (findall root path).

(** [el.get(name)] *)
Definition get_attr (e : Element) (name : string) : option string :=
  snd <$> List.find (fun kv => String.eqb kv.1 name) (el_attrib e).

(** * Lemmas *)

Lemma descendants_cons t a x c cs :
  descendants (Elem t a x (c :: cs)) = c :: descendants c ++ descendants (Elem t a x cs).
Proof. done. Qed.

Lemma walk_app es1 es2 path : walk (es1 ++ es2) path = walk es1 path ++ walk es2 path.
Proof.
  revert es1 es2. induction path as [|t path IH]; intros es1 es2; [done|].
  cbn [walk foldl]. fold (walk (step (es1 ++ es2) t) path). unfold step at 1.
  rewrite bind_app. apply IH.
Qed.

Lemma walk_nil path : walk [] path = [].
Proof. induction path as [|t path IH]; [done|]. exact IH. Qed.

Lemma walk_cons e es path : walk (e :: es) path = walk [e] path ++ walk es path.
Proof. apply (walk_app [e] es). Qed.

(** The first match is below the first of the starting points, if there is one below it. *)
Lemma head_walk e es path x : head (walk [e] path) = Some x -> head (walk (e :: es) path) = Some x.
Proof. rewrite (walk_cons e es path). by destruct (walk [e] path). Qed.

Lemma walk_step e t path : walk [e] (t :: path) = walk (List.filter (has_tag t) (el_children e)) path.
Proof. cbn [walk foldl]. unfold step at 2. cbn. by rewrite app_nil_r. Qed.
