(* ===== verification/Iso20022.v ===== *)
(** Iso20022: app/infra/iso20022/ and app/api/v1/iso20022.py.

    pain.001 messages read into payment instructions, settled payments written as pacs.008
    messages, and the two endpoints around them.  lxml's parser and serializer are
    parameters. *)
From S2P Require Import Prelude Decimals PyText PyTime DecText PyVal Ledger Fx PaymentSM Recon.
From S2P Require Import Webhooks Store Session Repos SupportRepos LedgerService PaymentService.
From S2P Require Import Sgqr Dispatch ReconService Messages Responses Api Xml.

#[local] Open Scope Z_scope.

(** * pain001.py *)

Definition PAIN001_NAMESPACE : string := "urn:iso:std:iso:20022:tech:xsd:pain.001.001.09".
(** [ns:name] *)
Definition ns (name : string) : string := "{" +:+ PAIN001_NAMESPACE +:+ "}" +:+ name.

Inductive Pain001ParseError :=
| DoctypeNotPermitted
| MalformedXml
| MissingFields (names : list string)
| MissingCurrency
| InvalidAmount (text : string).
#[export] Instance Pain001ParseError_eq_dec : EqDecision Pain001ParseError.
Proof. solve_decision. Defined.

Record Pain001CreditTransfer := {
  pct_message_id : string;
  pct_end_to_end_id : string;
  pct_debtor_account_number : string;
  pct_creditor_account_number : string;
  pct_amount : Decimal;
  pct_currency : string;
}.
#[export] Instance Pain001CreditTransfer_eq_dec : EqDecision Pain001CreditTransfer.
Proof. solve_decision. Defined.

Fixpoint is_prefix (p l : list N) : bool :=
  match p, l with
  | [], _ => true
  | b :: p', c :: l' => (b =? c)%N && is_prefix p' l'
  | _ :: _, [] => false
  end.
(** [sub in xml_bytes] *)
Fixpoint contains (p l : list N) : bool :=
  is_prefix p l || match l with [] => false | _ :: l' => contains p l' end.

Definition DOCTYPE : list N := utf8 "<!DOCTYPE".

(** [el.text.strip() if el is not None and el.text else None] *)
Definition text_of (el : option Element) : option string :=
  match el ≫= el_text with
  | Some EmptyString | None => None
  | Some t => Some (strip t)
  end.

Definition MSG_ID : list string := [ns "GrpHdr"; ns "MsgId"].
Definition END_TO_END_ID : list string := [ns "PmtInf"; ns "CdtTrfTxInf"; ns "PmtId"; ns "EndToEndId"].
Definition DBTR_ACCT : list string := [ns "PmtInf"; ns "DbtrAcct"; ns "Id"; ns "Othr"; ns "Id"].
Definition CDTR_ACCT : list string :=
  [ns "PmtInf"; ns "CdtTrfTxInf"; ns "CdtrAcct"; ns "Id"; ns "Othr"; ns "Id"].
Definition INSTD_AMT : list string := [ns "PmtInf"; ns "CdtTrfTxInf"; ns "Amt"; ns "InstdAmt"].

(** [not value] of a text that may be missing. *)
Definition falsy (o : option string) : bool :=
  match o with None | Some EmptyString => true | Some _ => false end.

Definition missing_fields (message_id end_to_end_id debtor creditor amount_text : option string)
    : list string :=
  omap (fun nv => if falsy nv.2 then Some nv.1 else None)
    [("GrpHdr/MsgId", message_id); ("PmtId/EndToEndId", end_to_end_id);
     ("DbtrAcct/Id/Othr/Id", debtor); ("CdtrAcct/Id/Othr/Id", creditor);
     ("Amt/InstdAmt", amount_text)]%string.

(** The fields, given the elements found; the last is [Amt/InstdAmt]. *)
Definition read_transfer (message_id end_to_end_id debtor creditor amount_el : option Element)
    : result Pain001ParseError Pain001CreditTransfer :=
  let missing := missing_fields (text_of message_id) (text_of end_to_end_id) (text_of debtor)
                   (text_of creditor) (text_of amount_el) in
  raise_if (negb (bool_decide (missing = []))) (MissingFields missing) ;;
  let currency := amount_el ≫= (fun el => get_attr el "Ccy") in
  raise_if (falsy currency) MissingCurrency ;;
  let amount_text := default "" (text_of amount_el) in
  match decimal_of_str amount_text with
  | None => Err (InvalidAmount (default "" (amount_el ≫= el_text)))
  | Some amount =>
      Ok {| pct_message_id := default "" (text_of message_id);
            pct_end_to_end_id := default "" (text_of end_to_end_id);
            pct_debtor_account_number := default "" (text_of debtor);
            pct_creditor_account_number := default "" (text_of creditor);
            pct_amount := amount;
            pct_currency := default "" currency |}
  end.

Definition transfer_of (root : Element) : result Pain001ParseError Pain001CreditTransfer :=
  read_transfer (find root MSG_ID) (find root END_TO_END_ID) (find root DBTR_ACCT)
    (find root CDTR_ACCT) (find root INSTD_AMT).

(** [fromstring]: [None] is the XMLSyntaxError. *)
Definition parse_pain001 (fromstring : list N -> option Element) (xml_bytes : list N)
    : result Pain001ParseError Pain001CreditTransfer :=
  if contains DOCTYPE xml_bytes then Err DoctypeNotPermitted
  else match fromstring xml_bytes with
       | None => Err MalformedXml
       | Some root => transfer_of root
       end.

(** [str(exc)]; why a document is malformed is told by lxml. *)
Definition pain001_message (e : Pain001ParseError) : Detail :=
  match e with
  | DoctypeNotPermitted => says "DOCTYPE declarations are not permitted"
  | MalformedXml => None
  | MissingFields names => says ("missing required field(s): " +:+ String.concat ", " names)
  | MissingCurrency => says "Amt/InstdAmt is missing the required Ccy attribute"
  | InvalidAmount text => says ("invalid amount: " +:+ py_repr text)
  end.

(** * pacs008.py *)

Definition PACS008_NAMESPACE : string := "urn:iso:std:iso:20022:tech:xsd:pacs.008.001.08".

(** [etree.SubElement(parent, tag)] with nothing but children, and with nothing but text.
    The tags carry no namespace of their own; the default one is declared at the root. *)
Definition node (tag : string) (children : list Element) : Element := Elem (Some tag) [] None children.
Definition leaf (tag : string) (text : string) : Element := Elem (Some tag) [] (Some text) [].

(** The account block: [<Acct><Id><Othr><Id>number</Id></Othr></Id></Acct>]. *)
Definition account_node (tag number : string) : Element :=
  node tag [node "Id" [node "Othr" [leaf "Id" number]]].

Definition pacs008_document (payment : Payment) (debtor_account_number debtor_name
    creditor_account_number creditor_name msg_id created : string) : Element :=
  node "Document"
    [node "FIToFICstmrCdtTrf"
       [node "GrpHdr"
          [leaf "MsgId" msg_id; leaf "CreDtTm" created; leaf "NbOfTxs" "1";
           node "SttlmInf" [leaf "SttlmMtd" "CLRG"]];
        node "CdtTrfTxInf"
          [node "PmtId"
             [leaf "EndToEndId"
                (match pay_end_to_end_id payment with
                 | None | Some EmptyString => uuid_str (pay_id payment)
                 | Some ref => ref
                 end);
              leaf "TxId" (uuid_str (pay_id payment))];
           Elem (Some "IntrBkSttlmAmt"%string) [("Ccy", pay_currency payment)]%string
             (Some (dec_str (pay_amount payment))) [];
           leaf "ChrgBr" "SLEV";
           node "Dbtr" [leaf "Nm" debtor_name];
           account_node "DbtrAcct" debtor_account_number;
           node "Cdtr" [leaf "Nm" creditor_name];
           account_node "CdtrAcct" creditor_account_number]]].

(** The texts and the attribute value that lxml is given; it refuses those XML cannot hold. *)
Fixpoint texts (e : Element) : list string :=
  let '(Elem _ a t cs) := e in
  (a.*2 ++ option_list t) ++
  (fix go l := match l with [] => [] | c :: l' => texts c ++ go l' end) cs.

(** [xml_compatible]: the texts lxml accepts (the others are a ValueError); [tostring]: its
    serializer. *)
Definition build_pacs008 (xml_compatible : string -> bool) (tostring : Element -> list N)
    (payment : Payment) (debtor_account_number debtor_name creditor_account_number
     creditor_name : string) : Prog (list N) :=
  if negb (bool_decide (pay_status payment = SETTLED))
  then Raise (Pacs008EmissionError (pay_status payment))
  else
    msg_id ← uuid4;
    t ← now;
    let document := pacs008_document payment debtor_account_number debtor_name
                      creditor_account_number creditor_name (uuid_str msg_id) (isoformat_seconds t) in
    if forallb xml_compatible (texts document) then Ret (tostring document)
    else Raise ValueError.

(** * api/v1/iso20022.py *)

Section api.
Context `{Platform}.

Definition number_not_found_answer (e : Exn) : option (Z * Detail) :=
  match e with
  | AccountNotFoundError identifier => Some (404, says ("account not found: " +:+ identifier_str identifier))
  | _ => None
  end.

Definition ingest_answer (e : Exn) : option (Z * Detail) :=
  match e with
  | InvalidPaymentAmountError _ | SamePaymentAccountError _ => Some (422, exn_str e)
  | IntegrityError _ => Some (404, says "debtor or creditor account does not exist")
  | _ => None
  end.

(** The services open their own sessions; the request's session only reads, so that the two
    never hold writes at the same time. *)
Definition ingest_pain001 (fromstring : list N -> option Element) (body : list N) : Prog (Http PaymentResponse) :=
  get_db_session
    (match parse_pain001 fromstring body with
     | Err e => Ret (HTTPException 400 (pain001_message e))
     | Ok transfer =>
         translating number_not_found_answer
           (debtor ← get_account_by_number (pct_debtor_account_number transfer);
            creditor ← get_account_by_number (pct_creditor_account_number transfer);
            Ret (debtor, creditor))
           (fun found =>
              let '(debtor, creditor) := found in
              translating ingest_answer
                (initiate_payment (acc_id debtor) (acc_id creditor) (pct_amount transfer)
                   (pct_currency transfer) (Some (pct_end_to_end_id transfer)))
                (fun payment => Ret (Response 201 (payment_response payment))))
     end).

Definition emit_pacs008 (xml_compatible : string -> bool) (tostring : Element -> list N)
    (payment_id : UUID) : Prog (Http (list N)) :=
  get_db_session
    (translating payment_not_found_answer (get_payment payment_id)
       (fun payment =>
          debtor ← get_account (pay_debtor_account_id payment);
          creditor ← get_account (pay_creditor_account_id payment);
          translating (fun e => match e with Pacs008EmissionError _ => Some (409, exn_str e) | _ => None end)
            (build_pacs008 xml_compatible tostring payment (acc_account_number debtor)
               (acc_owner_name debtor) (acc_account_number creditor) (acc_owner_name creditor))
            (fun xml_bytes => Ret (Response 200 xml_bytes)))).
End api.

(** * Reading a message as documented *)

(** The first match of a path of child steps below an element. *)
Definition below (e : Element) (path : list string) : option Element := head (walk [e] path).

(** What the docstring promises: the first credit transfer transaction of the first payment
    instruction. *)
Definition first_instruction (root : Element) : option Element := find root [ns "PmtInf"].
Definition first_transaction (instruction : Element) : option Element :=
  below instruction [ns "CdtTrfTxInf"].
Definition documented (root instruction transaction : Element)
    : result Pain001ParseError Pain001CreditTransfer :=
  read_transfer (find root MSG_ID)
    (below transaction [ns "PmtId"; ns "EndToEndId"])
    (below instruction [ns "DbtrAcct"; ns "Id"; ns "Othr"; ns "Id"])
    (below transaction [ns "CdtrAcct"; ns "Id"; ns "Othr"; ns "Id"])
    (below transaction [ns "Amt"; ns "InstdAmt"]).

Lemma find_first root t path e x :
  find root [t] = Some e -> below e path = Some x -> find root (t :: path) = Some x.
Proof.
  unfold find, below, findall. cbn [walk foldl]. intros He Hx.
  destruct (List.filter (has_tag t) (descendants root)) as [|e' es]; [done|].
  injection He as ->. by apply head_walk.
Qed.

Lemma below_first e t path tx x :
  below e [t] = Some tx -> below tx path = Some x -> below e (t :: path) = Some x.
Proof.
  unfold below. rewrite !walk_step. intros Htx Hx.
  destruct (List.filter (has_tag t) (el_children e)) as [|e' es]; [done|].
  injection Htx as ->. by apply head_walk.
Qed.

(** A transfer was read only if every element was there. *)
Lemma read_transfer_found m e d c a tr :
  read_transfer m e d c a = Ok tr -> is_Some m /\ is_Some e /\ is_Some d /\ is_Some c /\ is_Some a.
Proof.
  unfold read_transfer. destruct (bool_decide (missing_fields _ _ _ _ _ = [])) eqn:Hm; [|done].
  apply bool_decide_eq_true in Hm. intros _. unfold missing_fields in Hm.
  assert (Hb : forall o, falsy (text_of o) = false -> is_Some o) by (intros [o|]; [by eexists|done]).
  split_and!; apply Hb; apply not_true_is_false; intros Ht; revert Hm; cbn; rewrite Ht;
    by repeat case_match.
Qed.

(** ** Example messages *)

Definition account_block (tag number : string) : Element :=
  node (ns tag) [node (ns "Id") [node (ns "Othr") [leaf (ns "Id") number]]].
Definition transaction_node (end_to_end_id : option string) (creditor amount ccy : string) : Element :=
  node (ns "CdtTrfTxInf")
    (from_option (fun ref => [node (ns "PmtId") [leaf (ns "EndToEndId") ref]]) [] end_to_end_id ++
     [node (ns "Amt") [Elem (Some (ns "InstdAmt")) [("Ccy", ccy)]%string (Some amount) []];
      account_block "CdtrAcct" creditor]).
Definition instruction_node (debtor : string) (transactions : list Element) : Element :=
  node (ns "PmtInf") (account_block "DbtrAcct" debtor :: transactions).
Definition message (instructions : list Element) : Element :=
  node (ns "Document")
    [node (ns "CstmrCdtTrfInitn") (node (ns "GrpHdr") [leaf (ns "MsgId") "MSG-1"] :: instructions)].

(** The fields of one transfer can come from two instructions.  Every path is searched
    over the whole message, so when the first instruction has no transaction of its own, the
    parsed transfer takes its debtor from the first instruction and everything else from the
    second, whose own debtor account is another one. *)
Lemma mixed_instructions :
  exists root first second tr,
    List.filter (has_tag (ns "PmtInf")) (descendants root) = [first; second] /\
    transfer_of root = Ok tr /\
    text_of (below first [ns "DbtrAcct"; ns "Id"; ns "Othr"; ns "Id"]) = Some (pct_debtor_account_number tr) /\
    first_transaction first = None /\
    text_of (below second [ns "CdtTrfTxInf"; ns "PmtId"; ns "EndToEndId"]) = Some (pct_end_to_end_id tr) /\
    exists other, text_of (below second [ns "DbtrAcct"; ns "Id"; ns "Othr"; ns "Id"]) = Some other /\
      other <> pct_debtor_account_number tr.
Proof.
  set (first := instruction_node "ACC-1" []).
  set (second := instruction_node "ACC-2" [transaction_node (Some "E2E-2"%string) "ACC-3" "10.50" "SGD"]).
  exists (message [first; second]), first, second. eexists.
  split; [vm_compute; reflexivity|]. split; [vm_compute; reflexivity|].
  split; [vm_compute; reflexivity|]. split; [vm_compute; reflexivity|].
  split; [vm_compute; reflexivity|]. exists "ACC-2"%string.
  split; [vm_compute; reflexivity|]. discriminate.
Qed.

(** C34. On every message whose first transaction of the first payment instruction carries
    all the fields, parse_pain001 returns exactly those fields, as its documentation says,
    whatever other instructions, transactions, blocks and comments the message holds.  On
    other messages it need not: there is one where the parsed transfer takes its debtor from
    the first instruction, which has no transaction, and everything else from the second,
    whose own debtor is another account. *)
Theorem parse_pain001_reads_first_transaction :
  (forall fromstring bytes root instruction transaction tr,
     contains DOCTYPE bytes = false -> fromstring bytes = Some root ->
     first_instruction root = Some instruction -> first_transaction instruction = Some transaction ->
     documented root instruction transaction = Ok tr ->
     parse_pain001 fromstring bytes = Ok tr) /\
  exists root first second tr,
    List.filter (has_tag (ns "PmtInf")) (descendants root) = [first; second] /\
    transfer_of root = Ok tr /\
    text_of (below first [ns "DbtrAcct"; ns "Id"; ns "Othr"; ns "Id"]) = Some (pct_debtor_account_number tr) /\
    first_transaction first = None /\
    text_of (below second [ns "CdtTrfTxInf"; ns "PmtId"; ns "EndToEndId"]) = Some (pct_end_to_end_id tr) /\
    exists other, text_of (below second [ns "DbtrAcct"; ns "Id"; ns "Othr"; ns "Id"]) = Some other /\
      other <> pct_debtor_account_number tr.
Proof.
  split; [|exact mixed_instructions].
  intros fromstring bytes root instruction transaction tr Hdoc Hroot Hi Ht Hread.
  unfold parse_pain001. rewrite Hdoc, Hroot. unfold transfer_of.
  destruct (read_transfer_found _ _ _ _ _ _ Hread) as (_ & [e He] & [d Hd] & [c Hc] & [a Ha]).
  unfold documented in Hread. rewrite He, Hd, Hc, Ha in Hread.
  assert (Hin : forall path x, below transaction path = Some x ->
    find root (ns "PmtInf" :: ns "CdtTrfTxInf" :: path) = Some x).
  { intros path x Hx. eapply find_first; [exact Hi|]. by eapply below_first. }
  unfold END_TO_END_ID, DBTR_ACCT, CDTR_ACCT, INSTD_AMT.
  by rewrite (Hin _ _ He), (Hin _ _ Hc), (Hin _ _ Ha), (find_first _ _ _ _ _ Hi Hd).
Qed.

Lemma parse_pain001_reads_first_transaction_witness :
  parse_pain001
    (fun _ => Some (message [instruction_node "ACC-1" [transaction_node (Some " E2E-1 ") "ACC-2" "10.50" "SGD"]]))
    [60; 68]%N =
  Ok {| pct_message_id := "MSG-1"; pct_end_to_end_id := "E2E-1"; pct_debtor_account_number := "ACC-1";
        pct_creditor_account_number := "ACC-2"; pct_amount := of_cents 1050; pct_currency := "SGD" |}.
Proof.
  exact (proj1 parse_pain001_reads_first_transaction _ [60; 68]%N
    (message [instruction_node "ACC-1" [transaction_node (Some " E2E-1 ") "ACC-2" "10.50" "SGD"]])
    (instruction_node "ACC-1" [transaction_node (Some " E2E-1 ") "ACC-2" "10.50" "SGD"])
    (transaction_node (Some " E2E-1 ") "ACC-2" "10.50" "SGD") _ eq_refl eq_refl eq_refl eq_refl eq_refl).
Defined.
