(* ===== verification/IsoRuns.v ===== *)
(** IsoRuns: the ISO 20022 endpoints run alone, and what the messages they emit say. *)
From S2P Require Import Prelude Decimals PyText PyTime PyTimeFacts DecText PyVal Ledger Fx PaymentSM.
From S2P Require Import Recon Webhooks Store Session Repos SupportRepos LedgerService PaymentService.
From S2P Require Import Sgqr Dispatch ReconService Messages Responses Api Xml Iso20022 Atomicity Invariant Commits.
From S2P Require Import Transactions Alone AloneTransitions Settlement InitiationSafety Orphans Initiating.

#[local] Open Scope Z_scope.

(** * pacs.008 *)

Definition text_at (doc : Element) (path : list string) : option string := find doc path ≫= el_text.

(** The message says what the payment is: read with the same path search as the parser uses,
    it gives back the identifiers, names and account numbers it was built from, the exact
    decimal amount, the currency, and a creation time that parses to the second it was
    emitted in. *)
Record carries (p : Payment) (debtor_number debtor_name creditor_number creditor_name msg_id : string)
    (t : Z) (doc : Element) : Prop := {
  cy_msg_id : text_at doc ["GrpHdr"; "MsgId"]%string = Some msg_id;
  cy_created : (text_at doc ["GrpHdr"; "CreDtTm"]%string ≫= fromisoformat) =
    Some {| dt_wall := t / 1000000 * 1000000; dt_offset := Some 0 |};
  cy_tx_id : text_at doc ["CdtTrfTxInf"; "PmtId"; "TxId"]%string = Some (uuid_str (pay_id p));
  cy_end_to_end : text_at doc ["CdtTrfTxInf"; "PmtId"; "EndToEndId"]%string =
    Some (match pay_end_to_end_id p with None | Some EmptyString => uuid_str (pay_id p) | Some ref => ref end);
  cy_amount : (text_at doc ["CdtTrfTxInf"; "IntrBkSttlmAmt"]%string ≫= decimal_of_str) = Some (pay_amount p);
  cy_currency : (find doc ["CdtTrfTxInf"; "IntrBkSttlmAmt"]%string ≫= (fun el => get_attr el "Ccy"))
    = Some (pay_currency p);
  cy_debtor : text_at doc ["CdtTrfTxInf"; "Dbtr"; "Nm"]%string = Some debtor_name;
  cy_debtor_account :
    text_at doc ["CdtTrfTxInf"; "DbtrAcct"; "Id"; "Othr"; "Id"]%string = Some debtor_number;
  cy_creditor : text_at doc ["CdtTrfTxInf"; "Cdtr"; "Nm"]%string = Some creditor_name;
  cy_creditor_account :
    text_at doc ["CdtTrfTxInf"; "CdtrAcct"; "Id"; "Othr"; "Id"]%string = Some creditor_number;
}.

(** A clock reading that is a date of the calendar. *)
Definition calendar_time (t : Z) : Prop := 1 - EPOCH <= t / 1000000 / 86400 <= MAX_ORDINAL - EPOCH.

Lemma pacs008_reads_back p debtor_number debtor_name creditor_number creditor_name msg_id t :
  (exists s c e, pay_amount p = Fin s c e /\ representable c e = true) -> calendar_time t ->
  carries p debtor_number debtor_name creditor_number creditor_name msg_id t
    (pacs008_document p debtor_number debtor_name creditor_number creditor_name msg_id (isoformat_seconds t)).
Proof.
  intros (s & c & e & Ham & Hrep) Ht. split; try reflexivity.
  - change (fromisoformat (isoformat_seconds t) = Some {| dt_wall := t / 1000000 * 1000000; dt_offset := Some 0 |}).
    by apply fromisoformat_isoformat.
  - change (decimal_of_str (dec_str (pay_amount p)) = Some (pay_amount p)).
    rewrite Ham; by apply decimal_of_str_dec_str.
Qed.

(** A column's amount can be read back. *)
Lemma pos_column_representable d :
  pos_column d -> exists s c e, d = Fin s c e /\ representable c e = true.
Proof.
  intros (z & -> & Hz). unfold of_cents. eexists _, _, _. split; [reflexivity|].
  unfold representable. apply andb_true_intro. split; [done|].
  pose proof (ndigits_le (Z.abs_N z) 18) as Hn. destruct (Z.abs_N z =? 0)%N; apply Z.leb_le; [done|].
  assert (Hd : ndigits (Z.abs_N z) <= 18) by (apply Hn; lia). unfold MAX_EMAX. lia.
Qed.

Section endpoints.
Context `{Platform}.

(** A request that answers and leaves the database as it was. *)
Definition answers {A} (s s' : Sess) (r : result Exn (Http A)) (r' : result Exn (Http A)) : Prop :=
  r = r' /\ s_db s' = s_db s /\ s_commits s' = s_commits s.

Lemma alone_session {A} (body : Prog A) s Q :
  (forall t, alone body (with_open s t) (fun s' r => Q (with_sql s' (s_db s') []) r)) ->
  alone (get_db_session body) s Q.
Proof.
  intros Hb. unfold get_db_session.
  change (alone (OpenTx (Ret tt) ;; r ← attempt body; CloseTx (Ret tt) ;; of_result r) s Q).
  change (OpenTx (Ret tt)) with __aenter__. apply run_bind.
  match goal with |- alone __aenter__ ?s ?Q => enough (forall t, Q (with_open s t) (Ok tt)) by done end.
  intros t. apply run_bind, run_attempt. eapply run_mono; [apply Hb|].
  intros s' r HQ. apply run_bind.
  match goal with |- alone (CloseTx (Ret tt)) ?s ?Q => enough (Q (with_sql s (s_db s) []) (Ok tt)) by done end.
  by apply run_of_result.
Qed.

(** What the pacs.008 endpoint answers: 404 for an unknown payment, 409 for one that is not
    settled, and for a settled one the serialized message of that payment between the two
    accounts it names, which reads back as that payment, or a ValueError if one of their
    texts is not one XML can carry. *)
Definition emitted (xml_compatible : string -> bool) (tostring : Element -> list N) (pid : UUID)
    (s s' : Sess) (r : result Exn (Http (list N))) : Prop :=
  match payments (s_db s) !! pid with
  | None => answers s s' r (Ok (HTTPException 404 (says "payment not found")))
  | Some p =>
      if decide (pay_status p = SETTLED) then
        exists d c msg t,
          accounts (s_db s) !! pay_debtor_account_id p = Some d /\
          accounts (s_db s) !! pay_creditor_account_id p = Some c /\
          let doc := pacs008_document p (acc_account_number d) (acc_owner_name d)
                       (acc_account_number c) (acc_owner_name c) (uuid_str msg) (isoformat_seconds t) in
          (calendar_time t -> carries p (acc_account_number d) (acc_owner_name d)
             (acc_account_number c) (acc_owner_name c) (uuid_str msg) t doc) /\
          answers s s' r (if forallb xml_compatible (texts doc)
                          then Ok (Response 200 (tostring doc)) else Err ValueError)
      else answers s s' r (Ok (HTTPException 409 (exn_str (Pacs008EmissionError (pay_status p)))))
  end.

(** C33. The pacs.008 endpoint emits settled payments only, on any state that satisfies the
    invariant: the message is that of the payment asked for, between the accounts its row
    names, which are there, and reads back to the payment's identifiers, names, account
    numbers, exact amount and currency and the second of its creation; every other request is
    a 404 or a 409; nothing is ever written. *)
Theorem emit_pacs008_correct xml_compatible tostring pid s :
  Inv (s_db s) ->
  alone (emit_pacs008 xml_compatible tostring pid) s (emitted xml_compatible tostring pid s).
Proof.
  intros HI. unfold emitted. apply alone_session. intros t0. apply run_bind, run_attempt, alone_select.
  change (view (s_db (with_open s t0)) (s_log (with_open s t0))) with (s_db s).
  destruct (payments (s_db s) !! pid) as [p|] eqn:Hp; cbn [or_raise]; [|by apply run_ret].
  pose proof (inv_payment _ HI _ _ Hp) as Hok.
  destruct (po_debtor _ _ _ Hok) as [d Hd]. destruct (po_creditor _ _ _ Hok) as [c Hc].
  apply run_bind, (alone_get_account _ d); [done|]. cbv beta iota.
  apply run_bind, (alone_get_account _ c); [done|]. cbv beta iota.
  apply run_bind, run_attempt. unfold build_pacs008.
  destruct (decide (pay_status p = SETTLED)) as [Hst|Hst].
  - rewrite bool_decide_true by done. cbn [negb]. apply run_bind, run_uuid4. intros msg _.
    apply run_bind, run_now. intros t. cbv beta iota zeta.
    pose proof (pacs008_reads_back p (acc_account_number d) (acc_owner_name d) (acc_account_number c)
      (acc_owner_name c) (uuid_str msg) t (pos_column_representable _ (po_amount _ _ _ Hok))) as Hback.
    set (doc := pacs008_document _ _ _ _ _ _ _) in *.
    destruct (forallb xml_compatible (texts doc)) eqn:Hx.
    + apply run_ret, run_ret. exists d, c, msg, t. fold doc. by rewrite Hx.
    + apply run_raise, run_raise. exists d, c, msg, t. fold doc. by rewrite Hx.
  - rewrite bool_decide_false by done. cbn [negb]. by apply run_raise, run_ret.
Qed.

(** ** pain.001 *)

Definition known (db : DB) (number : string) (a : Account) : Prop :=
  accounts db !! acc_id a = Some a /\ acc_account_number a = number.
Definition unknown (db : DB) (number : string) : Prop :=
  forall i x, accounts db !! i = Some x -> acc_account_number x <> number.

Lemma alone_known number a s Q :
  Inv (cur s) -> known (cur s) number a -> Q s (Ok a) -> alone (get_account_by_number number) s Q.
Proof.
  intros HI [Ha Hnum]. apply (alone_get_by_number _ (acc_id a)); [|done|done].
  intros i j x y Hi Hj. exact (inv_account_number _ HI i j x y Hi Hj).
Qed.

(** The account number that is looked up in vain: the debtor's comes first. *)
Definition unfound (db : DB) (tr : Pain001CreditTransfer) (number : string) : Prop :=
  unknown db number /\
  (number = pct_debtor_account_number tr \/
   (exists a, known db (pct_debtor_account_number tr) a) /\ number = pct_creditor_account_number tr).

(** The payment instruction found in a message, resolved to two accounts, as a request. *)
Definition requested (tr : Pain001CreditTransfer) (a b : Account) (P : UUID -> UUID -> Decimal -> string ->
    option string -> Prop) : Prop :=
  P (acc_id a) (acc_id b) (pct_amount tr) (pct_currency tr) (Some (pct_end_to_end_id tr)).

(** The answer to a transfer between two known accounts that is not even attempted. *)
Definition refusal (tr : Pain001CreditTransfer) (a b : Account) : option (result Exn (Http PaymentResponse)) :=
  match _validate_new_payment (pct_amount tr) (acc_id a) (acc_id b) with
  | Err ((InvalidPaymentAmountError _ | SamePaymentAccountError _) as e) =>
      Some (Ok (HTTPException 422 (exn_str e)))
  | Err e => Some (Err e)
  | Ok tt =>
      if decide (acc_currency a = pct_currency tr) then None
      else Some (Err (PaymentCurrencyMismatchError (acc_currency a) (pct_currency tr)))
  end.

(** The answer to one that is carried out: a new payment, committed once. *)
Definition initiated (tr : Pain001CreditTransfer) (a b : Account) (s s' : Sess)
    (r : result Exn (Http PaymentResponse)) : Prop :=
  exists id, let p := payment_row id (acc_id a) (acc_id b) (pct_amount tr) (pct_currency tr)
                        (Some (pct_end_to_end_id tr)) in
    r = Ok (Response 201 (payment_response p)) /\ created_once s p s'.

#[local] Abbreviation ingest_request tr a b :=
  (translating
    ingest_answer
    (initiate_payment (acc_id a) (acc_id b) (pct_amount tr) (pct_currency tr)
       (Some (pct_end_to_end_id tr)))
    (fun payment => Ret (Response 201 (payment_response payment)))).

Lemma validation_error amount d c e :
  _validate_new_payment amount d c = Err e ->
  match e with InvalidPaymentAmountError _ | SamePaymentAccountError _ | EDecimal _ => True | _ => False end.
Proof.
  unfold _validate_new_payment. destruct (dec_le0 amount) as [[]|]; cbn; [by intros [= <-]| |by intros [= <-]].
  destruct (bool_decide (d = c)); by intros [= <-].
Qed.

Lemma alone_ingest_refused tr a b o s Q :
  known (s_db s) (pct_debtor_account_number tr) a -> refusal tr a b = Some o ->
  (forall s', answers s s' o o -> Q s' o) -> alone (ingest_request tr a b) s Q.
Proof.
  intros [Ha _] Ho HQ. apply run_bind, run_attempt. unfold refusal in Ho. unfold initiate_payment.
  destruct (_validate_new_payment _ _ _) as [[]|e] eqn:Hv.
  - destruct (decide (acc_currency a = pct_currency tr)) as [Hccy|Hne]; [done|]. injection Ho as <-.
    apply run_bind, run_ret, run_with_uow. intros t. apply run_bind, run_bind, run_bind, alone_select.
    fold (cur (with_open s t)). change (cur (with_open s t)) with (s_db s). rewrite Ha.
    cbn [or_raise]. rewrite bool_decide_false by done. apply run_raise.
    cbv beta iota. apply run_raise, HQ. by split_and!.
  - apply run_bind, run_raise. apply validation_error in Hv.
    destruct e; try done; injection Ho as <-; first [apply run_ret | apply run_raise]; apply HQ; by split_and!.
Qed.

Lemma alone_ingest_initiated tr a b s Q :
  requested tr a b (payable (s_db s)) -> (forall s' r, initiated tr a b s s' r -> Q s' r) ->
  alone (ingest_request tr a b) s Q.
Proof.
  intros Hpay HQ. apply run_bind, run_attempt, alone_initiate; [exact Hpay|]. intros id s' Hs'.
  cbv beta iota. apply run_ret, HQ. by exists id.
Qed.

(** What becomes of any transfer that is not refused: its amount is rounded to the column's,
    and its payment is created, or nothing is left of the amount, or one of its fields is not
    one the column takes. *)
Inductive ingested (tr : Pain001CreditTransfer) (a b : Account) (s s' : Sess) :
    result Exn (Http PaymentResponse) -> Prop :=
| ingested_created id x :
    let p := payment_row id (acc_id a) (acc_id b) x (pct_currency tr) (Some (pct_end_to_end_id tr)) in
    pg_numeric_18_2 (pct_amount tr) = Some x -> pos_column x ->
    varchar 3 (pct_currency tr) = true -> varchar 35 (pct_end_to_end_id tr) = true ->
    created_once s p s' -> ingested tr a b s s' (Ok (Response 201 (payment_response p)))
| ingested_nothing x :
    pg_numeric_18_2 (pct_amount tr) = Some x -> sql_gt0 x = false ->
    varchar 3 (pct_currency tr) = true -> varchar 35 (pct_end_to_end_id tr) = true ->
    untouched s s' ->
    ingested tr a b s s' (Ok (HTTPException 404 (says "debtor or creditor account does not exist")))
| ingested_unstorable column :
    (column = "amount"%string /\ pg_numeric_18_2 (pct_amount tr) = None) \/
    (column = "currency"%string /\ varchar 3 (pct_currency tr) = false) \/
    (column = "end_to_end_id"%string /\ varchar 35 (pct_end_to_end_id tr) = false) ->
    untouched s s' -> ingested tr a b s s' (Err (DataError column)).

Lemma positive_amount amount d c : _validate_new_payment amount d c = Ok tt -> dec_le0 amount = Ok false.
Proof. unfold _validate_new_payment. by destruct (dec_le0 amount) as [[]|]. Qed.

Lemma ingested_error tr a b s s' e :
  columns (pct_amount tr) (pct_currency tr) (Some (pct_end_to_end_id tr)) = Err e -> untouched s s' ->
  ingested tr a b s s' (match ingest_answer e with
                        | Some (status, detail) => Ok (HTTPException status detail) | None => Err e end).
Proof.
  unfold columns. cbn [varchar_opt from_option].
  destruct (pg_numeric_18_2 (pct_amount tr)) as [x|] eqn:Hx.
  2: { intros [= <-] Hs. apply ingested_unstorable; [by left|done]. }
  destruct (varchar 3 (pct_currency tr)) eqn:H3.
  2: { intros [= <-] Hs. apply ingested_unstorable; [by right; left|done]. }
  destruct (varchar 35 (pct_end_to_end_id tr)) eqn:H35.
  2: { intros [= <-] Hs. apply ingested_unstorable; [by right; right|done]. }
  cbn [negb]. destruct (sql_gt0 x) eqn:Hgt; [done|]. intros [= <-] Hs. by apply (ingested_nothing _ _ _ _ _ x).
Qed.

Lemma alone_ingest_resolved tr a b s Q :
  refusal tr a b = None -> resolved (s_db s) (acc_id a) (acc_id b) (pct_currency tr) ->
  (forall s' r, ingested tr a b s s' r -> Q s' r) -> alone (ingest_request tr a b) s Q.
Proof.
  intros Href Hres HQ. apply run_bind, run_attempt.
  assert (Hvalid : _validate_new_payment (pct_amount tr) (acc_id a) (acc_id b) = Ok tt).
  { unfold refusal in Href. by destruct (_validate_new_payment _ _ _) as [[]|[]]. }
  apply alone_initiate_resolved; [done|done| |].
  - intros e s' Hcol Hs'. pose proof (ingested_error tr a b s s' e Hcol Hs') as Hin. cbv beta iota.
    destruct (ingest_answer e) as [[status detail]|]; [apply run_ret|apply run_raise]; by apply HQ.
  - intros id x s' Hcol Hs'. cbv beta iota. apply run_ret, HQ. revert Hcol. unfold columns.
    cbn [varchar_opt from_option]. destruct (pg_numeric_18_2 _) as [y|] eqn:Hy; [|done].
    destruct (varchar 3 _) eqn:H3; [|done]. destruct (varchar 35 _) eqn:H35; [|done]. cbn [negb].
    destruct (sql_gt0 y) eqn:Hgt; [|done]. intros [= ->]. apply ingested_created; try done.
    by eapply stored_positive, Hgt; [exact Hy|eapply positive_amount].
Qed.

End endpoints.
