(* ===== verification/Reads.v ===== *)
(** Reads: the endpoints that only read.

    [read_only m]: no statement of [m] writes a row, and [m] never commits.  Read off the
    shape of a program, this says of every execution that the database is left alone. *)
From S2P Require Import Prelude Decimals PyText PyVal Ledger Fx PaymentSM Recon Sgqr Webhooks.
From S2P Require Import Store Session Repos SupportRepos LedgerService PaymentService Dispatch.
From S2P Require Import ReconService Responses Api Xml Iso20022 Invariant Commits Transactions.
From S2P Require Import PaymentRuns.

#[local] Open Scope Z_scope.

Fixpoint read_only {A} (m : Prog A) : Prop :=
  match m with
  | Ret _ | Raise _ => True
  | Sql stmt k =>
      (forall now db r ws, stmt now db = Ok (r, ws) -> ws = []) /\ forall r, read_only (k r)
  | NewUuid k => forall u, read_only (k u)
  | Now k => forall t, read_only (k t)
  | OpenTx k | Rollback k | CloseTx k | Sleep _ k => read_only k
  | Send _ k => forall r, read_only (k r)
  | Commit _ => False
  end.

(** * Combinators *)

Lemma read_only_bind {A B} (m : Prog A) (f : A -> Prog B) :
  read_only m -> (forall a, read_only (f a)) -> read_only (m ≫= f).
Proof. intros Hm Hf. unfold mbind, prog_mbind. induction m; simpl in *; intuition auto. Qed.
Lemma read_only_attempt {A} (m : Prog A) : read_only m -> read_only (attempt m).
Proof. intros Hm. induction m; simpl in *; intuition auto. Qed.
Lemma read_only_of_result {A} (r : result Exn A) : read_only (of_result r).
Proof. by destruct r. Qed.
Lemma read_only_ret {A} (a : A) : read_only (Ret a).
Proof. done. Qed.
Lemma read_only_raise {A} e : read_only (@Raise A e).
Proof. done. Qed.
Lemma read_only_now : read_only now.
Proof. done. Qed.
Lemma read_only_uuid4 : read_only uuid4.
Proof. done. Qed.
Lemma read_only_select {R} (q : DB -> result Exn R) : read_only (select q).
Proof.
  split; [|intros r; apply read_only_of_result].
  intros t db r ws. unfold select. destruct (q db); simpl; congruence.
Qed.

Create HintDb reads.
#[export] Hint Resolve read_only_select read_only_of_result read_only_ret read_only_raise
  read_only_now read_only_uuid4 : reads.

Lemma read_only_session {A} (body : Prog A) : read_only body -> read_only (get_db_session body).
Proof.
  intros Hb. simpl. apply read_only_bind; [by apply read_only_attempt|].
  intros r. apply read_only_of_result.
Qed.

Lemma read_only_translating {A B} answer_of (m : Prog A) (ok : A -> Prog (Http B)) :
  read_only m -> (forall a, read_only (ok a)) -> read_only (translating answer_of m ok).
Proof.
  intros Hm Hok. apply read_only_bind; [by apply read_only_attempt|].
  intros [a|e]; [apply Hok|]. by destruct (answer_of e) as [[status detail]|].
Qed.

(** Follows a handler written with sessions, translations, binds and conditionals. *)
Ltac by_reads :=
  repeat first
    [ solve [auto with reads]
    | apply read_only_session
    | apply read_only_translating; [|intros ?]
    | apply read_only_bind; [|intros ?]
    | apply read_only_attempt
    | progress unfold validated
    | case_match ].

(** * Meaning *)

#[local] Transparent every_run.
Lemma run_read_only {A} (m : Prog A) s :
  read_only m -> Inv (s_db s) -> s_log s = [] ->
  runs m s (fun s' _ => Inv (s_db s') /\ s_log s' = [] /\ s_commits s' = s_commits s).
Proof.
  unfold runs. revert s. induction m as [| |R stmt k IH|? IH|? IH|? IH|? IH|? IH|? IH|a ? IH|rq ? IH];
    intros s Hm HI Hl; cbn [every_run read_only] in *; try done.
  - destruct Hm as [Hw Hk]. split; [|intros _; by apply IH].
    intros db (HIdb & _). destruct (stmt _ _) as [[r ws]|e] eqn:Hs.
    + rewrite (Hw _ _ _ _ Hs), app_nil_r. by apply (IH (Ok r) (with_sql s db (s_log s))).
    + by apply (IH (Err e) (with_sql s db (s_log s))).
  - intros u _. by apply IH.
  - intros t. by apply IH.
  - intros t. by apply (IH (with_open s t)).
  - by apply (IH (with_sql s (s_db s) [])).
  - by apply (IH (with_sql s (s_db s) [])).
  - by apply (IH (with_sleep s a)).
  - intros r. by apply (IH r (with_sent s rq r)).
Qed.
#[local] Opaque every_run.

(** * The read endpoints *)

Section endpoints.
Context `{Platform}.

Lemma read_only_health : read_only health.
Proof. done. Qed.
Lemma read_only_health_db : read_only health_db.
Proof. unfold health_db. by_reads. Qed.
Lemma read_only_get_account id : read_only (http_get_account id).
Proof. unfold http_get_account, get_account. by_reads. Qed.
Lemma read_only_balance id c : read_only (get_account_balance id c).
Proof. unfold get_account_balance, get_account, get_balance. by_reads. Qed.
Lemma read_only_get_payment id : read_only (http_get_payment id).
Proof. unfold http_get_payment, get_payment. by_reads. Qed.
Lemma read_only_dead_letters : read_only http_list_dead_letters.
Proof. unfold http_list_dead_letters, list_dead_letters. by_reads. Qed.
Lemma read_only_qr make raised body : read_only (generate_qr make raised body).
Proof. unfold generate_qr, get_account. by_reads. Qed.
Lemma read_only_get_run id : read_only (get_reconciliation_run id).
Proof. unfold get_reconciliation_run, get_run, list_breaks_for_run. by_reads. Qed.
Lemma read_only_pacs008 compatible tostring id : read_only (emit_pacs008 compatible tostring id).
Proof. unfold emit_pacs008, get_payment, get_account, build_pacs008. by_reads. Qed.
End endpoints.

#[export] Hint Resolve read_only_health read_only_health_db read_only_get_account read_only_balance
  read_only_get_payment read_only_dead_letters read_only_qr read_only_get_run read_only_pacs008
  : reads.
