(* ===== verification/SystemSafety.v ===== *)
(** SystemSafety: every operation of the system, run among arbitrary others, commits only
    states that satisfy the ledger's invariant. *)
From S2P Require Import Prelude Decimals PyText PyVal Ledger Fx PaymentSM Recon Sgqr Webhooks.
From S2P Require Import Store Session Repos SupportRepos LedgerService PaymentService Backoff.
From S2P Require Import Dispatch ReconService Csv Messages Responses Api Xml Iso20022 Invariant Commits Transactions PaymentRuns.
From S2P Require Import PaymentSafety InitiationSafety.

#[local] Open Scope Z_scope.

(** * Side transactions: accounts, subscriptions, deliveries, reconciliation *)

Definition harmless_write (w : Write) : Prop :=
  match w with PutDelivery _ | AddFileRecord _ | AddBreak _ => True | _ => False end.

Lemma side_harmless db log ws :
  Forall harmless_write ws -> side_facts db log -> side_facts db (log ++ ws).
Proof.
  intros Hws [Hp He Hl Hh Ha H1 Hk Hs Hr].
  assert (Hn : log_accounts ws = [] /\ log_entries ws = [] /\ log_lines ws = [] /\ log_keys ws = [] /\
     log_subscriptions ws = [] /\ log_runs ws = [] /\ log_payments ws = [] /\ log_history ws = []).
  { induction Hws as [|[] ws Hw _ IH]; by simpl in *. }
  destruct Hn as (N1 & N2 & N3 & N4 & N5 & N6 & N7 & N8).
  split; log_unfold; rewrite ?omap_app; fold (log_accounts ws); fold (log_entries ws);
    fold (log_lines ws); fold (log_keys ws); fold (log_subscriptions ws); fold (log_runs ws);
    fold (log_payments ws); fold (log_history ws);
    rewrite ?N1, ?N2, ?N3, ?N4, ?N5, ?N6, ?N7, ?N8, ?app_nil_r; done.
Qed.

Lemma side_state_harmless cs s ws :
  Forall harmless_write ws -> side_state cs s ->
  side_state cs (with_sql s (s_db s) (s_log s ++ ws)).
Proof. intros Hws [HI Hcs Hf]. split; simpl; [done|done|by apply side_harmless]. Qed.

Lemma run_side_harmless cs {R} (stmt : Stmt R) s Q :
  side_state cs s -> on_error Q ->
  (forall t db r ws, stmt t db = Ok (r, ws) -> Forall harmless_write ws) ->
  (forall s' r, side_state cs s' -> Q s' (Ok r)) ->
  runs (sql stmt) s Q.
Proof.
  intros Hs He Hws HQ. eapply run_side_sql; [done|done|]. intros s' r ws Hs' _ Hstmt.
  apply HQ, side_state_harmless; [by eapply Hws|done].
Qed.

Lemma run_commit_ret {A} cs (a : A) s :
  side_state cs s -> runs (commit ;; Ret a) s (fun s' r => Inv (s_db s')).
Proof.
  intros Hs. apply run_bind. eapply run_side_commit; [done|apply Hs|]. intros s' HI _ _ _. by apply run_ret.
Qed.

(** ** Sessions and translated exceptions *)

(** The session of a request is closed when its body ends, whatever it returns. *)
Lemma run_session {A} (body : Prog A) s Q :
  (forall t, runs body (with_open s t) (fun s' r => Q (with_sql s' (s_db s') []) r)) ->
  runs (get_db_session body) s Q.
Proof.
  intros Hb. unfold get_db_session.
  change (runs (OpenTx (Ret tt) ;; r ← attempt body; CloseTx (Ret tt) ;; of_result r) s Q).
  change (OpenTx (Ret tt)) with __aenter__. apply run_bind.
  match goal with |- runs __aenter__ ?s ?Q => enough (forall t, Q (with_open s t) (Ok tt)) by done end.
  intros t. apply run_bind, run_attempt. eapply run_mono; [apply Hb|].
  intros s' r HQ. apply run_bind.
  match goal with |- runs (CloseTx (Ret tt)) ?s ?Q => enough (Q (with_sql s (s_db s) []) (Ok tt)) by done end.
  by apply run_of_result.
Qed.

Lemma run_get_db_session {A} (body : Prog A) s :
  Inv (s_db s) -> (forall t, side_state (s_commits s) (with_open s t) -> runs body (with_open s t) keeps_inv) ->
  runs (get_db_session body) s keeps_inv.
Proof. intros HI Hb. apply run_session. intros t. eapply run_mono; [by apply Hb, side_start|done]. Qed.

Lemma run_translating {A B} answer_of (m : Prog A) (ok : A -> Prog (Http B)) s :
  runs m s (fun s' r => Inv (s_db s') /\ match r with Ok a => runs (ok a) s' keeps_inv | Err _ => True end) ->
  runs (translating answer_of m ok) s keeps_inv.
Proof.
  intros Hm. apply run_bind, run_attempt. eapply run_mono; [apply Hm|].
  intros s' [a|e] [HI Hr]; [done|]. cbv beta iota.
  destruct (answer_of e) as [[status detail]|]; [by apply run_ret|by apply run_raise].
Qed.

Lemma run_translating_ret {A B} answer_of (m : Prog A) (ok : A -> Http B) s :
  runs m s keeps_inv -> runs (translating answer_of m (fun a => Ret (ok a))) s keeps_inv.
Proof.
  intros Hm. apply run_translating. eapply run_mono; [apply Hm|].
  intros s' [a|e] HI; (split; [done|]); [by apply run_ret|done].
Qed.

Lemma run_validated {A} valid (handler : Prog (Http A)) s :
  Inv (s_db s) -> runs handler s keeps_inv -> runs (validated valid handler) s keeps_inv.
Proof. intros HI Hh. destruct valid; [done|by apply run_ret]. Qed.

Lemma run_side_read {R} cs (q : DB -> result Exn R) s Q :
  side_state cs s -> on_error Q -> (forall s' r, side_state cs s' -> Q s' (Ok r)) ->
  runs (select q) s Q.
Proof.
  intros Hs He HQ. eapply run_side_select; [done|apply He, Hs|]. intros s' Hs' _.
  destruct (q _); [by apply HQ|by apply He, Hs'].
Qed.

Section operations.
Context `{Platform}.

(** ** Accounts and subscriptions *)

Lemma run_create_account cs n o ty c s Q :
  side_state cs s -> s_log s = [] -> on_error Q ->
  (forall s' a, side_state cs s' -> Q s' (Ok a)) -> runs (create_account n o ty c) s Q.
Proof.
  intros Hs Hlog He HQ. apply run_bind, run_uuid4. intros u _. cbv beta iota. apply run_bind.
  eapply run_side_sql; [done|intros ? ? ?; by apply He|]. intros s1 [] ws Hs1 Hl Hstmt.
  rewrite Hlog in Hl. unfold insert_account in Hstmt. rewrite Hl in *. stmt_ok Hstmt.
  eapply run_side_read; [|done|intros ? ? ?; by apply HQ].
  destruct Hs1 as [HI Hcs _]. split; [done|done|]. simpl.
  repeat match goal with
  | Hk : no_key _ _ = true |- _ => apply bool_decide_eq_true in Hk
  | Hk : bool_decide _ = true |- _ => apply bool_decide_eq_true in Hk
  end.
  split; simpl; first [done|lia|by apply Forall_nil|by apply Forall_singleton].
Qed.

Lemma run_post_account body s : Inv (s_db s) -> runs (post_account body) s keeps_inv.
Proof.
  intros HI. apply run_validated; [done|]. apply run_get_db_session; [done|]. intros t Hs.
  apply run_bind, run_attempt, run_bind.
  assert (He : forall s' e, Inv (s_db s') -> runs (if is_integrity e then rollback ;; Ret (HTTPException 409 (says "account_number already exists"))
  else Raise e : Prog (Http AccountResponse)) s' keeps_inv).
  { intros s' e HI'. destruct (is_integrity e); [by apply run_bind, run_rollback, run_ret|by apply run_raise]. }
  eapply run_create_account; [done|done|intros ? ? ?; by apply He|].
  intros s1 a Hs1. cbv beta iota. eapply run_mono; [by eapply run_commit_ret|].
  intros s2 [b|e] HI2; [by apply run_ret|by apply He].
Qed.

Lemma run_post_subscription body s : Inv (s_db s) -> runs (post_subscription body) s keeps_inv.
Proof.
  intros HI. apply run_validated; [done|]. apply run_get_db_session; [done|]. intros t Hs.
  apply run_bind, run_bind, run_uuid4. intros u _. cbv beta iota. apply run_bind.
  eapply run_side_sql; [done|by intros ? ? ?|]. intros s1 [] ws Hs1 Hl Hstmt.
  simpl in Hl. unfold insert_subscription in Hstmt. rewrite Hl in *. stmt_ok Hstmt.
  assert (Hs2 : side_state (s_commits s) (with_sql s1 (s_db s1) [PutSubscription (Build_WebhookSubscription u
  (cwr_url body) (cwr_secret body) (cwr_event_types body) true)])).
  { destruct Hs1 as [HI1 Hcs _]. split; [done|done|]. simpl.
  match goal with Hk : no_key _ _ = true |- _ => apply bool_decide_eq_true in Hk end.
  split; simpl; first [done|lia|by apply Forall_nil|by apply Forall_singleton]. }
  eapply run_side_read; [done|by intros ? ? ?|]. intros s3 sub Hs3. cbv beta iota.
  by eapply run_commit_ret.
Qed.

(** ** Webhook deliveries *)

Lemma run_flush_delivery cs loaded target s Q :
  side_state cs s -> on_error Q -> (forall s', side_state cs s' -> Q s' (Ok tt)) ->
  runs (flush_delivery loaded target) s Q.
Proof.
  intros Hs He HQ. unfold flush_delivery. case_decide; [by apply run_ret, HQ|].
  eapply run_side_harmless; [done|done| |by intros ? []; apply HQ].
  intros t db r ws. destruct (_ !! _); [|done]. intros Hstmt. stmt_ok Hstmt. by repeat constructor.
Qed.

Lemma run_mark cs (mark : WebhookDelivery -> WebhookDelivery) id s Q :
  side_state cs s -> on_error Q -> (forall s', side_state cs s' -> Q s' (Ok tt)) ->
  runs (row ← load_delivery id; flush_delivery row (mark row)) s Q.
Proof.
  intros Hs He HQ. apply run_bind. eapply run_side_read; [done|intros ? ? ?; by apply He|].
  intros s1 row Hs1. by eapply run_flush_delivery.
Qed.

Lemma run_dispatch_one d sub max_attempts s :
  Inv (s_db s) -> runs (dispatch_one_delivery d sub max_attempts) s keeps_inv.
Proof.
  intros HI. apply run_bind, run_send. intros answer. cbv beta iota.
  apply (run_with_uow _ _ _ _ keeps_inv). intros t.
  assert (Hs : side_state (s_commits s) (with_open (with_sent s (delivery_request d sub) answer) t))
  by by apply side_start.
  revert Hs. generalize (with_open (with_sent s (delivery_request d sub) answer) t). intros s1 Hs1.
  assert (Hc : forall s2, side_state (s_commits s) s2 ->
  runs commit s2 (fun s' r => keeps_inv (with_sql s' (s_db s') []) (r : result Exn unit))).
  { intros s2 Hs2. eapply run_side_commit; [done|apply Hs2|]. by intros. }
  apply run_bind. destruct (delivery_error answer) as [error|].
  - destruct (max_attempts <=? _).
  + eapply run_mark; [done|by intros ? ? ?|done].
  + apply run_bind, run_now. intros t1. cbv beta iota. apply run_bind, run_of_result.
    destruct (backoff_us _); [|by apply Hs1]. eapply run_mark; [done|by intros ? ? ?|done].
  - eapply run_mark; [done|by intros ? ? ?|done].
Qed.

Lemma keeps_dispatch_each due subs max_attempts s :
  Inv (s_db s) -> runs (dispatch_each due subs max_attempts) s keeps_inv.
Proof.
  revert s. induction due as [|d due IH]; intros s HI; [by apply run_ret|]. cbn [dispatch_each].
  apply run_bind. destruct (subs !! _) as [sub|].
  - eapply run_mono; [by apply run_dispatch_one|]. intros s' [[]|e] HI'; [by apply IH|done].
  - by apply run_ret, IH.
Qed.

Lemma run_dispatch_job max_attempts s :
  Inv (s_db s) -> runs (_dispatch_webhooks_job max_attempts) s keeps_inv.
Proof.
  intros HI. apply run_bind, run_attempt. eapply (run_mono _ _ _ _ keeps_inv); [|intros; by apply run_ret].
  apply run_bind, run_now. intros t. cbv beta iota.
  apply run_bind, (run_with_uow _ _ _ _ (fun s' r =>
    match r with Ok a => runs _ s' keeps_inv | Err e => keeps_inv s' (Err e : result Exn Z) end)).
  intros t1. apply run_bind. eapply run_side_read; [by apply side_start|by intros ? ? ?|].
  intros s1 due Hs1. cbv beta iota. apply run_bind. eapply run_side_read; [done|by intros ? ? ?|].
  intros s2 subs Hs2. apply run_ret. cbv beta iota. apply run_bind.
  eapply run_mono; [apply keeps_dispatch_each, Hs2|]. intros s3 [[]|e] HI3; [by apply run_ret|done].
Qed.

(** ** Reconciliation *)

Lemma rows_harmless {A B} (f : A -> result Exn B) (w : B -> Write) l rows :
  (forall x, harmless_write (w x)) -> mapM f l = Ok rows -> Forall harmless_write (w <$> rows).
Proof. intros Hw _. apply Forall_fmap, Forall_true. intros. apply Hw. Qed.

Lemma run_record_run cs batch result s Q :
  side_state cs s -> on_error Q -> log_runs (s_log s) = [] ->
  (forall s' i, side_state cs s' -> Q s' (Ok i)) -> runs (record_run batch result) s Q.
Proof.
  intros Hs He Hno HQ. apply run_bind, run_uuid4. intros u _. cbv beta iota. apply run_bind.
  eapply run_side_sql; [done|intros ? ? ?; by apply He|]. intros s1 [] ws Hs1 Hl Hstmt.
  unfold insert_run in Hstmt. stmt_ok Hstmt.
  match goal with Hk : no_key _ _ = true |- _ =>
  apply bool_decide_eq_true in Hk; rewrite Hl, runs_view, Hno in Hk; rename Hk into Hnone end.
  match goal with |- context [AddRun ?r] => set (run := r) in * end.
  assert (Hs2 : side_state cs (with_sql s1 (s_db s1) (s_log s1 ++ [AddRun run]))).
  { destruct Hs1 as [HI Hcs [Hp He1 Hl1 Hh Ha Hone Hk Hsu Hr]]. split; simpl; [done|done|].
  split; log_unfold; rewrite ?omap_app; fold (log_accounts (s_log s1)); fold (log_entries (s_log s1));
    fold (log_lines (s_log s1)); fold (log_keys (s_log s1)); fold (log_subscriptions (s_log s1));
    fold (log_runs (s_log s1)); fold (log_payments (s_log s1)); fold (log_history (s_log s1));
    simpl; rewrite ?app_nil_r; try done.
  apply Forall_app. split; [done|by apply Forall_singleton]. }
  apply run_bind. eapply run_side_harmless; [done|intros ? ? ?; by apply He| |].
  - intros t db r ws Hstmt. unfold insert_breaks in Hstmt. stmt_ok Hstmt.
  by eapply rows_harmless.
  - intros s3 [] Hs3. by apply run_ret, HQ.
Qed.

Lemma run_run_reconciliation batch records t0 t1 s :
  Inv (s_db s) -> runs (run_reconciliation batch records t0 t1) s keeps_inv.
Proof.
  intros HI. apply (run_with_uow _ _ _ _ keeps_inv). intros t.
  apply run_bind. eapply run_side_sql; [by apply side_start|by intros ? ? ?|].
  intros s1 [] ws Hs1 Hl Hstmt. simpl in Hl. stmt_ok Hstmt. rewrite Hl in *.
  match goal with Hm : mapM _ _ = Ok ?r |- _ => rename r into rows; pose proof (rows_harmless _ AddFileRecord _ _ (fun _ => I) Hm) as Hh end.
  assert (Hno : log_runs (AddFileRecord <$> rows) = []) by by log_simpl.
  pose proof (side_state_harmless _ _ _ Hh Hs1) as Hs2. rewrite Hl in Hs2.
  apply run_bind. eapply run_side_select; [exact Hs2|apply Hs2|]. intros s3 Hs3 Hl3. cbv beta iota.
  apply run_bind, run_of_result. destruct (match_refs _ _) as [res|]; [|by apply Hs3]. cbn [map_err].
  apply run_bind. eapply run_record_run; [done|by intros ? ? ?|by rewrite Hl3|].
  intros s4 i Hs4. cbv beta iota. eapply run_mono; [by eapply run_commit_ret|]. by intros.
Qed.

Lemma run_reconciliation_request body hours s :
  Inv (s_db s) -> runs (run_reconciliation_endpoint body hours) s keeps_inv.
Proof.
  intros HI. apply run_bind, run_of_result. destruct body as [content|]; [|done]. cbn [or_raise].
  apply run_translating, run_of_result. split; [done|].
  destruct (parse_settlement_csv content) as [records|]; [|done]. cbn [map_err].
  apply run_bind, run_now. intros t. cbv beta iota. apply run_bind, run_of_result.
  destruct (window_start_of t hours); [|done]. apply run_bind, run_uuid4. intros b _. cbv beta iota.
  apply run_bind. eapply run_mono; [by apply run_run_reconciliation|].
  intros s' [[i r]|e] HI'; [by apply run_ret|done].
Qed.

Lemma run_reconciliation_job text hours s : Inv (s_db s) -> runs (_run text hours) s keeps_inv.
Proof.
  intros HI. apply run_bind, run_of_result. destruct text as [content|]; [|done]. cbn [or_raise].
  apply run_bind, run_of_result.
  destruct (parse_settlement_csv content) as [records|]; [|done]. cbn [map_err].
  apply run_bind, run_now. intros t. cbv beta iota. apply run_bind, run_of_result.
  destruct (window_start_of t hours); [|done]. apply run_bind, run_uuid4. intros b _. cbv beta iota.
  apply run_bind. eapply run_mono; [by apply run_run_reconciliation|].
  intros s' [[i r]|e] HI'; [by apply run_ret|done].
Qed.

(** ** ISO 20022 *)

Lemma run_ingest fromstring body s : Inv (s_db s) -> runs (ingest_pain001 fromstring body) s keeps_inv.
Proof.
  intros HI. apply run_get_db_session; [done|]. intros t Hs.
  destruct (parse_pain001 fromstring body) as [tr|]; [|by apply run_ret].
  apply run_translating, run_bind. eapply run_side_read; [done|by intros s' e ?|].
  intros s1 d Hs1. cbv beta iota. apply run_bind. eapply run_side_read; [done|by intros s' e ?|].
  intros s2 c Hs2. cbv beta iota. apply run_ret. split; [apply Hs2|]. apply run_translating_ret.
  eapply run_mono; [apply run_initiate_payment, Hs2|]. intros s' [p|e] Hr; apply Hr.
Qed.
End operations.
