(* ===== verification/Operations.v ===== *)
(** Operations: everything a client, the scheduler or an operator can start, and that each of
    them, run among arbitrary others on a database that may fail, keeps the invariant.

    An operation that is a request for a payment also hands on its answer: what it says
    about the idempotency key stays true. *)
From S2P Require Import Prelude Decimals PyText PyVal Ledger Fx PaymentSM Recon Sgqr Webhooks.
From S2P Require Import Store Session Repos SupportRepos LedgerService PaymentService Backoff.
From S2P Require Import Dispatch ReconService Responses Api Xml Iso20022 Invariant Commits.
From S2P Require Import Transactions PaymentRuns PaymentSafety InitiationSafety SystemSafety Reads.

#[local] Open Scope Z_scope.

Inductive Operation :=
| Health
| HealthDb
| PostAccount (body : CreateAccountRequest)
| GetAccount (account_id : UUID)
| GetBalance (account_id : UUID) (currency : string)
| PostPayment (body : InitiatePaymentRequest) (idempotency_key : string)
| GetPayment (payment_id : UUID)
| Authorise (payment_id : UUID)
| Settle (payment_id : UUID)
| Reverse (payment_id : UUID)
| FailPayment (payment_id : UUID) (body : FailPaymentRequest)
| PostPain001 (fromstring : list N -> option Element) (body : list N)
| GetPacs008 (xml_compatible : string -> bool) (tostring : Element -> list N) (payment_id : UUID)
| PostSubscription (body : CreateWebhookSubscriptionRequest)
| GetDeadLetters
| GenerateQr (qrcode_make : string -> list N) (raised : QrError -> Exn) (body : GenerateQrRequest)
| PostReconciliation (body : option string) (window_hours : Z)
| GetReconciliation (run_id : UUID)
| DispatchCycle (max_attempts : Z)
| ReconciliationJob (text : option string) (window_hours : Z).

(** What is kept of an operation's outcome. *)
Inductive Reply :=
| Done
| Paid (idempotency_key : string) (answer : Http pydict).

Section operations.
Context `{Platform}.

Definition as_thread {A} (m : Prog A) : Prog Reply := m ;; Ret Done.

Definition operation (op : Operation) : Prog Reply :=
  match op with
  | Health => as_thread health
  | HealthDb => as_thread health_db
  | PostAccount body => as_thread (post_account body)
  | GetAccount id => as_thread (http_get_account id)
  | GetBalance id currency => as_thread (get_account_balance id currency)
  | PostPayment body key => answer ← create_payment body key; Ret (Paid key answer)
  | GetPayment id => as_thread (http_get_payment id)
  | Authorise id => as_thread (authorise id)
  | Settle id => as_thread (settle id)
  | Reverse id => as_thread (reverse id)
  | FailPayment id body => as_thread (fail id body)
  | PostPain001 fromstring body => as_thread (ingest_pain001 fromstring body)
  | GetPacs008 compatible tostring id => as_thread (emit_pacs008 compatible tostring id)
  | PostSubscription body => as_thread (post_subscription body)
  | GetDeadLetters => as_thread http_list_dead_letters
  | GenerateQr make raised body => as_thread (generate_qr make raised body)
  | PostReconciliation body hours => as_thread (run_reconciliation_endpoint body hours)
  | GetReconciliation id => as_thread (get_reconciliation_run id)
  | DispatchCycle n => as_thread (_dispatch_webhooks_job n)
  | ReconciliationJob text hours => as_thread (_run text hours)
  end.

(** The key is completed with a response that reads the same as [body]. *)
Definition answered (db : DB) (key : string) (body : pydict) : Prop :=
  exists r stored,
    idempotency_keys db !! (IDEMPOTENCY_ENDPOINT_INITIATE_PAYMENT, key) = Some r /\
    ik_status r = COMPLETED /\ ik_response_body r = Some stored /\
    _json_serializer stored = _json_serializer body.

Lemma answered_evolves db db' key body :
  evolves db db' -> answered db key body -> answered db' key body.
Proof.
  intros Hev (r & stored & Hr & Hst & ?).
  destruct (ev_key _ _ Hev _ _ Hr) as (r' & Hr' & [->|[Hp _]] & _); [by exists r', stored|congruence].
Qed.

Lemma replayable_answered db key h code b body :
  replayable IDEMPOTENCY_ENDPOINT_INITIATE_PAYMENT key h db code (Some b) ->
  _json_serializer b = _json_serializer body -> answered db key body.
Proof. intros (r & Hr & Hst & _ & _ & Hb) Hj. by exists r, b. Qed.

(** What a reply says of a database. *)
Definition reply_ok (db : DB) (r : result Exn Reply) : Prop :=
  match r with
  | Ok (Paid key (Response _ body)) => answered db key body
  | _ => True
  end.

Definition op_end (s : Sess) (r : result Exn Reply) : Prop := Inv (s_db s) /\ reply_ok (s_db s) r.

Lemma run_as_thread {A} (m : Prog A) s : runs m s keeps_inv -> runs (as_thread m) s op_end.
Proof.
  intros Hm. apply run_bind. eapply run_mono; [apply Hm|].
  intros s' [a|e] HI; [by apply run_ret|by split].
Qed.

Lemma run_read_thread {A} (m : Prog A) s :
  read_only m -> Inv (s_db s) -> s_log s = [] -> runs (as_thread m) s op_end.
Proof.
  intros Hm HI Hl. apply run_as_thread. eapply run_mono; [by apply run_read_only|].
  intros s' r (HI' & _). exact HI'.
Qed.

Lemma run_answering m s : runs m s keeps_inv -> runs (answering m) s keeps_inv.
Proof.
  intros Hm. apply run_bind. eapply run_mono; [by apply run_translating_ret|].
  intros s' [a|e] HI; [by apply run_ret|exact HI].
Qed.

Lemma run_create_payment body key s :
  Inv (s_db s) ->
  runs (create_payment body key) s (fun s' r => Inv (s_db s') /\
    match r with Ok (Response _ b) => answered (s_db s') key b | _ => True end).
Proof.
  intros HI. unfold create_payment, validated. destruct (valid_initiate_payment body); [|by apply run_ret].
  apply run_bind, run_attempt, run_bind.
  eapply run_mono; [by apply run_initiate_payment_idempotent|]. intros s' [[c b]|e] [HI' Hend].
  2: { cbv beta iota. destruct (create_payment_answer e) as [[status detail]|]; [by apply run_ret|by apply run_raise]. }
  apply run_ret, run_ret. split; [done|]. inversion Hend as [|? ? ? Hrep| |? ? ? Hcr]; subst.
  - by eapply replayable_answered.
  - destruct Hcr as (p & _ & _ & _ & Hrep). eapply replayable_answered; [done|].
    apply json_serializer_idem.
Qed.

Lemma operation_safe op s : Inv (s_db s) -> s_log s = [] -> runs (operation op) s op_end.
Proof.
  intros HI Hl.
  destruct op; simpl; try (apply run_read_thread; [solve [auto with reads]|exact HI|exact Hl]).
  - by apply run_as_thread, run_post_account.
  - apply run_bind. eapply run_mono; [by apply run_create_payment|].
    intros s' [a|e] [HI' Ha]; [by apply run_ret; split|by split].
  - apply run_as_thread, run_answering. eapply run_mono; [by apply run_transition_status_only|].
    intros s' r. apply transition_end_inv.
  - apply run_as_thread, run_answering. unfold settle_payment.
    eapply run_mono; [by apply run_transition_with_ledger_entry; [apply _|]|].
    intros s' r. apply transition_end_inv.
  - apply run_as_thread, run_answering. unfold reverse_payment.
    eapply run_mono; [by apply run_transition_with_ledger_entry; [apply _|]|].
    intros s' r. apply transition_end_inv.
  - apply run_as_thread, run_answering. eapply run_mono; [by apply run_transition_status_only|].
    intros s' r. apply transition_end_inv.
  - by apply run_as_thread, run_ingest.
  - by apply run_as_thread, run_post_subscription.
  - by apply run_as_thread, run_reconciliation_request.
  - by apply run_as_thread, run_dispatch_job.
  - by apply run_as_thread, run_reconciliation_job.
Qed.
End operations.
