(* ===== verification/Seed.v ===== *)
(** Seed: the rows that the migrations insert
    (migrations/versions/853dcecf0a07_fx_rates_and_fx_suspense_account.py), and that the
    database they leave behind satisfies the invariant. *)
From S2P Require Import Prelude Decimals Ledger Fx PaymentSM Store Session PaymentService.
From S2P Require Import Invariant.

#[local] Open Scope Z_scope.

(** Base currency, quote currency, rate in hundred-millionths (the column has eight
    places). *)
Definition _MOCK_RATES : list (string * string * Decimal) :=
  [("SGD", "USD", of_rate 74000000);
   ("USD", "SGD", of_rate 135000000);
   ("SGD", "EUR", of_rate 68000000);
   ("EUR", "SGD", of_rate 147000000);
   ("SGD", "GBP", of_rate 59000000);
   ("GBP", "SGD", of_rate 169000000)]%string.

Definition suspense_row (id : UUID) : Account :=
  {| acc_id := id; acc_account_number := FX_SUSPENSE_ACCOUNT_NUMBER; acc_owner_name := "FX Suspense";
     acc_account_type := "fx_suspense"; acc_currency := "SGD"; acc_status := "active";
     acc_version := 0 |}.

Definition rate_row (now : Z) (id : UUID) (r : string * string * Decimal) : FxRate :=
  {| fx_id := id; fx_base_currency := r.1.1; fx_quote_currency := r.1.2; fx_rate := r.2;
     fx_booked_at := now; fx_source := "mock-feed" |}.

(** The database after [alembic upgrade head]: [ids] are the six [uuid.uuid4()]s
    (FxMigration.upgrade_empty). *)
Definition seeded_db (account_id : UUID) (ids : list UUID) (now : Z) : DB :=
  {| accounts := {[ account_id := suspense_row account_id ]}; journal_entries := ∅;
     journal_lines := []; payments := ∅; payment_status_history := []; idempotency_keys := ∅;
     webhook_subscriptions := ∅; webhook_deliveries := ∅; settlement_file_records := [];
     reconciliation_runs := ∅; reconciliation_breaks := [];
     fx_rates := zip_with (rate_row now) ids _MOCK_RATES |}.

Lemma seeded_Inv account_id ids now : Inv (seeded_db account_id ids now).
Proof.
  split; cbn [seeded_db accounts journal_entries journal_lines payments payment_status_history
    idempotency_keys webhook_subscriptions webhook_deliveries]; try done; try set_solver.
  - intros i a [<- <-]%lookup_singleton_Some. done.
  - intros i j a b [<- _]%lookup_singleton_Some [<- _]%lookup_singleton_Some. done.
Qed.
