(* ===== verification/FxMigration.v ===== *)
(** FxMigration: the rows that the FX revision adds and takes away
    (migrations/versions/853dcecf0a07_fx_rates_and_fx_suspense_account.py).

    The schema operations of the revision are in Migrations; here they act on the rows: the
    new column is NULL everywhere, the new foreign key checks the rows there are, a dropped
    column or table takes its values with it, and a DELETE is refused while a foreign key
    refers to the row. *)
From S2P Require Import Prelude Decimals PyText PyVal Schema Ledger Fx PaymentSM Recon Webhooks Store.
From S2P Require Import Session Repos SupportRepos LedgerService PaymentService.
From S2P Require Import Invariant Commits Transactions Seed.

#[local] Open Scope Z_scope.

(** The tables the revision touches. *)
Definition with_fx (db : DB) (accounts' : gmap UUID Account) (payments' : gmap UUID Payment)
    (rates : list FxRate) : DB :=
  {| accounts := accounts'; journal_entries := journal_entries db; journal_lines := journal_lines db;
     payments := payments'; payment_status_history := payment_status_history db;
     idempotency_keys := idempotency_keys db; webhook_subscriptions := webhook_subscriptions db;
     webhook_deliveries := webhook_deliveries db; settlement_file_records := settlement_file_records db;
     reconciliation_runs := reconciliation_runs db; reconciliation_breaks := reconciliation_breaks db;
     fx_rates := rates |}.

(** A payment without the column. *)
Definition without_creditor_amount (p : Payment) : Payment :=
  {| pay_id := pay_id p; pay_debtor_account_id := pay_debtor_account_id p;
     pay_creditor_account_id := pay_creditor_account_id p; pay_amount := pay_amount p;
     pay_currency := pay_currency p; pay_status := pay_status p; pay_version := pay_version p;
     pay_end_to_end_id := pay_end_to_end_id p; pay_fx_rate_id := pay_fx_rate_id p;
     pay_creditor_amount := None |}.

(** [ids]: the identifiers of the six rates. *)
Definition upgrade_rows (account_id : UUID) (ids : list UUID) (now : Z) (db : DB) : result Exn DB :=
  require (bool_decide (map_Forall (fun _ p => pay_fx_rate_id p = None) (payments db)))
    (IntegrityError "fk_payments_fx_rate_id_fx_rates") ;;
  require (no_key (accounts db) account_id) (IntegrityError "accounts_pkey") ;;
  require (bool_decide (map_Forall (fun _ a => ~ is_suspense a) (accounts db)))
    (IntegrityError "accounts_account_number_key") ;;
  require (bool_decide (NoDup ids)) (IntegrityError "fx_rates_pkey") ;;
  Ok (with_fx db (<[account_id := suspense_row account_id]> (accounts db))
        (without_creditor_amount <$> payments db) (zip_with (rate_row now) ids _MOCK_RATES)).

(** The account is one the DELETE would remove. *)
Definition to_delete (db : DB) (id : UUID) : Prop :=
  exists a, accounts db !! id = Some a /\ is_suspense a.
#[export] Instance to_delete_dec db id : Decision (to_delete db id).
Proof.
  refine (match accounts db !! id as o return accounts db !! id = o -> _ with
          | Some a => fun Ha => cast_if (decide (is_suspense a))
          | None => fun Ha => right _
          end eq_refl); unfold to_delete; naive_solver.
Defined.

Definition downgrade_rows (db : DB) : result Exn DB :=
  require (bool_decide (Forall (fun l => ~ to_delete db (jl_account_id (jlm_line l))) (journal_lines db)))
    (IntegrityError "journal_lines_account_id_fkey") ;;
  require (bool_decide (map_Forall (fun _ p => ~ to_delete db (pay_debtor_account_id p)) (payments db)))
    (IntegrityError "payments_debtor_account_id_fkey") ;;
  require (bool_decide (map_Forall (fun _ p => ~ to_delete db (pay_creditor_account_id p)) (payments db)))
    (IntegrityError "payments_creditor_account_id_fkey") ;;
  Ok (with_fx db (filter (fun kv => ~ is_suspense kv.2) (accounts db))
        (without_creditor_amount <$> payments db) []).

(** The columns of the schema that refer to a table; for the accounts, the three above. *)
Definition referrers (table : string) : list (string * string) :=
  metadata ≫= fun m =>
    omap (fun c =>
            if existsb (fun a => match a with Fk t _ => bool_decide (t = table) | _ => false end) (mc_attrs c)
            then Some (mt_name m, mc_name c) else None) (mt_columns m).
Example account_referrers : referrers "accounts" =
  [("journal_lines", "account_id"); ("payments", "debtor_account_id"); ("payments", "creditor_account_id")]%string.
Proof. vm_compute. reflexivity. Qed.

(** Every reference to an account is one to a row that is there. *)
Definition references_hold (db : DB) : Prop :=
  Forall (fun l => is_Some (accounts db !! jl_account_id (jlm_line l))) (journal_lines db) /\
  map_Forall (fun _ p => is_Some (accounts db !! pay_debtor_account_id p) /\
                         is_Some (accounts db !! pay_creditor_account_id p)) (payments db).

(** A database of the revision before: no suspense account, no rates, no converted payment. *)
Record before_fx (db : DB) : Prop := {
  bf_references : references_hold db;
  bf_accounts : map_Forall (fun _ a => ~ is_suspense a) (accounts db);
  bf_payments : map_Forall (fun _ p => pay_fx_rate_id p = None /\ pay_creditor_amount p = None) (payments db);
  bf_rates : fx_rates db = [];
}.

(** Something refers to the suspense account. *)
Definition suspense_used (db : DB) : Prop :=
  exists id, to_delete db id /\
    ((exists l, l ∈ journal_lines db /\ jl_account_id (jlm_line l) = id) \/
     (exists i p, payments db !! i = Some p /\
        (pay_debtor_account_id p = id \/ pay_creditor_account_id p = id))).

(** A check that holds is passed. *)
Lemma require_holds (P : Prop) `{Decision P} {A} (e : Exn) (m : result Exn A) :
  P -> (require (bool_decide P) e ;; m) = m.
Proof. intros HP. by rewrite bool_decide_true. Qed.

Lemma upgrade_empty account_id ids now :
  NoDup ids -> upgrade_rows account_id ids now empty_db = Ok (seeded_db account_id ids now).
Proof.
  intros Hids. unfold upgrade_rows, no_key. cbn [empty_db accounts payments].
  rewrite (require_holds (map_Forall _ _)), require_holds, (require_holds (map_Forall _ _)), require_holds
    by (done || apply map_Forall_empty). done.
Qed.

Lemma without_same (m : gmap UUID Payment) :
  map_Forall (fun _ p => pay_creditor_amount p = None) m -> without_creditor_amount <$> m = m.
Proof.
  intros Hm. apply map_eq. intros i. rewrite lookup_fmap. destruct (m !! i) as [p|] eqn:Hp; [|done].
  specialize (Hm _ _ Hp). simpl in *. f_equal. destruct p. simpl in *. by subst.
Qed.

Lemma downgrade_used db : suspense_used db -> exists c, downgrade_rows db = Err (IntegrityError c).
Proof.
  intros (id & Hid & Huse). unfold downgrade_rows.
  destruct (bool_decide (Forall _ _)) eqn:Hl; cbn [require]; [rewrite result_bind_ok|rewrite result_bind_err; eexists; reflexivity].
  apply bool_decide_eq_true in Hl. rewrite Forall_forall in Hl.
  destruct (bool_decide (map_Forall (fun _ p => ~ to_delete db (pay_debtor_account_id p)) _)) eqn:Hd; cbn [require]; [rewrite result_bind_ok|rewrite result_bind_err; eexists; reflexivity].
  apply bool_decide_eq_true in Hd.
  rewrite bool_decide_false; [cbn [require]; rewrite result_bind_err; by eexists|]. intros Hc.
  destruct Huse as [(l & Hin & <-)|(i & p & Hp & [<-|<-])];
    [exact (Hl l Hin Hid)|exact (Hd i p Hp Hid)|exact (Hc i p Hp Hid)].
Qed.

Lemma downgrade_unused db :
  ~ suspense_used db ->
  downgrade_rows db = Ok (with_fx db (filter (fun kv => ~ is_suspense kv.2) (accounts db))
                            (without_creditor_amount <$> payments db) []).
Proof.
  intros Hno. unfold downgrade_rows.
  rewrite (require_holds (Forall _ _)).
  2:{ apply Forall_forall. intros l Hl Hid. apply Hno. eexists. split; [exact Hid|]. left. by exists l. }
  rewrite (require_holds (map_Forall (fun _ p => ~ to_delete db (pay_debtor_account_id p)) _)).
  2:{ intros i p Hp Hid. apply Hno. eexists. split; [exact Hid|]. right. exists i, p. eauto. }
  rewrite require_holds; [done|].
  intros i p Hp Hid. apply Hno. eexists. split; [exact Hid|]. right. exists i, p. eauto.
Qed.

Lemma upgrade_before account_id ids now db :
  before_fx db -> accounts db !! account_id = None -> NoDup ids ->
  upgrade_rows account_id ids now db =
    Ok (with_fx db (<[account_id := suspense_row account_id]> (accounts db)) (payments db)
          (zip_with (rate_row now) ids _MOCK_RATES)).
Proof.
  intros [_ Hacc Hpay _] Hid Hnd. unfold upgrade_rows, no_key.
  rewrite !require_holds, without_same; [done|by intros i p Hp; apply (Hpay i p)|done..|].
  by intros i p Hp; apply (Hpay i p).
Qed.

Lemma sumZ_zeros (l : list Z) : Forall (eq 0) l -> sumZ l = 0.
Proof. induction 1 as [|x l <- _ IH]; [done|]. exact IH. Qed.

(** A settled conversion has moved money through the suspense account, or has it as a party. *)
Lemma conversion_uses_suspense db id p d :
  Inv db -> payments db !! id = Some p -> pay_status p = SETTLED -> pay_creditor_amount p = Some d ->
  suspense_used db.
Proof.
  intros HI Hp Hst Hd. pose proof (inv_payment _ HI _ _ Hp) as Hok.
  destruct (po_fx _ _ _ Hok d Hd) as (Hdpos & sid & a & Ha & Hsus).
  assert (Hdel : to_delete db sid) by by exists a. exists sid. split; [exact Hdel|].
  destruct (decide (pay_debtor_account_id p = sid)) as [Heq|Hnd]; [right; exists id, p; auto|].
  destruct (decide (pay_creditor_account_id p = sid)) as [Heq|Hnc]; [right; exists id, p; auto|].
  left. destruct (decide (Exists (fun l => jl_account_id (jlm_line l) = sid) (journal_lines db))) as [Hex|Hno].
  { apply Exists_exists in Hex as (l & Hl & Heq). by exists l. }
  exfalso. rewrite Exists_exists in Hno.
  set (dc := account_currency db (pay_debtor_account_id p)).
  pose proof (po_posted _ _ _ Hok sid dc) as Hnet. rewrite decide_True in Hnet by done.
  assert (Hzero : account_net sid dc (payment_lines db id) = 0).
  { unfold account_net, payment_lines. rewrite <- list_fmap_compose. apply sumZ_zeros.
    apply Forall_fmap, Forall_forall. intros l [_ Hl]%list_elem_of_filter. unfold compose, acct_cents. rewrite decide_False; [done|].
    intros [Hl' _]. apply Hno. by exists l. }
  rewrite Hzero in Hnet. unfold booked_lines in Hnet. rewrite Hd in Hnet.
  rewrite (suspense_id_spec db sid a HI Ha Hsus) in Hnet. fold dc in Hnet.
  assert (Hne : dc <> account_currency db (pay_creditor_account_id p)).
  { intros Heq. apply (po_moved _ _ _ Hok) in Heq; [by rewrite Hd in Heq|by rewrite Hst]. }
  destruct (po_amount _ _ _ Hok) as (z & Hz & Hzpos).
  unfold account_net, acct_cents, sumZ in Hnet. csimpl in Hnet.
  rewrite (decide_False (P := pay_debtor_account_id p = _ /\ _)) in Hnet by naive_solver.
  rewrite (decide_True (P := sid = sid /\ dc = dc)) in Hnet by done.
  rewrite (decide_False (P := sid = sid /\ _ = dc)) in Hnet by naive_solver.
  rewrite (decide_False (P := pay_creditor_account_id p = _ /\ _)) in Hnet by naive_solver.
  unfold signed_cents in Hnet. csimpl in Hnet. rewrite Hz, cents_of_cents in Hnet. lia.
Qed.

(** The upgrade's rows are taken back. *)
Lemma downgrade_fresh account_id ids now db :
  before_fx db -> accounts db !! account_id = None ->
  downgrade_rows (with_fx db (<[account_id := suspense_row account_id]> (accounts db)) (payments db)
                    (zip_with (rate_row now) ids _MOCK_RATES)) = Ok db.
Proof.
  intros [[Hlines Hparties] Hacc Hpay Hrates] Hid.
  assert (Hold : forall i, is_Some (accounts db !! i) -> i <> account_id /\ ~ exists a, accounts db !! i = Some a /\ is_suspense a).
  { intros i [a Ha]. split; [congruence|]. intros (a' & Ha' & Hs). exact (Hacc i a' Ha' Hs). }
  rewrite downgrade_unused.
  - unfold with_fx. cbn. rewrite without_same by (by intros i p Hp; apply (Hpay i p)).
    rewrite map_filter_insert_False by (intros Hn; by apply Hn).
    rewrite map_filter_delete, map_filter_id by (intros i a Ha; exact (Hacc i a Ha)).
    rewrite delete_id by done. rewrite <- Hrates. by destruct db.
  - assert (Hne : forall i a, is_Some (accounts db !! i) ->
      <[account_id := suspense_row account_id]> (accounts db) !! i = Some a -> ~ is_suspense a).
    { intros i a Hi Ha. destruct (Hold i Hi) as [Hi' _]. rewrite lookup_insert_ne in Ha by done.
      exact (Hacc i a Ha). }
    intros (id & (a & Ha & Hs) & [(l & Hl & <-)|(i & p & Hp & Hparty)]).
    + rewrite Forall_forall in Hlines. exact (Hne _ a (Hlines l Hl) Ha Hs).
    + destruct (Hparties i p Hp) as [Hd Hc].
      destruct Hparty as [<-|<-]; [exact (Hne _ a Hd Ha Hs)|exact (Hne _ a Hc Ha Hs)].
Qed.

(** Reading the checks of a downgrade that was refused. *)
Lemma refused_used db c : downgrade_rows db = Err (IntegrityError c) -> suspense_used db.
Proof.
  unfold downgrade_rows. intros Hr. destruct (decide (Forall (fun l => ~ to_delete db (jl_account_id (jlm_line l))) (journal_lines db)))
    as [Hl|Hl].
  2: { apply not_Forall_Exists in Hl; [|apply _]. apply Exists_exists in Hl as (l & Hin & Hdel).
       apply dec_stable in Hdel. eexists. split; [exact Hdel|]. left. by exists l. }
  rewrite (require_holds (Forall _ _)) in Hr by done.
  destruct (decide (map_Forall (fun _ p => ~ to_delete db (pay_debtor_account_id p)) (payments db))) as [Hd|Hd].
  2: { apply map_not_Forall in Hd as (i & p & Hp & Hdel); [|apply _]. apply dec_stable in Hdel.
       eexists. split; [exact Hdel|]. right. exists i, p. auto. }
  rewrite (require_holds (map_Forall (fun _ p => ~ to_delete db (pay_debtor_account_id p)) _)) in Hr by done.
  destruct (decide (map_Forall (fun _ p => ~ to_delete db (pay_creditor_account_id p)) (payments db))) as [Hc|Hc].
  2: { apply map_not_Forall in Hc as (i & p & Hp & Hdel); [|apply _]. apply dec_stable in Hdel.
       eexists. split; [exact Hdel|]. right. exists i, p. auto. }
  by rewrite require_holds in Hr.
Qed.

(** C36. The rows of the FX revision.  Upgrading a database of the revision before adds the
    suspense account and the six rates and changes nothing else, and downgrading it again
    gives back exactly the database there was.  But a downgrade goes through only as long as
    nothing refers to the suspense account: once a conversion is settled, PostgreSQL refuses
    the DELETE, in every state that satisfies the ledger's invariant. *)
Theorem fx_migration_rows account_id ids now db :
  before_fx db -> accounts db !! account_id = None -> NoDup ids ->
  (exists db', upgrade_rows account_id ids now db = Ok db' /\
     accounts db' = <[account_id := suspense_row account_id]> (accounts db) /\
     fx_rates db' = zip_with (rate_row now) ids _MOCK_RATES /\
     payments db' = payments db /\ journal_lines db' = journal_lines db /\
     downgrade_rows db' = Ok db) /\
  (forall later, suspense_used later <-> exists constraint, downgrade_rows later = Err (IntegrityError constraint)) /\
  (forall later id p d, Inv later -> payments later !! id = Some p -> pay_status p = SETTLED ->
     pay_creditor_amount p = Some d ->
     exists constraint, downgrade_rows later = Err (IntegrityError constraint)).
Proof.
  intros Hdb Hid Hids. split; [|split].
  - eexists. split; [by apply upgrade_before|]. split_and!; try done. by apply downgrade_fresh.
  - intros later. split; [apply downgrade_used|]. intros [c Hc]. by eapply refused_used.
  - intros later id p d HI Hp Hst Hd. apply downgrade_used. by eapply conversion_uses_suspense.
Qed.
