(* ===== verification/Processes.v ===== *)
(** Processes: the scripts around the application, as the calls they make on the libraries
    that do the work: Alembic's environment (migrations/env.py) and the worker
    (app/workers/scheduler.py).

    Any call can raise; [with] and [finally] decide what is still called then.  An execution
    is given by a list of booleans, the calls that return ([true]) and those that raise. *)
From S2P Require Import Prelude Decimals PyText PyVal Schema Migrations Store Operations App.

#[local] Open Scope Z_scope.

(** * Calls *)

Inductive Call :=
(* env.py *)
| fileConfig (config_file_name : string)
| set_main_option (url : string)
| async_engine_from_config (url : string)
| connect
| configure_url (url : string)               (* literal_binds, paramstyle "named" *)
| configure_connection
| begin_transaction
| run_migrations
| commit_transaction
| rollback_transaction
| close_connection
| dispose
(* scheduler.py *)
| basicConfig
| open_client (timeout : Z)
| add_job (job : Job)
| start_scheduler
| wait_until_stopped
| shutdown_scheduler (wait : bool)
| close_client.

(** A script: [CCall c k] makes a call and goes on with whether it returned; an uncaught
    exception ends it. *)
Inductive Script :=
| CDone
| CFail
| CCall (c : Call) (k : bool -> Script).

Fixpoint then_ (p : Script) (q : bool -> Script) : Script :=
  match p with
  | CDone => q true
  | CFail => q false
  | CCall c k => CCall c (fun ok => then_ (k ok) q)
  end.

Definition raised_or (ok : bool) (p : Script) : Script := if ok then p else CFail.
Definition call (c : Call) : Script := CCall c (fun ok => raised_or ok CDone).
(** [p; q] *)
Definition seq_ (p q : Script) : Script := then_ p (fun ok => raised_or ok q).
(** [try: p finally: q] *)
Definition finally (p q : Script) : Script :=
  then_ p (fun ok => then_ q (fun ok' => raised_or (ok && ok') CDone)).
(** [with enter: p], leaving through [leave]. *)
Definition with_ (enter : Call) (p : Script) (leave : Call) : Script :=
  seq_ (call enter) (finally p (call leave)).
(** [with context.begin_transaction(): p] *)
Definition with_transaction (p : Script) : Script :=
  seq_ (call begin_transaction)
    (then_ p (fun ok => if ok then call commit_transaction
                        else seq_ (call rollback_transaction) CFail)).

(** The calls made, with their outcomes, and whether the script ends normally; calls beyond
    the list of outcomes return. *)
Fixpoint exec (p : Script) (outcomes : list bool) : list (Call * bool) * bool :=
  match p with
  | CDone => ([], true)
  | CFail => ([], false)
  | CCall c k =>
      let ok := default true (head outcomes) in
      let '(trace, ended) := exec (k ok) (tail outcomes) in
      ((c, ok) :: trace, ended)
  end.

(** * migrations/env.py *)

Definition run_migrations_offline (url : string) : Script :=
  seq_ (call (configure_url url)) (with_transaction (call run_migrations)).

Definition do_run_migrations : Script :=
  seq_ (call configure_connection) (with_transaction (call run_migrations)).

Definition run_migrations_online (url : string) : Script :=
  seq_ (call (async_engine_from_config url))
    (seq_ (with_ connect do_run_migrations close_connection) (call dispose)).

(** The module: the logging of the ini file, the URL, and the mode. *)
Definition env (config_file_name : option string) (configured : option string) (settings : Settings)
    (is_offline_mode : bool) : Script :=
  let url := migration_url configured settings in
  seq_ (from_option (fun file => call (fileConfig file)) CDone config_file_name)
    (seq_ (if bool_decide (default "" configured = "") then call (set_main_option url) else CDone)
       (if is_offline_mode then run_migrations_offline url else run_migrations_online url)).

(** * app/workers/scheduler.py *)

Definition worker_run (settings : Settings) : Script :=
  with_ (open_client client_timeout)
    (seq_ (fold_right (fun job rest => seq_ (call (add_job job)) rest) CDone (scheduled_jobs settings))
       (seq_ (call start_scheduler)
          (finally (call wait_until_stopped) (call (shutdown_scheduler false)))))
    close_client.

Definition worker_main (settings : Settings) : Script := seq_ (call basicConfig) (worker_run settings).

(** * What the runner does to the database *)

(** The schema after the online migrations: what [alembic upgrade head] makes of it if its
    transaction is committed, and otherwise what it was. *)
Definition migrated (s : Schema) (rs : list Revision) (trace : list (Call * bool)) : Schema :=
  if existsb (fun x => match x with (commit_transaction, ok) => ok | _ => false end) trace
  then default s (upgrades s rs ≫= last) else s.

(** Whether a call was made and returned, and how often it was made. *)
Definition returned (c : Call -> bool) (trace : list (Call * bool)) : bool :=
  existsb (fun x => c x.1 && x.2) trace.
Definition made (c : Call -> bool) (trace : list (Call * bool)) : nat :=
  length (List.filter (fun x => c x.1) trace).

Definition is_connect c := match c with connect => true | _ => false end.
Definition is_close c := match c with close_connection => true | _ => false end.
Definition is_run c := match c with run_migrations => true | _ => false end.
Definition is_commit c := match c with commit_transaction => true | _ => false end.
Definition is_start c := match c with start_scheduler => true | _ => false end.
Definition is_shutdown c := match c with shutdown_scheduler _ => true | _ => false end.
Definition is_open_client c := match c with open_client _ => true | _ => false end.
Definition is_close_client c := match c with close_client => true | _ => false end.

Definition count_of (b : bool) : nat := if b then 1%nat else 0%nat.

(** Every way an execution of a closed script can go. *)
Ltac by_outcomes :=
  cbn;
  repeat match goal with
  | |- context [default true (head ?l)] => destruct l as [|[] ?]; cbn
  | |- context [head (tail ?l)] => destruct l as [|? ?]; cbn
  end; try done.

Lemma head_reached : default empty_schema (upgrades empty_schema (path versions) ≫= last) = head_schema.
Proof. rewrite (proj1 history_ok). reflexivity. Qed.

(** A trace without a commit leaves the schema; one with a commit takes it to head. *)
Lemma migrated_returned trace :
  migrated empty_schema (path versions) trace =
  if returned is_commit trace then head_schema else empty_schema.
Proof.
  assert (Hb : existsb (fun x => match x with (commit_transaction, ok) => ok | _ => false end) trace
    = returned is_commit trace).
  { induction trace as [|[c ok] trace IH]; [done|]. unfold returned in *. cbn [existsb]. rewrite IH.
    by destruct c. }
  unfold migrated. rewrite head_reached. by rewrite Hb.
Qed.

Definition clean_migration (r : list (Call * bool) * bool) : Prop :=
  made is_close r.1 = count_of (returned is_connect r.1) /\
  made is_commit r.1 = count_of (returned is_run r.1) /\
  (r.2 = true -> returned is_commit r.1 = true).

Lemma env_outcomes file configured settings outcomes :
  clean_migration (exec (env file configured settings false) outcomes).
Proof.
  unfold env, clean_migration. destruct file as [file|]; destruct (bool_decide _); by_outcomes.
Qed.

(** C37. The processes clean up after themselves, whichever of their calls raise.  The online
    migration closes its connection exactly if it got one, commits exactly if all revisions
    ran, and leaves an empty database either empty or with the schema of the head revision,
    the latter whenever it ends normally; the offline one never connects.  The worker shuts
    its scheduler down exactly if it was started, having added every job before, and closes
    its HTTP client exactly if it was opened. *)
Theorem processes_clean_up file configured settings outcomes :
  let online := exec (env file configured settings false) outcomes in
  let offline := exec (env file configured settings true) outcomes in
  let worker := exec (worker_main settings) outcomes in
  clean_migration online /\
  (let schema := migrated empty_schema (path versions) online.1 in
   (schema = head_schema \/ schema = empty_schema) /\ (online.2 = true -> schema = head_schema)) /\
  made is_connect offline.1 = 0%nat /\
  made is_shutdown worker.1 = count_of (returned is_start worker.1) /\
  made is_close_client worker.1 = count_of (returned is_open_client worker.1) /\
  (returned is_start worker.1 = true -> forall job, job ∈ scheduled_jobs settings ->
     (add_job job, true) ∈ worker.1).
Proof.
  intros online offline worker. assert (Honline := env_outcomes file configured settings outcomes).
  fold online in Honline. split; [exact Honline|]. split; [|split; [|split; [|split]]].
  - cbv zeta. rewrite migrated_returned. destruct Honline as (_ & _ & Hend).
    split; [destruct (returned _ _); auto|]. intros He. by rewrite (Hend He).
  - subst offline. unfold env. destruct file as [file|]; destruct (bool_decide _); by_outcomes.
  - subst worker. by_outcomes.
  - subst worker. by_outcomes.
  - subst worker. intros Hst job Hjob. apply list_elem_of_singleton in Hjob as ->. revert Hst. by_outcomes.
    all: intros _; set_solver.
Qed.
