(* ===== verification/System.v ===== *)
(** System: the whole service as concurrent sessions on one database.

    Every request and every worker cycle is a thread running one operation; threads
    interleave at each statement.  A statement that would write a row another session has
    written and not yet committed waits: it can only run when its writes conflict with
    nobody's.  [pool_safe] shows that every state reached this way is safe. *)
From S2P Require Import Prelude Decimals PyText PyVal Ledger Fx PaymentSM Recon Sgqr Webhooks.
From S2P Require Import Store Session Repos SupportRepos LedgerService PaymentService Backoff.
From S2P Require Import Dispatch ReconService Messages Responses Api Xml Iso20022 Invariant Commits Transactions PaymentRuns.
From S2P Require Import PaymentSafety InitiationSafety Book SystemSafety Operations.

#[local] Open Scope Z_scope.

Section system.
Context `{Platform}.

(** * Interleavings *)

(** A thread: the rest of its program, and its session. *)
Definition Thread : Type := Prog Reply * Sess.

Definition key_of (w : Write) : option (nat * (UUID + string * string)) :=
  match w with
  | PutAccount a => Some (0%nat, inl (acc_id a))
  | AddEntry i _ => Some (1%nat, inl i)
  | PutPayment p => Some (2%nat, inl (pay_id p))
  | PutKey e k _ => Some (3%nat, inr (e, k))
  | PutSubscription s => Some (4%nat, inl (sub_id s))
  | PutDelivery d => Some (5%nat, inl (dl_id (wdm_delivery d)))
  | AddRun r => Some (6%nat, inl (rrm_id r))
  | _ => None
  end.

(** Two writes to the same row, or to the same unique account number. *)
Definition conflict (w1 w2 : Write) : Prop :=
  (exists k, key_of w1 = Some k /\ key_of w2 = Some k) \/
  (exists a b, w1 = PutAccount a /\ w2 = PutAccount b /\ acc_account_number a = acc_account_number b).

Definition compatible (log1 log2 : list Write) : Prop :=
  forall w1 w2, w1 ∈ log1 -> w2 ∈ log2 -> ~ conflict w1 w2.

(** One step of one thread on the committed database. *)
Inductive thread_step (db : DB) : Thread -> DB -> Thread -> Prop :=
  | step_sql R (stmt : Stmt R) k s r ws :
  stmt (s_now s) (view db (s_log s)) = Ok (r, ws) ->
  thread_step db (Sql stmt k, s) db (k (Ok r), with_sql s db (s_log s ++ ws))
  | step_sql_error R (stmt : Stmt R) k s e :
  stmt (s_now s) (view db (s_log s)) = Err e ->
  thread_step db (Sql stmt k, s) db (k (Err e), with_sql s db (s_log s))
  | step_sql_fault R (stmt : Stmt R) k s :
  thread_step db (Sql stmt k, s) db (k (Err DBAPIError), s)
  | step_uuid k s u :
  fresh_uuid (view db (s_log s)) u -> thread_step db (NewUuid k, s) db (k u, s)
  | step_now k s t : thread_step db (Now k, s) db (k t, s)
  | step_open k s t : thread_step db (OpenTx k, s) db (k, with_open s t)
  | step_commit k s : thread_step db (Commit k, s) (view db (s_log s)) (k (Ok tt), with_commit s db)
  | step_commit_fault k s :
  thread_step db (Commit k, s) db (k (Err DBAPIError), with_sql s (s_db s) [])
  | step_rollback k s : thread_step db (Rollback k, s) db (k, with_sql s (s_db s) [])
  | step_close k s : thread_step db (CloseTx k, s) db (k, with_sql s (s_db s) [])
  | step_sleep k s a : thread_step db (Sleep a k, s) db (k, with_sleep s a)
  | step_send k s rq r : thread_step db (Send rq k, s) db (k r, with_sent s rq r).

Definition Pool : Type := DB * list Thread.

(** Any thread may step, as long as what it has then written conflicts with no other
    session's uncommitted rows; and a new operation may start at any time. *)
Inductive pool_step : Pool -> Pool -> Prop :=
  | pool_thread db db' l i th th' :
  l !! i = Some th -> thread_step db th db' th' ->
  (forall j o, j <> i -> l !! j = Some o -> compatible (s_log th'.2) (s_log o.2)) ->
  pool_step (db, l) (db', <[i := th']> l)
  | pool_start db l op :
  pool_step (db, l) (db, l ++ [(operation op, init_sess db)]).

Definition reachable (db0 : DB) (p : Pool) : Prop := rtc pool_step (db0, []) p.

Lemma reachable_steps db0 p q : reachable db0 p -> rtc pool_step p q -> reachable db0 q.
Proof.
  unfold reachable. intros Hp Hq. induction Hp as [|p1 p2 p3 Hs _ IH]; [done|].
  eapply rtc_l; [exact Hs|by apply IH].
Qed.

(** * Stability of a thread under other threads' commits *)

(** The session after other commits have changed the committed database. *)
Definition at_db (s : Sess) (db : DB) : Sess := with_sql s db (s_log s).

Lemma others_at s db1 db2 : others s db1 -> others (at_db s db1) db2 -> others s db2.
Proof. apply others_trans. Qed.

Lemma others_nothing s db (s' : Sess) :
  others s db -> s_db s' = s_db s -> s_log s' = [] -> s_commits s' = s_commits s -> others s' db.
Proof.
  intros (HI & He & _ & Hk) Hd Hl Hc. unfold others. cbn [rely_db]. rewrite Hd, Hl, Hc.
  split_and!; [done|done|by apply Forall_nil|done].
Qed.

Lemma fresh_evolves db db' log u :
  evolves db db' -> fresh_uuid (view db' log) u -> fresh_uuid (view db log) u.
Proof.
  intros Hev (H1 & H2 & H3 & H4 & H5 & H6 & H7).
  rewrite accounts_view in H1. rewrite entries_view in H2. rewrite payments_view in H3.
  rewrite subscriptions_view in H4. rewrite deliveries_view in H5. rewrite runs_view in H6.
  unfold fresh_uuid. rewrite accounts_view, entries_view, payments_view, subscriptions_view,
  deliveries_view, runs_view. split_and!.
  - eapply puts_none_mono; [|exact H1]. intros i [a Ha].
  destruct (ev_account _ _ Hev _ _ Ha) as (a' & ? & _). eauto.
  - eapply puts_none_mono; [|exact H2]. intros i [e He]. eexists. by eapply ev_entry.
  - eapply puts_none_mono; [|exact H3]. intros i [a Ha].
  destruct (ev_payment _ _ Hev _ _ Ha) as (a' & ? & _). eauto.
  - eapply puts_none_mono; [|exact H4]. intros i [e He]. eexists. by eapply ev_subscription.
  - eapply puts_none_mono; [|exact H5]. intros i [e He]. by eapply ev_delivery.
  - eapply puts_none_mono; [|exact H6]. intros i [e He]. eexists. by eapply ev_run.
  - intros k r Hr. rewrite keys_view in Hr. rewrite keys_view in H7.
  destruct (puts_cases _ _ _ _ Hr) as [Hall|[Hold Hn]]; [exact (H7 k r (Hall _))|].
  destruct (ev_key _ _ Hev _ _ Hold) as (r' & Hr' & _ & ->).
  apply (H7 k r'). by rewrite puts_lookup_none.
Qed.

(** * Locks and claims between two threads *)

Lemma compatible_sym l1 l2 : compatible l1 l2 -> compatible l2 l1.
Proof.
  intros H12 w2 w1 Hw2 Hw1 Hc. apply (H12 w1 w2 Hw1 Hw2).
  destruct Hc as [(k & ? & ?)|(a & b & ? & ? & ?)]; [left; eauto|right; eauto 10].
Qed.

Lemma log_key_elem log e k : (e, k) ∈ (log_keys log).*1 -> exists r, PutKey e k r ∈ log.
Proof.
  intros ([[e' k'] r] & [= -> ->] & Hin)%list_elem_of_fmap.
  apply list_elem_of_omap in Hin as (w & Hw & Heq). exists r. by destruct w; simplify_eq.
Qed.
Lemma log_key_put log e k r : PutKey e k r ∈ log -> (e, k) ∈ (log_keys log).*1.
Proof.
  intros Hw. apply list_elem_of_fmap. exists ((e, k), r). split; [done|].
  apply list_elem_of_omap. by eexists.
Qed.

Lemma puts_log_none {A K} `{Countable K} (m : gmap K A) (g : Write -> option A) (h : A -> K) log k :
  Forall (fun w => forall a, g w = Some a -> h a <> k) log ->
  puts m ((fun a => (h a, a)) <$> omap g log) !! k = m !! k.
Proof.
  intros Hall. apply puts_lookup_none. intros (? & -> & (a & -> & Ha)%list_elem_of_fmap)%list_elem_of_fmap.
  apply list_elem_of_omap in Ha as (w & Hw & Ha). rewrite Forall_forall in Hall. by eapply Hall.
Qed.

Ltac by_row_keys Hkey :=
  apply puts_log_none; eapply Forall_impl; [exact Hkey|];
  intros w Hk b Hb Hid; destruct w; simplify_eq; simpl in Hk; congruence.

(** A commit that conflicts with no row of [log] respects its locks. *)
Lemma respects_compatible log log' db :
  compatible log log' -> respects_locks log db (view db log').
Proof.
  intros Hc. apply Forall_forall. intros w Hw.
  assert (Hkey : forall k, key_of w = Some k -> Forall (fun w' => key_of w' <> Some k) log').
  { intros k Hk. apply Forall_forall. intros w' Hw' Hk'. apply (Hc w w' Hw Hw'). left. eauto. }
  destruct w as [a| | | | | | | | | |]; simpl; try done; specialize (Hkey _ eq_refl).
  - rewrite accounts_view. split.
  + by_row_keys Hkey.
  + intros i b Hb Hnum. destruct (puts_lookup_inv _ _ _ _ Hb) as [Hin|Hold]; [|by eexists].
    apply list_elem_of_fmap in Hin as (b' & [= -> ->] & Hin).
    apply list_elem_of_omap in Hin as (w & Hw' & Heq). destruct w; simplify_eq.
    destruct (Hc _ _ Hw Hw'). right. eauto.
  - rewrite entries_view. apply puts_lookup_none.
  intros ([i e'] & -> & Hin)%list_elem_of_fmap.
  apply list_elem_of_omap in Hin as (w & Hw' & Heq). rewrite Forall_forall in Hkey.
  specialize (Hkey w Hw'). by destruct w; simplify_eq.
  - rewrite payments_view. by_row_keys Hkey.
  - rewrite keys_view. apply puts_lookup_none. intros [r Hr]%log_key_elem.
  rewrite Forall_forall in Hkey. by destruct (Hkey _ Hr).
  - rewrite subscriptions_view. by_row_keys Hkey.
  - rewrite deliveries_view. by_row_keys Hkey.
  - rewrite runs_view. by_row_keys Hkey.
Qed.

(** * The pool invariant *)

Definition claims_kept (db : DB) (commits : list (list Write)) : Prop :=
  forall k, claimed_by commits k -> is_Some (idempotency_keys db !! k).

(** Each thread is safe to continue, has only seen what it may rely on, and the keys it
    claimed are there. *)
Record thread_ok (db : DB) (th : Thread) : Prop := {
  to_runs : runs th.1 th.2 (fun s r => reply_ok (s_db s) r);
  to_others : others th.2 db;
  to_claims : claims_kept db (s_commits th.2);
}.

Record apart (th1 th2 : Thread) : Prop := {
  ap_rows : compatible (s_log th1.2) (s_log th2.2);
  ap_claims : forall k, claimed_by (s_commits th1.2) k -> claimed_by (s_commits th2.2) k -> False;
}.

Record pool_ok (db0 : DB) (p : Pool) : Prop := {
  pk_inv : Inv p.1;
  pk_evolves : evolves db0 p.1;
  pk_thread : forall i th, p.2 !! i = Some th -> thread_ok p.1 th;
  pk_apart : forall i j th1 th2, i <> j -> p.2 !! i = Some th1 -> p.2 !! j = Some th2 -> apart th1 th2;
}.

Lemma apart_sym th1 th2 : apart th1 th2 -> apart th2 th1.
Proof. intros [? ?]. split; [by apply compatible_sym|eauto]. Qed.

(** What a thread claims after a step, it claimed before or inserts now. *)
Lemma claimed_by_commit s db k :
  claimed_by (s_commits (with_commit s db)) k ->
  claimed_by (s_commits s) k \/ k ∈ (log_keys (s_log s)).*1.
Proof.
  intros (r & Hin & Hr). cbn [with_commit s_commits] in Hin.
  rewrite concat_app in Hin. apply elem_of_app in Hin as [Hin|Hin]; [left; by exists r|right].
  destruct (s_log s) as [|w log]; [set_solver|]. simpl in Hin. rewrite app_nil_r in Hin.
  destruct k. by eapply log_key_put.
Qed.

Lemma claims_kept_evolves db db' cs : evolves db db' -> claims_kept db cs -> claims_kept db' cs.
Proof.
  intros Hev Hcs k Hk. destruct (Hcs k Hk) as [r Hr].
  destruct (ev_key _ _ Hev _ _ Hr) as (r' & ? & _). by eexists.
Qed.

(** One step keeps the stepping thread safe and changes the database only safely. *)
Record step_result (db : DB) (th : Thread) (db' : DB) (th' : Thread) : Prop := {
  sr_thread : thread_ok db' th';
  sr_good : good db db';
  sr_written : db' = db \/
  (db' = view db (s_log th.2) /\ owns_keys (s_commits th.2) db (s_log th.2));
  sr_one : one_status db db';
  sr_new_claims : forall k, claimed_by (s_commits th'.2) k ->
  claimed_by (s_commits th.2) k \/ idempotency_keys db !! k = None;
}.

Lemma step_local db th th' :
  thread_ok db th -> s_commits th'.2 = s_commits th.2 ->
  runs th'.1 th'.2 (fun s r => reply_ok (s_db s) r) -> others th'.2 db -> step_result db th db th'.
Proof.
  intros [_ Ho Hc] Hcs Hr Ho'. split; [split; [done|done|]|split| | |]; rewrite ?Hcs; auto.
  - apply Ho.
  - apply evolves_refl.
  - unfold one_status. lia.
Qed.

#[local] Transparent every_run.
Lemma thread_step_ok db th db' th' :
  thread_ok db th -> thread_step db th db' th' -> step_result db th db' th'.
Proof.
  intros Hok Hstep. pose proof (to_runs _ _ Hok) as Hr. pose proof (to_others _ _ Hok) as Ho.
  assert (HI : Inv db) by apply Ho. unfold runs in Hr.
  destruct Hstep as [R stmt k s r ws Hs|R stmt k s e Hs|R stmt k s|k s u Hu|k s t|k s t|k s|k s|k s|k s|k s a|k s rq r];
  cbn [fst snd every_run] in Hr, Ho; try (apply step_local; [exact Hok|done|..]; cbn [fst snd]).
  - destruct Hr as [Hr _]. specialize (Hr db Ho). by rewrite Hs in Hr.
  - by apply others_refl.
  - destruct Hr as [Hr _]. specialize (Hr db Ho). by rewrite Hs in Hr.
  - by apply others_refl.
  - by apply Hr.
  - done.
  - apply Hr. eapply fresh_evolves; [|exact Hu]. apply Ho.
  - done.
  - apply Hr.
  - done.
  - apply Hr.
  - by apply (others_nothing s).
  - destruct (proj1 Hr db Ho) as [(Hg & Hown & Hone) Hk]. split; [split| | | |]; cbn [fst snd].
  + exact Hk.
  + apply others_refl. apply Hg.
  + intros c [Hc|Hc]%claimed_by_commit.
    * destruct (to_claims _ _ Hok _ Hc) as [r Hin]. destruct Hg as [_ Hg].
      destruct (ev_key _ _ Hg _ _ Hin) as (r' & ? & _). by eexists.
    * rewrite keys_view. apply puts_is_some. by right.
  + exact Hg.
  + by right.
  + exact Hone.
  + intros c [Hc|Hc]%claimed_by_commit; [by left|]. destruct c as [e k'].
    apply log_key_elem in Hc as [r Hin]. destruct (Hown _ _ _ Hin); auto.
  - by apply Hr.
  - by apply (others_nothing s).
  - apply Hr.
  - by apply (others_nothing s).
  - apply Hr.
  - by apply (others_nothing s).
  - apply Hr.
  - done.
  - apply Hr.
  - done.
Qed.
#[local] Opaque every_run.

(** The other threads may rely on a step of this one. *)
Lemma other_thread_ok db th db' th' o :
  step_result db th db' th' -> apart o th -> thread_ok db o -> thread_ok db' o.
Proof.
  intros Hstep Hap [Hr Ho Hc]. pose proof (sr_good _ _ _ _ Hstep) as [HI Hev].
  split; [done| |by eapply claims_kept_evolves].
  apply (others_trans _ db); [done|]. split; [done|]. cbn [s_db s_log s_commits with_sql].
  split; [done|]. destruct (sr_written _ _ _ _ Hstep) as [->|[-> Hown]].
  - split; [apply respects_locks_refl|by intros k _].
  - split; [apply respects_compatible, Hap|]. intros [e k] Hk.
  rewrite keys_view. apply puts_lookup_none. intros [r Hin]%log_key_elem.
  destruct (Hown _ _ _ Hin) as [Hnone|Hcl]; [|by eapply ap_claims].
  destruct (Hc _ Hk) as [r' Hr']. congruence.
Qed.

Lemma apart_step db th db' th' o :
  step_result db th db' th' -> thread_ok db o -> apart th o ->
  compatible (s_log th'.2) (s_log o.2) -> apart th' o.
Proof.
  intros Hstep [_ _ Hc] Hap Hcomp. split; [done|]. intros k Hk Hko.
  destruct (sr_new_claims _ _ _ _ Hstep k Hk) as [Hold|Hnone]; [by eapply ap_claims|].
  destruct (Hc _ Hko). congruence.
Qed.

Lemma thread_start db op : Inv db -> thread_ok db (operation op, init_sess db).
Proof.
  intros HI. split; cbn [fst snd].
  - eapply run_mono; [by apply operation_safe|]. by intros s r [_ Hr].
  - by apply others_refl.
  - by intros k (r & Hin%elem_of_nil & _).
Qed.

Lemma insert_cases (l : list Thread) i x j y :
  <[i := x]> l !! j = Some y -> (i = j /\ x = y) \/ (i <> j /\ l !! j = Some y).
Proof.
  revert i j. induction l as [|z l IH]; intros [|i] [|j]; cbn; intros Hj; simplify_eq; auto.
  destruct (IH _ _ Hj) as [[-> ->]|[? ?]]; auto.
Qed.
Lemma snoc_cases (l : list Thread) x j y :
  (l ++ [x]) !! j = Some y -> l !! j = Some y \/ (j = length l /\ x = y).
Proof.
  revert j. induction l as [|z l IH]; intros [|j]; cbn; intros Hj; simplify_eq; auto.
  destruct (IH _ Hj) as [?|[-> ->]]; auto.
Qed.

Lemma insert_same (l : list Thread) i x y : l !! i = Some y -> <[i := x]> l !! i = Some x.
Proof. revert i. induction l as [|z l IH]; intros [|i]; cbn; intros Hi; try done. by eapply IH. Qed.
Lemma insert_other (l : list Thread) i j x : i <> j -> <[i := x]> l !! j = l !! j.
Proof.
  revert i j. induction l as [|z l IH]; intros [|i] [|j] Hij; cbn; try done.
  apply IH. congruence.
Qed.
Lemma snoc_before (l : list Thread) x j y : l !! j = Some y -> (l ++ [x]) !! j = Some y.
Proof. revert j. induction l as [|z l IH]; intros [|j]; cbn; intros Hj; try done. by apply IH. Qed.

Lemma pool_step_ok db0 p p' : pool_ok db0 p -> pool_step p p' -> pool_ok db0 p'.
Proof.
  intros Hok Hstep. destruct Hstep as [db db' l i th th' Hi Hstep Hcomp|db l op].
  - pose proof (pk_thread _ _ Hok) as Ht. pose proof (pk_apart _ _ Hok) as Ha. simpl in *.
  pose proof (thread_step_ok _ _ _ _ (Ht _ _ Hi) Hstep) as Hres.
  destruct (sr_good _ _ _ _ Hres) as [HI Hev].
  assert (Hap : forall j o, i <> j -> l !! j = Some o -> apart th' o).
  { intros j o Hij Hj. eapply apart_step; eauto. }
  split; simpl; [done|eapply evolves_trans; [apply Hok|done]|..].
  + intros j o Hj. apply insert_cases in Hj as [[<- <-]|[Hij Hj]]; [apply Hres|].
    eapply other_thread_ok; [exact Hres| |by eauto]. apply apart_sym. eauto.
  + intros j k o1 o2 Hjk Hj Hk.
    apply insert_cases in Hj as [[<- <-]|[Hij Hj]]; apply insert_cases in Hk as [[<- <-]|[Hik Hk]];
      [done|eauto|apply apart_sym; eauto|eauto].
  - pose proof (pk_thread _ _ Hok) as Ht. pose proof (pk_apart _ _ Hok) as Ha. simpl in *.
  pose proof (thread_start db op (pk_inv _ _ Hok)) as Hnew.
  assert (Hap : forall o, apart o (operation op, init_sess db)).
  { intros o. split; [by intros ? ? _ ?%elem_of_nil|by intros k _ (? & ?%elem_of_nil & _)]. }
  split; simpl; [apply Hok|apply Hok|..].
  + intros j o [Hj|[_ <-]]%snoc_cases; eauto.
  + intros j k o1 o2 Hjk [Hj|[-> <-]]%snoc_cases [Hk|[-> <-]]%snoc_cases;
      [eauto|done|by apply apart_sym|done].
Qed.

Lemma pool_reachable db0 p : Inv db0 -> reachable db0 p -> pool_ok db0 p.
Proof.
  intros HI Hr. unfold reachable in Hr. remember (db0, @nil Thread) as p0 eqn:Hp0.
  assert (Hok : pool_ok db0 p0).
  { subst. split; simpl; [done|apply evolves_refl|by intros []|by intros ? []]. }
  clear Hp0. induction Hr as [|p1 p2 p3 Hstep _ IH]; [done|].
  by apply IH, (pool_step_ok db0 p1).
Qed.

(** A step of a safe pool is one step of the book, or none. *)
Lemma pool_step_book db0 p p' :
  pool_ok db0 p -> pool_step p p' ->
  book_of p'.1 ≡ book_of p.1 \/ exists id, book_step (book_of p.1) (book_of p'.1) id.
Proof.
  intros Hok Hstep. pose proof (pool_step_ok _ _ _ Hok Hstep) as Hok'.
  destruct Hstep as [db db' l i th th' Hi Hstep Hcomp|db l op]; [|by left].
  pose proof (thread_step_ok _ _ _ _ (pk_thread _ _ Hok _ _ Hi) Hstep) as Hres. cbn [fst].
  apply book_commit; [apply Hok|apply Hok'|apply Hres|apply Hres].
Qed.

(** * Balances *)

Lemma sum_signed_cents ls :
  Forall (fun l => is_cents (jl_amount l)) ls ->
  cents_of (sum_signed ls) = sumZ (signed_cents <$> ls).
Proof.
  intros Hall. unfold sum_signed.
  assert (Hn : existsb (fun l => match jl_amount l with NaN _ => true | _ => false end) ls = false).
  { induction Hall as [|l ls Hl _ IH]; [done|]. simpl. rewrite IH. unfold is_cents, of_cents in Hl.
  by destruct (jl_amount l). }
  rewrite Hn. destruct ls; [done|]. apply cents_of_cents.
Qed.

Lemma filtered_net a c ls :
  sumZ (signed_cents <$> filter (fun l => jl_account_id l = a /\ jl_currency l = c) ls) = account_net a c ls.
Proof.
  unfold account_net. induction ls as [|l ls IH]; [done|]. rewrite filter_cons, fmap_cons.
  unfold acct_cents at 1. unfold sumZ in *. destruct (decide _); csimpl; lia.
Qed.

(** What the balance endpoint must answer in a database. *)
Definition balance_answer (account : UUID) (currency : string) (db : DB)
  (r : result Exn (Http AccountBalanceResponse)) : Prop :=
  match r with
  | Ok (Response code body) =>
    code = 200 /\ abr_account_id body = account /\ abr_currency body = upper currency /\
    is_Some (accounts db !! account) /\
    cents_of (abr_balance body) = sum_map (fun _ p => moved_by db account (upper currency) p) (payments db)
  | Ok (HTTPException code detail) =>
      code = 404 /\ detail = says "account not found" /\ accounts db !! account = None
  | Err e => e = DBAPIError
  end.

Lemma run_get_balance cs a c s Q :
  side_state cs s -> s_log s = [] -> Q s (Err DBAPIError) ->
  (forall s' d, side_state cs s' -> evolves (s_db s) (s_db s') ->
   cents_of d = position (s_db s') a c -> Q s' (Ok d)) ->
  runs (get_balance a c) s Q.
Proof.
  intros Hs Hlog He HQ. apply run_select; [|done]. intros db Hdb. pose proof (side_others _ _ _ Hs Hdb) as Hs1.
  apply HQ; [done|apply Hdb|]. rewrite Hlog. cbn [s_db with_sql]. change (view db []) with db.
  rewrite sum_signed_cents; [apply filtered_net|].
  apply Forall_forall. intros l [_ Hl]%list_elem_of_filter.
  apply list_elem_of_fmap in Hl as (r & -> & Hr).
  destruct (inv_line_amount _ (ss_inv _ _ Hs1) _ Hr) as (z & -> & _). apply is_cents_of_cents.
Qed.

(** * Correctness *)

(** C1. Whatever operations run at the same time, however their statements interleave,
    whenever others start, and whichever statements and commits the database fails, every
    reachable database satisfies the ledger's invariant: entries
    balance, a settled payment is posted exactly once and exactly as booked, a reversed one
    nets to nothing, histories are lifecycles; and what was committed before only evolves. *)
Theorem pool_safe db0 db threads :
  Inv db0 -> reachable db0 (db, threads) -> Inv db /\ evolves db0 db.
Proof. intros HI Hr. destruct (pool_reachable _ _ HI Hr) as [? ? _ _]. by split. Qed.

(** C2. The service refines the abstract book: in any reachable state, a step of any thread
    either leaves the book as it is or is exactly one abstract step of one payment, which
    moves that payment's balanced lines when it settles and takes the same lines back when it
    is reversed. *)
Theorem pool_refines_book db0 p p' :
  Inv db0 -> reachable db0 p -> pool_step p p' ->
  book_of p'.1 ≡ book_of p.1 \/ exists id, book_step (book_of p.1) (book_of p'.1) id.
Proof. intros HI Hr. by apply (pool_step_book db0), pool_reachable. Qed.

(** C8. No money is created or lost: in every reachable database the journal nets to zero
    in every currency, and the position of an account is what the settled payments moved
    there. *)
Theorem money_conserved db0 db threads :
  Inv db0 -> reachable db0 (db, threads) ->
  balanced (jlm_line <$> journal_lines db) /\
  forall a c, position db a c = sum_map (fun _ p => moved_by db a c p) (payments db).
Proof.
  intros HI Hr. pose proof (pk_inv _ _ (pool_reachable _ _ HI Hr)) as HI'.
  split; [by apply journal_balanced|]. intros a c. by apply position_sum.
Qed.

(** C9. An idempotency key is claimed by at most one of the requests that present it. *)
Theorem key_claimed_once db0 db threads i j th1 th2 k :
  Inv db0 -> reachable db0 (db, threads) -> i <> j ->
  threads !! i = Some th1 -> threads !! j = Some th2 ->
  ~ (claimed_by (s_commits th1.2) k /\ claimed_by (s_commits th2.2) k).
Proof.
  intros HI Hr Hij H1 H2 [Hc1 Hc2].
  exact (ap_claims _ _ (pk_apart _ _ (pool_reachable _ _ HI Hr) _ _ _ _ Hij H1 H2) k Hc1 Hc2).
Qed.

(** C11. The balance endpoint answers 404 for an unknown account and otherwise 200 with the
    cents that the payments settled at that moment have moved to the account in the (upper-cased)
    currency; it raises nothing of its own (only a failure of the database) and commits
    nothing. *)
Theorem balance_correct account currency s :
  Inv (s_db s) ->
  runs (get_account_balance account currency) s (fun s' r =>
   s_commits s' = s_commits s /\ balance_answer account currency (s_db s') r).
Proof.
  intros HI. apply run_session. intros t. apply run_bind, run_attempt.
  eapply run_side_select; [by apply side_start|done|]. intros s1 Hs1 Hl1. cbv beta iota.
  rewrite Hl1. change (view (s_db s1) (s_log (with_open s t))) with (s_db s1).
  destruct (accounts (s_db s1) !! account) as [a|] eqn:Ha.
  2:{ apply run_ret. split; [apply Hs1|done]. }
  cbn [or_raise]. apply run_bind. eapply run_get_balance; [done|done|by split; [apply Hs1|]|].
  intros s2 d Hs2 Hev Hd. apply run_ret. split; [apply Hs2|].
  destruct (ev_account _ _ Hev _ _ Ha) as (a' & ? & _).
  unfold balance_answer. cbn [with_sql s_db].
  rewrite <- position_sum by apply Hs2. split_and!; try done.
Qed.
End system.
