(* ===== verification/PoolWait.v ===== *)
(** PoolWait: requests that hold one database connection while they wait for another
    (ingest_pain001 of app/api/v1/iso20022.py on the pool of app/infra/db/session.py).

    The engine's pool has [pool_size + max_overflow] connections.  A session takes one with
    the first statement of a transaction and gives it back when that transaction ends: at a
    commit, a rollback or its close.  A statement that finds none waits, and raises
    TimeoutError once it has waited for the pool's timeout (the default of SQLAlchemy, which
    the program does not change): a step that is possible as long as no connection is left. *)
From S2P Require Import Prelude Decimals PyText PyVal Ledger Fx PaymentSM Recon Sgqr Webhooks.
From S2P Require Import Store Session Repos SupportRepos LedgerService PaymentService Dispatch.
From S2P Require Import ReconService Messages Responses Api Xml Iso20022 Invariant Commits Transactions.
From S2P Require Import Alone AloneTransitions Settlement IsoRuns Operations System App.

#[local] Open Scope Z_scope.

(** The engine's connections; SQLAlchemy reads a pool size of 0 and an overflow of -1 as no
    limit. *)
Definition capacity (engine : Engine) : option nat :=
  if (0 <? en_pool_size engine) && (0 <=? en_max_overflow engine)
  then Some (Z.to_nat (en_pool_size engine + en_max_overflow engine)) else None.

(** The sessions a thread has open, the innermost first: whether each has a connection. *)
Definition Sessions : Type := list bool.

(** The thread's next step needs a connection its session does not have. *)
Definition needs {A} (m : Prog A) (open : Sessions) : bool :=
  match m, open with
  | Sql _ _, true :: _ => false
  | Sql _ _, _ => true
  | _, _ => false
  end.

(** Its sessions after that step. *)
Definition sessions_after {A} (m : Prog A) (open : Sessions) : Sessions :=
  match m, open with
  | OpenTx _, _ => false :: open
  | Sql _ _, _ :: outer => true :: outer
  | (Commit _ | Rollback _), _ :: outer => false :: outer
  | CloseTx _, _ :: outer => outer
  | _, _ => open
  end.

Definition connections (open : Sessions) : nat := foldr (fun b n => Nat.b2n b + n)%nat 0%nat open.
Definition total (held : list Sessions) : nat := foldr (fun open n => connections open + n)%nat 0%nat held.

Section pool_wait.
Context `{Platform}.

(** The pool of threads on a pool of connections: a statement that needs a connection runs
    only if one is left; if none is, its wait may time out.  A step is labelled with the
    thread whose wait it ends that way. *)
Inductive pooled_step (cap : nat) : option nat -> Pool * list Sessions -> Pool * list Sessions -> Prop :=
| pooled_thread db db' l held i th th' open :
    l !! i = Some th -> held !! i = Some open -> thread_step db th db' th' ->
    (forall j o, j <> i -> l !! j = Some o -> compatible (s_log th'.2) (s_log o.2)) ->
    (needs th.1 open = true -> (total held < cap)%nat) ->
    pooled_step cap None ((db, l), held) ((db', <[i := th']> l), <[i := sessions_after th.1 open]> held)
| pooled_start db l held op :
    pooled_step cap None ((db, l), held) ((db, l ++ [(operation op, init_sess db)]), held ++ [[]])
| pooled_timeout db l held i R (stmt : Stmt R) k s open :
    l !! i = Some (Sql stmt k, s) -> held !! i = Some open ->
    needs (Sql stmt k) open = true -> (cap <= total held)%nat ->
    pooled_step cap (Some i) ((db, l), held) ((db, <[i := (k (Err TimeoutError), s)]> l), held).

(** A step in which none of the first [n] threads' waits times out. *)
Definition patient_step (n cap : nat) (p q : Pool * list Sessions) : Prop :=
  exists o, pooled_step cap o p q /\ forall i, o = Some i -> (n <= i)%nat.

Lemma total_app h1 h2 : total (h1 ++ h2) = (total h1 + total h2)%nat.
Proof. unfold total. induction h1 as [|x h1 IH]; [done|]. cbn. lia. Qed.

(** What a request that waits holds: a connection in its outer session, none in the inner. *)
Definition waiting : Sessions := [false; true].

Lemma total_waiting n : total (replicate n waiting) = n.
Proof.
  induction n as [|n IH]; [done|]. change (S (total (replicate n waiting)) = S n). by rewrite IH.
Qed.

Lemma total_idle held : Forall (fun open => connections open = 0%nat) held -> total held = 0%nat.
Proof.
  induction 1 as [|open held Ho _ IH]; [done|]. change (connections open + total held = 0)%nat. by rewrite Ho, IH.
Qed.

(** Without a new connection, one that has none still has none. *)
Lemma idle_after {A} (m : Prog A) open :
  needs m open = false -> connections open = 0%nat -> connections (sessions_after m open) = 0%nat.
Proof. destruct m; destruct open as [|[] outer]; cbn; try done; lia. Qed.

Lemma insert_last {A} (l : list A) (x y : A) : <[length l := y]> (l ++ [x]) = l ++ [y].
Proof. induction l as [|z l IH]; [done|]. simpl. by rewrite IH. Qed.
Lemma lookup_last {A} (l : list A) (x : A) : (l ++ [x]) !! length l = Some x.
Proof. by induction l. Qed.

Lemma lookup_within {A} (l l' : list A) i : (i < length l)%nat -> exists x, l !! i = Some x /\ (l ++ l') !! i = Some x.
Proof.
  revert i. induction l as [|y l IH]; intros i Hi; cbn in Hi; [lia|].
  destruct i as [|i]; [by exists y|]. apply (IH i). lia.
Qed.
Lemma lookup_snoc {A} (l : list A) i x y : (l ++ [x]) !! i = Some y -> l !! i = Some y \/ y = x.
Proof.
  revert i. induction l as [|z l IH]; intros [|i]; cbn; try done; [by intros [= ->]; right|left; done|apply IH].
Qed.
Lemma insert_beyond {A} (l l' : list A) i y :
  (length l <= i)%nat -> <[i := y]> (l ++ l') = l ++ <[(i - length l)%nat := y]> l'.
Proof.
  revert i. induction l as [|z l IH]; intros i Hi; [cbn; by rewrite Nat.sub_0_r|].
  destruct i as [|i]; cbn in Hi; [lia|]. change (z :: <[i := y]> (l ++ l') = z :: l ++ <[(i - length l)%nat := y]> l').
  f_equal. apply IH. lia.
Qed.
Lemma length_snoc {A} (l : list A) x : length (l ++ [x]) = S (length l).
Proof. induction l as [|y l IH]; [done|]. cbn. by rewrite IH. Qed.
Lemma snoc_app {A} (l l' : list A) x : (l ++ l') ++ [x] = l ++ l' ++ [x].
Proof. induction l as [|y l IH]; [done|]. cbn. by rewrite IH. Qed.

(** The last thread steps without writing. *)
Lemma pooled_last cap db l held th th' open :
  length l = length held -> thread_step db th db th' -> s_log th'.2 = [] ->
  (needs th.1 open = true -> (total held + connections open < cap)%nat) ->
  pooled_step cap None ((db, l ++ [th]), held ++ [open]) ((db, l ++ [th']), held ++ [sessions_after th.1 open]).
Proof.
  intros Hlen Hstep Hlog Hneeds.
  pose proof (pooled_thread cap db db (l ++ [th]) (held ++ [open]) (length l) th th' open) as Hp.
  assert (Hl : forall x, <[length l := x]> (l ++ [th]) = l ++ [x]).
  { intros x. apply insert_last. }
  assert (Hh : forall x, <[length l := x]> (held ++ [open]) = held ++ [x]).
  { intros x. rewrite Hlen. apply insert_last. }
  rewrite Hl, Hh in Hp. apply Hp.
  - apply lookup_last.
  - rewrite Hlen. apply lookup_last.
  - done.
  - intros j o _ _. rewrite Hlog. by intros w1 w2 Hw1%elem_of_nil.
  - intros Ht. rewrite total_app. cbn. rewrite Nat.add_0_r. auto.
Qed.

(** A request that would be carried out. *)
Definition ingestible (db : DB) (fromstring : list N -> option Element) (body : list N) : Prop :=
  exists tr a b, parse_pain001 fromstring body = Ok tr /\
    known db (pct_debtor_account_number tr) a /\ known db (pct_creditor_account_number tr) b /\
    _validate_new_payment (pct_amount tr) (acc_id a) (acc_id b) = Ok tt.

(** A request at a statement, nothing written and nothing committed, and what is left of it
    if that statement times out: both its sessions are closed, and the exception is raised. *)
Definition parked (th : Thread) : Prop :=
  exists R (stmt : Stmt R) k s, th = (Sql stmt k, s) /\ s_log s = [] /\ s_commits s = [] /\
    k (Err TimeoutError) = Rollback (CloseTx (CloseTx (Raise TimeoutError))).

(** The program of the last thread, up to its next effect. *)
Ltac next_effect :=
  match goal with
  | |- rtc _ ((_, _ ++ [(?m, _)]), _) _ => let m' := eval hnf in m in change m with m'
  end.

Lemma request_parks cap db l held fromstring body :
  Inv db -> ingestible db fromstring body -> length l = length held -> (total held < cap)%nat ->
  exists th, parked th /\ rtc (pooled_step cap None) ((db, l), held) ((db, l ++ [th]), held ++ [waiting]).
Proof.
  intros HI (tr & a & b & Hparse & [Ha Hanum] & [Hb Hbnum] & Hvalid) Hlen Hcap.
  assert (Huniq : forall i j x y, accounts db !! i = Some x -> accounts db !! j = Some y ->
    acc_account_number x = acc_account_number y -> i = j) by (intros i j x y; apply (inv_account_number _ HI)).
  pose proof (found_by_number db _ _ _ Huniq Ha Hanum) as Hfa.
  pose proof (found_by_number db _ _ _ Huniq Hb Hbnum) as Hfb.
  eexists. split; cycle 1.
  - eapply rtc_l; [apply (pooled_start cap db l held (PostPain001 fromstring body))|].
    unfold operation, as_thread, ingest_pain001, get_db_session. rewrite Hparse. next_effect.
    eapply rtc_l. { apply pooled_last; [done|apply (step_open _ _ _ 0)|done|done]. }
    next_effect.
    eapply rtc_l. { apply pooled_last; [done|apply step_sql with (r := a) (ws := [])|done|cbn; lia].
      cbn [s_log with_open]. change (view db []) with db. by rewrite Hfa. }
    next_effect.
    eapply rtc_l. { apply pooled_last; [done|apply step_sql with (r := b) (ws := [])|done|done].
      cbn [s_log with_open with_sql app]. change (view db []) with db. by rewrite Hfb. }
    cbn -[_validate_new_payment _create_payment_within translating with_uow]. unfold translating, initiate_payment.
    cbn -[_validate_new_payment _create_payment_within with_uow]. rewrite Hvalid. next_effect.
    eapply rtc_l. { apply pooled_last; [done|apply (step_open _ _ _ 0)|done|done]. }
    next_effect. cbn [sessions_after fst]. apply rtc_refl.
  - do 4 eexists. split; [reflexivity|]. by split_and!.
Qed.

Definition all_parked (l : list Thread) : Prop := forall i th, l !! i = Some th -> parked th.

(** [n] such requests. *)
Lemma requests_park cap db fromstring body n :
  Inv db -> ingestible db fromstring body -> (n <= cap)%nat ->
  exists l, length l = n /\ all_parked l /\
    rtc (pooled_step cap None) ((db, []), []) ((db, l), replicate n waiting).
Proof.
  intros HI Hreq. induction n as [|n IH]; intros Hn; [exists []; split_and!; [done|by intros i|apply rtc_refl]|].
  destruct IH as (l & Hlen & Hall & Hrun); [lia|].
  destruct (request_parks cap db l (replicate n waiting) fromstring body HI Hreq) as (th & Hth & Hpark).
  - by rewrite length_replicate.
  - rewrite total_waiting. lia.
  - exists (l ++ [th]). split_and!.
    + by rewrite length_snoc, Hlen.
    + by intros i x [Hi| ->]%lookup_snoc; [apply (Hall i)|].
    + rewrite replicate_S_end. clear -Hrun Hpark. by induction Hrun; [|eapply rtc_l; [done|auto]].
Qed.

(** They are where they were and hold every connection; nobody else holds one. *)
Definition exhausted (cap : nat) (l0 : list Thread) (p : Pool * list Sessions) : Prop :=
  exists more idle, p.1.2 = l0 ++ more /\ p.2 = replicate cap waiting ++ idle /\
    length more = length idle /\ Forall (fun open => connections open = 0%nat) idle.

Lemma exhausted_total cap idle :
  Forall (fun open => connections open = 0%nat) idle -> total (replicate cap waiting ++ idle) = cap.
Proof. intros Hi. rewrite total_app, total_waiting, (total_idle idle Hi). lia. Qed.

Lemma length_update {A} (l : list A) i x : length (<[i := x]> l) = length l.
Proof. revert i. induction l as [|y l IH]; intros [|i]; cbn; [done..|]. by rewrite IH. Qed.

Lemma lookup_waiting cap idle i open :
  (i < cap)%nat -> (replicate cap waiting ++ idle) !! i = Some open -> open = waiting.
Proof.
  intros Hi Hh. rewrite lookup_app_l in Hh by (by rewrite length_replicate).
  by apply lookup_replicate in Hh as [-> _].
Qed.

Lemma parked_at l0 more i th :
  all_parked l0 -> (i < length l0)%nat -> (l0 ++ more) !! i = Some th -> parked th.
Proof.
  intros Hall Hlt Hi. destruct (lookup_within l0 more i Hlt) as (x & Hx & Hx').
  assert (x = th) as -> by congruence. by apply (Hall i).
Qed.

Lemma exhausted_step cap l0 p p' :
  length l0 = cap -> all_parked l0 -> exhausted cap l0 p -> patient_step cap cap p p' ->
  exhausted cap l0 p'.
Proof.
  intros Hlen Hall (more & idle & Hl & Hh & Hmore & Hidle) (o & Hstep & Hpatient).
  pose proof (exhausted_total cap idle Hidle) as Htotal.
  destruct Hstep as [db db' l1 held1 i th th' open Hi Hhi _ _ Ht|db l1 held1 op
                    |db l1 held1 i R stmt k s open Hi Hhi Hneeds _]; cbn [fst snd] in Hl, Hh; subst.
  - rewrite Htotal in Ht.
    assert (Hno : needs th.1 open = false) by (destruct (needs th.1 open); [specialize (Ht eq_refl); lia|done]).
    destruct (decide (i < length l0)%nat) as [Hlt|Hge].
    + exfalso. destruct (parked_at l0 more i th Hall Hlt Hi) as (R & stmt & k & s & -> & _).
      apply (lookup_waiting _ _ _ _ Hlt) in Hhi as ->. done.
    + exists (<[(i - length l0)%nat := th']> more), (<[(i - length l0)%nat := sessions_after th.1 open]> idle).
      cbn [fst snd]. rewrite !length_update. split_and!; [apply insert_beyond; lia| |exact Hmore|].
      * rewrite insert_beyond by (rewrite length_replicate; lia). by rewrite length_replicate.
      * rewrite lookup_app_r in Hhi by (rewrite length_replicate; lia). rewrite length_replicate in Hhi.
        apply Forall_insert; [done|]. apply idle_after; [done|]. exact (Forall_lookup_1 _ _ _ _ Hidle Hhi).
  - exists (more ++ [(operation op, init_sess db)]), (idle ++ [[]]). cbn [fst snd].
    rewrite !length_snoc, !snoc_app. split_and!; [done|done|by f_equal|].
    apply Forall_app. by split; [|constructor].
  - specialize (Hpatient i eq_refl).
    exists (<[(i - length l0)%nat := (k (Err TimeoutError), s)]> more), idle. cbn [fst snd].
    rewrite length_update. split_and!; [apply insert_beyond; lia|done|exact Hmore|done].
Qed.

(** One thread of many takes a step that writes nothing and needs no connection. *)
Lemma pooled_quiet cap db l held i th th' open :
  l !! i = Some th -> held !! i = Some open -> thread_step db th db th' -> s_log th'.2 = [] ->
  needs th.1 open = false ->
  pooled_step cap None ((db, l), held) ((db, <[i := th']> l), <[i := sessions_after th.1 open]> held).
Proof.
  intros Hl Hh Hstep Hlog Hneeds. apply pooled_thread; [done|done|done| |congruence].
  intros j o _ _. rewrite Hlog. by intros w1 w2 Hw1%elem_of_nil.
Qed.

Lemma lookup_updated {A} (l : list A) i x y : l !! i = Some y -> <[i := x]> l !! i = Some x.
Proof. revert i. induction l as [|z l IH]; intros [|i]; cbn; [done..|]. apply IH. Qed.
Lemma update_twice {A} (l : list A) i x y : <[i := x]> (<[i := y]> l) = <[i := x]> l.
Proof. revert i. induction l as [|z l IH]; intros [|i]; cbn; [done..|]. by rewrite IH. Qed.

(** A request that has ended: the exception it raised, nothing committed, no session open. *)
Definition ended_with (e : Exn) (i : nat) (p : Pool * list Sessions) : Prop :=
  (exists s, p.1.2 !! i = Some (Raise e, s) /\ s_commits s = []) /\ p.2 !! i = Some [].

(** A parked request whose wait times out runs to its end without waiting again. *)
Lemma parked_times_out cap db l held i th :
  l !! i = Some th -> parked th -> held !! i = Some waiting -> (cap <= total held)%nat ->
  exists p q, pooled_step cap (Some i) ((db, l), held) p /\ rtc (pooled_step cap None) p q /\
    ended_with TimeoutError i q.
Proof.
  intros Hi (R & stmt & k & s & -> & Hlog & Hcommits & Hk) Hh Hcap. eexists _, _. split_and!.
  - by eapply pooled_timeout.
  - rewrite Hk. eapply rtc_l.
    { eapply pooled_quiet; [by eapply lookup_updated|done|apply step_rollback|done|done]. }
    rewrite update_twice. eapply rtc_l.
    { eapply pooled_quiet; [by eapply lookup_updated|by eapply lookup_updated|apply step_close|done|done]. }
    rewrite !update_twice. eapply rtc_l.
    { eapply pooled_quiet; [by eapply lookup_updated|by eapply lookup_updated|apply step_close|done|done]. }
    rewrite !update_twice. apply rtc_refl.
  - split; [eexists; split; [by eapply lookup_updated|done]|by eapply lookup_updated].
Qed.

(** C15. Ingestion can use up the connections of the pool and wait for more.  As many
    concurrent pain.001 requests as the pool has connections, each of them a request that
    would be carried out, reach a state in which each holds the connection of its look-ups
    and waits for the one of its unit of work.  Whatever runs from there, other requests'
    waits that time out included, every one of them stays where it is and nobody is given a
    connection until the wait of one of them times out.  Any of them can time out then, and
    one that does ends, without waiting again: it raises the pool's TimeoutError, it has
    committed nothing, and it has given its connection back. *)
Theorem ingestion_exhausts_the_pool engine cap db fromstring body :
  capacity engine = Some cap -> Inv db -> ingestible db fromstring body ->
  exists l, length l = cap /\
    rtc (pooled_step cap None) ((db, []), []) ((db, l), replicate cap waiting) /\
    forall p, rtc (patient_step cap cap) ((db, l), replicate cap waiting) p ->
      (exists more idle, p.1.2 = l ++ more /\ p.2 = replicate cap waiting ++ idle /\
         Forall (fun open => connections open = 0%nat) idle) /\
      forall i, (i < cap)%nat -> exists p1 p2,
        pooled_step cap (Some i) p p1 /\ rtc (pooled_step cap None) p1 p2 /\ ended_with TimeoutError i p2.
Proof.
  intros _ HI Hreq.
  destruct (requests_park cap db fromstring body cap HI Hreq) as (l & Hlen & Hall & Hrun); [done|].
  exists l. split_and!; [done|done|]. intros p Hp.
  assert (He : exhausted cap l p).
  { assert (H0 : exhausted cap l ((db, l), replicate cap waiting)) by (by exists [], []; rewrite !app_nil_r).
    clear Hrun. revert H0. induction Hp as [|p1 p2 p3 Hs _ IH]; [done|].
    intros H1. apply IH. by eapply exhausted_step. }
  destruct p as [[db' l1] held1]. destruct He as (more & idle & Hl & Hh & Hmore & Hidle).
  cbn [fst snd] in Hl, Hh. subst l1 held1. split; [by exists more, idle|].
  intros i Hi. destruct (lookup_within l more i) as (th & Hth & Hth'); [lia|].
  apply (parked_times_out _ _ _ _ _ th); [done|by apply (Hall i)| |].
  - rewrite lookup_app_l by (by rewrite length_replicate). by apply lookup_replicate_2.
  - by rewrite exhausted_total.
Qed.
End pool_wait.
