(* ===== verification/Scripts.v ===== *)
(** Scripts: the idempotency proof of scripts/prove_idempotency.py.

    The script creates two accounts, posts the same payment [num_requests] times at once with
    one idempotency key, and passes when the 201 responses name one payment.  Its verdict is
    taken here on the replies of the pool's threads, whatever else runs beside them. *)
From S2P Require Import Prelude Decimals PyText PyVal Ledger Fx PaymentSM Recon Sgqr Webhooks.
From S2P Require Import Store Session Repos SupportRepos LedgerService PaymentService Backoff.
From S2P Require Import Dispatch ReconService Messages Responses Api Invariant Commits Transactions PaymentRuns.
From S2P Require Import PaymentSafety InitiationSafety Operations System.

#[local] Open Scope Z_scope.

(** * The requests *)

Definition _create_account (account_number : string) : CreateAccountRequest :=
  {| car_account_number := account_number; car_owner_name := "Idempotency Proof";
     car_account_type := "customer"; car_currency := "SGD" |}.

Definition proof_body (debtor_id creditor_id : UUID) : InitiatePaymentRequest :=
  {| ipr_debtor_account_id := debtor_id; ipr_creditor_account_id := creditor_id;
     ipr_amount := of_cents 1000; ipr_currency := "SGD"; ipr_end_to_end_id := None |}.

Definition account_requests (suffix : string) : list Operation :=
  [PostAccount (_create_account ("PROOF-D-" +:+ suffix));
   PostAccount (_create_account ("PROOF-C-" +:+ suffix))].

(** [asyncio.gather]: all at once. *)
Definition payment_requests (debtor_id creditor_id : UUID) (idempotency_key : string)
    (num_requests : nat) : list Operation :=
  replicate num_requests (PostPayment (proof_body debtor_id creditor_id) idempotency_key).

(** * The verdict *)

Definition is_201 (r : Http pydict) : bool :=
  match r with Response code _ => code =? 201 | HTTPException _ _ => false end.

(** [r.json()["id"]]; the body of a 201 always has an id. *)
Definition json_id (r : Http pydict) : option PyVal :=
  match r with Response _ body => _json_serializer body !! "id" | HTTPException _ _ => None end.

(** [{r.json()["id"] for r in responses if r.status_code == 201}], each id once. *)
Definition payment_ids (responses : list (Http pydict)) : list (option PyVal) :=
  remove_dups (json_id <$> filter (fun r => is_201 r = true) responses).

Definition passes (responses : list (Http pydict)) : bool :=
  (length (payment_ids responses) =? 1)%nat.

Definition newline : string := String (ascii_of_nat 10) "".

(** What the script prints of its verdict, and its exit code. *)
Definition proof_verdict (num_requests : nat) (responses : list (Http pydict)) : list string * Z :=
  let count := str_Z (Z.of_nat (length (payment_ids responses))) in
  let found := match payment_ids responses with Some (VStr id) :: _ => id | _ => "NONE" end in
  (["Distinct payment IDs created: " +:+ count +:+ " (expected: 1)";
    "Payment ID: " +:+ found;
    if passes responses
    then newline +:+ "PASS: " +:+ str_Z (Z.of_nat num_requests)
         +:+ " concurrent retries with the same idempotency key produced exactly 1 payment."
    else newline +:+ "FAIL: expected exactly 1 payment, got " +:+ count
         +:+ ". This would mean idempotency is broken."],
   if passes responses then 0 else 1).

(** * The responses the threads of a pool have given so far *)

Definition response_of (key : string) (th : Thread) : option (Http pydict) :=
  match th.1 with
  | Ret (Paid key' answer) => if decide (key' = key) then Some answer else None
  | _ => None
  end.

Fixpoint responses (key : string) (threads : list Thread) : list (Http pydict) :=
  match threads with
  | [] => []
  | th :: rest =>
      match response_of key th with Some r => r :: responses key rest | None => responses key rest end
  end.

(** * Properties *)

Section scripts.
Context `{Platform}.

Lemma response_answered db0 db threads key i th code body :
  pool_ok db0 (db, threads) -> threads !! i = Some th -> response_of key th = Some (Response code body) ->
  answered db key body.
Proof.
  intros Hok Hi Hr. pose proof (pk_thread _ _ Hok _ _ Hi) as [Hrun Ho _]. destruct th as [m s].
  unfold response_of in Hr. cbn [fst snd] in *. destruct m as [[|key' answer]| | | | | | | | | |]; try done.
  case_decide; [|done]. simplify_eq. apply (answered_evolves (s_db s)); [apply Ho|].
  exact (run_ret_inv _ _ _ _ _ Hrun).
Qed.

Lemma elem_of_responses key threads r :
  r ∈ responses key threads -> exists i th, threads !! i = Some th /\ response_of key th = Some r.
Proof.
  induction threads as [|th rest IH]; cbn [responses]; [by intros ?%elem_of_nil|].
  intros Hr. destruct (response_of key th) as [r'|] eqn:Hth.
  - apply elem_of_cons in Hr as [->|Hr]; [by exists 0%nat, th|].
    destruct (IH Hr) as (i & th' & Hi & Hth'). by exists (S i), th'.
  - destruct (IH Hr) as (i & th' & Hi & Hth'). by exists (S i), th'.
Qed.

(** A key has one stored response, which every answer reads the same as. *)
Lemma answered_agree db key b1 b2 :
  answered db key b1 -> answered db key b2 -> _json_serializer b1 = _json_serializer b2.
Proof.
  intros (r1 & s1 & H1 & _ & Hs1 & <-) (r2 & s2 & H2 & _ & Hs2 & <-). congruence.
Qed.

Lemma responses_agree db0 db threads key c1 b1 c2 b2 :
  Inv db0 -> reachable db0 (db, threads) ->
  Response c1 b1 ∈ responses key threads -> Response c2 b2 ∈ responses key threads ->
  _json_serializer b1 = _json_serializer b2.
Proof.
  intros HI Hr H1 H2. pose proof (pool_reachable _ _ HI Hr) as Hok.
  apply elem_of_responses in H1 as (i & th1 & Hi & H1). apply elem_of_responses in H2 as (j & th2 & Hj & H2).
  apply (answered_agree db key).
  - exact (response_answered _ _ _ _ _ _ _ _ Hok Hi H1).
  - exact (response_answered _ _ _ _ _ _ _ _ Hok Hj H2).
Qed.

(** A list whose elements are all equal has at most one when each is listed once. *)
Lemma remove_dups_same {A} `{EqDecision A} (l : list A) :
  (forall x y, x ∈ l -> y ∈ l -> x = y) -> length (remove_dups l) = if l is [] then 0%nat else 1%nat.
Proof.
  intros Hl. destruct l as [|x l]; [done|].
  assert (Hx : forall y, y ∈ remove_dups (x :: l) -> y = x).
  { intros y Hy. rewrite elem_of_remove_dups in Hy. apply Hl; [done|left]. }
  pose proof (NoDup_remove_dups (x :: l)) as Hnd.
  assert (Hin : x ∈ remove_dups (x :: l)) by (apply elem_of_remove_dups; left).
  destruct (remove_dups (x :: l)) as [|a [|b r]]; [by apply elem_of_nil in Hin|done|].
  apply NoDup_cons in Hnd as [Hna _]. destruct Hna.
  rewrite (Hx a) by left. rewrite (Hx b) by (right; left). left.
Qed.

(** C10. Whatever runs at the same time and however it interleaves, the 201 responses given
    so far to requests with one idempotency key carry the same JSON body; so the script
    counts at most one payment id, and it exits with 0 as soon as one request was answered 201. *)
Theorem proof_script_passes db0 db threads key num_requests :
  Inv db0 -> reachable db0 (db, threads) ->
  let rs := responses key threads in
  (forall c1 b1 c2 b2, Response c1 b1 ∈ rs -> Response c2 b2 ∈ rs ->
     _json_serializer b1 = _json_serializer b2) /\
  (length (payment_ids rs) <= 1)%nat /\
  ((proof_verdict num_requests rs).2 = 0 <-> exists r, r ∈ rs /\ is_201 r = true).
Proof.
  intros HI Hr rs. assert (Hag := fun c1 b1 c2 b2 => responses_agree db0 db threads key c1 b1 c2 b2 HI Hr).
  fold rs in Hag. split; [exact Hag|].
  assert (Hlen : length (payment_ids rs) =
    if json_id <$> filter (fun r => is_201 r = true) rs is [] then 0%nat else 1%nat).
  { apply remove_dups_same. intros x y Hx Hy.
    apply list_elem_of_fmap in Hx as (r1 & -> & [H1 Hr1]%list_elem_of_filter).
    apply list_elem_of_fmap in Hy as (r2 & -> & [H2 Hr2]%list_elem_of_filter).
    destruct r1 as [c1 b1|], r2 as [c2 b2|]; try done. simpl. by rewrite (Hag c1 b1 c2 b2). }
  unfold proof_verdict, passes. cbv zeta. cbn [snd]. rewrite Hlen. split; [by case_match; lia|].
  split.
  - intros Hp. destruct (filter _ rs) as [|r l] eqn:Hf; [done|]. exists r.
    assert (Hin : r ∈ filter (fun r => is_201 r = true) rs) by (rewrite Hf; left).
    by apply list_elem_of_filter in Hin as [? ?].
  - intros (r & Hin & H201). assert (Hf : r ∈ filter (fun r => is_201 r = true) rs).
    { by apply list_elem_of_filter. }
    by destruct (filter _ rs); [apply elem_of_nil in Hf|].
Qed.
End scripts.
