(* ===== verification/Scheduler.v ===== *)
(** Scheduler: running the pool by a schedule.

    A schedule names, step by step, the thread that moves and what the world answers it
    (an identifier, a clock reading, a status code), or the statement the database fails.
    [play_reachable]: what it computes is a run of the pool, so that interleaved scenarios
    can be evaluated.  [waits_for] says when a thread is held up by another's row locks. *)
From S2P Require Import Prelude Decimals PyText PyVal Ledger Fx PaymentSM Recon Sgqr Webhooks.
From S2P Require Import Store Session Repos SupportRepos LedgerService PaymentService Backoff.
From S2P Require Import Dispatch ReconService Responses Api Operations System.

#[local] Open Scope Z_scope.

(** * Decisions *)

Definition fresh_b (db : DB) (u : UUID) : bool :=
  no_key (accounts db) u && no_key (journal_entries db) u && no_key (payments db) u &&
  no_key (webhook_subscriptions db) u && no_key (webhook_deliveries db) u &&
  no_key (reconciliation_runs db) u &&
  bool_decide (map_Forall (fun _ r => ik_id r <> u) (idempotency_keys db)).

Lemma fresh_b_ok db u : fresh_b db u = true -> fresh_uuid db u.
Proof.
  unfold fresh_b, no_key. intros Hb. repeat (apply andb_prop in Hb as [Hb ?]).
  repeat match goal with H : bool_decide _ = true |- _ => apply bool_decide_eq_true in H end.
  by split_and!.
Qed.

Definition same_row (w1 w2 : Write) : bool :=
  match key_of w1, key_of w2 with
  | Some k1, Some k2 => bool_decide (k1 = k2)
  | _, _ => false
  end.
Definition same_number (w1 w2 : Write) : bool :=
  match w1, w2 with
  | PutAccount a, PutAccount b => bool_decide (acc_account_number a = acc_account_number b)
  | _, _ => false
  end.
Definition conflict_b (w1 w2 : Write) : bool := same_row w1 w2 || same_number w1 w2.

Lemma conflict_b_iff w1 w2 : conflict_b w1 w2 = true <-> conflict w1 w2.
Proof.
  unfold conflict_b, conflict, same_row. rewrite orb_true_iff. split.
  - intros [Hr|Hn].
    + left. destruct (key_of w1) as [k1|], (key_of w2) as [k2|]; try done.
      apply bool_decide_eq_true in Hr as ->. eauto.
    + right. destruct w1, w2; try done. apply bool_decide_eq_true in Hn. eauto.
  - intros [(k & -> & ->)|(a & b & -> & -> & Hn)].
    + left. by apply bool_decide_eq_true.
    + right. by apply bool_decide_eq_true.
Qed.

Definition compatible_b (log1 log2 : list Write) : bool :=
  forallb (fun w1 => forallb (fun w2 => negb (conflict_b w1 w2)) log2) log1.

Lemma compatible_b_ok log1 log2 : compatible_b log1 log2 = true -> compatible log1 log2.
Proof.
  intros Hb w1 w2 Hw1 Hw2 Hc%conflict_b_iff. unfold compatible_b in Hb.
  rewrite forallb_forall in Hb. specialize (Hb w1 (proj1 (list_elem_of_In _ _) Hw1)).
  rewrite forallb_forall in Hb. specialize (Hb w2 (proj1 (list_elem_of_In _ _) Hw2)).
  by rewrite Hc in Hb.
Qed.

(** * Schedules *)

Inductive Move :=
| Start (op : Operation)
| Step (i : nat) (answer : N)          (* the world's answer, if the step asks for one *)
| Fault (i : nat).                     (* the database fails the statement or commit *)

Section scheduler.
Context `{Platform}.

Definition thread_exec (db : DB) (th : Thread) (v : N) : option (DB * Thread) :=
  let '(m, s) := th in
  match m with
  | Ret _ | Raise _ => None
  | Sql stmt k =>
      match stmt (s_now s) (view db (s_log s)) with
      | Ok (r, ws) => Some (db, (k (Ok r), with_sql s db (s_log s ++ ws)))
      | Err e => Some (db, (k (Err e), with_sql s db (s_log s)))
      end
  | NewUuid k => if fresh_b (view db (s_log s)) v then Some (db, (k v, s)) else None
  | Now k => Some (db, (k (Z.of_N v), s))
  | OpenTx k => Some (db, (k, with_open s (Z.of_N v)))
  | Commit k => Some (view db (s_log s), (k (Ok tt), with_commit s db))
  | Rollback k | CloseTx k => Some (db, (k, with_sql s (s_db s) []))
  | Sleep a k => Some (db, (k, with_sleep s a))
  | Send rq k => Some (db, (k (Ok (Z.of_N v)), with_sent s rq (Ok (Z.of_N v))))
  end.

Definition thread_fault (db : DB) (th : Thread) : option (DB * Thread) :=
  let '(m, s) := th in
  match m with
  | Sql stmt k => Some (db, (k (Err DBAPIError), s))
  | Commit k => Some (db, (k (Err DBAPIError), with_sql s (s_db s) []))
  | _ => None
  end.

Lemma thread_exec_ok db th v db' th' :
  thread_exec db th v = Some (db', th') -> thread_step db th db' th'.
Proof.
  destruct th as [m s]. destruct m; cbn [thread_exec]; try done; try (intros [= <- <-]; by constructor).
  - destruct (stmt _ _) as [[r ws]|e] eqn:Hs; intros [= <- <-]; by constructor.
  - destruct (fresh_b _ _) eqn:Hf; [|done]. intros [= <- <-]. constructor. by apply fresh_b_ok.
Qed.

Lemma thread_fault_ok db th db' th' :
  thread_fault db th = Some (db', th') -> thread_step db th db' th'.
Proof. destruct th as [[] s]; cbn [thread_fault]; try done; intros [= <- <-]; by constructor. Qed.

(** No other thread's uncommitted rows are in the way. *)
Fixpoint apart_from (i j : nat) (l : list Thread) (log : list Write) : bool :=
  match l with
  | [] => true
  | o :: l' => ((i =? j)%nat || compatible_b log (s_log o.2)) && apart_from i (S j) l' log
  end.

Lemma apart_from_ok i j l log k o :
  apart_from i j l log = true -> l !! k = Some o -> (j + k)%nat <> i -> compatible log (s_log o.2).
Proof.
  revert j k. induction l as [|x l IH]; intros j k; [done|]. cbn [apart_from].
  intros [Hx Hl]%andb_prop Hk Hi. destruct k as [|k]; cbn in Hk.
  - injection Hk as ->. apply orb_prop in Hx as [Hx|Hx]; [|by apply compatible_b_ok].
    apply Nat.eqb_eq in Hx. lia.
  - eapply (IH (S j) k); [done|done|lia].
Qed.

Definition moved (p : Pool) (i : nat) (step : Thread -> option (DB * Thread)) : option Pool :=
  match p.2 !! i with
  | None => None
  | Some th =>
      match step th with
      | None => None
      | Some (db, th') =>
          if apart_from i 0 p.2 (s_log th'.2) then Some (db, <[i := th']> p.2) else None
      end
  end.

Definition play (m : Move) (p : Pool) : option Pool :=
  match m with
  | Start op => Some (p.1, p.2 ++ [(operation op, init_sess p.1)])
  | Step i v => moved p i (fun th => thread_exec p.1 th v)
  | Fault i => moved p i (thread_fault p.1)
  end.

Fixpoint play_all (ms : list Move) (p : Pool) : option Pool :=
  match ms with
  | [] => Some p
  | m :: rest => match play m p with Some p' => play_all rest p' | None => None end
  end.

Lemma moved_step p i step p' :
  (forall th db' th', step th = Some (db', th') -> thread_step p.1 th db' th') ->
  moved p i step = Some p' -> pool_step p p'.
Proof.
  destruct p as [db l]. unfold moved. cbn [fst snd]. intros Hok Hm.
  destruct (l !! i) as [th|] eqn:Hi; [|done]. destruct (step th) as [[db' th']|] eqn:Hs; [|done].
  destruct (apart_from _ _ _ _) eqn:Ha; [|done]. injection Hm as <-.
  econstructor; [exact Hi|by apply Hok|].
  intros j o Hj Ho. by eapply (apart_from_ok i 0 l _ j o).
Qed.

Lemma play_step m p p' : play m p = Some p' -> pool_step p p'.
Proof.
  destruct m as [op|i v|i]; cbn [play].
  - destruct p as [db l]. intros [= <-]. constructor.
  - apply moved_step. intros. by apply (thread_exec_ok _ _ v).
  - apply moved_step. intros. by apply thread_fault_ok.
Qed.

Lemma play_all_steps ms p p' : play_all ms p = Some p' -> rtc pool_step p p'.
Proof.
  revert p. induction ms as [|m ms IH]; intros p; cbn [play_all]; [intros [= <-]; apply rtc_refl|].
  destruct (play m p) as [p1|] eqn:Hm; [|done]. intros Hr. eapply rtc_l; [by apply (play_step m)|by apply IH].
Qed.

Lemma play_reachable ms db p : play_all ms (db, []) = Some p -> reachable db p.
Proof. apply play_all_steps. Qed.

(** * Waiting *)

(** Thread [i]'s next statement would write a row that thread [j] has written and not yet
    committed: PostgreSQL makes it wait. *)
Definition waits_for (p : Pool) (i j : nat) : Prop :=
  exists R (stmt : Stmt R) k s r ws o,
    p.2 !! i = Some (Sql stmt k, s) /\ p.2 !! j = Some o /\ i <> j /\
    stmt (s_now s) (view p.1 (s_log s)) = Ok (r, ws) /\ ~ compatible (s_log s ++ ws) (s_log o.2).

Definition waits_b (p : Pool) (i j : nat) : bool :=
  match p.2 !! i, p.2 !! j with
  | Some (Sql stmt k, s), Some o =>
      match stmt (s_now s) (view p.1 (s_log s)) with
      | Ok (r, ws) =>
          negb (i =? j)%nat &&
          existsb (fun w1 => existsb (fun w2 => conflict_b w1 w2) (s_log o.2)) (s_log s ++ ws)
      | Err _ => false
      end
  | _, _ => false
  end.

Lemma waits_b_ok p i j : waits_b p i j = true -> waits_for p i j.
Proof.
  unfold waits_b, waits_for. destruct (p.2 !! i) as [[m s]|] eqn:Hi; [|done].
  destruct m; try done. destruct (p.2 !! j) as [o|] eqn:Hj; [|done].
  destruct (stmt _ _) as [[r ws]|] eqn:Hs; [|done]. intros [Hij Hc]%andb_prop.
  exists R, stmt, k, s, r, ws, o. split_and!; try done.
  - intros ->. by rewrite Nat.eqb_refl in Hij.
  - intros Hcomp. apply existsb_exists in Hc as (w1 & Hw1 & Hc).
    apply existsb_exists in Hc as (w2 & Hw2 & Hc). apply conflict_b_iff in Hc.
    by apply (Hcomp w1 w2); [apply list_elem_of_In..|].
Qed.

(** The three ways a statement can go. *)
Definition sql_outcome (db : DB) (th : Thread) (db' : DB) (th' : Thread) : Prop :=
  match th.1 with
  | Sql stmt k =>
      (exists r ws, stmt (s_now th.2) (view db (s_log th.2)) = Ok (r, ws) /\ db' = db /\
         th' = (k (Ok r), with_sql th.2 db (s_log th.2 ++ ws))) \/
      (exists e, stmt (s_now th.2) (view db (s_log th.2)) = Err e /\
         th' = (k (Err e), with_sql th.2 db (s_log th.2))) \/
      (db' = db /\ th' = (k (Err DBAPIError), th.2))
  | _ => True
  end.

Lemma sql_step_cases db th db' th' : thread_step db th db' th' -> sql_outcome db th db' th'.
Proof. destruct 1; cbn; eauto 10. Qed.

(** A waiting thread moves only when the database fails its statement. *)
Definition failed_in (p p' : Pool) (i : nat) : Prop :=
  exists th th', p.2 !! i = Some th /\ thread_fault p.1 th = Some (p'.1, th') /\ p'.2 !! i = Some th'.

Lemma waiting_only_fails p p' i j :
  waits_for p i j -> pool_step p p' -> p'.2 !! i = p.2 !! i \/ failed_in p p' i.
Proof.
  intros (R & stmt & k & s & r & ws & o & Hi & Hj & Hij & Hs & Hc) Hstep.
  destruct Hstep as [db db' l n th th' Hn Hstep Hcomp|db l op]; cbn [fst snd] in *.
  2: { left. transitivity (Some (Sql stmt k, s)); [by apply snoc_before|by symmetry]. }
  destruct (decide (n = i)) as [->|Hne]; [|left; by apply insert_other].
  right. assert (th = (Sql stmt k, s)) as -> by (enough (Some th = Some (Sql stmt k, s)) by congruence; by transitivity (l !! i)).

  destruct (sql_step_cases _ _ _ _ Hstep) as [(r' & ws' & Hs' & -> & ->)|[(e & Hs' & _)|[-> ->]]];
    cbn [fst snd] in *.
  - rewrite Hs in Hs'. injection Hs' as -> ->. destruct Hc. by apply (Hcomp j o).
  - by rewrite Hs in Hs'.
  - exists (Sql stmt k, s), (k (Err DBAPIError), s). split_and!; [done|done|].
    by eapply insert_same.
Qed.
End scheduler.
