(* ===== verification/Concrete.v ===== *)
(** Concrete: one platform on which the programs can be run.

    NUMERIC(18,2) coercion is PostgreSQL's (ties away from zero, overflow from 10^16 on);
    sets iterate in CPython's order, scans are in order; the two hash functions are
    polynomial ones with digests of the right length. *)
From S2P Require Import Prelude Decimals PyText Ledger Store.

#[local] Open Scope Z_scope.

(** Rounded to two places, ties away from zero. *)
Definition round_cents (s : bool) (c : N) (e : Z) : Z :=
  sval s (if 0 <=? e + 2 then (c * 10 ^ Z.to_N (e + 2))%N else shift_half_up c (- (e + 2))).

Definition coerce_numeric (d : Decimal) : option Decimal :=
  match d with
  | Fin s c e =>
      let z := round_cents s c e in
      if Z.abs z <? 10 ^ 18 then Some (of_cents z) else None
  | NaN _ => Some (NaN false)
  | Inf _ => None
  end.

(** 64 hexadecimal digits. *)
Definition digest (bytes : list N) : string :=
  string_of_list_ascii (hex_digits 64 (foldl (fun h b => (257 * h + b + 1) mod 2 ^ 256)%N 0%N bytes)).

Lemma digest_len bytes : len (digest bytes) = 64.
Proof. done. Qed.

Lemma hex_digits_text k n : forallb (fun c => negb (N_of_ascii c =? 0)%N) (hex_digits k n) = true.
Proof.
  revert n. induction k as [|k IH]; intros n; [done|]. cbn [hex_digits]. rewrite forallb_app, IH.
  cbn [forallb]. rewrite andb_true_r. unfold hex_digit. apply negb_true_iff, N.eqb_neq.
  assert (Hn : (n mod 16 < 16)%N) by (apply N.mod_lt; lia).
  set (m := (n mod 16)%N) in *. clearbody m. destruct (N.ltb_spec m 10).
  - rewrite N_ascii_embedding; lia.
  - rewrite N_ascii_embedding; lia.
Qed.

Lemma digest_varchar bytes : varchar 64 (digest bytes) = true.
Proof.
  unfold varchar. rewrite digest_len. cbn [Z.leb Z.compare andb]. unfold digest.
  rewrite list_ascii_of_string_of_list_ascii. apply hex_digits_text.
Qed.

Lemma round_cents_of_cents z : round_cents (z <? 0) (Z.abs_N z) (-2) = z.
Proof. unfold round_cents. simpl (0 <=? _). rewrite N.mul_1_r. apply sval_of_cents. Qed.

Lemma coerce_column d : column_amount d -> coerce_numeric d = Some d.
Proof.
  intros [Hc Hb]. rewrite Hc. unfold of_cents at 1. cbn [coerce_numeric].
  rewrite round_cents_of_cents. by destruct (Z.ltb_spec (Z.abs (cents_of d)) (10 ^ 18)); [|lia].
Qed.

Lemma coerce_stored d d' :
  coerce_numeric d = Some d' -> column_amount d' \/ (d' = NaN false /\ exists b, d = NaN b).
Proof.
  destruct d as [s c e|s|b]; cbn [coerce_numeric]; [|done|intros [= <-]; right; by eauto].
  destruct (Z.ltb_spec (Z.abs (round_cents s c e)) (10 ^ 18)); [|done].
  intros [= <-]. left. split; [apply is_cents_of_cents|by rewrite cents_of_cents].
Qed.

Lemma coerce_overflow d :
  is_cents d -> 10 ^ 18 <= Z.abs (cents_of d) -> coerce_numeric d = None.
Proof.
  intros Hc Hb. rewrite Hc. unfold of_cents. cbn [coerce_numeric].
  rewrite round_cents_of_cents. by destruct (Z.ltb_spec (Z.abs (cents_of d)) (10 ^ 18)); [lia|].
Qed.

Lemma coerce_underflow c e :
  200 * Z.of_N c < 10 ^ (- e) -> coerce_numeric (Fin false c e) = Some (of_cents 0).
Proof.
  intros Hc. assert (He : 0 <= - e) by (destruct (Z.le_gt_cases 0 (- e)); [done|rewrite Z.pow_neg_r in Hc; lia]).
  assert (Hz : round_cents false c e = 0); [|cbn [coerce_numeric]; by rewrite Hz].
  unfold round_cents. destruct (Z.leb_spec 0 (e + 2)) as [Hle|Hlt].
  - assert (H2 : 10 ^ (- e) <= 10 ^ 2) by (apply Z.pow_le_mono_r; lia).
    assert (c = 0%N) as -> by lia. done.
  - unfold shift_half_up. set (p := (10 ^ Z.to_N (- (e + 2)))%N).
    assert (Hp : 10 ^ (- e) = 100 * Z.of_N p).
    { unfold p. rewrite N2Z.inj_pow, Z2N.id by lia. change (Z.of_N 10) with 10. change 100 with (10 ^ 2).
      rewrite <- Z.pow_add_r by lia. f_equal. lia. }
    rewrite N.div_small, N.mod_small by lia. by destruct (N.leb_spec p (2 * c)); [lia|].
Qed.

(** ** CPython's order of a small set of UUIDs

    A set of up to four elements is a table of eight slots, probed from the hash on; the
    iteration follows the slots, so that of two elements whose hashes collide the one
    inserted first comes first. *)

Definition uuid_hash (u : UUID) : N := (u mod (2 ^ 61 - 1))%N.

Fixpoint probe (fuel : nat) (u i perturb : N) (table : list (option UUID)) : list (option UUID) :=
  match fuel with
  | O => table
  | S fuel' =>
      match table !! N.to_nat i with
      | Some (Some v) =>
          if decide (v = u) then table
          else let perturb' := N.shiftr perturb 5 in
               probe fuel' u (N.land (i * 5 + 1 + perturb') 7) perturb' table
      | Some None => <[N.to_nat i := Some u]> table
      | None => table
      end
  end.

Definition set_add (table : list (option UUID)) (u : UUID) : list (option UUID) :=
  probe 32 u (N.land (uuid_hash u) 7) (uuid_hash u) table.

(** Larger sets, whose table has grown, are listed in order of insertion here. *)
Definition cpython_set_iter (l : list UUID) : list UUID :=
  let slots := omap id (foldl set_add (replicate 8 None) l) in
  if decide (length (remove_dups l) <= 4)%nat then
    if decide (NoDup slots /\ (list_to_set slots : gset UUID) = list_to_set l) then slots
    else remove_dups l
  else remove_dups l.

Lemma NoDup_elements_of (l r : list UUID) :
  NoDup r -> (list_to_set r : gset UUID) = list_to_set l -> r ≡ₚ elements (list_to_set l : gset UUID).
Proof. intros Hr <-. by rewrite elements_list_to_set. Qed.

Lemma cpython_set_iter_perm l : cpython_set_iter l ≡ₚ elements (list_to_set l : gset UUID).
Proof.
  assert (Hd : remove_dups l ≡ₚ elements (list_to_set l : gset UUID)).
  { apply NoDup_elements_of; [apply NoDup_remove_dups|]. apply set_eq. intros i.
    by rewrite !elem_of_list_to_set, elem_of_remove_dups. }
  unfold cpython_set_iter. cbv zeta. case_decide; [|done]. case_decide as Hs; [|done].
  destruct Hs. by apply NoDup_elements_of.
Qed.

Example set_order_collides : cpython_set_iter [8; 16]%N = [8; 16]%N /\ cpython_set_iter [16; 8]%N = [16; 8]%N.
Proof. by split. Qed.

#[export] Instance concrete_platform : Platform := {
    pg_numeric_18_2 := coerce_numeric;
    pg_numeric_stored := coerce_stored;
    pg_numeric_exact := coerce_column;
    pg_numeric_overflow := coerce_overflow;
    pg_numeric_underflow := coerce_underflow;
    pg_scan A l := l;
    pg_scan_perm A l := reflexivity l;
    set_iter := cpython_set_iter;
    set_iter_perm := cpython_set_iter_perm;
    sha256_hex := digest;
    sha256_hex_len := digest_len;
    hmac_sha256_hex key body := digest (key ++ body);
  }.
