(* ===== verification/Demo.v ===== *)
(** Demo: whole operations run to their end on the concrete platform.

    [solo] runs a program alone with given identifiers, clock readings and network answers;
    [solo_reachable] shows that what it computes is a run of the pool, so that the scenarios
    computed here are reachable states of the system. *)
From S2P Require Import Prelude Decimals PyText PyVal Ledger Fx PaymentSM Recon Sgqr Webhooks.
From S2P Require Import Store Session Repos SupportRepos LedgerService PaymentService Backoff.
From S2P Require Import Dispatch ReconService Responses Api Invariant Commits PaymentRuns PaymentSafety.
From S2P Require Import InitiationSafety Book SystemSafety Operations System Scheduler Seed Concrete.

#[local] Open Scope Z_scope.

(** * Running alone *)

(** The answers of the world: identifiers, clock readings, network answers. *)
Record World := { w_uuids : list UUID; w_clock : list Z; w_net : list (result string Z) }.

(** [None] when an identifier repeats one in use. *)
Fixpoint solo {A} (m : Prog A) (s : Sess) (w : World) : option (Sess * result Exn A) :=
  match m with
  | Ret a => Some (s, Ok a)
  | Raise e => Some (s, Err e)
  | Sql stmt k =>
      match stmt (s_now s) (view (s_db s) (s_log s)) with
      | Ok (r, ws) => solo (k (Ok r)) (with_sql s (s_db s) (s_log s ++ ws)) w
      | Err e => solo (k (Err e)) (with_sql s (s_db s) (s_log s)) w
      end
  | NewUuid k =>
      let '(u, l) := next 0%N (w_uuids w) in
      if fresh_b (view (s_db s) (s_log s)) u
      then solo (k u) s {| w_uuids := l; w_clock := w_clock w; w_net := w_net w |}
      else None
  | Now k =>
      let '(t, l) := next 0 (w_clock w) in
      solo (k t) s {| w_uuids := w_uuids w; w_clock := l; w_net := w_net w |}
  | OpenTx k =>
      let '(t, l) := next 0 (w_clock w) in
      solo k (with_open s t) {| w_uuids := w_uuids w; w_clock := l; w_net := w_net w |}
  | Commit k => solo (k (Ok tt)) (with_commit s (s_db s)) w
  | Rollback k | CloseTx k => solo k (with_sql s (s_db s) []) w
  | Sleep a k => solo k (with_sleep s a) w
  | Send rq k =>
      let '(r, l) := next (Err "TimeoutError: ") (w_net w) in
      solo (k r) (with_sent s rq r) {| w_uuids := w_uuids w; w_clock := w_clock w; w_net := l |}
  end.

Section solo.
Context `{Platform}.

(** A pool whose other threads hold no locks. *)
Definition idle (l : list Thread) : Prop := Forall (fun th => s_log th.2 = []) l.

Lemma idle_snoc l th : idle l -> s_log th.2 = [] -> idle (l ++ [th]).
Proof. induction 1 as [|x l Hx _ IH]; intros Hth; constructor; [done|constructor|done|exact (IH Hth)]. Qed.

Lemma idle_step l db db' th th' :
  idle l -> thread_step db th db' th' ->
  pool_step (db, l ++ [th]) (db', l ++ [th']).
Proof.
  intros Hl Hstep.
  replace (l ++ [th']) with (<[length l := th']> (l ++ [th])).
  2:{ clear. induction l as [|x l IH]; [done|]. simpl. by rewrite IH. }
  apply (pool_thread db db' (l ++ [th]) (length l) th th'); [|done|].
  - clear. by induction l as [|x l IH].
  - intros j o Hj Ho. apply snoc_cases in Ho as [Ho|[-> _]]; [|done].
  assert (Hn : s_log o.2 = []).
  { clear -Hl Ho. revert j Ho. induction Hl as [|x l Hx _ IH]; intros [|j]; cbn; intros Ho; simplify_eq; eauto. }
  rewrite Hn. by intros ? ? _ ?%elem_of_nil.
Qed.

Lemma solo_reaches (m : Prog Reply) s w s' r l p :
  idle l -> solo m s w = Some (s', r) ->
  rtc pool_step (s_db s', l ++ [(of_result r, s')]) p ->
  rtc pool_step (s_db s, l ++ [(m, s)]) p.
Proof.
  intros Hl Hs Hp. revert s w Hs. induction m as [| |R stmt k IH|? IH|? IH|? IH|? IH|? IH|? IH|a ? IH|rq ? IH];
  intros s w; cbn [solo]; intros Hs.
  - by simplify_eq.
  - by simplify_eq.
  - destruct (stmt _ _) as [[x ws]|e] eqn:Hstmt; (eapply rtc_l; [|by eapply IH]);
    apply idle_step; [done|by constructor|done|by constructor].
  - destruct (next _ _) as [u us]. destruct (fresh_b _ _) eqn:Hf; [|done].
  eapply rtc_l; [|by eapply IH]. apply idle_step; [done|]. constructor. by apply fresh_b_ok.
  - destruct (next _ _) as [t ts]. eapply rtc_l; [|by eapply IH]. apply idle_step; [done|constructor].
  - destruct (next _ _) as [t ts]. eapply rtc_l; [|by eapply (IH (with_open s t))].
  apply idle_step; [done|constructor].
  - eapply rtc_l; [|by eapply (IH (Ok tt) (with_commit s (s_db s)))]. apply idle_step; [done|constructor].
  - eapply rtc_l; [|by eapply (IH (with_sql s (s_db s) []))]. apply idle_step; [done|constructor].
  - eapply rtc_l; [|by eapply (IH (with_sql s (s_db s) []))]. apply idle_step; [done|constructor].
  - eapply rtc_l; [|by eapply (IH (with_sleep s a))]. apply idle_step; [done|constructor].
  - destruct (next _ _) as [r' rs]. eapply rtc_l; [|by eapply (IH r' (with_sent s rq r'))].
  apply idle_step; [done|constructor].
Qed.

(** Operations one after the other, each with its world.  [None] if one ends with an
    uncommitted statement or a repeated identifier. *)
Fixpoint day (db : DB) (l : list Thread) (ops : list (Operation * World)) : option Pool :=
  match ops with
  | [] => Some (db, l)
  | (op, w) :: rest =>
    match solo (operation op) (init_sess db) w with
    | Some (s, r) =>
        if s_log s is [] then day (s_db s) (l ++ [(of_result r, s)]) rest else None
    | None => None
    end
  end.

Lemma day_reaches ops db l p : idle l -> day db l ops = Some p -> rtc pool_step (db, l) p.
Proof.
  revert db l. induction ops as [|[op w] ops IH]; intros db l Hl; cbn [day].
  - intros [= <-]. apply rtc_refl.
  - destruct (solo _ _ _) as [[s r]|] eqn:Hs; [|done].
  destruct (s_log s) as [|] eqn:Hlog; [|done]. intros Hd.
  eapply rtc_l; [apply (pool_start db l op)|].
  eapply (solo_reaches _ (init_sess db)); [done|done|]. apply IH; [by apply idle_snoc|done].
Qed.

Lemma day_reachable db ops p : day db [] ops = Some p -> reachable db p.
Proof. intros Hd. eapply day_reaches; [constructor|done]. Qed.
End solo.

(** * A scenario: a transfer in one currency, one through the suspense account, a reversal,
    and two payments still on their way *)

Definition demo_seed : DB := seeded_db 1%N [11; 12; 13; 14; 15; 16]%N 1000.

Definition world (uuids : list UUID) : World := {| w_uuids := uuids; w_clock := [2000]; w_net := [] |}.

Definition demo_ops : list (Operation * World) :=
  [(PostAccount {| car_account_number := "ACC-1"; car_owner_name := "Alice";
                   car_account_type := "customer"; car_currency := "sgd" |}, world [21%N]);
   (PostAccount {| car_account_number := "ACC-2"; car_owner_name := "Bob";
                   car_account_type := "customer"; car_currency := "SGD" |}, world [22%N]);
   (PostAccount {| car_account_number := "ACC-3"; car_owner_name := "Carol";
                   car_account_type := "customer"; car_currency := "USD" |}, world [23%N]);
   (PostSubscription {| cwr_url := "https://example.test/hook"; cwr_secret := "secret-key";
                        cwr_event_types := ["payment.settled"] |}, world [31%N]);
   (PostPayment {| ipr_debtor_account_id := 21%N; ipr_creditor_account_id := 22%N;
                   ipr_amount := of_cents 1050; ipr_currency := "SGD";
                   ipr_end_to_end_id := Some "E2E-1" |} "key-1", world [41; 42]%N);
   (PostPayment {| ipr_debtor_account_id := 21%N; ipr_creditor_account_id := 23%N;
                   ipr_amount := of_cents 10000; ipr_currency := "SGD";
                   ipr_end_to_end_id := None |} "key-2", world [43; 44]%N);
   (Authorise 42%N, world []);
   (Authorise 44%N, world []);
   (Settle 42%N, world [51; 52]%N);
   (Settle 44%N, world [53; 54]%N);
   (Reverse 42%N, world [55]%N);
   (PostPayment {| ipr_debtor_account_id := 21%N; ipr_creditor_account_id := 23%N;
                   ipr_amount := of_cents 5000; ipr_currency := "SGD";
                   ipr_end_to_end_id := None |} "key-3", world [45; 46]%N);
   (PostPayment {| ipr_debtor_account_id := 22%N; ipr_creditor_account_id := 21%N;
                   ipr_amount := of_cents 1; ipr_currency := "SGD";
                   ipr_end_to_end_id := None |} "key-4", world [47; 48]%N);
   (Authorise 46%N, world [])].

Definition demo_pool : Pool := default (demo_seed, []) (day demo_seed [] demo_ops).
Definition demo_db : DB := demo_pool.1.

Lemma demo_day : day demo_seed [] demo_ops = Some demo_pool.
Proof.
  unfold demo_pool. destruct (day demo_seed [] demo_ops) as [p|] eqn:Hd; [reflexivity|].
  assert (Hn : (if day demo_seed [] demo_ops is Some _ then true else false) = true)
    by (vm_compute; reflexivity).
  by rewrite Hd in Hn.
Qed.

Lemma demo_reachable : reachable demo_seed (demo_db, demo_pool.2).
Proof.
  unfold demo_db. rewrite <- surjective_pairing. exact (day_reachable _ _ _ demo_day).
Qed.

#[global] Opaque demo_pool demo_db.

Lemma demo_seed_Inv : Inv demo_seed.
Proof. apply seeded_Inv. Qed.

Lemma demo_Inv : Inv demo_db.
Proof.
  exact (pk_inv demo_seed (demo_db, demo_pool.2)
    (pool_reachable demo_seed (demo_db, demo_pool.2) demo_seed_Inv demo_reachable)).
Qed.

(** * The theorems at this state *)

Lemma pool_safe_witness :
  reachable demo_seed (demo_db, demo_pool.2) /\
  (pay_status <$> payments demo_db !! 42%N, pay_status <$> payments demo_db !! 44%N) =
    (Some REVERSED, Some SETTLED) /\
  Inv demo_db /\ evolves demo_seed demo_db.
Proof.
  split; [exact demo_reachable|]. split; [by vm_compute|].
  exact (pool_safe demo_seed demo_db demo_pool.2 demo_seed_Inv demo_reachable).
Defined.

Lemma money_conserved_witness :
  (position demo_db 21%N "SGD", position demo_db 23%N "USD") = (-10000, 7400) /\
  balanced (jlm_line <$> journal_lines demo_db).
Proof.
  split; [by vm_compute|].
  exact (proj1 (money_conserved demo_seed demo_db demo_pool.2 demo_seed_Inv demo_reachable)).
Defined.

Lemma pool_refines_book_witness :
  let p' := (demo_db, demo_pool.2 ++ [(operation (Settle 44%N), init_sess demo_db)]) in
  pool_step (demo_db, demo_pool.2) p' /\
  (book_of p'.1 ≡ book_of demo_db \/ exists id, book_step (book_of demo_db) (book_of p'.1) id).
Proof.
  split; [apply pool_start|].
  exact (pool_refines_book demo_seed _ _ demo_seed_Inv demo_reachable (pool_start demo_db _ (Settle 44%N))).
Defined.

Lemma key_claimed_once_witness :
  exists th1 th2, demo_pool.2 !! 4%nat = Some th1 /\ demo_pool.2 !! 5%nat = Some th2 /\
    ~ (claimed_by (s_commits th1.2) (IDEMPOTENCY_ENDPOINT_INITIATE_PAYMENT, "key-1"%string) /\
       claimed_by (s_commits th2.2) (IDEMPOTENCY_ENDPOINT_INITIATE_PAYMENT, "key-1"%string)).
Proof.
  destruct (demo_pool.2 !! 4%nat) as [th1|] eqn:H1; [|vm_compute in H1; discriminate H1].
  destruct (demo_pool.2 !! 5%nat) as [th2|] eqn:H2; [|vm_compute in H2; discriminate H2].
  exists th1, th2. split; [reflexivity|]. split; [reflexivity|].
  exact (key_claimed_once demo_seed demo_db demo_pool.2 4 5 th1 th2 _ demo_seed_Inv demo_reachable
    ltac:(discriminate) H1 H2).
Defined.

Lemma demo_sess_Inv : Inv (s_db (init_sess demo_db)).
Proof. exact demo_Inv. Qed.

Lemma balance_correct_witness :
  Inv (s_db (init_sess demo_db)) /\
  runs (get_account_balance 23%N "usd") (init_sess demo_db) (fun s' r =>
    s_commits s' = [] /\ balance_answer 23%N "usd" (s_db s') r).
Proof.
  split; [exact demo_sess_Inv|]. exact (balance_correct 23%N "usd" (init_sess demo_db) demo_sess_Inv).
Defined.

Lemma transitions_atomic_witness :
  pay_status <$> payments demo_db !! 44%N = Some SETTLED /\
  runs (reverse_payment 44%N 5) (init_sess demo_db) (transition_end [] 44%N REVERSED).
Proof.
  split; [vm_compute; reflexivity|].
  exact (proj2 (proj2 (proj2 (transitions_atomic 44%N 5 None (init_sess demo_db) demo_sess_Inv)))).
Defined.

Lemma idempotent_initiation_correct_witness :
  Inv (s_db (init_sess demo_db)) /\
  runs (initiate_payment_idempotent "key-1" [] 21%N 22%N (of_cents 1050) "SGD" None) (init_sess demo_db)
    (fun s' r => Inv (s_db s') /\
       idempotent_end [] "key-1" (hash_request_body []) 21%N 22%N (of_cents 1050) "SGD" None s' r).
Proof.
  split; [exact demo_sess_Inv|].
  exact (idempotent_initiation_correct "key-1" [] 21%N 22%N (of_cents 1050) "SGD" None
    (init_sess demo_db) demo_sess_Inv).
Defined.

Lemma initiation_atomic_witness :
  Inv (s_db (init_sess demo_db)) /\
  runs (initiate_payment 21%N 22%N (of_cents 1050) "SGD" None) (init_sess demo_db)
    (initiation_end [] 21%N 22%N (of_cents 1050) "SGD" None).
Proof.
  split; [exact demo_sess_Inv|].
  exact (initiation_atomic 21%N 22%N (of_cents 1050) "SGD" None (init_sess demo_db) demo_sess_Inv).
Defined.
