(* ===== verification/DemoRuns.v ===== *)
(** DemoRuns: the theorems about operations run alone, applied in the state the scenario of
    Demo reaches. *)
From S2P Require Import Prelude Decimals PyText PyTime PyVal JsonFacts Ledger Fx PaymentSM Recon Sgqr Webhooks.
From S2P Require Import Store Session Repos SupportRepos LedgerService PaymentService Backoff.
From S2P Require Import Dispatch ReconService Messages Responses Api Invariant Commits PaymentRuns PaymentSafety.
From S2P Require Import Alone AloneTransitions Settlement Retries Progress Posting Delivery Orphans.
From S2P Require Import Refusals KeyedRequests Initiating Reconciling Xml Iso20022 IsoRuns System App PoolWait Seed FxMigration Concrete Demo.

#[local] Open Scope Z_scope.

(** * Rows of the scenario *)

Definition demo_account (id : UUID) (number owner currency : string) (version : Z) : Account :=
  {| acc_id := id; acc_account_number := number; acc_owner_name := owner;
     acc_account_type := "customer"; acc_currency := currency; acc_status := "active";
     acc_version := version |}.
Definition alice : Account := demo_account 21%N "ACC-1" "Alice" "SGD" 3.
Definition carol : Account := demo_account 23%N "ACC-3" "Carol" "USD" 1.
Definition suspense_now : Account :=
  {| acc_id := 1%N; acc_account_number := FX_SUSPENSE_ACCOUNT_NUMBER; acc_owner_name := "FX Suspense";
     acc_account_type := "fx_suspense"; acc_currency := "SGD"; acc_status := "active";
     acc_version := 1 |}.

(** The payment of 50.00 SGD that is authorised, and the one of 0.01 SGD just initiated. *)
Definition open_payment (id debtor creditor : UUID) (cents : Z) (st : PaymentStatus) (version : Z)
    : Payment :=
  {| pay_id := id; pay_debtor_account_id := debtor; pay_creditor_account_id := creditor;
     pay_amount := of_cents cents; pay_currency := "SGD"; pay_status := st; pay_version := version;
     pay_end_to_end_id := None; pay_fx_rate_id := None; pay_creditor_amount := None |}.
Definition authorised_payment : Payment := open_payment 46%N 21%N 23%N 5000 AUTHORISED 1.
Definition initiated_payment : Payment := open_payment 48%N 22%N 21%N 1 INITIATED 0.
Definition settled_payment : Payment :=
  set_fx (open_payment 44%N 21%N 23%N 10000 SETTLED 2) (Some 11%N) (Some (of_cents 7400)).

Definition usd_rate : FxRate := rate_row 1000 11%N ("SGD", "USD", of_rate 74000000)%string.

Lemma demo_accounts :
  accounts demo_db !! 21%N = Some alice /\ accounts demo_db !! 23%N = Some carol /\
  accounts demo_db !! 1%N = Some suspense_now.
Proof. split; [|split]; vm_compute; reflexivity. Qed.

Lemma demo_payments :
  payments demo_db !! 46%N = Some authorised_payment /\
  payments demo_db !! 48%N = Some initiated_payment /\
  payments demo_db !! 44%N = Some settled_payment.
Proof. split; [|split]; vm_compute; reflexivity. Qed.

Lemma postable_intro db id a :
  accounts db !! id = Some a -> acc_id a = id -> varchar 3 (acc_currency a) = true ->
  acc_version a < int4_max -> postable db id a.
Proof. by split. Qed.

Lemma demo_postable :
  postable demo_db 21%N alice /\ postable demo_db 23%N carol /\ postable demo_db 1%N suspense_now.
Proof.
  destruct demo_accounts as (Ha & Hc & Hs).
  split; [|split]; (apply postable_intro; [assumption|reflexivity|reflexivity|reflexivity]).
Qed.

Lemma demo_rates : fx_rates demo_db = fx_rates demo_seed.
Proof. vm_compute. reflexivity. Qed.

Lemma demo_latest_rate : latest_rate demo_db "SGD" "USD" usd_rate.
Proof.
  split; [rewrite demo_rates; left|reflexivity|reflexivity|].
  intros r. rewrite demo_rates. unfold demo_seed, seeded_db, _MOCK_RATES. cbn [fx_rates zip_with].
  intros Hr Hb Hq. repeat (apply elem_of_cons in Hr as [->|Hr]; [try discriminate; by left|]).
  by apply elem_of_nil in Hr.
Qed.

Definition conversion_lines : list JournalLine :=
  fx_lines authorised_payment 1%N "SGD" "USD" (of_cents 3700).

Lemma demo_plan :
  settlement_plan demo_db authorised_payment "fx_conversion" conversion_lines
    (Some (11%N, of_cents 3700)).
Proof.
  destruct demo_postable as (Ha & Hc & Hs).
  exact (plan_fx demo_db authorised_payment alice carol 1%N suspense_now usd_rate 5000 74000000
    Ha Hc ltac:(discriminate) Hs eq_refl demo_latest_rate eq_refl eq_refl eq_refl eq_refl
    ltac:(split; reflexivity)).
Qed.

Lemma demo_reversal_plan :
  reversal_plan demo_db settled_payment "fx_conversion_reversal"
    (fx_reversal settled_payment 1%N "SGD" "USD" (of_cents 7400)).
Proof.
  destruct demo_postable as (Ha & Hc & Hs).
  exact (plan_fx_reversal demo_db settled_payment alice carol 1%N suspense_now (of_cents 7400)
    Ha Hc Hs eq_refl eq_refl).
Qed.

(** * The theorems at this state *)

Lemma settle_succeeds_witness :
  settlement_plan demo_db authorised_payment "fx_conversion" conversion_lines
    (Some (11%N, of_cents 3700)) /\
  alone (settle_payment 46%N 5) (init_sess demo_db) (fun s' r =>
    r = Ok (replaced authorised_payment SETTLED (Some (11%N, of_cents 3700))) /\
    entry_posted (init_sess demo_db) 46%N authorised_payment
      (replaced authorised_payment SETTLED (Some (11%N, of_cents 3700)))
      (Some (11%N, of_cents 3700)) "fx_conversion" conversion_lines s').
Proof.
  split; [exact demo_plan|].
  exact (settle_succeeds 46%N authorised_payment "fx_conversion" conversion_lines
    (Some (11%N, of_cents 3700)) 5 (init_sess demo_db) demo_sess_Inv (proj1 demo_payments) eq_refl
    demo_plan ltac:(discriminate)).
Defined.

Lemma transitions_succeed_witness :
  alone (authorise_payment 48%N 5) (init_sess demo_db) (fun s' r =>
    r = Ok (replaced initiated_payment AUTHORISED None) /\
    status_posted (init_sess demo_db) 48%N initiated_payment
      (replaced initiated_payment AUTHORISED None) None s') /\
  alone (reverse_payment 44%N 5) (init_sess demo_db) (fun s' r =>
    r = Ok (replaced settled_payment REVERSED None) /\
    entry_posted (init_sess demo_db) 44%N settled_payment (replaced settled_payment REVERSED None)
      None "fx_conversion_reversal" (fx_reversal settled_payment 1%N "SGD" "USD" (of_cents 7400)) s').
Proof.
  split.
  - exact (proj1 (transitions_succeed 48%N initiated_payment None 5 (init_sess demo_db)
      demo_sess_Inv (proj1 (proj2 demo_payments)) ltac:(discriminate)) eq_refl).
  - exact (proj2 (proj2 (transitions_succeed 44%N settled_payment None 5 (init_sess demo_db)
      demo_sess_Inv (proj2 (proj2 demo_payments)) ltac:(discriminate))) _ _ eq_refl demo_reversal_plan).
Defined.

Lemma retries_bounded_witness :
  DEFAULT_MAX_ATTEMPTS <= 1024 /\
  forall rely, every_run rely anything (settle_payment 46%N DEFAULT_MAX_ATTEMPTS) (init_sess demo_db)
    (fun s' _ => paced 5 (init_sess demo_db) s').
Proof.
  split; [discriminate|]. intros rely.
  exact (proj1 (retries_bounded rely 46%N None {| je_entry_type := ""; je_lines := []; je_payment_id := None;
    je_idempotency_key_id := None |} DEFAULT_MAX_ATTEMPTS (init_sess demo_db) ltac:(discriminate))).
Defined.

(** Another session bumps Alice's account after this settlement has read its version: one
    conflict, one pause, and the second attempt settles the payment. *)
Definition bump_alice (db : DB) : DB := view db [PutAccount (bump_row (default alice (accounts db !! 21%N)))].
Definition racing : Oracle :=
  {| o_env := replicate 7 (Some id) ++ [Some bump_alice]; o_uuids := [71; 72; 73]%N; o_clock := [2000];
     o_net := [] |}.

Lemma transitions_lock_free_witness :
  (let '(s, r) := exec (settle_payment 46%N 5) (init_sess demo_db) racing in
   (s_sleeps s, r) = ([0], Ok (replaced authorised_payment SETTLED (Some (11%N, of_cents 3700))))) /\
  every_run others anything (settle_payment 46%N 5) (init_sess demo_db)
    (lock_free (ConcurrentPaymentModificationError 46%N 5) 5 (init_sess demo_db)).
Proof.
  split; [vm_compute; reflexivity|].
  exact (proj1 (transitions_lock_free 46%N None 5 (init_sess demo_db) demo_sess_Inv)).
Defined.

Definition bob : Account := demo_account 22%N "ACC-2" "Bob" "SGD" 2.
Definition adjustment : JournalEntry :=
  {| je_entry_type := "adjustment";
     je_lines := [line 21%N DEBIT (of_cents 250) "SGD"; line 22%N CREDIT (of_cents 250) "SGD"];
     je_payment_id := None; je_idempotency_key_id := None |}.

Lemma demo_bob : postable demo_db 22%N bob.
Proof.
  apply postable_intro; [|reflexivity|reflexivity|reflexivity]. vm_compute. reflexivity.
Qed.

Lemma adjustment_sound : sound_entry demo_db adjustment.
Proof.
  split; [discriminate|simpl; lia|lines_balance|reflexivity|reflexivity|reflexivity| |].
  - repeat (apply Forall_cons; split; [by exists 250|]). by apply Forall_nil.
  - apply Forall_cons. split; [exists alice; split; [apply demo_postable|reflexivity]|].
    apply Forall_cons. split; [exists bob; split; [exact demo_bob|reflexivity]|]. by apply Forall_nil.
Qed.

Lemma post_journal_entry_succeeds_witness :
  sound_entry demo_db adjustment /\
  alone (post_journal_entry adjustment 1) (init_sess demo_db) (fun s' r =>
    exists eid, r = Ok eid /\ posted (init_sess demo_db) adjustment s' eid).
Proof.
  split; [exact adjustment_sound|].
  exact (post_journal_entry_succeeds adjustment 1 (init_sess demo_db) adjustment_sound ltac:(discriminate)).
Defined.

(** The delivery of the event of the first settlement. *)
Definition demo_delivery_row : option WebhookDeliveryModel := webhook_deliveries demo_db !! 52%N.
Definition demo_delivery : WebhookDelivery :=
  from_option wdm_delivery
    {| dl_id := 0%N; dl_subscription_id := 0%N; dl_payment_id := None; dl_event_type := "";
       dl_payload := ∅; dl_status := DELIVERED; dl_attempt_count := 0; dl_next_attempt_at := 0;
       dl_last_error := None |} demo_delivery_row.
Definition demo_subscription : WebhookSubscription :=
  {| sub_id := 31%N; sub_url := "https://example.test/hook"; sub_secret := "secret-key";
     sub_event_types := ["payment.settled"]; sub_active := true |}.

Lemma demo_due_row : due_row demo_db demo_delivery 2000.
Proof. split; vm_compute; reflexivity. Qed.
Lemma demo_delivery_state :
  dl_status demo_delivery = PENDING /\ dl_attempt_count demo_delivery = 0 /\
  subscriber demo_db demo_delivery = Some demo_subscription.
Proof. split; [|split]; vm_compute; reflexivity. Qed.

Lemma dispatch_one_delivery_correct_witness :
  due_row demo_db demo_delivery 2000 /\
  alone (dispatch_one_delivery demo_delivery demo_subscription 8) (init_sess demo_db) (fun s' r =>
    exists rq answer, s_sent s' = [] ++ [(rq, answer)] /\ signed_request demo_delivery demo_subscription rq /\
      attempted 8 demo_delivery 2000 (init_sess demo_db) s' answer r /\
      (r = Ok tt -> exists d', due_row (s_db s') d' 2000 /\ dl_id d' = dl_id demo_delivery /\
         remaining 8 d' < remaining 8 demo_delivery)).
Proof.
  destruct demo_delivery_state as (Hst & Hn & _).
  assert (Hb : 0 <= dl_attempt_count demo_delivery < 1024) by (rewrite Hn; split; [discriminate|reflexivity]).
  assert (Hmax : dl_attempt_count demo_delivery < 8) by (rewrite Hn; reflexivity).
  split; [exact demo_due_row|].
  exact (dispatch_one_delivery_correct demo_delivery 2000 demo_subscription 8 (init_sess demo_db)
    demo_due_row Hst Hb Hmax).
Defined.


(** * Refused and failing requests *)

Lemma acceptable_demo c : c <> 21%N -> acceptable 21%N c (of_cents 100) "SGD" None.
Proof. intros Hc. split; [by exists 100|congruence|reflexivity|reflexivity]. Qed.

(** A thousandth of a dollar, between two existing accounts. *)
Definition crumb : InitiatePaymentRequest :=
  {| ipr_debtor_account_id := 21%N; ipr_creditor_account_id := 22%N; ipr_amount := Fin false 1 (-3);
     ipr_currency := "SGD"; ipr_end_to_end_id := None |}.

Lemma failed_request_orphans_its_key_witness :
  is_Some (accounts demo_db !! 22%N) /\
  alone (create_payment crumb "key-9") (init_sess demo_db) (fun s' r =>
    r = Ok (HTTPException 404 (says "debtor or creditor account does not exist")) /\
    in_progress (s_db s') "key-9" /\ payments (s_db s') = payments demo_db).
Proof.
  assert (Hkey : idempotency_keys demo_db !! (endpoint, "key-9"%string) = None) by (vm_compute; reflexivity).
  split; [exists bob; vm_compute; reflexivity|].
  refine (proj1 (failed_request_orphans_its_key "key-9" crumb "ck_payments_amount_positive"
    (init_sess demo_db) _ _ eq_refl digest_varchar Hkey)).
  - split; [reflexivity|]. split; [reflexivity|]. exists alice. split; [apply demo_accounts|reflexivity].
  - apply doomed_amount; [exists 1%N, (-3); by split_and!|discriminate|reflexivity|reflexivity].
Defined.

Lemma transition_requests_refused_witness :
  alone (settle 99%N) (init_sess demo_db) (refused 404 (says "payment not found") (init_sess demo_db)) /\
  alone (settle 48%N) (init_sess demo_db) 
    (refused 409 (says "illegal payment transition: initiated -> settled") (init_sess demo_db)).
Proof.
  assert (H99 : payments demo_db !! 99%N = None) by (vm_compute; reflexivity).
  split.
  - exact (proj1 (transition_requests_refused 99%N None SETTLED _ (init_sess demo_db) eq_refl) H99).
  - exact (proj2 (transition_requests_refused 48%N None SETTLED _ (init_sess demo_db) eq_refl)
      initiated_payment (proj1 (proj2 demo_payments)) ltac:(discriminate)).
Defined.

(** * Requests that create payments *)

Lemma payable_demo e2e :
  varchar_opt 35 e2e = true -> payable demo_db 21%N 22%N (of_cents 100) "SGD" e2e.
Proof.
  intros He2e. split; [|exists alice; split; [apply demo_accounts|reflexivity]| |].
  - split; [by exists 100|discriminate|reflexivity|exact He2e].
  - exists bob. vm_compute. reflexivity.
  - exact (inv_subscription _ demo_Inv).
Qed.

(** The body of a request for one dollar, the same with its items in another order, and one
    for a hundred dollars. *)
Definition dollar_body : pyitems :=
  [("debtor_account_id", VStr (uuid_str 21)); ("amount", VStr "1.00"); ("currency", VStr "SGD")]%string.
Definition dollar_reordered : pyitems :=
  [("amount", VStr "1.00"); ("currency", VStr "SGD"); ("debtor_account_id", VStr (uuid_str 21))]%string.
Definition hundred_body : pyitems :=
  [("debtor_account_id", VStr (uuid_str 21)); ("amount", VStr "100.00"); ("currency", VStr "SGD")]%string.

Lemma bodies_NoDup : NoDup dollar_body.*1 /\ NoDup dollar_reordered.*1 /\ NoDup hundred_body.*1.
Proof. split_and!; (eapply bool_decide_unpack; vm_compute; exact I). Qed.
Lemma bodies_same : same_json (object dollar_body) (object dollar_reordered).
Proof. unfold same_json. vm_compute. reflexivity. Qed.
Lemma bodies_differ : ~ same_json (object dollar_body) (object hundred_body).
Proof.
  unfold same_json. intros Heq%(f_equal (.!! "amount"%string)). rewrite !json_serializer_lookup in Heq.
  vm_compute in Heq. discriminate Heq.
Qed.
Lemma bodies_no_collision : no_collision (object dollar_body) (object hundred_body).
Proof.
  apply no_collision_intro; [apply bodies_NoDup..|]. intros Heq. vm_compute in Heq. discriminate Heq.
Qed.

Lemma request_hash_identifies_body_witness :
  hash_request_body dollar_body = hash_request_body dollar_reordered /\
  (hash_request_body dollar_body = hash_request_body hundred_body ->
   same_json (object dollar_body) (object hundred_body)).
Proof.
  destruct bodies_NoDup as (H1 & H2 & H3). split.
  - exact (proj1 (request_hash_identifies_body dollar_body dollar_reordered H1 H2) bodies_same).
  - exact (proj2 (request_hash_identifies_body dollar_body hundred_body H1 H3) bodies_no_collision).
Defined.

(** The state after the first request with a new key, run on its own. *)
Definition after_first : Sess :=
  (exec (initiate_payment_idempotent "key-9" dollar_body 21%N 22%N (of_cents 100) "SGD" None) (init_sess demo_db)
     {| o_env := []; o_uuids := [81; 82; 83; 84]%N; o_clock := [3000; 3001]; o_net := [] |}).1.
Definition first_payment : Payment := payment_row 82%N 21%N 22%N (of_cents 100) "SGD" None.
Definition first_key : IdempotencyKeyModel :=
  complete_row (claimed_row 81%N (hash_request_body dollar_body)) 201 (_payment_response_dict first_payment).

Lemma first_key_completed :
  idempotency_keys (s_db after_first) !! (endpoint, "key-9"%string) = Some first_key /\
  completed_key (hash_request_body dollar_body) first_payment first_key.
Proof. split; [vm_compute; reflexivity|]. by split_and!. Qed.

Lemma after_first_debtor : exists a, accounts (s_db after_first) !! 21%N = Some a /\ acc_currency a = "SGD"%string.
Proof. exists alice. split; [vm_compute; reflexivity|reflexivity]. Qed.

Lemma demo_sha b : varchar 64 (sha256_hex b) = true.
Proof. exact (digest_varchar b). Qed.

Lemma idempotent_request_replays_witness :
  alone (initiate_payment_idempotent "key-9" dollar_body 21%N 22%N (of_cents 100) "SGD" None) (init_sess demo_db)
    (created_under_key "key-9" (hash_request_body dollar_body) 21%N 22%N (of_cents 100) "SGD" None
      (init_sess demo_db)) /\
  alone (initiate_payment_idempotent "key-9" hundred_body 21%N 22%N (of_cents 10000) "SGD" None) after_first
    (fun s' r => s_db s' = s_db after_first /\ s_commits s' = s_commits after_first /\
      r = Err (IdempotencyKeyReusedError "key-9" endpoint)).
Proof.
  assert (Hkey : idempotency_keys demo_db !! (endpoint, "key-9"%string) = None) by (vm_compute; reflexivity).
  destruct bodies_NoDup as (Hfirst & _ & Hother). destruct first_key_completed as [Hrow Hdone].
  destruct (idempotent_request_replays "key-9" dollar_body 21%N 22%N (of_cents 100) "SGD" None
    (init_sess demo_db) (payable_demo None eq_refl) eq_refl demo_sha Hfirst Hkey) as [Hnew Hlater].
  split; [exact Hnew|].
  refine (run_mono _ _ _ _ _ _ (Hlater after_first first_payment first_key hundred_body 21%N 22%N (of_cents 10000)
    "SGD"%string None Hrow Hdone Hother eq_refl after_first_debtor) _).
  intros s' r (Hdb & Hcommits & _ & Hreused). exact (conj Hdb (conj Hcommits (Hreused bodies_differ bodies_no_collision))).
Defined.

(** * ISO 20022 *)

Definition demo_transfer : Pain001CreditTransfer :=
  {| pct_message_id := "MSG-1"; pct_end_to_end_id := "E2E-1"; pct_debtor_account_number := "ACC-1";
     pct_creditor_account_number := "ACC-2"; pct_amount := of_cents 100; pct_currency := "SGD" |}.
Definition demo_message : list N -> option Element :=
  fun _ => Some (message [instruction_node "ACC-1" [transaction_node (Some "E2E-1"%string) "ACC-2" "1.00" "SGD"]]).


(** The pool of the default settings has forty connections. *)
Definition demo_engine : Engine := (get_engine default_settings at_start).1.

Lemma ingestion_exhausts_the_pool_witness :
  capacity demo_engine = Some 40%nat /\
  exists l, length l = 40%nat /\
    rtc (pooled_step 40 None) ((demo_db, []), []) ((demo_db, l), replicate 40 waiting) /\
    forall p, rtc (patient_step 40 40) ((demo_db, l), replicate 40 waiting) p ->
      (exists more idle, p.1.2 = l ++ more /\ p.2 = replicate 40 waiting ++ idle /\
         Forall (fun open => connections open = 0%nat) idle) /\
      forall i, (i < 40)%nat -> exists p1 p2,
        pooled_step 40 (Some i) p p1 /\ rtc (pooled_step 40 None) p1 p2 /\ ended_with TimeoutError i p2.
Proof.
  assert (Hcap : capacity demo_engine = Some 40%nat) by (vm_compute; reflexivity).
  split; [exact Hcap|].
  assert (Ha : known demo_db "ACC-1" alice) by (split; [apply demo_accounts|reflexivity]).
  assert (Hb : known demo_db "ACC-2" bob) by (split; [vm_compute|]; reflexivity).
  refine (ingestion_exhausts_the_pool demo_engine 40 demo_db demo_message [60]%N Hcap demo_Inv _).
  exists demo_transfer, alice, bob. split; [vm_compute; reflexivity|].
  split; [exact Ha|]. split; [exact Hb|]. vm_compute. reflexivity.
Defined.

Lemma emit_pacs008_correct_witness :
  payments demo_db !! 44%N = Some settled_payment /\
  alone (emit_pacs008 (fun _ => true) (fun _ => [60]%N) 44%N) (init_sess demo_db)
    (emitted (fun _ => true) (fun _ => [60]%N) 44%N (init_sess demo_db)).
Proof.
  split; [exact (proj2 (proj2 demo_payments))|].
  exact (emit_pacs008_correct (fun _ => true) (fun _ => [60]%N) 44%N (init_sess demo_db) demo_sess_Inv).
Defined.

(** * The FX revision *)

Lemma before_fx_empty : before_fx empty_db.
Proof. split; [split; [constructor|apply map_Forall_empty]|apply map_Forall_empty..|reflexivity]. Qed.

(** The settled conversion of the scenario. *)
Lemma demo_converted :
  (p ← payments demo_db !! 44%N; Some (pay_status p, bool_decide (is_Some (pay_creditor_amount p)))) = Some (SETTLED, true).
Proof. vm_compute. reflexivity. Qed.

Lemma fx_migration_rows_witness :
  downgrade_rows demo_seed = Ok empty_db /\
  exists constraint, downgrade_rows demo_db = Err (IntegrityError constraint).
Proof.
  assert (Hids : NoDup [11; 12; 13; 14; 15; 16]%N) by (apply (bool_decide_eq_true_1 _); vm_compute; reflexivity).
  pose proof (fx_migration_rows 1%N [11; 12; 13; 14; 15; 16]%N 1000 empty_db before_fx_empty eq_refl Hids)
    as ((db' & Hup & _ & _ & _ & _ & Hdown) & _ & Hrefused).
  split.
  - rewrite upgrade_empty in Hup by exact Hids. injection Hup as <-. exact Hdown.
  - pose proof demo_converted as Hp. destruct (payments demo_db !! 44%N) as [p|] eqn:H44; [|discriminate Hp].
    injection Hp as Hst Hd. destruct (pay_creditor_amount p) as [d|] eqn:Hc; [|discriminate Hd].
    exact (Hrefused demo_db 44%N p d demo_Inv H44 Hst Hc).
Defined.

(** * A reconciliation run *)

(** The file of a counterparty that saw the conversion settle, and one payment nobody made. *)
Definition demo_file : list SettlementRecord :=
  [{| sr_external_ref := uuid_str 44; sr_amount := of_cents 10000; sr_currency := "SGD";
      sr_settled_at := {| dt_wall := 2000; dt_offset := Some 0 |}; sr_raw_line := "line 2" |};
   {| sr_external_ref := "E2E-9"; sr_amount := of_cents 100; sr_currency := "SGD";
      sr_settled_at := {| dt_wall := 2000; dt_offset := Some 0 |}; sr_raw_line := "line 3" |}].

Lemma demo_reconcilable : reconcilable demo_db demo_file.
Proof.
  split.
  - repeat (apply Forall_cons; split; [split; [vm_compute; reflexivity|vm_compute; by split|vm_compute; reflexivity..]|]).
    by apply Forall_nil.
  - eapply bool_decide_unpack. vm_compute. exact I.
  - vm_compute. discriminate.
Qed.

Lemma run_reconciliation_correct_witness :
  alone (run_reconciliation 91%N demo_file 0 5000) (init_sess demo_db) (fun s' r =>
    reconciled 91%N demo_file 0 5000 (init_sess demo_db) s' r /\
    recorded 91%N demo_file 0 5000 (init_sess demo_db) s' r).
Proof.
  refine (run_mono _ _ _ _ _ _
    (run_reconciliation_correct 91%N demo_file 0 5000 (init_sess demo_db) demo_sess_Inv) _).
  intros s' r [Hr Hrec]. exact (conj Hr (Hrec demo_reconcilable)).
Defined.
