(* ===== verification/Deadlock.v ===== *)
(** Deadlock: two settlements in opposite directions can wait for each other.

    A settlement bumps the versions of its accounts in the iteration order of a frozenset
    (payments/services.py).  Where the hashes of two account identifiers collide in the low
    three bits, CPython iterates them in the order of insertion, which is debtor first; so a
    payment from A to B and one from B to A lock the two rows in opposite orders. *)
From S2P Require Import Prelude Decimals PyText PyVal Ledger Fx PaymentSM Recon Sgqr Webhooks.
From S2P Require Import Store Session Repos SupportRepos LedgerService PaymentService Backoff.
From S2P Require Import Dispatch ReconService Responses Api Invariant Operations System Scheduler.
From S2P Require Import Seed Concrete Demo.

#[local] Open Scope Z_scope.

(** * The scenario *)

Definition customer (number : string) : CreateAccountRequest :=
  {| car_account_number := number; car_owner_name := "Alice"; car_account_type := "customer";
     car_currency := "SGD" |}.
Definition ten_dollars (debtor creditor : UUID) : InitiatePaymentRequest :=
  {| ipr_debtor_account_id := debtor; ipr_creditor_account_id := creditor;
     ipr_amount := of_cents 1000; ipr_currency := "SGD"; ipr_end_to_end_id := None |}.

(** Two accounts whose identifiers collide, and an authorised payment each way. *)
Definition crossing_ops : list (Operation * World) :=
  [(PostAccount (customer "ACC-A"), world [24%N]);
   (PostAccount (customer "ACC-B"), world [32%N]);
   (PostPayment (ten_dollars 24%N 32%N) "key-1", world [41; 42]%N);
   (PostPayment (ten_dollars 32%N 24%N) "key-2", world [43; 44]%N);
   (Authorise 42%N, world []);
   (Authorise 44%N, world [])].

(** Both settlements run up to the second account each of them has to bump. *)
Definition crossing_moves : list Move :=
  [Start (Settle 42%N); Start (Settle 44%N)] ++
  replicate 9 (Step 6 61%N) ++ replicate 9 (Step 7 62%N).

(** PostgreSQL fails the second one's statement: it rolls back, and the first goes on. *)
Definition breaking_moves : list Move :=
  Fault 7 :: replicate 2 (Step 7 0%N) ++ replicate 6 (Step 6 0%N).

Definition crossing_start : option Pool := day demo_seed [] crossing_ops.
Definition crossed : option Pool :=
  match crossing_start with Some p => play_all crossing_moves p | None => None end.
Definition broken : option Pool :=
  match crossed with Some p => play_all breaking_moves p | None => None end.

Definition thread_of (p : Pool) (i : nat) : option Thread := p.2 !! i.
Definition ended (th : option Thread) : option (result Exn Reply * list (list Write)) :=
  match th with
  | Some (Ret a, s) => Some (Ok a, s_commits s)
  | Some (Raise e, s) => Some (Err e, s_commits s)
  | _ => None
  end.
Definition statuses (p : Pool) : option PaymentStatus * option PaymentStatus :=
  (pay_status <$> payments p.1 !! 42%N, pay_status <$> payments p.1 !! 44%N).

(** What the scenario computes to. *)
Definition order_collides : Prop :=
  set_iter [24; 32]%N = [24; 32]%N /\ set_iter [32; 24]%N = [32; 24]%N.
Definition start_ok (p : Pool) : bool :=
  bool_decide (statuses p = (Some AUTHORISED, Some AUTHORISED)).
Definition crossed_ok (p : Pool) : bool := waits_b p 6 7 && waits_b p 7 6.
Definition broken_ok (p : Pool) : bool :=
  bool_decide (statuses p = (Some SETTLED, Some AUTHORISED)) &&
  match ended (thread_of p 7) with Some (Err DBAPIError, []) => true | _ => false end &&
  match ended (thread_of p 6) with Some (Ok Done, [_]) => true | _ => false end.

Definition holds (ok : Pool -> bool) (o : option Pool) : bool :=
  match o with Some p => ok p | None => false end.

Lemma crossing_computes :
  holds start_ok crossing_start && holds crossed_ok crossed && holds broken_ok broken = true.
Proof. vm_compute. reflexivity. Qed.

Lemma holds_some ok o : holds ok o = true -> exists p, o = Some p /\ ok p = true.
Proof. destruct o as [p|]; [by exists p|done]. Qed.

(** The pools of the scenario, each reached from the one before. *)
Lemma crossing_pools : exists p0 p p1,
  (reachable demo_seed p0 /\ start_ok p0 = true) /\
  (play_all crossing_moves p0 = Some p /\ crossed_ok p = true) /\
  (play_all breaking_moves p = Some p1 /\ broken_ok p1 = true).
Proof.
  pose proof crossing_computes as Hc. apply andb_prop in Hc as [Hc H1]. apply andb_prop in Hc as [H0 Hc].
  apply holds_some in H0 as (p0 & Hp0 & H0). apply holds_some in Hc as (p & Hp & Hc).
  apply holds_some in H1 as (p1 & Hp1 & H1).
  unfold broken in Hp1. rewrite Hp in Hp1. unfold crossed in Hp. rewrite Hp0 in Hp.
  exists p0, p, p1. split; [split; [exact (day_reachable _ _ _ Hp0)|exact H0]|].
  split; split; assumption.
Qed.

(** * Properties *)

(** Nobody can let [i] and [j] go on but the database, by failing a statement. *)
Definition deadlocked (p : Pool) (i j : nat) : Prop :=
  waits_for p i j /\ waits_for p j i /\
  forall p', pool_step p p' ->
    (p'.2 !! i = p.2 !! i \/ failed_in p p' i) /\ (p'.2 !! j = p.2 !! j \/ failed_in p p' j).

(** The request has ended with an exception and committed nothing. *)
Definition failed_with (p : Pool) (i : nat) (e : Exn) : Prop :=
  ended (thread_of p i) = Some (Err e, []).

(** C21. Settlements can deadlock.  From a state the service reaches, where two accounts'
    identifiers collide in CPython's sets and a payment each way between them is authorised,
    two concurrent settlements reach a state in which each waits for a row the other has
    written: neither moves again unless the database fails its statement.  When it fails
    one, that request ends with the database's exception, which no handler translates, and
    without a commit, its payment left authorised, while the other one settles. *)
Theorem settlements_can_deadlock : exists p0 p p1,
  reachable demo_seed p0 /\ order_collides /\
  statuses p0 = (Some AUTHORISED, Some AUTHORISED) /\
  (exists moves, play_all (Start (Settle 42%N) :: Start (Settle 44%N) :: moves) p0 = Some p) /\
  reachable demo_seed p /\ deadlocked p 6 7 /\
  rtc pool_step p p1 /\ failed_with p1 7 DBAPIError /\
  statuses p1 = (Some SETTLED, Some AUTHORISED).
Proof.
  destruct crossing_pools as (p0 & p & p1 & [Hr0 H0] & [Hp Hc] & [Hp1 H1]).
  exists p0, p, p1. apply bool_decide_eq_true in H0.
  apply andb_prop in Hc as [H67%waits_b_ok H76%waits_b_ok].
  apply andb_prop in H1 as [H1 _]. apply andb_prop in H1 as [Hs1 H7]. apply bool_decide_eq_true in Hs1.
  split; [exact Hr0|]. split; [by split|]. split; [exact H0|]. split; [eexists; exact Hp|].
  split; [exact (reachable_steps _ _ _ Hr0 (play_all_steps _ _ _ Hp))|].
  split; [split; [done|split; [done|]]; intros p' Hstep; split; [eapply (waiting_only_fails _ _ 6 7)|eapply (waiting_only_fails _ _ 7 6)]; eassumption|].
  split; [exact (play_all_steps _ _ _ Hp1)|]. split; [|exact Hs1]. clear -H7.
  unfold failed_with. destruct (ended _) as [[[a|e] cs]|]; try done. by destruct e, cs.
Qed.
