(* ===== verification/DemoScripts.v ===== *)
(** DemoScripts: a run of the idempotency proof with three interleaved requests.  The second
    arrives while the first is between its two commits, the third after both. *)
From S2P Require Import Prelude Decimals PyText PyVal Ledger Fx PaymentSM Recon Sgqr Webhooks.
From S2P Require Import Store Session Repos SupportRepos LedgerService PaymentService Backoff.
From S2P Require Import Dispatch ReconService Messages Responses Api Invariant Operations System Scripts.
From S2P Require Import Scheduler Seed Concrete Demo.

#[local] Open Scope Z_scope.

Definition script_accounts : list (Operation * World) :=
  zip (account_requests "1f2e3d4c") [world [24%N]; world [25%N]].

(** [n] steps of thread [i], answered with consecutive numbers. *)
Definition steps (i : nat) (base : N) (n : nat) : list Move :=
  (fun k => Step i (base + N.of_nat k)) <$> seq 0 n.

Definition script_moves : list Move :=
  (Start <$> payment_requests 24%N 25%N "key-9" 3) ++
  steps 2 100%N 8 ++ steps 3 200%N 7 ++ steps 2 108%N 8 ++ steps 4 300%N 7.

Definition script_end : option Pool :=
  match day demo_seed [] script_accounts with
  | Some p => play_all script_moves p
  | None => None
  end.

Definition script_codes (p : Pool) : list Z :=
  (fun r => match r with Response c _ => c | HTTPException c _ => c end) <$> responses "key-9" p.2.

Lemma script_computes :
  (if script_end is Some p then bool_decide (script_codes p = [201; 409; 201]) else false) = true.
Proof. vm_compute. reflexivity. Qed.

Lemma script_runs : exists p, reachable demo_seed p /\ script_codes p = [201; 409; 201].
Proof.
  pose proof script_computes as Hc. unfold script_end in Hc.
  destruct (day demo_seed [] script_accounts) as [p0|] eqn:H0; [|done].
  destruct (play_all script_moves p0) as [p|] eqn:Hp; [|done]. exists p.
  split; [|by apply bool_decide_eq_true in Hc].
  exact (reachable_steps _ _ _ (day_reachable _ _ _ H0) (play_all_steps _ _ _ Hp)).
Qed.

Lemma proof_script_passes_witness : exists db threads,
  reachable demo_seed (db, threads) /\ script_codes (db, threads) = [201; 409; 201] /\
  ((proof_verdict 3 (responses "key-9" threads)).2 = 0 <->
   exists r, r ∈ responses "key-9" threads /\ is_201 r = true).
Proof.
  destruct script_runs as ([db threads] & Hr & Hc). exists db, threads.
  split; [exact Hr|]. split; [exact Hc|].
  exact (proj2 (proj2 (proof_script_passes demo_seed db threads "key-9" 3 demo_seed_Inv Hr))).
Defined.
