(* ===== verification/DemoWebhooks.v ===== *)
(** DemoWebhooks: fifty deliveries of a deactivated subscription ahead of one of an active
    subscription. *)
From S2P Require Import Prelude Decimals PyText PyVal Ledger Fx PaymentSM Recon Webhooks.
From S2P Require Import Store Session Repos SupportRepos LedgerService PaymentService Backoff.
From S2P Require Import Dispatch Alone Delivery Starvation Outbox Concrete.

#[local] Open Scope Z_scope.

Definition subscription (id : UUID) (active : bool) : WebhookSubscription :=
  {| sub_id := id; sub_url := "https://example.test/hook"; sub_secret := "secret-key";
     sub_event_types := []; sub_active := active |}.

Definition pending_delivery (id subscription_id : UUID) (due : Z) : WebhookDelivery :=
  {| dl_id := id; dl_subscription_id := subscription_id; dl_payment_id := None;
     dl_event_type := "payment.settled"; dl_payload := ∅; dl_status := PENDING;
     dl_attempt_count := 0; dl_next_attempt_at := due; dl_last_error := None |}.

Definition stuck_deliveries : list WebhookDelivery :=
  (fun i => pending_delivery (100 + N.of_nat i) 1%N 0) <$> seq 0 50.

Definition waiting_delivery : WebhookDelivery := pending_delivery 200%N 2%N 1.

Definition queue_db : DB :=
  {| accounts := ∅; journal_entries := ∅; journal_lines := []; payments := ∅;
     payment_status_history := []; idempotency_keys := ∅;
     webhook_subscriptions := {[ 1%N := subscription 1%N false; 2%N := subscription 2%N true ]};
     webhook_deliveries :=
       list_to_map ((fun d => (dl_id d, {| wdm_delivery := d; wdm_created_at := 0 |})) <$>
         waiting_delivery :: stuck_deliveries);
     settlement_file_records := []; reconciliation_runs := ∅; reconciliation_breaks := [];
     fx_rates := [] |}.

Lemma queue_subscriptions i x : webhook_subscriptions queue_db !! i = Some x -> sub_id x = i.
Proof.
  unfold queue_db. cbn [webhook_subscriptions].
  intros [[<- <-]|[_ Hx]]%lookup_insert_Some; [done|].
  by apply lookup_singleton_Some in Hx as [<- <-].
Qed.

Lemma queue_starved : starved queue_db 50 stuck_deliveries.
Proof.
  split; [reflexivity|..]; apply (bool_decide_eq_true_1 _); vm_compute; reflexivity.
Qed.

Lemma inactive_deliveries_starve_witness :
  starved queue_db 50 stuck_deliveries /\
  waiting_delivery ∈ pending_rows queue_db /\ is_Some (subscriber queue_db waiting_delivery) /\
  alone (for_ (replicate 1000 tt) (fun _ => _dispatch_webhooks_job 8)) (init_sess queue_db)
    (fun s' r => r = Ok tt /\ same_but_now (init_sess queue_db) s').
Proof.
  split; [exact queue_starved|]. split; [apply (bool_decide_eq_true_1 _); vm_compute; reflexivity|].
  split; [vm_compute; eexists; reflexivity|].
  exact (inactive_deliveries_starve 8 stuck_deliveries 1000 (init_sess queue_db) queue_subscriptions
    queue_starved).
Defined.

Lemma outbox_is_bounded_witness :
  outbox_ok 8 queue_db /\
  alone (for_ (replicate 1000 tt) (fun _ => _dispatch_webhooks_job 8)) (init_sess queue_db) (fun s' r =>
    r = Ok tt /\ outbox_ok 8 (s_db s') /\
    exists sends, s_sent s' = [] ++ sends.*2 /\ Forall (sent_for queue_db) sends /\
      forall i, tries i sends <= left_for 8 queue_db i - left_for 8 (s_db s') i /\
        tries i sends <= left_for 8 queue_db i <= 8).
Proof.
  assert (Hok : outbox_ok 8 queue_db) by
    (unfold outbox_ok, row_ok; apply (bool_decide_eq_true_1 _); vm_compute; reflexivity).
  split; [exact Hok|].
  apply (outbox_is_bounded 8 1000 (init_sess queue_db)); [split; discriminate|exact queue_subscriptions|exact Hok].
Defined.
